(* ===== verification/_CoqProject ===== *)
-Q . S2P
Prelude.v
Fifo.v
Mem.v
Desc.v
Netq.v
Ring.v
Tx.v
Rx.v
Llq.v
Xmit.v
Recv.v
Adapter.v
Admin.v
Session.v
Exec.v
Device.v
Control.v
Queue.v
Init.v
Rss.v
Recover.v
Netconf.v
Plat.v
Intr.v
Netdev.v
Poll.v
Pci.v
Diag.v
Sample.v
Http.v
