(* ===== verification/Prelude.v ===== *)
(** * Verification of lib-ena, the Unikraft driver of the AWS ENA adapter

    lib-ena drives the Elastic Network Adapter of AWS from a Unikraft unikernel.
    This library models the driver as pure functions over explicit state, file by
    file as in src/, and proves it correct against every behaviour of the device.

    ** The program and its model

    - The data path (include/ena_datapath.h, src/ena_datapath.c, ena_tx.c, ena_rx.c,
      ena_llq.c): a ring is a submission queue, a completion queue, a pool of request
      ids and a slot per request.  [Desc] has the descriptor words, [Ring] the ring
      ([ena_ring_alloc], [ena_ring_free], [ena_ring_req_id_alloc], [ena_ring_req_id_free],
      [ena_ring_reset_sw_state]), [Tx] and [Rx] every function of ena_tx.c and ena_rx.c,
      [Llq] the push of a packet into device memory.  [Netq] has the bounce-buffer pools
      and the callbacks of src/ena_netdev.c that the rings call.
    - The control plane (src/ena_admin.c, ena_com.c): [Adapter] has [struct ena_adapter],
      the registers, the memory shared with the device and the state monad of the driver;
      [Admin] the admin queues ([ena_admin_init], [ena_admin_exec_cmd],
      [ena_admin_aenq_poll], [ena_aenq_default_handler]) and the reset handshake;
      [Control] their theorems against any device; [Session] their theorem against a
      device that answers.
    - The commands on top: [Queue] creates and destroys the IO queues
      ([ena_ring_create_hw]); [Init] is src/ena_init.c, the statistics queries of
      ena_admin.c and the LLQ negotiation; [Rss] is src/ena_rss.c; [Recover] is
      [ena_adapter_reset_and_recover] with everything it rebuilds.
    - Interrupts and polling: [Plat] is the MSI-X part of src/ena_plat.c (the capability
      walk, [ena_plat_msix_arm], [ena_plat_msix_disarm]); [Intr] the vector table of
      src/ena_intr.c, its set-up and the interrupt callback; [Poll] the sweep over all
      rings, [ena_poll_step].
    - The network device (src/ena_netdev.c): [Xmit] sends a netbuf ([ena_netdev_tx_one]),
      [Recv] receives a frame ([ena_netdev_rx_one] on its ring), [Netconf] configures the
      device and its queues, [Netdev] starts, stops and tears it down, [Diag] reads its
      counters and ring states.
    - [Pci] is src/ena_pci.c: it measures and maps the BARs and composes scaffold, admin
      queues, bring-up and interrupts into [ena_pci_add_dev], and the tear-down into
      [ena_pci_remove_dev].
    - samples/httpreply-mc: [Sample] has the descriptor ring between two threads and the idle
      policy, [Http] the worker loop of the web server and its log ring.

    [Prelude], [Fifo] and [Mem] are shared: outcomes and their program logic, C integers,
    arrays, byte strings; the ring buffer of ids; the heap.

    ** Conventions

    - A C function returns a value of [res]: a result, [Fault] (an access through NULL or
      out of range) or [Hang] (a lock the caller already holds, or a loop that outlives the
      fuel).  [wp m Q] says that [m] returns and its result satisfies [Q], so every theorem
      stated with [wp] or [wpm] includes memory safety and termination.
    - Integers are in [Z], with the width of the C type written where a value can wrap.
      Arrays are [arr A], an optional list: [None] is NULL.  The heap is a set of live
      block addresses and an oracle that says which allocations fail; releasing a block
      that is not live is a [Fault].
    - The device is not code of the repository.  On the data path it is a view, a function
      from the moment of a read to the contents of the completion queue, so that it may
      change an entry between any two reads.  In the control plane it is the class
      [EnaDevice]: between any two steps of the driver it may change its registers and the
      shared memory.  Only [Session] assumes more ([ResponsiveDevice]: it answers every
      command in order), and [Device] is a concrete device that satisfies it, used by the
      examples.
    - Commands go through the class [AdminExec]; [AdminExecOk] states what its clients rely
      on.  Two instances discharge it: the admin queues against an answering device, and the
      admin queues inside a recovery against any device.  The theorems of [Queue], [Init] and
      [Rss] are proved once, against the class, for a budget [k] of commands.
    - Other code outside the repository is a class as well, with its documented behaviour as
      a second class: the firmware's queues ([QueueFirmware]), configuration space and
      interrupt controller ([PciConfig], [PciBars], [IntCtlr]), address space and network
      core of the kernel ([KernelServices]), the sockets ([Sockets]).  Each has an instance
      that the examples run.

    ** What the theorems show

    - Conservation: a netbuf accepted by a ring is freed once or still held, over any
      interleaving of submissions, polls and resets ([tx_run_conserves]); a receive poll
      hands over or frees each netbuf it takes once, within its buffer ([rx_poll_safe]).
    - The request id pool refines a queue of distinct ids ([pool_refines_queue]); the admin
      queues refine a call to the firmware ([admin_session_correct]).
    - Safety against any device for every loop that reads what a device wrote, and
      termination of the polls, within one lap when the queue is stable.
    - Every branch of allocation, bring-up, queue creation and RSS: what an error leaves
      behind, and that no block is lost or freed twice.
    - Recovery against any device ends, with every lock free, every netbuf released once and
      the rings live again when it returns 0 ([recovery_correct]).
    - Sending and receiving a netbuf through the bounce buffers, against any completions: no
      access out of bounds, no slot lost, fragments in order ([tx_one_correct],
      [rx_one_correct]); the same for a sweep over all rings ([poll_step_correct]).
    - Life cycle: queue set-up, start, interrupt set-up and probe either succeed or leave
      nothing behind ([q_configure_all_or_nothing], [start_rings_all_or_nothing],
      [intr_setup_all_or_nothing], [probe_all_or_nothing]); tear-down releases every block
      and interrupt ([teardown_releases_all]); probe and removal cancel out
      ([probe_remove_roundtrip]); MSI-X arming too ([msix_arm_disarm]).
    - The samples: the descriptor ring is a race-free queue under every interleaving
      ([spsc_fifo]); the web server sends one whole response per request, in order, whatever
      the sockets take ([http_streams]).
    - Encoding: the device decodes from descriptors and LLQ entries what the driver meant.
    - Bounds: queue limits, ring depths and RSS table sizes for every answer of the device.
    - Limits of the code are stated as lemmas at the end of [Tx], [Rx], [Llq], [Control],
      [Recover], [Recv], [Pci] and [Http].

    ** Fuel

    Loops over a table have the length of the table as their fuel.  A completion poll
    consumes at most one entry per unit; the theorems give the fuel that is enough, budget
    or queue depth plus one.  The poll loops of the control plane have the poll budget of
    the C code.  The recovery has two levels: a command inside it that times out meets
    [recover_active] set and returns.  The walk over PCI capabilities has no bound in the
    code; its theorem says when it ends.  A send loop of the web server has one unit per
    byte, its accept loop one per waiting connection, and one more.

    ** Not modelled

    - The Unikraft build with CONFIG_LIBENA_RSS is modelled; the host test build (mock hooks,
      the second set of operations in ena_netdev.c) is not.
    - Logging; a NULL argument where the model's argument is a struct.
    - [ena_plat_msix_diag] and the dump functions of src/ena_netdev.c, which read state for a
      log line.
    - The first two calls of [ena_netdev_rx_one], which drain the event queue and reap the
      transmit ring: both functions are modelled, their composition with the reception is not.
    - More than one adapter: a world has one, and [Pci] the registry of the others.
    - Memory ordering in the driver: the model is sequential per driver step; the device acts between
      steps.  Two cores meet on a ring only through the ring lock, one call at a time.
    - What the device writes into the RSS table on a read-back, which the driver only logs.
    - In samples/httpreply-mc the ARP exchange between cores, the start of the cores, the turn
      of the network stack and the reply with the log; the other samples and examples, which
      are socket applications that do not call the driver; tests/; the reference headers,
      which nothing includes. *)

From stdpp Require Import base tactics option list list_numbers numbers.
From Stdlib Require Import ZArith Lia.

#[global] Open Scope Z_scope.

(** ** Outcomes of C code

    A function of the driver either returns, or touches memory it must not
    touch (a NULL or out-of-range access), or never returns (it spins on a lock
    it already holds, or its loop outlives the fuel of the model). *)
Inductive res (A : Type) : Type :=
| Ret (a : A)
| Fault
| Hang.
Arguments Ret {A} a.
Arguments Fault {A}.
Arguments Hang {A}.

#[global] Instance res_ret : MRet res := fun A a => Ret a.
#[global] Instance res_bind : MBind res := fun A B f m =>
  match m with
  | Ret a => f a
  | Fault => Fault
  | Hang => Hang
  end.

(** [wp m Q]: [m] returns, and its result satisfies [Q].
    [wlp m Q]: [m] does not fault, and if it returns its result satisfies [Q]. *)
Definition wp {A} (m : res A) (Q : A -> Prop) : Prop :=
  match m with Ret a => Q a | _ => False end.
Definition wlp {A} (m : res A) (Q : A -> Prop) : Prop :=
  match m with Ret a => Q a | Fault => False | Hang => True end.

Section Wp.
Context {A B : Type}.
Implicit Types (m : res A) (Q : A -> Prop).

Lemma wp_ret (a : A) Q : Q a -> wp (mret a) Q.
Proof. done. Qed.
Lemma wp_bind m (f : A -> res B) (Q : B -> Prop) :
  wp m (fun a => wp (f a) Q) -> wp (m ≫= f) Q.
Proof. by destruct m. Qed.
Lemma wp_mono m Q Q' : wp m Q -> (forall a, Q a -> Q' a) -> wp m Q'.
Proof. destruct m; simpl; auto. Qed.
Lemma wlp_ret (a : A) Q : Q a -> wlp (mret a) Q.
Proof. done. Qed.
Lemma wlp_bind m (f : A -> res B) (Q : B -> Prop) :
  wlp m (fun a => wlp (f a) Q) -> wlp (m ≫= f) Q.
Proof. by destruct m. Qed.
Lemma wlp_mono m Q Q' : wlp m Q -> (forall a, Q a -> Q' a) -> wlp m Q'.
Proof. destruct m; simpl; auto. Qed.
Lemma wp_wlp m Q : wp m Q -> wlp m Q.
Proof. by destruct m. Qed.
Lemma wp_conj m Q Q' : wp m Q -> wp m Q' -> wp m (fun a => Q a /\ Q' a).
Proof. by destruct m. Qed.
Lemma wp_inv m Q : wp m Q -> exists a, m = Ret a /\ Q a.
Proof. destruct m; simpl; eauto; done. Qed.
Lemma wp_of_ret m Q a : m = Ret a -> Q a -> wp m Q.
Proof. by intros ->. Qed.
End Wp.

(** The goals that are closed without looking at the state. *)
Create HintDb ena.
#[export] Hint Resolve wp_ret : ena.

(** ** Fixed-width integers *)
Definition u8 (x : Z) : Z := x mod 2 ^ 8.
Definition u16 (x : Z) : Z := x mod 2 ^ 16.
Definition u32 (x : Z) : Z := x mod 2 ^ 32.
Definition u64 (x : Z) : Z := x mod 2 ^ 64.
Definition i16 (x : Z) : Z := if u16 x <? 2 ^ 15 then u16 x else u16 x - 2 ^ 16.
Definition i32 (x : Z) : Z := if u32 x <? 2 ^ 31 then u32 x else u32 x - 2 ^ 32.

(** C truth value of a comparison, and of an integer. *)
Definition b2z (b : bool) : Z := if b then 1 else 0.
Definition z2b (x : Z) : bool := negb (x =? 0).

(** errno values (positive); the driver returns their opposites. *)
Definition EIO : Z := 5.
Definition EAGAIN : Z := 11.
Definition ENOMEM : Z := 12.
Definition EBUSY : Z := 16.
Definition ENODEV : Z := 19.
Definition EINVAL : Z := 22.
Definition ENOSPC : Z := 28.
Definition ENOTSUP : Z := 95.
Definition EOPNOTSUPP : Z := 95.
Definition ETIMEDOUT : Z := 110.

Lemma u8_range x : 0 <= u8 x < 256.
Proof. unfold u8. apply Z.mod_pos_bound. lia. Qed.
Lemma u16_range x : 0 <= u16 x < 65536.
Proof. unfold u16. apply Z.mod_pos_bound. lia. Qed.
Lemma u32_range x : 0 <= u32 x < 4294967296.
Proof. unfold u32. apply Z.mod_pos_bound. lia. Qed.
Lemma u64_range x : 0 <= u64 x < 18446744073709551616.
Proof. unfold u64. apply Z.mod_pos_bound. lia. Qed.
Lemma u8_id x : 0 <= x < 256 -> u8 x = x.
Proof. intros. unfold u8. by rewrite Z.mod_small. Qed.
Lemma u16_id x : 0 <= x < 65536 -> u16 x = x.
Proof. intros. unfold u16. by rewrite Z.mod_small. Qed.
Lemma u32_id x : 0 <= x < 4294967296 -> u32 x = x.
Proof. intros. unfold u32. by rewrite Z.mod_small. Qed.
Lemma i16_id x : 0 <= x < 32768 -> i16 x = x.
Proof. intros. unfold i16. rewrite u16_id by lia. by destruct (Z.ltb_spec x (2 ^ 15)); [| lia]. Qed.
Lemma i32_id x : 0 <= x < 2147483648 -> i32 x = x.
Proof. intros. unfold i32. rewrite u32_id by lia. rewrite (proj2 (Z.ltb_lt _ _)) by (simpl; lia). done. Qed.
Lemma u64_id x : 0 <= x < 18446744073709551616 -> u64 x = x.
Proof. intros. unfold u64. by rewrite Z.mod_small. Qed.

(** ** Powers of two and masks *)
Definition pow2_depth (d : Z) : Prop := exists k, 2 <= k <= 15 /\ d = 2 ^ k.

Lemma land_pred_pow2 x k : 0 <= k -> Z.land x (2 ^ k - 1) = x mod 2 ^ k.
Proof.
  intros Hk. rewrite <- Z.land_ones by done. f_equal.
  rewrite Z.ones_equiv. lia.
Qed.

Lemma pow2_depth_cases d :
  pow2_depth d ->
  d = 4 \/ d = 8 \/ d = 16 \/ d = 32 \/ d = 64 \/ d = 128 \/ d = 256 \/ d = 512 \/ d = 1024
  \/ d = 2048 \/ d = 4096 \/ d = 8192 \/ d = 16384 \/ d = 32768.
Proof.
  intros (k & Hk & ->).
  assert (k = 2 \/ k = 3 \/ k = 4 \/ k = 5 \/ k = 6 \/ k = 7 \/ k = 8 \/ k = 9 \/ k = 10
          \/ k = 11 \/ k = 12 \/ k = 13 \/ k = 14 \/ k = 15) as Hc by lia.
  by repeat (destruct Hc as [-> | Hc]; [tauto |]); subst k; tauto.
Qed.

Lemma pow2_depth_bounds d : pow2_depth d -> 4 <= d <= 32768.
Proof. intros H%pow2_depth_cases. lia. Qed.

Lemma pow2_depth_land x d : pow2_depth d -> Z.land x (d - 1) = x mod d.
Proof. intros (k & Hk & ->). apply land_pred_pow2. lia. Qed.

(** ** Bit fields

    [or_if b m w] is the driver's [if (b) w |= m;].  [field w lo n] is the [n]-bit
    field of [w] at bit [lo]; the device reads a descriptor word with it. *)
Definition or_if (b : bool) (m w : Z) : Z := if b then Z.lor w m else w.
Definition field (w lo n : Z) : Z := Z.land (Z.shiftr w lo) (Z.ones n).

Lemma or_if_spec b m w n : Z.testbit (or_if b m w) n = Z.testbit w n || (b && Z.testbit m n).
Proof. destruct b; simpl; [apply Z.lor_spec | by rewrite orb_false_r]. Qed.

Lemma field_spec w lo n i : 0 <= i -> 0 <= n ->
  Z.testbit (field w lo n) i = Z.testbit w (i + lo) && (i <? n).
Proof.
  intros. unfold field. rewrite Z.land_spec, Z.shiftr_spec by done.
  by rewrite Z.testbit_ones_nonneg.
Qed.

Lemma field_bound w lo n : 0 <= n -> 0 <= field w lo n < 2 ^ n.
Proof.
  intros. unfold field. rewrite Z.land_ones by done. apply Z.mod_pos_bound. lia.
Qed.

Lemma testbit_above x k n : 0 <= x < 2 ^ k -> k <= n -> Z.testbit x n = false.
Proof.
  intros Hx Hn. destruct (decide (x = 0)) as [-> | Hx0]; [apply Z.bits_0 |].
  apply Z.bits_above_log2; [lia |].
  apply Z.lt_le_trans with k; [| done]. apply Z.log2_lt_pow2; lia.
Qed.

Lemma lor_shiftl a hi : 0 <= a < 2 ^ 32 -> Z.lor a (Z.shiftl hi 32) = a + hi * 2 ^ 32.
Proof.
  intros Ha. assert (Z.land a (Z.shiftl hi 32) = 0) as E0.
  { apply Z.bits_inj'. intros i Hi. rewrite Z.land_spec, Z.bits_0, Z.shiftl_spec by done. destruct (Z.lt_ge_cases i 32).
    - by rewrite (Z.testbit_neg_r hi), andb_false_r by lia.
    - by rewrite (testbit_above a 32). }
  rewrite <- Z.shiftl_mul_pow2, Z.add_nocarry_lxor, Z.lxor_lor by done. done.
Qed.

(** The value of a one-bit test [w & m], with [m] a power of two. *)
Definition bit_set (w m : Z) : bool := z2b (Z.land w m).

Lemma bit_set_pow2 w k : 0 <= k -> bit_set w (2 ^ k) = Z.testbit w k.
Proof.
  intros Hk. unfold bit_set, z2b. destruct (Z.eqb_spec (Z.land w (2 ^ k)) 0) as [E | E]; simpl.
  - assert (Z.testbit (Z.land w (2 ^ k)) k = false) as H by (rewrite E; apply Z.bits_0).
    rewrite Z.land_spec, Z.pow2_bits_true, andb_true_r in H by done. done.
  - destruct (Z.testbit w k) eqn:Ht; [done |]. destruct E. apply Z.bits_inj'. intros n Hn.
    rewrite Z.land_spec, Z.bits_0. destruct (decide (n = k)) as [-> | ?]; [by rewrite Ht |].
    rewrite Z.pow2_bits_false by done. by rewrite andb_false_r.
Qed.

(** A field equals a number in range when their bits agree. *)
Lemma field_ext w lo n x :
  0 <= n -> 0 <= x < 2 ^ n ->
  (forall i, 0 <= i < n -> Z.testbit w (i + lo) = Z.testbit x i) -> field w lo n = x.
Proof.
  intros Hn Hx Hb. apply Z.bits_inj'. intros i Hi. rewrite field_spec by done.
  destruct (Z.ltb_spec i n); [rewrite andb_true_r; apply Hb; lia |].
  rewrite andb_false_r. symmetry. by apply (testbit_above x n).
Qed.

(** [field_solve] proves [field w lo n = x] for a word [w] built with masks and
    shifts: it goes through the bits of the field one by one. *)
Ltac enum_bits i H :=
  match type of H with
  | 0 <= i < ?n =>
      let rec go k :=
        lazymatch eval cbv in (k <? n) with
        | true => destruct (Z.eq_dec i k) as [-> | ?]; [| go ltac:(eval cbv in (k + 1))]
        | false => exfalso; lia
        end in
      go 0
  end.
Ltac ground_z t := lazymatch eval vm_compute in t with
  | Z0 => idtac | Zpos _ => idtac | Zneg _ => idtac end.
Ltac bit_step :=
  match goal with
  | |- context [Z.testbit (Z.land _ _) _] => rewrite Z.land_spec
  | |- context [Z.testbit (Z.lor _ _) _] => rewrite Z.lor_spec
  | |- context [Z.testbit (or_if _ _ _) _] => rewrite or_if_spec
  | |- context [Z.testbit (Z.shiftl _ _) _] => rewrite Z.shiftl_spec by lia
  | |- context [Z.testbit (Z.shiftr _ _) _] => rewrite Z.shiftr_spec by lia
  | |- context [Z.testbit (_ mod 2 ^ _) _] => rewrite Z.mod_pow2_bits_low by lia
  end.
Ltac bit_ground :=
  repeat match goal with
  | |- context [Z.testbit ?c ?k] =>
      ground_z k;
      first
        [ ground_z c; let b := eval vm_compute in (Z.testbit c k) in change (Z.testbit c k) with b
        | let k' := eval vm_compute in k in
          lazymatch k' with
          | Zneg _ => change (Z.testbit c k) with (Z.testbit c k'); rewrite (Z.testbit_neg_r c k') by lia
          | k => fail
          | _ => progress change (Z.testbit c k) with (Z.testbit c k')
          end ]
  end.
Ltac field_solve :=
  apply field_ext; [lia | lia |];
  let i := fresh "i" in let H := fresh "Hi" in
  intros i H; enum_bits i H; repeat bit_step; bit_ground;
  rewrite ?andb_true_r, ?andb_false_r, ?orb_false_r, ?orb_true_r, ?orb_false_l, ?andb_true_l;
  try done.

(** ** Free-running ring indices and phase bits

    Every ring of the driver uses the same scheme: a free-running 16-bit index,
    masked with [depth - 1] to select a slot, and a phase bit that flips each
    time the masked index returns to slot 0. *)
Definition ring_advance (depth idx phase : Z) : Z * Z :=
  let idx' := u16 (idx + 1) in
  (idx', if Z.land idx' (depth - 1) =? 0 then Z.lxor phase 1 else phase).

(** The phase bit of index [idx]: 1 on even laps, 0 on odd ones. *)
Definition phase_of (depth idx : Z) : Z := 1 - (idx / depth) mod 2.

Definition index_ok (depth idx phase : Z) : Prop :=
  0 <= idx < 65536 /\ phase = phase_of depth idx.

Lemma ring_advance_ok depth idx phase :
  pow2_depth depth -> index_ok depth idx phase ->
  index_ok depth (ring_advance depth idx phase).1 (ring_advance depth idx phase).2.
Proof.
  intros Hd [Hi ->]. unfold ring_advance, index_ok, phase_of; simpl.
  rewrite pow2_depth_land by done. unfold u16. change (2 ^ 16) with 65536.
  assert (0 <= (idx / depth) mod 2 < 2) as Hp by (apply Z.mod_pos_bound; lia).
  assert (Z.lxor (1 - (idx / depth) mod 2) 1 = (idx / depth) mod 2) as Hx.
  { assert ((idx / depth) mod 2 = 0 \/ (idx / depth) mod 2 = 1) as [-> | ->] by lia; done. }
  rewrite Hx. clear Hx. split; [apply Z.mod_pos_bound; lia |].
  apply pow2_depth_cases in Hd.
  repeat (destruct Hd as [-> | Hd]); try subst depth;
    case_match; Z.div_mod_to_equations; lia.
Qed.

Lemma index_ok_0 depth : 0 < depth -> index_ok depth 0 1.
Proof. intros. split; [lia |]. unfold phase_of. by rewrite Z.div_0_l by lia. Qed.

Lemma phase_of_range depth idx : 0 <= phase_of depth idx <= 1.
Proof. unfold phase_of. pose proof (Z.mod_pos_bound (idx / depth) 2). lia. Qed.

Lemma slot_range idx depth : pow2_depth depth -> 0 <= Z.land idx (depth - 1) < depth.
Proof.
  intros Hd. rewrite pow2_depth_land by done. apply pow2_depth_bounds in Hd.
  apply Z.mod_pos_bound. lia.
Qed.

(** One lap later the slot is the same and the phase has flipped. *)
Lemma phase_lap d idx :
  pow2_depth d -> 0 <= idx < 65536 ->
  phase_of d (u16 (idx + d)) = 1 - phase_of d idx
  /\ Z.land (u16 (idx + d)) (d - 1) = Z.land idx (d - 1).
Proof.
  intros Hd Hi. rewrite !pow2_depth_land by done. unfold phase_of, u16. change (2 ^ 16) with 65536.
  apply pow2_depth_cases in Hd.
  split; repeat (destruct Hd as [-> | Hd]); try subst d; Z.div_mod_to_equations; lia.
Qed.

Lemma u16_add_l a b : u16 (u16 a + b) = u16 (a + b).
Proof. unfold u16. by rewrite Zplus_mod_idemp_l. Qed.

Lemma slot_distinct d n j : pow2_depth d -> 0 < j < d -> n mod d <> u16 (n + j) mod d.
Proof.
  intros Hd Hj E. unfold u16 in E. change (2 ^ 16) with 65536 in E. apply pow2_depth_cases in Hd.
  repeat (destruct Hd as [-> | Hd]); try subst d; Z.div_mod_to_equations; lia.
Qed.

(** A slot cannot show the expected phase on two consecutive laps. *)
Lemma lap_contra {A} (ph : A -> Z) (V : list A) d h0 c c' :
  pow2_depth d -> 0 <= h0 < 65536 ->
  V !! Z.to_nat (Z.land h0 (d - 1)) = Some c -> ph c = phase_of d h0 ->
  V !! Z.to_nat (Z.land (u16 (h0 + d)) (d - 1)) = Some c' -> ph c' = phase_of d (u16 (h0 + d)) -> False.
Proof.
  intros Hd Hh Hc Hph Hc' Hph'. destruct (phase_lap d h0 Hd Hh) as [Hlap Hslot].
  rewrite Hslot, Hc in Hc'. injection Hc' as <-. rewrite Hlap in Hph'.
  pose proof (phase_of_range d h0). lia.
Qed.

(** ** Arrays

    A C array reached through a pointer: [None] is the NULL pointer. *)
Abbreviation arr A := (option (list A)).

Definition aget {A} (a : arr A) (i : Z) : res A :=
  match a with
  | None => Fault
  | Some l =>
      if i <? 0 then Fault
      else match l !! Z.to_nat i with Some x => Ret x | None => Fault end
  end.

Definition aset {A} (a : arr A) (i : Z) (x : A) : res (arr A) :=
  match a with
  | None => Fault
  | Some l =>
      if (0 <=? i) && (i <? Z.of_nat (length l)) then Ret (Some (<[Z.to_nat i := x]> l))
      else Fault
  end.

Definition non_null {A} (p : option A) : bool :=
  match p with Some _ => true | None => false end.

Section Arrays.
Context {A : Type}.
Implicit Types (l : list A) (x : A).

Lemma lookup_in_range l i : 0 <= i < Z.of_nat (length l) -> exists x, l !! Z.to_nat i = Some x.
Proof. intros. destruct (lookup_lt_is_Some_2 l (Z.to_nat i)) as [x ?]; [lia | eauto]. Qed.

Lemma aget_ret l i x : 0 <= i -> l !! Z.to_nat i = Some x -> aget (Some l) i = Ret x.
Proof. intros Hi Hl. unfold aget. destruct (Z.ltb_spec i 0); [lia |]. by rewrite Hl. Qed.

Lemma aget_inv l i x : aget (Some l) i = Ret x -> 0 <= i /\ l !! Z.to_nat i = Some x.
Proof. unfold aget. destruct (Z.ltb_spec i 0); [done |]. case_match; naive_solver. Qed.

Lemma aset_ret l i x :
  0 <= i < Z.of_nat (length l) -> aset (Some l) i x = Ret (Some (<[Z.to_nat i := x]> l)).
Proof.
  intros. unfold aset.
  destruct (Z.leb_spec 0 i); [| lia]. destruct (Z.ltb_spec i (Z.of_nat (length l))); [done | lia].
Qed.

Lemma wp_aget l i (Q : A -> Prop) :
  0 <= i < Z.of_nat (length l) -> (forall x, l !! Z.to_nat i = Some x -> Q x) ->
  wp (aget (Some l) i) Q.
Proof. intros Hi HQ. destruct (lookup_in_range l i Hi) as [x Hx]. rewrite (aget_ret l i x) by (done || lia). by apply HQ. Qed.

Lemma wp_aset l i x (Q : arr A -> Prop) :
  0 <= i < Z.of_nat (length l) -> Q (Some (<[Z.to_nat i := x]> l)) -> wp (aset (Some l) i x) Q.
Proof. intros. by rewrite aset_ret. Qed.

Lemma wp_aget_eq (a : arr A) l i (Q : A -> Prop) :
  a = Some l -> 0 <= i < Z.of_nat (length l) -> (forall x, l !! Z.to_nat i = Some x -> Q x) ->
  wp (aget a i) Q.
Proof. intros ->. apply wp_aget. Qed.

Lemma wp_aset_eq (a : arr A) l i x (Q : arr A -> Prop) :
  a = Some l -> 0 <= i < Z.of_nat (length l) -> Q (Some (<[Z.to_nat i := x]> l)) ->
  wp (aset a i x) Q.
Proof. intros ->. apply wp_aset. Qed.

Lemma wlp_aget l i (Q : A -> Prop) :
  0 <= i < Z.of_nat (length l) -> (forall x, l !! Z.to_nat i = Some x -> Q x) ->
  wlp (aget (Some l) i) Q.
Proof. intros. by apply wp_wlp, wp_aget. Qed.

Lemma wlp_aset l i x (Q : arr A -> Prop) :
  0 <= i < Z.of_nat (length l) -> Q (Some (<[Z.to_nat i := x]> l)) -> wlp (aset (Some l) i x) Q.
Proof. intros. by apply wp_wlp, wp_aset. Qed.

Lemma zlookup_insert l i j x :
  0 <= i < Z.of_nat (length l) -> 0 <= j ->
  <[Z.to_nat i := x]> l !! Z.to_nat j = if decide (i = j) then Some x else l !! Z.to_nat j.
Proof.
  intros Hi Hj. case_decide as E.
  - subst. rewrite list_lookup_insert_eq; [done | lia].
  - rewrite list_lookup_insert_ne; [done | lia].
Qed.
End Arrays.

(** ** What the cells of an array hold

    [omap f l] collects what the cells of [l] hold; updating one cell exchanges
    its old contribution for the new one. *)
Lemma omap_insert_perm {A B} (f : A -> option B) (l : list A) (i : nat) (x y : A) :
  l !! i = Some x ->
  omap f (<[i := y]> l) ++ option_list (f x) ≡ₚ omap f l ++ option_list (f y).
Proof.
  intros Hx. pose proof (take_drop_middle l i x Hx) as E.
  rewrite insert_take_drop by (by eapply lookup_lt_Some). rewrite <- E at 3.
  rewrite !omap_app. simpl.
  destruct (f x) as [a |], (f y) as [b |]; simpl; rewrite ?app_nil_r; try done.
  - rewrite (Permutation_app_comm _ [a]), (Permutation_app_comm _ [b]). simpl.
    rewrite <- !Permutation_middle. apply Permutation_swap.
  - by rewrite (Permutation_app_comm _ [a]), <- Permutation_middle.
  - by rewrite (Permutation_app_comm _ [b]), <- Permutation_middle.
Qed.

Lemma omap_insert_opt {A B} (f : A -> option B) (l : list A) i x y :
  l !! i = Some x -> f x = None -> omap f (<[i := y]> l) ≡ₚ option_list (f y) ++ omap f l.
Proof.
  intros Hx Hfx. pose proof (omap_insert_perm f l i x y Hx) as H. rewrite Hfx, app_nil_r in H.
  by rewrite H, Permutation_app_comm.
Qed.

Lemma omap_insert_some {A B} (f : A -> option B) (l : list A) i x y b :
  l !! i = Some x -> f x = None -> f y = Some b -> omap f (<[i := y]> l) ≡ₚ b :: omap f l.
Proof.
  intros Hx Hfx Hfy. pose proof (omap_insert_perm f l i x y Hx) as H.
  rewrite Hfx, Hfy in H. simpl in H. rewrite app_nil_r in H.
  by rewrite H, <- Permutation_cons_append.
Qed.

Lemma omap_insert_none {A B} (f : A -> option B) (l : list A) i x y a :
  l !! i = Some x -> f x = Some a -> f y = None -> omap f l ≡ₚ a :: omap f (<[i := y]> l).
Proof.
  intros Hx Hfx Hfy. pose proof (omap_insert_perm f l i x y Hx) as H.
  rewrite Hfx, Hfy in H. simpl in H. rewrite app_nil_r in H.
  by rewrite <- H, <- Permutation_cons_append.
Qed.

Lemma omap_insert_same {A B} (f : A -> option B) (l : list A) i x y :
  l !! i = Some x -> f x = f y -> omap f (<[i := y]> l) = omap f l.
Proof.
  intros Hx Hf. pose proof (take_drop_middle l i x Hx) as E.
  rewrite insert_take_drop by (by eapply lookup_lt_Some). rewrite <- E at 3.
  rewrite !omap_app. simpl. by rewrite Hf.
Qed.

(** [perm_solve]: two lists of the same elements, written out in any order. *)
Ltac perm_solve :=
  simpl;
  lazymatch goal with
  | |- ?l ≡ₚ ?l => reflexivity
  | |- ?a :: ?l ≡ₚ ?r =>
      let rec go pre post :=
        lazymatch post with
        | a :: ?t => apply (Permutation_cons_app pre t a)
        | ?b :: ?t => go constr:(pre ++ [b]) t
        end in
      let T := type of a in go constr:(@nil T) r; perm_solve
  end.

(** ** Little-endian byte strings (the wire format of the admin queue) *)
Fixpoint le_bytes (n : nat) (x : Z) : list Z :=
  match n with
  | O => []
  | S n => x mod 256 :: le_bytes n (x / 256)
  end.

Fixpoint le_val (l : list Z) : Z :=
  match l with
  | [] => 0
  | b :: l => b + 256 * le_val l
  end.

(** The [n]-byte little-endian field at byte offset [off]. *)
Definition le_get (n off : nat) (l : list Z) : Z := le_val (take n (drop off l)).

Lemma length_le_bytes n x : length (le_bytes n x) = n.
Proof. revert x. induction n; simpl; auto. Qed.

Lemma le_val_bytes n x : le_val (le_bytes n x) = x mod 256 ^ Z.of_nat n.
Proof.
  revert x. induction n as [| n IH]; intros x; simpl.
  - by rewrite Z.mod_1_r.
  - rewrite IH. rewrite Nat2Z.inj_succ, Z.pow_succ_r by lia.
    rewrite Z.rem_mul_r by lia. lia.
Qed.

Lemma le_get_here n l x rest :
  length l = n -> l = le_bytes n x -> le_get n 0 (l ++ rest) = x mod 256 ^ Z.of_nat n.
Proof.
  intros Hl ->. unfold le_get. rewrite drop_0, take_app_length' by done. apply le_val_bytes.
Qed.

(** The low and high parts of a 48-bit DMA address ([struct ena_common_mem_addr]). *)
Definition mem_addr_low (phys : Z) : Z := u32 (Z.land phys 0xFFFFFFFF).
Definition mem_addr_high (phys : Z) : Z := u16 (Z.land (Z.shiftr phys 32) 0xFFFF).

(** ** Bytes in memory *)

(** Overwrite the bytes of [mem] from offset [off]. *)
Definition write_at (mem : list Z) (off : Z) (bytes : list Z) : res (list Z) :=
  if (0 <=? off) && (off + Z.of_nat (length bytes) <=? Z.of_nat (length mem)) then
    mret (list_inserts (Z.to_nat off) bytes mem)
  else Fault.

Definition read_at (mem : list Z) (n : Z) : res (list Z) :=
  if n <=? Z.of_nat (length mem) then mret (take (Z.to_nat n) mem) else Fault.

Lemma write_at_ret mem off bytes :
  0 <= off -> off + Z.of_nat (length bytes) <= Z.of_nat (length mem) ->
  write_at mem off bytes = Ret (list_inserts (Z.to_nat off) bytes mem).
Proof.
  intros. unfold write_at. destruct (Z.leb_spec 0 off); [| lia].
  by destruct (Z.leb_spec (off + Z.of_nat (length bytes)) (Z.of_nat (length mem))); [| lia].
Qed.

Lemma read_at_ret mem n : n <= Z.of_nat (length mem) -> read_at mem n = Ret (take (Z.to_nat n) mem).
Proof. intros. unfold read_at. by destruct (Z.leb_spec n (Z.of_nat (length mem))); [| lia]. Qed.

Lemma replicate_split {A} n m (x : A) :
  (m <= n)%nat -> replicate n x = replicate m x ++ replicate (n - m) x.
Proof. intros. rewrite <- replicate_add. f_equal. lia. Qed.

Lemma list_inserts_split {A} (o : nat) (bs l : list A) :
  (o + length bs <= length l)%nat -> list_inserts o bs l = take o l ++ bs ++ drop (o + length bs) l.
Proof.
  intros Hl. rewrite <- (take_drop o l) at 1. rewrite <- (take_drop (length bs) (drop o l)) at 1. rewrite drop_drop.
  assert (length (take o l) = o) as Ho by (rewrite length_take; lia). rewrite <- (Nat.add_0_r o) at 1. rewrite <- Ho at 1.
  rewrite list_inserts_app_r, list_inserts_0_r; [done |]. rewrite length_take, length_drop. lia.
Qed.
