(* ===== verification/Fifo.v ===== *)
(** * Circular FIFOs of small identifiers

    The driver keeps three pools of identifiers with the same code: the request
    ids of a ring ([free_req_ids] and its indices, include/ena_datapath.h), and
    the bounce slots of a TX and of an RX queue ([bounce_free_ids] and its
    indices, include/ena_netdev.h).  Each is an array with a pop index, a push
    index and a count; both indices are masked with the power-of-two depth.

    This file models that array and proves that it implements a list: [pop]
    takes the head of the list, [push] appends to it. *)

From stdpp Require Import base tactics option list list_numbers numbers.
From Stdlib Require Import ZArith Lia.
From S2P Require Import Prelude.

Record id_fifo := mkFifo {
  ff_ids : arr Z;   (* array of available ids, NULL when not allocated *)
  ff_head : Z;      (* pop index *)
  ff_tail : Z;      (* push index *)
  ff_count : Z      (* number of ids in the pool *)
}.

(** The state [calloc] leaves, and the one the owners fill in: id [i] in cell [i]. *)
Definition fifo_null : id_fifo := mkFifo None 0 0 0.
Definition fifo_full (depth : Z) : id_fifo := mkFifo (Some (seqZ 0 depth)) 0 0 depth.

Definition fifo_pop (depth : Z) (f : id_fifo) : res (Z * id_fifo) :=
  id ← aget (ff_ids f) (ff_head f);
  mret (id, mkFifo (ff_ids f) (u16 (Z.land (ff_head f + 1) (depth - 1))) (ff_tail f)
              (u16 (ff_count f - 1))).

Definition fifo_push (depth : Z) (f : id_fifo) (id : Z) : res id_fifo :=
  ids ← aset (ff_ids f) (ff_tail f) id;
  mret (mkFifo ids (ff_head f) (u16 (Z.land (ff_tail f + 1) (depth - 1)))
          (u16 (ff_count f + 1))).

(** ** The list a FIFO stands for *)
Definition fifo_contents (depth : Z) (f : id_fifo) : list Z :=
  match ff_ids f with
  | None => []
  | Some l => (fun i => l !!! Z.to_nat ((ff_head f + i) mod depth)) <$> seqZ 0 (ff_count f)
  end.

Record wf_fifo (depth : Z) (f : id_fifo) : Prop := {
  wff_depth : pow2_depth depth;
  wff_ids : exists l, ff_ids f = Some l /\ Z.of_nat (length l) = depth;
  wff_head : 0 <= ff_head f < depth;
  wff_count : 0 <= ff_count f <= depth;
  wff_tail : ff_tail f = (ff_head f + ff_count f) mod depth
}.

Lemma mod_add_small a b d : 0 <= a < d -> 0 <= b <= d ->
  (a + b) mod d = if a + b <? d then a + b else a + b - d.
Proof.
  intros. destruct (Z.ltb_spec (a + b) d); [rewrite Z.mod_small; lia |].
  symmetry. apply Z.mod_unique with 1; lia.
Qed.

Lemma length_fifo_contents depth f :
  wf_fifo depth f -> length (fifo_contents depth f) = Z.to_nat (ff_count f).
Proof.
  intros [_ (l & Hl & _) _ _ _]. unfold fifo_contents. rewrite Hl.
  by rewrite length_fmap, length_seqZ.
Qed.

Lemma fifo_full_wf depth : pow2_depth depth -> wf_fifo depth (fifo_full depth).
Proof.
  intros Hd. pose proof (pow2_depth_bounds _ Hd). split; simpl; [done | | lia | lia |].
  - eexists. split; [done |]. rewrite length_seqZ. lia.
  - rewrite Z.mod_same; lia.
Qed.

Lemma fifo_full_contents depth :
  pow2_depth depth -> fifo_contents depth (fifo_full depth) = seqZ 0 depth.
Proof.
  intros Hd. pose proof (pow2_depth_bounds _ Hd). unfold fifo_contents; simpl.
  apply list_eq. intros i. rewrite list_lookup_fmap.
  destruct (decide (Z.of_nat i < depth)).
  - rewrite lookup_seqZ_lt by done. simpl. f_equal.
    rewrite Z.mod_small by lia. rewrite lookup_total_seqZ_lt; lia.
  - by rewrite lookup_seqZ_ge by lia.
Qed.

Lemma fifo_pop_spec depth f :
  wf_fifo depth f -> 0 < ff_count f ->
  wp (fifo_pop depth f) (fun '(id, f') =>
    wf_fifo depth f' /\ fifo_contents depth f = id :: fifo_contents depth f'
    /\ ff_count f' = ff_count f - 1).
Proof.
  intros [Hd (l & Hl & Hlen) Hh Hc Ht] Hpos. pose proof (pow2_depth_bounds _ Hd) as Hb.
  unfold fifo_pop. rewrite Hl. apply wp_bind, wp_aget; [lia |]. intros id Hid. apply wp_ret.
  rewrite pow2_depth_land by done.
  assert (0 <= (ff_head f + 1) mod depth < depth) by (apply Z.mod_pos_bound; lia).
  rewrite !u16_id by lia. split; [split; simpl; eauto; try lia |].
  - rewrite Zplus_mod_idemp_l, Ht. f_equal. lia.
  - split; [| done]. unfold fifo_contents; simpl. rewrite Hl, seqZ_cons by lia. simpl. f_equal.
    + rewrite Z.add_0_r, Z.mod_small by lia. by apply list_lookup_total_correct.
    + change (Z.succ 0) with (1 + 0). rewrite <- fmap_add_seqZ, <- list_fmap_compose.
      change (Z.pred (ff_count f)) with (ff_count f - 1).
      apply list_fmap_ext. intros i x _. simpl. do 2 f_equal.
      rewrite Zplus_mod_idemp_l. f_equal. lia.
Qed.

Lemma fifo_push_spec depth f id :
  wf_fifo depth f -> ff_count f < depth ->
  wp (fifo_push depth f id) (fun f' =>
    wf_fifo depth f' /\ fifo_contents depth f' = fifo_contents depth f ++ [id]
    /\ ff_count f' = ff_count f + 1).
Proof.
  intros [Hd (l & Hl & Hlen) Hh Hc Ht] Hlt. pose proof (pow2_depth_bounds _ Hd) as Hb.
  assert (0 <= ff_tail f < depth) as Htr by (rewrite Ht; apply Z.mod_pos_bound; lia).
  unfold fifo_push. rewrite Hl. apply wp_bind, wp_aset; [lia |]. apply wp_ret.
  rewrite pow2_depth_land by done.
  assert (0 <= (ff_tail f + 1) mod depth < depth) by (apply Z.mod_pos_bound; lia).
  rewrite !u16_id by lia. split; [split; simpl; eauto; try lia |].
  - eexists. split; [done |]. by rewrite length_insert.
  - rewrite Ht, Zplus_mod_idemp_l. f_equal. lia.
  - split; [| done]. unfold fifo_contents; simpl. rewrite Hl.
    rewrite (seqZ_app 0 (ff_count f) 1), fmap_app by lia. simpl. f_equal.
    + apply list_fmap_ext. intros i x [-> Hi]%lookup_seqZ. simpl.
      rewrite list_lookup_total_insert_ne; [done |]. rewrite Ht.
      rewrite !mod_add_small by lia. repeat case_match; lia.
    + f_equal. rewrite ?Z.add_0_l, <- Ht. rewrite list_lookup_total_insert_eq; [done | lia].
Qed.
