(* ===== verification/Mem.v ===== *)
(** * The C heap

    The allocator under the driver ([calloc], [malloc], [uk_memalign], [free])
    is not part of the repository.  It is modelled by the set of live blocks and
    an oracle that decides which allocation succeeds: every theorem that
    quantifies over heaps covers every pattern of allocation failures.  Freeing a
    block that is not live is a fault, so a double free cannot go unnoticed. *)

From stdpp Require Import base tactics option list gmap numbers.
From Stdlib Require Import ZArith Lia.
From S2P Require Import Prelude.

Record heap := mkHeap {
  h_next : Z;              (* address of the next block *)
  h_live : gset Z;         (* addresses of the live blocks *)
  h_oracle : nat -> bool;  (* does the n-th allocation from now succeed? *)
  h_phys : Z -> Z          (* physical address of a virtual one *)
}.

Definition heap_alloc (h : heap) : option Z * heap :=
  if h_oracle h 0%nat then
    (Some (h_next h),
     mkHeap (h_next h + 1) ({[h_next h]} ∪ h_live h) (fun n => h_oracle h (S n)) (h_phys h))
  else (None, mkHeap (h_next h) (h_live h) (fun n => h_oracle h (S n)) (h_phys h)).

(** [free(p)]; [free(NULL)] does nothing. *)
Definition heap_free (h : heap) (p : option Z) : res heap :=
  match p with
  | None => mret h
  | Some a =>
      if decide (a ∈ h_live h) then
        mret (mkHeap (h_next h) (h_live h ∖ {[a]}) (h_oracle h) (h_phys h))
      else Fault
  end.

(** [ena_dma_alloc]: a block and its physical address. *)
Definition ena_dma_alloc (h : heap) : option (Z * Z) * heap :=
  match heap_alloc h with
  | (Some virt, h) => (Some (virt, u64 (h_phys h virt)), h)
  | (None, h) => (None, h)
  end.

Definition ena_dma_free (h : heap) (virt : option Z) : res heap := heap_free h virt.

(** Live blocks lie below the next address, so a new block is fresh. *)
Definition wf_heap (h : heap) : Prop := 0 < h_next h /\ (forall a, a ∈ h_live h -> 0 < a < h_next h).

Lemma heap_alloc_spec h p h' :
  wf_heap h -> heap_alloc h = (p, h') ->
  wf_heap h' /\ h_next h <= h_next h' /\
  match p with
  | Some a => a = h_next h /\ a < h_next h' /\ (a ∉ h_live h) /\ h_live h' = {[a]} ∪ h_live h
  | None => h_live h' = h_live h
  end.
Proof.
  intros [Hn Hl]. unfold heap_alloc. case_match; intros [= <- <-]; simpl.
  - split_and!; [| lia | done | lia | | done].
    + split; simpl; [lia |]. intros a [->%elem_of_singleton | Ha]%elem_of_union; [lia |].
      specialize (Hl _ Ha). lia.
    + intros Ha. specialize (Hl _ Ha). lia.
  - split_and!; [done | lia | done].
Qed.

Lemma heap_free_spec h a :
  wf_heap h -> a ∈ h_live h ->
  wp (heap_free h (Some a)) (fun h' => wf_heap h' /\ h_live h' = h_live h ∖ {[a]}
                                       /\ h_next h' = h_next h).
Proof.
  intros [Hn Hl] Ha. unfold heap_free. rewrite decide_True by done. apply wp_ret.
  split; [| done]. split; simpl; [done |]. intros b [Hb _]%elem_of_difference. by apply Hl.
Qed.
