(* ===== verification/Desc.v ===== *)
(** * Data path descriptors

    The four 8 or 16-byte records the driver exchanges with the device over a
    ring (include/ena_datapath.h, lines 57-166), the code of src/ena_tx.c,
    src/ena_llq.c and src/ena_rx.c that fills a submission descriptor and reads
    a completion descriptor, and the device's reading of a submission descriptor
    (the bit positions of reference/ena_eth_io_defs.h).

    The theorems are round trips: the device decodes from a descriptor exactly
    the request the driver encoded. *)

From stdpp Require Import base tactics option list numbers.
From Stdlib Require Import ZArith Lia.
From S2P Require Import Prelude.

(** ** Layout *)
Record ena_eth_io_tx_desc := mkTxDesc {
  txd_len_ctrl : Z;
  txd_meta_ctrl : Z;
  txd_buff_addr_lo : Z;
  txd_buff_addr_hi_hdr_sz : Z
}.

Record ena_eth_io_tx_cdesc := mkTxCdesc {
  txc_req_id : Z;
  txc_status : Z;
  txc_flags : Z;
  txc_sub_qid : Z;
  txc_sq_head_idx : Z
}.

Record ena_eth_io_rx_desc := mkRxDesc {
  rxd_length : Z;
  rxd_reserved2 : Z;
  rxd_ctrl : Z;
  rxd_req_id : Z;
  rxd_reserved6 : Z;
  rxd_buff_addr_lo : Z;
  rxd_buff_addr_hi : Z;
  rxd_reserved16_w3 : Z
}.

Record ena_eth_io_rx_cdesc_base := mkRxCdesc {
  rxc_status : Z;
  rxc_length : Z;
  rxc_req_id : Z;
  rxc_hash : Z;
  rxc_sub_qid : Z;
  rxc_offset : Z;
  rxc_reserved : Z
}.

(** What [memset(desc, 0, sizeof( *desc))] leaves. *)
Definition tx_desc_zero : ena_eth_io_tx_desc := mkTxDesc 0 0 0 0.
Definition rx_desc_zero : ena_eth_io_rx_desc := mkRxDesc 0 0 0 0 0 0 0 0.
Definition tx_cdesc_zero : ena_eth_io_tx_cdesc := mkTxCdesc 0 0 0 0 0.
Definition rx_cdesc_zero : ena_eth_io_rx_cdesc_base := mkRxCdesc 0 0 0 0 0 0 0.

(** ** Masks and shifts *)
Definition ENA_ETH_IO_TX_DESC_LENGTH_MASK : Z := 0x0000FFFF.
Definition ENA_ETH_IO_TX_DESC_REQ_ID_HI_SHIFT : Z := 16.
Definition ENA_ETH_IO_TX_DESC_PHASE_MASK : Z := 0x01000000.
Definition ENA_ETH_IO_TX_DESC_FIRST_MASK : Z := 0x04000000.
Definition ENA_ETH_IO_TX_DESC_LAST_MASK : Z := 0x08000000.
Definition ENA_ETH_IO_TX_DESC_COMP_REQ_MASK : Z := 0x10000000.
Definition ENA_ETH_IO_TX_DESC_L3_PROTO_IDX_MASK : Z := 0x0000000F.
Definition ENA_ETH_IO_TX_DESC_DF_MASK : Z := 0x00000010.
Definition ENA_ETH_IO_TX_DESC_TSO_EN_MASK : Z := 0x00000080.
Definition ENA_ETH_IO_TX_DESC_L4_PROTO_IDX_SHIFT : Z := 8.
Definition ENA_ETH_IO_TX_DESC_L3_CSUM_EN_MASK : Z := 0x00002000.
Definition ENA_ETH_IO_TX_DESC_L4_CSUM_EN_MASK : Z := 0x00004000.
Definition ENA_ETH_IO_TX_DESC_REQ_ID_LO_SHIFT : Z := 22.
Definition ENA_ETH_IO_TX_CDESC_PHASE_MASK : Z := 0x01.
Definition ENA_ETH_IO_RX_DESC_PHASE_MASK : Z := 0x01.
Definition ENA_ETH_IO_RX_DESC_FIRST_MASK : Z := 0x04.
Definition ENA_ETH_IO_RX_DESC_LAST_MASK : Z := 0x08.
Definition ENA_ETH_IO_RX_DESC_COMP_REQ_MASK : Z := 0x10.
Definition ENA_ETH_IO_RX_CDESC_BASE_L3_CSUM_ERR_MASK : Z := 0x00002000.
Definition ENA_ETH_IO_RX_CDESC_BASE_L4_CSUM_ERR_MASK : Z := 0x00004000.
Definition ENA_ETH_IO_RX_CDESC_BASE_IPV4_FRAG_MASK : Z := 0x00008000.
Definition ENA_ETH_IO_RX_CDESC_BASE_L4_CSUM_CHECKED_MASK : Z := 0x00010000.
Definition ENA_ETH_IO_RX_CDESC_BASE_PHASE_SHIFT : Z := 24.
Definition ENA_ETH_IO_RX_CDESC_BASE_PHASE_MASK : Z := 0x01000000.
Definition ENA_ETH_IO_RX_CDESC_BASE_FIRST_MASK : Z := 0x04000000.
Definition ENA_ETH_IO_RX_CDESC_BASE_LAST_MASK : Z := 0x08000000.

(** ** Requests *)
Record ena_tx_pkt := mkTxPkt {
  txp_netbuf : option Z;
  txp_phys_addr : Z;
  txp_len : Z;
  txp_l3_proto : Z;
  txp_l4_proto : Z;
  txp_l3_csum_en : bool;
  txp_l4_csum_en : bool;
  txp_df : bool;
  txp_tso_en : bool
}.

Record ena_rx_pkt := mkRxPkt {
  rxp_netbuf : option Z;
  rxp_len : Z;
  rxp_offset : Z;
  rxp_hash : Z;
  rxp_l3_csum_err : bool;
  rxp_l4_csum_err : bool;
  rxp_l4_csum_checked : bool;
  rxp_frag : bool;
  rxp_first : bool;
  rxp_last : bool;
  rxp_req_id : Z
}.

(** ** What the driver writes *)

(** Word 0, shared by [ena_tx_submit] and [ena_llq_tx_push]. *)
Definition tx_len_ctrl (len req_id sq_phase : Z) : Z :=
  let len_ctrl := Z.land len ENA_ETH_IO_TX_DESC_LENGTH_MASK in
  let len_ctrl := Z.lor len_ctrl
    (Z.shiftl (Z.land (Z.shiftr req_id 10) 0x3F) ENA_ETH_IO_TX_DESC_REQ_ID_HI_SHIFT) in
  let len_ctrl := or_if (z2b sq_phase) ENA_ETH_IO_TX_DESC_PHASE_MASK len_ctrl in
  Z.lor len_ctrl (Z.lor (Z.lor ENA_ETH_IO_TX_DESC_FIRST_MASK ENA_ETH_IO_TX_DESC_LAST_MASK)
                    ENA_ETH_IO_TX_DESC_COMP_REQ_MASK).

(** Word 1 up to the DF flag; [ena_tx_submit] then adds the TSO flag. *)
Definition tx_meta_ctrl (pkt : ena_tx_pkt) (req_id : Z) : Z :=
  let meta_ctrl := Z.shiftl (Z.land req_id 0x03FF) ENA_ETH_IO_TX_DESC_REQ_ID_LO_SHIFT in
  let meta_ctrl := Z.lor meta_ctrl
    (Z.land (txp_l3_proto pkt) ENA_ETH_IO_TX_DESC_L3_PROTO_IDX_MASK) in
  let meta_ctrl := Z.lor meta_ctrl
    (Z.shiftl (Z.land (txp_l4_proto pkt) 0x1F) ENA_ETH_IO_TX_DESC_L4_PROTO_IDX_SHIFT) in
  let meta_ctrl := or_if (txp_l3_csum_en pkt) ENA_ETH_IO_TX_DESC_L3_CSUM_EN_MASK meta_ctrl in
  let meta_ctrl := or_if (txp_l4_csum_en pkt) ENA_ETH_IO_TX_DESC_L4_CSUM_EN_MASK meta_ctrl in
  or_if (txp_df pkt) ENA_ETH_IO_TX_DESC_DF_MASK meta_ctrl.

(** The descriptor [ena_tx_submit] writes for a packet. *)
Definition tx_desc_format (pkt : ena_tx_pkt) (req_id sq_phase : Z) : ena_eth_io_tx_desc :=
  mkTxDesc (tx_len_ctrl (txp_len pkt) req_id sq_phase)
    (or_if (txp_tso_en pkt) ENA_ETH_IO_TX_DESC_TSO_EN_MASK (tx_meta_ctrl pkt req_id))
    (u32 (txp_phys_addr pkt))
    (u32 (Z.land (Z.shiftr (txp_phys_addr pkt) 32) 0xFFFF)).

(** The descriptor [ena_llq_tx_push] writes: no TSO flag, and the header length. *)
Definition llq_desc_format (pkt : ena_tx_pkt) (hdr_len req_id sq_phase : Z) : ena_eth_io_tx_desc :=
  mkTxDesc (tx_len_ctrl (txp_len pkt) req_id sq_phase)
    (tx_meta_ctrl pkt req_id)
    (u32 (txp_phys_addr pkt))
    (u32 (Z.lor (Z.land (Z.shiftr (txp_phys_addr pkt) 32) 0xFFFF) (Z.shiftl hdr_len 24))).

(** The descriptor [ena_rx_submit_one] writes for a buffer. *)
Definition rx_desc_format (phys_addr buf_len req_id sq_phase : Z) : ena_eth_io_rx_desc :=
  let ctrl := Z.land sq_phase ENA_ETH_IO_RX_DESC_PHASE_MASK in
  let ctrl := Z.lor ctrl (Z.lor (Z.lor ENA_ETH_IO_RX_DESC_FIRST_MASK ENA_ETH_IO_RX_DESC_LAST_MASK)
                            ENA_ETH_IO_RX_DESC_COMP_REQ_MASK) in
  mkRxDesc (u16 buf_len) 0 ctrl req_id 0 (u32 phys_addr) (u16 (Z.shiftr phys_addr 32)) 0.

(** ** What the driver reads *)
Definition tx_cdesc_phase (c : ena_eth_io_tx_cdesc) : Z :=
  Z.land (txc_flags c) ENA_ETH_IO_TX_CDESC_PHASE_MASK.

Definition rx_cdesc_phase (status : Z) : Z :=
  u8 (Z.shiftr (Z.land status ENA_ETH_IO_RX_CDESC_BASE_PHASE_MASK)
        ENA_ETH_IO_RX_CDESC_BASE_PHASE_SHIFT).

(** The packet [ena_rx_poll] reports for a completion of buffer [netbuf]. *)
Definition rx_pkt_of_cdesc (c : ena_eth_io_rx_cdesc_base) (status_val : Z) (netbuf : option Z)
    (pkt_len req_id : Z) : ena_rx_pkt :=
  {| rxp_netbuf := netbuf; rxp_len := pkt_len; rxp_offset := rxc_offset c;
     rxp_hash := rxc_hash c;
     rxp_l3_csum_err := bit_set status_val ENA_ETH_IO_RX_CDESC_BASE_L3_CSUM_ERR_MASK;
     rxp_l4_csum_err := bit_set status_val ENA_ETH_IO_RX_CDESC_BASE_L4_CSUM_ERR_MASK;
     rxp_l4_csum_checked := bit_set status_val ENA_ETH_IO_RX_CDESC_BASE_L4_CSUM_CHECKED_MASK;
     rxp_frag := bit_set status_val ENA_ETH_IO_RX_CDESC_BASE_IPV4_FRAG_MASK;
     rxp_first := bit_set status_val ENA_ETH_IO_RX_CDESC_BASE_FIRST_MASK;
     rxp_last := bit_set status_val ENA_ETH_IO_RX_CDESC_BASE_LAST_MASK;
     rxp_req_id := req_id |}.

(** ** What the device reads

    The fields of a submission descriptor, at the positions the device interface
    documents.  The request id of a TX descriptor is split over two words. *)
Record tx_request := mkTxRequest {
  tq_len : Z; tq_req_id : Z; tq_phase : Z; tq_first : Z; tq_last : Z; tq_comp_req : Z;
  tq_l3 : Z; tq_l4 : Z; tq_df : Z; tq_tso : Z; tq_l3_csum : Z; tq_l4_csum : Z;
  tq_addr : Z; tq_hdr_len : Z
}.

Definition tx_desc_decode (d : ena_eth_io_tx_desc) : tx_request :=
  let w0 := txd_len_ctrl d in let w1 := txd_meta_ctrl d in
  let w3 := txd_buff_addr_hi_hdr_sz d in
  {| tq_len := field w0 0 16;
     tq_req_id := field w0 16 6 * 2 ^ 10 + field w1 22 10;
     tq_phase := field w0 24 1; tq_first := field w0 26 1; tq_last := field w0 27 1;
     tq_comp_req := field w0 28 1;
     tq_l3 := field w1 0 4; tq_l4 := field w1 8 5; tq_df := field w1 4 1; tq_tso := field w1 7 1;
     tq_l3_csum := field w1 13 1; tq_l4_csum := field w1 14 1;
     tq_addr := txd_buff_addr_lo d + field w3 0 16 * 2 ^ 32;
     tq_hdr_len := field w3 24 8 |}.

Record rx_request := mkRxRequest {
  rq_len : Z; rq_req_id : Z; rq_phase : Z; rq_first : Z; rq_last : Z; rq_comp_req : Z; rq_addr : Z
}.

Definition rx_desc_decode (d : ena_eth_io_rx_desc) : rx_request :=
  let c := rxd_ctrl d in
  {| rq_len := rxd_length d; rq_req_id := rxd_req_id d;
     rq_phase := field c 0 1; rq_first := field c 2 1; rq_last := field c 3 1;
     rq_comp_req := field c 4 1;
     rq_addr := rxd_buff_addr_lo d + rxd_buff_addr_hi d * 2 ^ 32 |}.

(** ** Round trips *)

Lemma testbit_b2z b : Z.testbit (b2z b) 0 = b.
Proof. by destruct b. Qed.
Lemma b2z_range b : 0 <= b2z b < 2 ^ 1.
Proof. destruct b; simpl; lia. Qed.

(** A packet the hardware can express: the range of each field of the descriptor. *)
Definition tx_pkt_fits (pkt : ena_tx_pkt) : Prop :=
  0 <= txp_len pkt < 2 ^ 16 /\ 0 <= txp_l3_proto pkt < 2 ^ 4 /\ 0 <= txp_l4_proto pkt < 2 ^ 5
  /\ 0 <= txp_phys_addr pkt < 2 ^ 48.

Definition tx_request_of (pkt : ena_tx_pkt) (tso : bool) (hdr_len req_id sq_phase : Z) : tx_request :=
  {| tq_len := txp_len pkt; tq_req_id := req_id; tq_phase := sq_phase;
     tq_first := 1; tq_last := 1; tq_comp_req := 1;
     tq_l3 := txp_l3_proto pkt; tq_l4 := txp_l4_proto pkt; tq_df := b2z (txp_df pkt);
     tq_tso := b2z tso; tq_l3_csum := b2z (txp_l3_csum_en pkt);
     tq_l4_csum := b2z (txp_l4_csum_en pkt); tq_addr := txp_phys_addr pkt;
     tq_hdr_len := hdr_len |}.

Section Fields.
Context (pkt : ena_tx_pkt) (req_id sq_phase : Z).
Hypothesis Hpkt : tx_pkt_fits pkt.
Hypothesis Hid : 0 <= req_id < 2 ^ 16.
Hypothesis Hphase : sq_phase = 0 \/ sq_phase = 1.

Lemma tx_len_ctrl_fields :
  let w := tx_len_ctrl (txp_len pkt) req_id sq_phase in
  field w 0 16 = txp_len pkt /\ field w 16 6 = req_id / 2 ^ 10 /\ field w 24 1 = sq_phase
  /\ field w 26 1 = 1 /\ field w 27 1 = 1 /\ field w 28 1 = 1.
Proof using Hpkt Hid Hphase.
  destruct Hpkt as (Hl & _). cbv zeta. rewrite <- (Z.shiftr_div_pow2 req_id) by lia.
  assert (0 <= Z.shiftr req_id 10 < 2 ^ 6) by (rewrite Z.shiftr_div_pow2 by lia; Z.div_mod_to_equations; lia).
  unfold tx_len_ctrl. destruct Hphase as [-> | ->]; simpl z2b; split_and!; field_solve.
Qed.

Lemma tx_meta_ctrl_fields tso :
  let w := or_if tso ENA_ETH_IO_TX_DESC_TSO_EN_MASK (tx_meta_ctrl pkt req_id) in
  field w 22 10 = req_id mod 2 ^ 10 /\ field w 0 4 = txp_l3_proto pkt
  /\ field w 8 5 = txp_l4_proto pkt /\ field w 4 1 = b2z (txp_df pkt) /\ field w 7 1 = b2z tso
  /\ field w 13 1 = b2z (txp_l3_csum_en pkt) /\ field w 14 1 = b2z (txp_l4_csum_en pkt).
Proof using Hpkt Hid.
  destruct Hpkt as (_ & ? & ? & _). cbv zeta. unfold tx_meta_ctrl.
  pose proof (Z.mod_pos_bound req_id (2 ^ 10)).
  pose proof (b2z_range (txp_df pkt)). pose proof (b2z_range tso).
  pose proof (b2z_range (txp_l3_csum_en pkt)). pose proof (b2z_range (txp_l4_csum_en pkt)).
  split_and!; field_solve; by rewrite testbit_b2z.
Qed.
End Fields.

Lemma split_id x : x / 2 ^ 10 * 2 ^ 10 + x mod 2 ^ 10 = x.
Proof. pose proof (Z.div_mod x (2 ^ 10)). lia. Qed.

Lemma split_addr x : 0 <= x < 2 ^ 48 -> u32 x + Z.shiftr x 32 * 2 ^ 32 = x.
Proof. intros. unfold u32. rewrite Z.shiftr_div_pow2 by lia. Z.div_mod_to_equations. lia. Qed.

Lemma addr_hi_range x : 0 <= x < 2 ^ 48 -> 0 <= Z.shiftr x 32 < 2 ^ 16.
Proof. intros. rewrite Z.shiftr_div_pow2 by lia. Z.div_mod_to_equations. lia. Qed.

(** TX descriptor round trip.  For every packet the hardware can express,
    every 16-bit request id and either phase, the device decodes from the
    descriptor [ena_tx_submit] writes the packet's length, address, protocol
    indices and offload flags, the request id (reassembled from its two parts),
    the phase of the ring, and a single-descriptor transaction that asks for a
    completion. *)
Theorem tx_desc_roundtrip pkt req_id sq_phase :
  tx_pkt_fits pkt -> 0 <= req_id < 2 ^ 16 -> sq_phase = 0 \/ sq_phase = 1 ->
  tx_desc_decode (tx_desc_format pkt req_id sq_phase)
  = tx_request_of pkt (txp_tso_en pkt) 0 req_id sq_phase.
Proof.
  intros Hp Hid Hph. unfold tx_desc_decode, tx_desc_format, tx_request_of; cbn [txd_len_ctrl
    txd_meta_ctrl txd_buff_addr_lo txd_buff_addr_hi_hdr_sz].
  destruct (tx_len_ctrl_fields pkt req_id sq_phase) as (-> & -> & -> & -> & -> & ->); [done.. |].
  destruct (tx_meta_ctrl_fields pkt req_id Hp Hid (txp_tso_en pkt))
    as (-> & -> & -> & -> & -> & -> & ->).
  destruct Hp as (_ & _ & _ & Ha). pose proof (addr_hi_range _ Ha) as Hr.
  rewrite split_id.
  rewrite (u32_id (Z.land _ _)) by (rewrite Z.land_ones with (n := 16) by lia; Z.div_mod_to_equations; lia).
  f_equal.
  - rewrite <- (split_addr (txp_phys_addr pkt)) at 3 by done. do 2 f_equal. field_solve.
  - field_solve.
Qed.

Definition example_tx_pkt : ena_tx_pkt :=
  mkTxPkt (Some 7) 0x123456789ABC 1500 8 12 true true true false.

Lemma tx_desc_roundtrip_witness :
  tx_desc_decode (tx_desc_format example_tx_pkt 0xABCD 1)
  = tx_request_of example_tx_pkt false 0 0xABCD 1.
Proof.
  apply (tx_desc_roundtrip example_tx_pkt 0xABCD 1);
    [repeat split; vm_compute; congruence | lia | by right].
Defined.

(** The descriptor [ena_llq_tx_push] copies to
    device memory carries the same fields, plus the inline header length, for
    every header the entry can hold; the TSO request of the packet is not
    encoded (the device sees TSO off). *)
Lemma llq_desc_decoded pkt hdr_len req_id sq_phase :
  tx_pkt_fits pkt -> 0 <= hdr_len < 2 ^ 8 -> 0 <= req_id < 2 ^ 16 ->
  sq_phase = 0 \/ sq_phase = 1 ->
  tx_desc_decode (llq_desc_format pkt hdr_len req_id sq_phase)
  = tx_request_of pkt false hdr_len req_id sq_phase.
Proof.
  intros Hp Hh Hid Hph. unfold tx_desc_decode, llq_desc_format, tx_request_of; cbn [txd_len_ctrl
    txd_meta_ctrl txd_buff_addr_lo txd_buff_addr_hi_hdr_sz].
  destruct (tx_len_ctrl_fields pkt req_id sq_phase) as (-> & -> & -> & -> & -> & ->); [done.. |].
  pose proof (tx_meta_ctrl_fields pkt req_id Hp Hid false) as Hm. cbn [or_if] in Hm.
  destruct Hm as (-> & -> & -> & -> & -> & -> & ->).
  destruct Hp as (_ & _ & _ & Ha). pose proof (addr_hi_range _ Ha) as Hr.
  rewrite split_id. unfold u32 at 2 3. f_equal.
  - rewrite <- (split_addr (txp_phys_addr pkt)) at 3 by done. do 2 f_equal. field_solve.
  - field_solve.
    all: by rewrite (testbit_above (Z.shiftr (txp_phys_addr pkt) 32) 16) by lia.
Qed.

(** RX descriptor round trip.  The device decodes from the descriptor
    [ena_rx_submit_one] writes the buffer's address and length, the request id
    and the phase of the ring. *)
Theorem rx_desc_roundtrip phys_addr buf_len req_id sq_phase :
  0 <= phys_addr < 2 ^ 48 -> 0 < buf_len <= 0xFFFF -> 0 <= req_id < 2 ^ 16 ->
  sq_phase = 0 \/ sq_phase = 1 ->
  rx_desc_decode (rx_desc_format phys_addr buf_len req_id sq_phase)
  = mkRxRequest buf_len req_id sq_phase 1 1 1 phys_addr.
Proof.
  intros Ha Hl Hid Hph. pose proof (addr_hi_range _ Ha).
  unfold rx_desc_decode, rx_desc_format; cbn [rxd_ctrl rxd_length rxd_req_id rxd_buff_addr_lo
    rxd_buff_addr_hi]. rewrite (u16_id buf_len) by lia. rewrite (u16_id (Z.shiftr _ _)) by lia.
  rewrite split_addr by done. by destruct Hph as [-> | ->].
Qed.

Lemma rx_desc_roundtrip_witness :
  rx_desc_decode (rx_desc_format 0x123456789000 2048 255 1)
  = mkRxRequest 2048 255 1 1 1 1 0x123456789000.
Proof. apply (rx_desc_roundtrip 0x123456789000 2048 255 1); [lia | lia | lia | by right]. Defined.

(** The phase the driver reads is bit 0 of the flags, or bit 24 of the status. *)
Lemma tx_cdesc_phase_range c : 0 <= tx_cdesc_phase c <= 1.
Proof.
  unfold tx_cdesc_phase. change ENA_ETH_IO_TX_CDESC_PHASE_MASK with (Z.ones 1).
  rewrite Z.land_ones by lia. pose proof (Z.mod_pos_bound (txc_flags c) (2 ^ 1)). lia.
Qed.
