(* ===== verification/Netq.v ===== *)
(** * Bounce buffers of the netdev queues

    The part of [struct uk_netdev_rx_queue] and [struct uk_netdev_tx_queue]
    (include/ena_netdev.h, lines 30-69) that the ring layer reaches through its
    callbacks: the pool of bounce slots, the map from request ids to slots and
    the pending slot of an RX refill.  The callbacks themselves are here:
    [ena_netdev_txq_reclaim_slot], [ena_netdev_rxq_drop_netbuf] and
    [ena_netbuf_alloc_helper] of src/ena_netdev.c.

    The invariant of the file is a partition: every bounce slot is in the free
    pool, or mapped to exactly one request, or pending, never two of these. *)

From stdpp Require Import base tactics option list list_numbers numbers sets.
From Stdlib Require Import ZArith Lia.
From S2P Require Import Prelude Fifo.

(** ** What the driver does to the world outside its own memory *)
Inductive event :=
| EvFree (cpu nb : Z)        (* uk_netbuf_free(nb), run on core cpu *)
| EvWrite32 (addr v : Z).    (* ena_reg_write32: a store to an MMIO register *)

(** The netbufs a list of events releases, in order. *)
Definition freed (es : list event) : list Z :=
  omap (fun e => match e with EvFree _ nb => Some nb | _ => None end) es.

Lemma freed_app es1 es2 : freed (es1 ++ es2) = freed es1 ++ freed es2.
Proof. apply omap_app. Qed.

(** ** State *)
Definition ENA_RX_BUF_SIZE : Z := 2048.
Definition ENA_DMA_LOW_MEM_LIMIT : Z := 0x100000.

Record bounce_pool := mkBounce {
  bounce_buf : bool;          (* bounce memory allocated *)
  bounce_phys : Z;
  nb_desc : Z;
  bounce_free : id_fifo;      (* bounce_free_ids, _head, _tail, _count *)
  bounce_map : arr Z          (* request id -> slot, -1 for none *)
}.

Record uk_netdev_rx_queue := mkRxq {
  rxq_bounce : bounce_pool;
  pending_slot : Z
}.

Record uk_netdev_tx_queue := mkTxq {
  txq_bounce : bounce_pool;
  bounce_in_use : bool;
  bounce_wait_polls : Z
}.

Definition set_bounce_free (v : id_fifo) (b : bounce_pool) : bounce_pool :=
  mkBounce (bounce_buf b) (bounce_phys b) (nb_desc b) v (bounce_map b).
Definition set_bounce_map (v : arr Z) (b : bounce_pool) : bounce_pool :=
  mkBounce (bounce_buf b) (bounce_phys b) (nb_desc b) (bounce_free b) v.

(** ** Operations *)

(** The push of a slot that three places of the driver repeat: it happens only
    when the pool exists. *)
Definition bounce_push (b : bounce_pool) (slot : Z) : res bounce_pool :=
  if non_null (ff_ids (bounce_free b)) && (0 <? nb_desc b) then
    f ← fifo_push (nb_desc b) (bounce_free b) slot;
    mret (set_bounce_free f b)
  else mret b.

(** Forget the slot of a request and give it back: shared by the TX completion
    callback and the drop branch of [ena_rx_poll].  The boolean tells whether
    the request had a slot. *)
Definition bounce_unmap (b : bounce_pool) (req_id : Z) : res (bool * bounce_pool) :=
  if non_null (bounce_map b) && (req_id <? nb_desc b) then
    slot ← aget (bounce_map b) req_id;
    if slot <? 0 then mret (false, b)
    else
      m ← aset (bounce_map b) req_id (-1);
      b ← bounce_push (set_bounce_map m b) (u16 slot);
      mret (true, b)
  else mret (false, b).

Definition ena_netdev_txq_reclaim_slot (arg : option uk_netdev_tx_queue) (req_id : Z)
    : res (option uk_netdev_tx_queue) :=
  match arg with
  | None => mret None
  | Some txq =>
      '(hit, b) ← bounce_unmap (txq_bounce txq) req_id;
      if (hit : bool) then
        mret (Some (mkTxq b (ff_count (bounce_free b) <? nb_desc b) 0))
      else mret (Some txq)
  end.

(** The argument is [drop_netbuf_arg]: the queue, or NULL. *)
Definition ena_netdev_rxq_drop_netbuf (arg : bool) (cpu nb : Z) : list event :=
  if arg then [EvFree cpu nb] else [].

(** A netbuf as the network stack hands it out: its identity, the physical
    address of its data and the size of its buffer. *)
Record netbuf := mkNetbuf { nb_id : Z; nb_data_phys : Z; nb_buflen : Z }.

(** The netbuf allocator: [alloc_rxpkts] of the application, or
    [uk_netbuf_alloc_buf].  Neither is part of the repository. *)
Class NetbufAlloc (W : Type) := nb_alloc : W -> option netbuf * W.

(** Result: the netbuf, the DMA address and the length to post. *)
Definition ena_netbuf_alloc_helper `{NetbufAlloc W} (cpu : Z) (arg : option uk_netdev_rx_queue)
    (w : W) : res (option (Z * Z * Z) * option uk_netdev_rx_queue * list event * W) :=
  match nb_alloc w with
  | (None, w) => mret (None, arg, [], w)
  | (Some nb, w) =>
      let phys := nb_data_phys nb in
      let plain := mret (Some (nb_id nb, phys, u32 (nb_buflen nb)), arg, [], w) in
      match arg with
      | None => plain
      | Some rxq =>
          let b := rxq_bounce rxq in
          if (phys <? ENA_DMA_LOW_MEM_LIMIT) && bounce_buf b then
            if ff_count (bounce_free b) =? 0 then
              mret (None, arg, [EvFree cpu (nb_id nb)], w)
            else
              '(slot, f) ← fifo_pop (nb_desc b) (bounce_free b);
              let rxq := mkRxq (set_bounce_free f b) (i16 slot) in
              mret (Some (nb_id nb, u64 (bounce_phys b + slot * ENA_RX_BUF_SIZE),
                      if nb_buflen nb <? ENA_RX_BUF_SIZE then u32 (nb_buflen nb)
                      else ENA_RX_BUF_SIZE),
                    Some rxq, [], w)
          else plain
      end
  end.

(** ** The partition of the slots *)
Definition mapped_slot (s : Z) : option Z := if 0 <=? s then Some s else None.

(** Slots in use: those of the map and the pending one. *)
Definition slots_mapped (b : bounce_pool) : list Z :=
  match bounce_map b with Some m => omap mapped_slot m | None => [] end.
Definition slots_free (b : bounce_pool) : list Z := fifo_contents (nb_desc b) (bounce_free b).

Record wf_bounce (pending : list Z) (b : bounce_pool) : Prop := {
  wfb_free : wf_fifo (nb_desc b) (bounce_free b);
  wfb_map : exists m, bounce_map b = Some m /\ Z.of_nat (length m) = nb_desc b;
  wfb_part : slots_free b ++ slots_mapped b ++ pending ≡ₚ seqZ 0 (nb_desc b)
}.

Lemma wf_bounce_range pending b s :
  wf_bounce pending b -> s ∈ slots_free b ++ slots_mapped b ++ pending -> 0 <= s < nb_desc b.
Proof. intros [_ _ Hp]. rewrite Hp, elem_of_seqZ. lia. Qed.

Lemma wf_bounce_count pending b :
  wf_bounce pending b ->
  ff_count (bounce_free b) + Z.of_nat (length (slots_mapped b)) + Z.of_nat (length pending)
  = nb_desc b.
Proof.
  intros [Hf _ Hp]. pose proof (wff_count _ _ Hf). pose proof (pow2_depth_bounds _ (wff_depth _ _ Hf)).
  apply Permutation_length in Hp. rewrite !length_app, length_seqZ in Hp.
  unfold slots_free in Hp. rewrite length_fifo_contents in Hp by done. lia.
Qed.

(** The slots in neither of the two are determined up to their order. *)
Lemma wf_bounce_perm l1 l2 b : l1 ≡ₚ l2 -> wf_bounce l1 b -> wf_bounce l2 b.
Proof. intros Hl [? ? Hp]. split; [done | done |]. by rewrite <- Hl. Qed.
Lemma wf_bounce_rest l1 l2 b : wf_bounce l1 b -> wf_bounce l2 b -> l1 ≡ₚ l2.
Proof.
  intros [_ _ H1] [_ _ H2]. rewrite <- H2, !(app_assoc (slots_free b)) in H1.
  by apply Permutation_app_inv_l in H1.
Qed.

(** Taking a slot, giving it back, and recording it for a request. *)
(** The pool of a new queue: every slot free, none mapped. *)
Definition bounce_fresh (phys d : Z) : bounce_pool :=
  mkBounce true phys d (fifo_full d) (Some (replicate (Z.to_nat d) (-1))).

Lemma omap_replicate_none {A B} (f : A -> option B) n x : f x = None -> omap f (replicate n x) = [].
Proof. intros E. induction n as [| n IH]; simpl; [done |]. by rewrite E. Qed.

Lemma wf_bounce_fresh phys d : pow2_depth d -> wf_bounce [] (bounce_fresh phys d).
Proof.
  intros Hd. pose proof (pow2_depth_bounds _ Hd). split; simpl; [by apply fifo_full_wf | |].
  - eexists. split; [done |]. rewrite length_replicate. lia.
  - unfold slots_free, slots_mapped. simpl. by rewrite fifo_full_contents, omap_replicate_none, !app_nil_r.
Qed.

Lemma wf_bounce_pop pending b :
  wf_bounce pending b -> 0 < ff_count (bounce_free b) ->
  wp (fifo_pop (nb_desc b) (bounce_free b)) (fun '(slot, f) =>
    wf_bounce (slot :: pending) (set_bounce_free f b) /\ slots_free b = slot :: slots_free (set_bounce_free f b)
    /\ 0 <= slot < nb_desc b).
Proof.
  intros Hwf Hc. pose proof Hwf as [Hf Hm Hp]. eapply wp_mono; [by apply fifo_pop_spec |].
  intros [slot f] (Hf' & Hcont & _). assert (slots_free b = slot :: slots_free (set_bounce_free f b)) as E by done.
  split; [| split; [done |]].
  - split; [done | done |]. rewrite <- Hp, E. change (slots_mapped (set_bounce_free f b)) with (slots_mapped b).
    rewrite !app_assoc, <- Permutation_middle. done.
  - apply (wf_bounce_range pending b); [done |]. rewrite E. set_solver.
Qed.

Lemma wf_bounce_fifo_push pending s b :
  wf_bounce (s :: pending) b ->
  wp (fifo_push (nb_desc b) (bounce_free b) s) (fun f =>
    wf_bounce pending (set_bounce_free f b) /\ slots_free (set_bounce_free f b) = slots_free b ++ [s]).
Proof.
  intros Hwf. pose proof (wf_bounce_count _ _ Hwf) as Hc. destruct Hwf as [Hf Hm Hp]. simpl in Hc.
  eapply wp_mono; [apply fifo_push_spec; [done | lia] |]. intros f (Hf' & Hcont & _).
  assert (slots_free (set_bounce_free f b) = slots_free b ++ [s]) as E by done. split; [| done]. split; [done | done |].
  rewrite <- Hp, E. change (slots_mapped (set_bounce_free f b)) with (slots_mapped b).
  rewrite <- app_assoc. apply Permutation_app; [done |]. simpl. apply Permutation_middle.
Qed.

Lemma wf_bounce_map_set pending s b m id x :
  wf_bounce (s :: pending) b -> bounce_map b = Some m -> m !! Z.to_nat id = Some x -> x < 0 -> 0 <= s ->
  wf_bounce pending (set_bounce_map (Some (<[Z.to_nat id := s]> m)) b).
Proof.
  intros [Hf (m' & Em' & Hl) Hp] Em Hx Hneg Hs. rewrite Em in Em'. injection Em' as <-.
  split; [done | eexists; split; [done |]; by rewrite length_insert |]. rewrite <- Hp.
  unfold slots_free, slots_mapped; simpl. rewrite Em. apply Permutation_app; [done |].
  rewrite (omap_insert_some mapped_slot m (Z.to_nat id) x s s); [simpl; apply Permutation_middle | done | |].
  - unfold mapped_slot. by rewrite (proj2 (Z.leb_gt _ _)) by lia.
  - unfold mapped_slot. by rewrite (proj2 (Z.leb_le _ _)) by lia.
Qed.

Lemma wf_bounce_push pending s b :
  wf_bounce (s :: pending) b ->
  wp (bounce_push b s) (fun b' => wf_bounce pending b' /\ nb_desc b' = nb_desc b
    /\ bounce_map b' = bounce_map b /\ slots_free b' = slots_free b ++ [s]).
Proof.
  intros Hwf. pose proof (wfb_free _ _ Hwf) as Hf. pose proof (pow2_depth_bounds _ (wff_depth _ _ Hf)).
  destruct (wff_ids _ _ Hf) as (ids & Hids & _). unfold bounce_push. rewrite Hids. simpl.
  destruct (Z.ltb_spec 0 (nb_desc b)); [| lia].
  apply wp_bind. eapply wp_mono; [by apply wf_bounce_fifo_push |]. intros f [? ?]. by apply wp_ret.
Qed.

Lemma wf_bounce_unmap pending b req_id :
  wf_bounce pending b -> 0 <= req_id ->
  wp (bounce_unmap b req_id) (fun '(hit, b') => wf_bounce pending b' /\ nb_desc b' = nb_desc b
    /\ (hit = false -> b' = b)
    /\ (hit = true -> exists s, slots_free b' = slots_free b ++ [s]
          /\ slots_mapped b ≡ₚ s :: slots_mapped b')).
Proof.
  intros Hwf Hreq. pose proof Hwf as [Hf (m & Hm & Hlen) Hp].
  pose proof (pow2_depth_bounds _ (wff_depth _ _ Hf)).
  unfold bounce_unmap. rewrite Hm. simpl. destruct (Z.ltb_spec req_id (nb_desc b)); [| by apply wp_ret].
  apply wp_bind, wp_aget; [lia |]. intros s Hs. destruct (Z.ltb_spec s 0); [by apply wp_ret |].
  apply wp_bind, wp_aset; [lia |]. apply wp_bind.
  set (b1 := set_bounce_map _ _).
  assert (slots_mapped b ≡ₚ s :: slots_mapped b1) as Hmap.
  { unfold slots_mapped, b1; simpl. rewrite Hm. apply omap_insert_none with (x := s); [done | | done].
    unfold mapped_slot. by destruct (Z.leb_spec 0 s); [| lia]. }
  assert (0 <= s < nb_desc b) as Hsr.
  { apply (wf_bounce_range pending b); [done |]. rewrite Hmap. set_solver. }
  rewrite u16_id by lia.
  assert (wf_bounce (s :: pending) b1) as Hwf1.
  { split; simpl; [done | eexists; by rewrite length_insert |]. rewrite <- Hp, Hmap.
    apply Permutation_app; [done |]. symmetry. apply Permutation_middle. }
  eapply wp_mono; [by apply wf_bounce_push |]. intros b' (Hwf' & Hn & Hm' & Hfree). apply wp_ret.
  split_and!; try done. intros _. exists s. split; [done |]. rewrite Hmap.
  unfold slots_mapped. by rewrite Hm'.
Qed.

(** Forgetting the slot of a request leaves it without one, and the others as they were. *)
Lemma bounce_unmap_map pending b id :
  wf_bounce pending b -> 0 <= id ->
  wp (bounce_unmap b id) (fun '(_, b') => forall i s, default [] (bounce_map b') !! i = Some s ->
    s < 0 \/ (i <> Z.to_nat id /\ default [] (bounce_map b) !! i = Some s)).
Proof.
  intros [Hf (m & Hm & Hlen) _] Hid. unfold bounce_unmap. rewrite Hm. cbn [non_null andb].
  assert ((forall s, m !! Z.to_nat id = Some s -> s < 0) -> forall i s, m !! i = Some s ->
    s < 0 \/ (i <> Z.to_nat id /\ m !! i = Some s)) as Hkeep.
  { intros Hs i s Hi. destruct (decide (i = Z.to_nat id)) as [-> |]; auto. }
  destruct (Z.ltb_spec id (nb_desc b)).
  2: { apply wp_ret. rewrite Hm. apply Hkeep. intros s Hs%lookup_lt_Some. lia. }
  apply wp_bind, wp_aget; [lia |]. intros s Hs. destruct (Z.ltb_spec s 0).
  { apply wp_ret. rewrite Hm. apply Hkeep. intros s' Hs'. congruence. }
  apply wp_bind, wp_aset; [lia |]. apply wp_bind. unfold bounce_push. cbn [set_bounce_map bounce_free nb_desc].
  destruct (wff_ids _ _ Hf) as (ids & Hids & Hl). rewrite Hids. cbn [non_null andb].
  destruct (Z.ltb_spec 0 (nb_desc b)); [| lia].
  assert (0 <= ff_tail (bounce_free b) < nb_desc b) by (rewrite (wff_tail _ _ Hf); apply Z.mod_pos_bound; lia).
  unfold fifo_push. rewrite Hids. apply wp_bind, wp_bind, wp_aset; [lia |]. do 3 apply wp_ret.
  cbn [set_bounce_free set_bounce_map bounce_map default]. intros i t Hi.
  apply list_lookup_insert_Some in Hi as [(_ & <- & _) | [Hne Hi]]; [left; lia | right; auto].
Qed.

(** The memory of the pool stays where it is. *)
Definition bounce_shape (b b' : bounce_pool) : Prop :=
  bounce_buf b' = bounce_buf b /\ bounce_phys b' = bounce_phys b /\ nb_desc b' = nb_desc b.

#[export] Instance bounce_shape_preorder : PreOrder bounce_shape.
Proof. unfold bounce_shape. split; [done |]. intros b1 b2 b3 (-> & -> & ->). naive_solver. Qed.

Lemma bounce_push_shape b slot b' : bounce_push b slot = Ret b' -> bounce_shape b b'.
Proof. unfold bounce_push. case_match; [| by intros [= <-]]. destruct (fifo_push _ _ _); simpl; [by intros [= <-] | done..]. Qed.

Lemma bounce_unmap_shape b id hit b' : bounce_unmap b id = Ret (hit, b') -> bounce_shape b b'.
Proof.
  unfold bounce_unmap. case_match; [| by intros [= _ <-]]. destruct (aget _ _) as [slot | |]; [| done..].
  simpl. case_match; [by intros [= _ <-] |]. destruct (aset _ _ _) as [m | |]; [| done..]. simpl.
  destruct (bounce_push _ _) as [b1 | |] eqn:E; [| done..]. intros [= _ <-]. by apply bounce_push_shape in E.
Qed.
