(* ===== verification/Ring.v ===== *)
(** * IO rings

    [struct ena_ring] (include/ena_datapath.h, lines 173-338), its allocation and
    release, the request id pool (src/ena_datapath.c, lines 18-298) and the
    software reset of a ring (src/ena_admin.c, lines 27-92).

    The fields of the C struct are grouped in small records (submission queue,
    completion queue, request id pool, ownership, statistics, LLQ); every field
    keeps its name.  A pointer to an array the driver reads is an [arr] (its
    content, or NULL), a pointer that is only compared with NULL is a boolean,
    and the heap block behind each pointer is in [ring_blocks].  The completion
    queue memory is written by the device and is an argument of the poll
    functions.  The TX and RX tracking buffers, a union in C, are one record. *)

From stdpp Require Import base tactics option list list_numbers numbers sets gmap.
From Stdlib Require Import ZArith Lia.
From S2P Require Import Prelude Fifo Mem Desc Netq.

Definition ENA_RING_TYPE_TX : Z := 1.
Definition ENA_RING_TYPE_RX : Z := 2.
Definition ENA_CPU_ID_NONE : Z := 0xFFFFFFFF.

(** ** State *)

(** [struct ena_tx_buffer] and [struct ena_rx_buffer]. *)
Record ring_buffer := mkBuf {
  buf_netbuf : option Z;
  buf_phys_addr : Z;
  buf_data_len : Z;
  buf_num_descs : Z;
  buf_req_id : Z
}.
Definition buf_empty : ring_buffer := mkBuf None 0 0 0 0.
Definition set_buf_netbuf (v : option Z) (b : ring_buffer) : ring_buffer :=
  mkBuf v (buf_phys_addr b) (buf_data_len b) (buf_num_descs b) (buf_req_id b).

Record ena_tx_foreign_free := mkForeign { fo_req_id : Z; fo_owner_cpu : Z }.

(** One slot of the submission queue memory. *)
Inductive sq_slot :=
| SlotTx (d : ena_eth_io_tx_desc)
| SlotRx (d : ena_eth_io_rx_desc).

Record sq_state := mkSq {
  sq_virt : arr sq_slot;
  sq_phys : Z;
  sq_head_wb_virt : bool;
  sq_head_wb_phys : Z;
  sq_depth : Z;
  sq_tail : Z;
  sq_head : Z;
  sq_phase : Z;
  sq_idx : Z;
  sq_db_offset : Z;
  sq_db : option Z
}.

Record cq_state := mkCq {
  cq_virt : bool;
  cq_phys : Z;
  cq_depth : Z;
  cq_head : Z;
  cq_phase : Z;
  cq_elem_size : Z;
  cq_idx : Z;
  cq_db_offset : Z;
  cq_db : option Z;
  cq_unmask_db_offset : Z
}.

Record pool_state := mkPool {
  free_req : id_fifo;       (* free_req_ids, _head, _tail, _count *)
  req_in_flight : arr Z;
  req_allocated : arr Z
}.

Record own_state := mkOwn {
  tx_owner_cpu : Z;
  tx_owner_warned : bool;
  tx_foreign : arr ena_tx_foreign_free;
  tx_foreign_count : Z
}.

Record ring_stats := mkStats {
  tx_packets : Z;
  tx_bytes : Z;
  rx_packets : Z;
  rx_bytes : Z;
  rx_dropped : Z;
  tx_dropped : Z;
  rx_refill_err : Z
}.

Record ring_llq := mkLlq {
  is_llq : bool;
  push_buf_virt : option Z;
  push_buf_phys : Z;
  push_buf_size : Z;
  llq_header_len : Z;
  llq_entry_size : Z
}.

(** The heap blocks a ring owns. *)
Record ring_blocks := mkBlocks {
  blk_ring : option Z;
  blk_sq : option Z;
  blk_cq : option Z;
  blk_req_ids : option Z;
  blk_bufs : option Z;
  blk_in_flight : option Z;
  blk_allocated : option Z;
  blk_head_wb : option Z;
  blk_foreign : option Z
}.

Record ena_ring := mkRing {
  qid : Z;
  ring_type : Z;
  hw_valid : bool;
  r_sq : sq_state;
  r_cq : cq_state;
  r_pool : pool_state;
  ring_lock : Z;
  r_own : own_state;
  drop_netbuf_cb : bool;     (* registered: ena_netdev_rxq_drop_netbuf *)
  drop_netbuf_arg : bool;
  tx_complete_cb : bool;     (* registered: ena_netdev_txq_reclaim_slot *)
  refill_netbuf : bool;      (* registered: ena_netbuf_alloc_helper *)
  raw_bufs : arr ring_buffer;
  r_stats : ring_stats;
  r_llq : ring_llq;
  r_blk : ring_blocks
}.

(** *** Field updates *)
Definition set_sq_virt (v : arr sq_slot) (s : sq_state) : sq_state :=
  mkSq v (sq_phys s) (sq_head_wb_virt s) (sq_head_wb_phys s) (sq_depth s) (sq_tail s) (sq_head
    s) (sq_phase s) (sq_idx s) (sq_db_offset s) (sq_db s).
Definition set_sq_tail (v : Z) (s : sq_state) : sq_state :=
  mkSq (sq_virt s) (sq_phys s) (sq_head_wb_virt s) (sq_head_wb_phys s) (sq_depth s) v (sq_head
    s) (sq_phase s) (sq_idx s) (sq_db_offset s) (sq_db s).
Definition set_sq_head (v : Z) (s : sq_state) : sq_state :=
  mkSq (sq_virt s) (sq_phys s) (sq_head_wb_virt s) (sq_head_wb_phys s) (sq_depth s) (sq_tail s)
    v (sq_phase s) (sq_idx s) (sq_db_offset s) (sq_db s).
Definition set_sq_phase (v : Z) (s : sq_state) : sq_state :=
  mkSq (sq_virt s) (sq_phys s) (sq_head_wb_virt s) (sq_head_wb_phys s) (sq_depth s) (sq_tail s)
    (sq_head s) v (sq_idx s) (sq_db_offset s) (sq_db s).
Definition set_sq_idx (v : Z) (s : sq_state) : sq_state :=
  mkSq (sq_virt s) (sq_phys s) (sq_head_wb_virt s) (sq_head_wb_phys s) (sq_depth s) (sq_tail s)
    (sq_head s) (sq_phase s) v (sq_db_offset s) (sq_db s).
Definition set_sq_db_offset (v : Z) (s : sq_state) : sq_state :=
  mkSq (sq_virt s) (sq_phys s) (sq_head_wb_virt s) (sq_head_wb_phys s) (sq_depth s) (sq_tail s)
    (sq_head s) (sq_phase s) (sq_idx s) v (sq_db s).
Definition set_sq_db (v : option Z) (s : sq_state) : sq_state :=
  mkSq (sq_virt s) (sq_phys s) (sq_head_wb_virt s) (sq_head_wb_phys s) (sq_depth s) (sq_tail s)
    (sq_head s) (sq_phase s) (sq_idx s) (sq_db_offset s) v.

Definition set_cq_head (v : Z) (s : cq_state) : cq_state :=
  mkCq (cq_virt s) (cq_phys s) (cq_depth s) v (cq_phase s) (cq_elem_size s) (cq_idx s)
    (cq_db_offset s) (cq_db s) (cq_unmask_db_offset s).
Definition set_cq_phase (v : Z) (s : cq_state) : cq_state :=
  mkCq (cq_virt s) (cq_phys s) (cq_depth s) (cq_head s) v (cq_elem_size s) (cq_idx s)
    (cq_db_offset s) (cq_db s) (cq_unmask_db_offset s).
Definition set_cq_idx (v : Z) (s : cq_state) : cq_state :=
  mkCq (cq_virt s) (cq_phys s) (cq_depth s) (cq_head s) (cq_phase s) (cq_elem_size s) v
    (cq_db_offset s) (cq_db s) (cq_unmask_db_offset s).
Definition set_cq_db_offset (v : Z) (s : cq_state) : cq_state :=
  mkCq (cq_virt s) (cq_phys s) (cq_depth s) (cq_head s) (cq_phase s) (cq_elem_size s) (cq_idx s)
    v (cq_db s) (cq_unmask_db_offset s).
Definition set_cq_db (v : option Z) (s : cq_state) : cq_state :=
  mkCq (cq_virt s) (cq_phys s) (cq_depth s) (cq_head s) (cq_phase s) (cq_elem_size s) (cq_idx s)
    (cq_db_offset s) v (cq_unmask_db_offset s).
Definition set_cq_unmask_db_offset (v : Z) (s : cq_state) : cq_state :=
  mkCq (cq_virt s) (cq_phys s) (cq_depth s) (cq_head s) (cq_phase s) (cq_elem_size s) (cq_idx s)
    (cq_db_offset s) (cq_db s) v.

Definition set_free_req (v : id_fifo) (s : pool_state) : pool_state :=
  mkPool v (req_in_flight s) (req_allocated s).
Definition set_req_in_flight (v : arr Z) (s : pool_state) : pool_state :=
  mkPool (free_req s) v (req_allocated s).
Definition set_req_allocated (v : arr Z) (s : pool_state) : pool_state :=
  mkPool (free_req s) (req_in_flight s) v.

Definition set_tx_owner_cpu (v : Z) (s : own_state) : own_state :=
  mkOwn v (tx_owner_warned s) (tx_foreign s) (tx_foreign_count s).
Definition set_tx_owner_warned (v : bool) (s : own_state) : own_state :=
  mkOwn (tx_owner_cpu s) v (tx_foreign s) (tx_foreign_count s).
Definition set_tx_foreign (v : arr ena_tx_foreign_free) (s : own_state) : own_state :=
  mkOwn (tx_owner_cpu s) (tx_owner_warned s) v (tx_foreign_count s).
Definition set_tx_foreign_count (v : Z) (s : own_state) : own_state :=
  mkOwn (tx_owner_cpu s) (tx_owner_warned s) (tx_foreign s) v.

Definition set_tx_packets (v : Z) (s : ring_stats) : ring_stats :=
  mkStats v (tx_bytes s) (rx_packets s) (rx_bytes s) (rx_dropped s) (tx_dropped s)
    (rx_refill_err s).
Definition set_tx_bytes (v : Z) (s : ring_stats) : ring_stats :=
  mkStats (tx_packets s) v (rx_packets s) (rx_bytes s) (rx_dropped s) (tx_dropped s)
    (rx_refill_err s).
Definition set_rx_packets (v : Z) (s : ring_stats) : ring_stats :=
  mkStats (tx_packets s) (tx_bytes s) v (rx_bytes s) (rx_dropped s) (tx_dropped s)
    (rx_refill_err s).
Definition set_rx_bytes (v : Z) (s : ring_stats) : ring_stats :=
  mkStats (tx_packets s) (tx_bytes s) (rx_packets s) v (rx_dropped s) (tx_dropped s)
    (rx_refill_err s).
Definition set_rx_dropped (v : Z) (s : ring_stats) : ring_stats :=
  mkStats (tx_packets s) (tx_bytes s) (rx_packets s) (rx_bytes s) v (tx_dropped s)
    (rx_refill_err s).
Definition set_tx_dropped (v : Z) (s : ring_stats) : ring_stats :=
  mkStats (tx_packets s) (tx_bytes s) (rx_packets s) (rx_bytes s) (rx_dropped s) v
    (rx_refill_err s).
Definition set_rx_refill_err (v : Z) (s : ring_stats) : ring_stats :=
  mkStats (tx_packets s) (tx_bytes s) (rx_packets s) (rx_bytes s) (rx_dropped s) (tx_dropped s)
    v.

Definition set_hw_valid (v : bool) (r : ena_ring) : ena_ring :=
  mkRing (qid r) (ring_type r) v (r_sq r) (r_cq r) (r_pool r) (ring_lock r) (r_own r)
    (drop_netbuf_cb r) (drop_netbuf_arg r) (tx_complete_cb r) (refill_netbuf r) (raw_bufs r)
    (r_stats r) (r_llq r) (r_blk r).
Definition set_r_sq (v : sq_state) (r : ena_ring) : ena_ring :=
  mkRing (qid r) (ring_type r) (hw_valid r) v (r_cq r) (r_pool r) (ring_lock r) (r_own r)
    (drop_netbuf_cb r) (drop_netbuf_arg r) (tx_complete_cb r) (refill_netbuf r) (raw_bufs r)
    (r_stats r) (r_llq r) (r_blk r).
Definition set_r_cq (v : cq_state) (r : ena_ring) : ena_ring :=
  mkRing (qid r) (ring_type r) (hw_valid r) (r_sq r) v (r_pool r) (ring_lock r) (r_own r)
    (drop_netbuf_cb r) (drop_netbuf_arg r) (tx_complete_cb r) (refill_netbuf r) (raw_bufs r)
    (r_stats r) (r_llq r) (r_blk r).
Definition set_r_pool (v : pool_state) (r : ena_ring) : ena_ring :=
  mkRing (qid r) (ring_type r) (hw_valid r) (r_sq r) (r_cq r) v (ring_lock r) (r_own r)
    (drop_netbuf_cb r) (drop_netbuf_arg r) (tx_complete_cb r) (refill_netbuf r) (raw_bufs r)
    (r_stats r) (r_llq r) (r_blk r).
Definition set_ring_lock (v : Z) (r : ena_ring) : ena_ring :=
  mkRing (qid r) (ring_type r) (hw_valid r) (r_sq r) (r_cq r) (r_pool r) v (r_own r)
    (drop_netbuf_cb r) (drop_netbuf_arg r) (tx_complete_cb r) (refill_netbuf r) (raw_bufs r)
    (r_stats r) (r_llq r) (r_blk r).
Definition set_r_own (v : own_state) (r : ena_ring) : ena_ring :=
  mkRing (qid r) (ring_type r) (hw_valid r) (r_sq r) (r_cq r) (r_pool r) (ring_lock r) v
    (drop_netbuf_cb r) (drop_netbuf_arg r) (tx_complete_cb r) (refill_netbuf r) (raw_bufs r)
    (r_stats r) (r_llq r) (r_blk r).
Definition set_raw_bufs (v : arr ring_buffer) (r : ena_ring) : ena_ring :=
  mkRing (qid r) (ring_type r) (hw_valid r) (r_sq r) (r_cq r) (r_pool r) (ring_lock r) (r_own r)
    (drop_netbuf_cb r) (drop_netbuf_arg r) (tx_complete_cb r) (refill_netbuf r) v (r_stats r)
    (r_llq r) (r_blk r).
Definition set_r_stats (v : ring_stats) (r : ena_ring) : ena_ring :=
  mkRing (qid r) (ring_type r) (hw_valid r) (r_sq r) (r_cq r) (r_pool r) (ring_lock r) (r_own r)
    (drop_netbuf_cb r) (drop_netbuf_arg r) (tx_complete_cb r) (refill_netbuf r) (raw_bufs r) v
    (r_llq r) (r_blk r).
Definition set_r_llq (v : ring_llq) (r : ena_ring) : ena_ring :=
  mkRing (qid r) (ring_type r) (hw_valid r) (r_sq r) (r_cq r) (r_pool r) (ring_lock r) (r_own r)
    (drop_netbuf_cb r) (drop_netbuf_arg r) (tx_complete_cb r) (refill_netbuf r) (raw_bufs r)
    (r_stats r) v (r_blk r).
Definition set_ring_callbacks (drop drop_arg complete refill : bool) (r : ena_ring) : ena_ring :=
  mkRing (qid r) (ring_type r) (hw_valid r) (r_sq r) (r_cq r) (r_pool r) (ring_lock r) (r_own r)
    drop drop_arg complete refill (raw_bufs r) (r_stats r) (r_llq r) (r_blk r).

(** ** Locking

    The spin lock is a flag; taking a lock that is held never returns. *)
Definition ena_ring_lock (r : ena_ring) : res ena_ring :=
  if ring_lock r =? 0 then mret (set_ring_lock 1 r) else Hang.
Definition ena_ring_unlock (r : ena_ring) : ena_ring := set_ring_lock 0 r.

(** ** Allocation and release *)
Definition ena_is_power_of_two (val : Z) : bool :=
  (4 <=? val) && (Z.land val (val - 1) =? 0).

Definition stats_zero : ring_stats := mkStats 0 0 0 0 0 0 0.
Definition llq_zero : ring_llq := mkLlq false None 0 0 0 0.

(** Release blocks in order, as the failure branches do. *)
Fixpoint heap_free_list (h : heap) (ps : list (option Z)) : res heap :=
  match ps with
  | [] => mret h
  | p :: ps => h ← heap_free h p; heap_free_list h ps
  end.

Definition alloc_fail (h : heap) (ps : list (option Z)) : res (Z * option ena_ring * heap) :=
  h ← heap_free_list h ps; mret (- ENOMEM, None, h).

(** The fields every branch of [ena_ring_alloc] sets alike. *)
Definition ring_fresh (q ty sq_d cq_d : Z) (sq_p cq_p wb_p : Z) (blk : ring_blocks) : ena_ring :=
  let n := Z.to_nat sq_d in
  let tx := ty =? ENA_RING_TYPE_TX in
  {| qid := q; ring_type := ty; hw_valid := true;
     r_sq := mkSq (Some (replicate n (if tx then SlotTx tx_desc_zero else SlotRx rx_desc_zero)))
               sq_p tx wb_p sq_d 0 0 1 0 0 None;
     r_cq := mkCq true cq_p cq_d 0 1 (if tx then 8 else 16) 0 0 None 0;
     r_pool := mkPool (fifo_full sq_d) (Some (replicate n 0)) (Some (replicate n 0));
     ring_lock := 0;
     r_own := mkOwn ENA_CPU_ID_NONE false
                (if tx then Some (replicate n (mkForeign 0 0)) else None) 0;
     drop_netbuf_cb := false; drop_netbuf_arg := false; tx_complete_cb := false;
     refill_netbuf := false;
     raw_bufs := Some (replicate n buf_empty);
     r_stats := stats_zero; r_llq := llq_zero; r_blk := blk |}.

Definition ena_ring_alloc (h : heap) (q ty sq_d cq_d : Z) : res (Z * option ena_ring * heap) :=
  if negb (ena_is_power_of_two sq_d) || negb (ena_is_power_of_two cq_d) then
    mret (- EINVAL, None, h)
  else if negb ((ty =? ENA_RING_TYPE_TX) || (ty =? ENA_RING_TYPE_RX)) then
    mret (- EINVAL, None, h)
  else
    let '(ring, h) := heap_alloc h in
    if negb (non_null ring) then mret (- ENOMEM, None, h) else
    let '(sq, h) := ena_dma_alloc h in
    match sq with
    | None => alloc_fail h [ring]
    | Some (sqv, sqp) =>
    let '(cq, h) := ena_dma_alloc h in
    match cq with
    | None => alloc_fail h [Some sqv; ring]
    | Some (cqv, cqp) =>
    let '(ids, h) := heap_alloc h in
    if negb (non_null ids) then alloc_fail h [Some cqv; Some sqv; ring] else
    let '(bufs, h) := heap_alloc h in
    if negb (non_null bufs) then alloc_fail h [ids; Some cqv; Some sqv; ring] else
    let '(fl, h) := heap_alloc h in
    if negb (non_null fl) then alloc_fail h [bufs; ids; Some cqv; Some sqv; ring] else
    let '(al, h) := heap_alloc h in
    if negb (non_null al) then alloc_fail h [fl; bufs; ids; Some cqv; Some sqv; ring] else
    if ty =? ENA_RING_TYPE_TX then
      let '(wb, h) := ena_dma_alloc h in
      match wb with
      | None => alloc_fail h [fl; al; bufs; ids; Some cqv; Some sqv; ring]
      | Some (wbv, wbp) =>
      let '(fo, h) := heap_alloc h in
      if negb (non_null fo) then
        alloc_fail h [Some wbv; al; fl; bufs; ids; Some cqv; Some sqv; ring]
      else
        mret (0, Some (ring_fresh q ty sq_d cq_d sqp cqp wbp
                (mkBlocks ring (Some sqv) (Some cqv) ids bufs fl al (Some wbv) fo)), h)
      end
    else
      mret (0, Some (ring_fresh q ty sq_d cq_d sqp cqp 0
              (mkBlocks ring (Some sqv) (Some cqv) ids bufs fl al None None)), h)
    end
    end.

(** Each block is released only when the pointer of its field is not NULL. *)
Definition free_if (live : bool) (h : heap) (p : option Z) : res heap :=
  if live then heap_free h p else mret h.

Definition ena_ring_free (h : heap) (r : ena_ring) : res heap :=
  let b := r_blk r in
  h ← free_if (sq_head_wb_virt (r_sq r)) h (blk_head_wb b);
  h ← free_if (non_null (req_in_flight (r_pool r))) h (blk_in_flight b);
  h ← free_if (non_null (req_allocated (r_pool r))) h (blk_allocated b);
  h ← free_if (non_null (tx_foreign (r_own r))) h (blk_foreign b);
  h ← free_if (non_null (raw_bufs r)) h (blk_bufs b);
  h ← free_if (non_null (ff_ids (free_req (r_pool r)))) h (blk_req_ids b);
  h ← free_if (cq_virt (r_cq r)) h (blk_cq b);
  h ← free_if (non_null (sq_virt (r_sq r))) h (blk_sq b);
  heap_free h (blk_ring b).

(** ** Request ids *)
Definition ena_ring_slot_clear (r : ena_ring) (req_id : Z) : res ena_ring :=
  bufs ← aset (raw_bufs r) req_id buf_empty;
  mret (set_raw_bufs bufs r).

(** [if (a) a[i] = v;] for an array that may be NULL. *)
Definition aset_opt {A} (a : arr A) (i : Z) (v : A) : res (arr A) :=
  if non_null a then aset a i v else mret a.

Definition ena_ring_req_id_alloc (r : ena_ring) : res (Z * Z * ena_ring) :=
  let p := r_pool r in
  if ff_count (free_req p) =? 0 then mret (- EBUSY, 0, r)
  else
    '(id, f) ← fifo_pop (sq_depth (r_sq r)) (free_req p);
    al ← aset_opt (req_allocated p) id 1;
    mret (0, id, set_r_pool (mkPool f (req_in_flight p) al) r).

Definition ena_ring_req_id_free (r : ena_ring) (req_id : Z) : res (Z * ena_ring) :=
  let p := r_pool r in
  if sq_depth (r_sq r) <=? req_id then mret (- EINVAL, r)
  else
    already ← (if non_null (req_allocated p) then
                 a ← aget (req_allocated p) req_id; mret (a =? 0)
               else mret false);
    if (already : bool) then mret (0, r)
    else if sq_depth (r_sq r) <=? ff_count (free_req p) then mret (- EINVAL, r)
    else
      al ← aset_opt (req_allocated p) req_id 0;
      f ← fifo_push (sq_depth (r_sq r)) (free_req p) req_id;
      r ← ena_ring_slot_clear (set_r_pool (mkPool f (req_in_flight p) al) r) req_id;
      mret (0, r).

(** ** Software reset *)

(** A netbuf leaves the ring through the drop callback, or is freed here. *)
Definition ring_drop_netbuf (r : ena_ring) (cpu nb : Z) : list event :=
  if drop_netbuf_cb r then ena_netdev_rxq_drop_netbuf (drop_netbuf_arg r) cpu nb
  else [EvFree cpu nb].

(** The loop over the tracking slots [i], [i + 1], ... ([n] of them). *)
Fixpoint reset_slots (cpu : Z) (n : nat) (i : Z) (r : ena_ring) : res (ena_ring * list event) :=
  match n with
  | O => mret (r, [])
  | S n =>
      b ← aget (raw_bufs r) i;
      match buf_netbuf b with
      | None => reset_slots cpu n (i + 1) r
      | Some nb =>
          r' ← ena_ring_slot_clear r i;
          '(r'', es) ← reset_slots cpu n (i + 1) r';
          mret (r'', ring_drop_netbuf r cpu nb ++ es)
      end
  end.

Definition ena_ring_reset_sw_state (cpu : Z) (r : ena_ring) : res (ena_ring * list event) :=
  let n := Z.to_nat (sq_depth (r_sq r)) in
  let r := set_hw_valid false r in
  let r := set_r_sq (set_sq_db None (set_sq_idx 0 (set_sq_phase 1 (set_sq_head 0
             (set_sq_tail 0 (r_sq r)))))) r in
  let r := set_r_cq (set_cq_db None (set_cq_idx 0 (set_cq_phase 1
             (set_cq_head 0 (r_cq r))))) r in
  '(r, es) ← (if non_null (raw_bufs r) then reset_slots cpu n 0 r else mret (r, []));
  let p := r_pool r in
  let p := if non_null (ff_ids (free_req p)) then set_free_req (fifo_full (sq_depth (r_sq r))) p
           else p in
  let p := if non_null (req_in_flight p) then set_req_in_flight (Some (replicate n 0)) p else p in
  let p := if non_null (req_allocated p) then set_req_allocated (Some (replicate n 0)) p else p in
  mret (set_r_own (set_tx_foreign_count 0 (r_own r)) (set_r_pool p r), es).

(** ** Depths *)
Lemma ena_is_power_of_two_spec v :
  0 <= v < 65536 -> ena_is_power_of_two v = true <-> pow2_depth v.
Proof.
  intros Hv. unfold ena_is_power_of_two, pow2_depth. rewrite andb_true_iff, Z.leb_le, Z.eqb_eq. split.
  - intros [H4 Hl]. exists (Z.log2 v).
    pose proof (Z.log2_spec v ltac:(lia)) as [Hlo Hhi].
    assert (v = 2 ^ Z.log2 v) as E.
    { destruct (Z.eq_dec v (2 ^ Z.log2 v)); [done | exfalso].
      assert (Z.log2 (v - 1) = Z.log2 v) as Hk by (apply Z.log2_unique; [apply Z.log2_nonneg | lia]).
      assert (Z.testbit (Z.land v (v - 1)) (Z.log2 v) = true) as Hb.
      { rewrite Z.land_spec, Z.bit_log2 by lia. rewrite <- Hk at 1. by rewrite Z.bit_log2 by lia. }
      rewrite Hl, Z.bits_0 in Hb. done. }
    split; [| done].
    assert (Z.log2 4 <= Z.log2 v) by (apply Z.log2_le_mono; lia).
    assert (Z.log2 v < 16) by (apply Z.log2_lt_pow2; lia).
    change (Z.log2 4) with 2 in *. lia.
  - intros H. pose proof (pow2_depth_bounds v H).
    rewrite pow2_depth_land by done. rewrite Z.mod_same; lia.
Qed.

(** ** Heap blocks a routine owns

    [owned h0 h ps]: the live blocks of [h] are those of [h0] and the distinct
    new blocks [ps]. *)
Record owned (h0 h : heap) (ps : list Z) : Prop := {
  ow_wf : wf_heap h;
  ow_nodup : NoDup ps;
  ow_new : forall p, p ∈ ps -> p ∉ h_live h0;
  ow_live : h_live h = h_live h0 ∪ list_to_set ps
}.

#[export] Instance owned_proper h0 h : Proper ((≡ₚ) ==> iff) (owned h0 h).
Proof.
  assert (forall ps qs, ps ≡ₚ qs -> owned h0 h ps -> owned h0 h qs) as H.
  { intros ps qs E [Hw Hn Hq Hl]. split; [done | by rewrite <- E | intros p; rewrite <- E; auto |].
    rewrite Hl. f_equal. by apply list_to_set_perm_L. }
  intros ps qs E. split; apply H; [done | by symmetry].
Qed.

Lemma owned_perm h0 h ps qs : qs ≡ₚ ps -> owned h0 h ps -> owned h0 h qs.
Proof. by intros ->. Qed.

Lemma owned_refl h : wf_heap h -> owned h h [].
Proof. intros. split; [done | constructor | set_solver | set_solver]. Qed.

Lemma owned_nil h0 h : owned h0 h [] -> wf_heap h /\ h_live h = h_live h0.
Proof. intros [? _ _ E]. split; [done |]. rewrite E. set_solver. Qed.

Lemma owned_alloc h0 h ps p h' :
  owned h0 h ps -> heap_alloc h = (p, h') -> owned h0 h' (option_list p ++ ps).
Proof.
  intros [Hwf Hnd Hnew Hlive] Ha. destruct (heap_alloc_spec _ _ _ Hwf Ha) as (Hwf' & _ & Hp).
  destruct p as [a |]; simpl.
  - destruct Hp as (-> & _ & Hfresh & Hlive'). rewrite Hlive in Hfresh.
    split; [done | constructor; [set_solver | done] | set_solver |].
    rewrite Hlive', Hlive. set_solver.
  - split; [done.. |]. by rewrite Hp.
Qed.

Lemma owned_dma_alloc h0 h ps p h' :
  owned h0 h ps -> ena_dma_alloc h = (p, h') -> owned h0 h' (option_list (fst <$> p) ++ ps).
Proof.
  intros Ho. unfold ena_dma_alloc. destruct (heap_alloc h) as [[a |] h1] eqn:E; intros [= <- <-];
    exact (owned_alloc _ _ _ _ _ Ho E).
Qed.

Lemma owned_free h0 h ps p ps' :
  owned h0 h ps -> ps ≡ₚ p :: ps' -> wp (heap_free h (Some p)) (fun h' => owned h0 h' ps').
Proof.
  intros [Hwf Hnd Hnew Hlive] Hp. rewrite Hp in Hnd. apply NoDup_cons in Hnd as [Hni Hnd].
  assert (p ∉ h_live h0) by (apply Hnew; rewrite Hp; set_solver).
  assert (list_to_set ps = ({[p]} ∪ list_to_set ps' : gset Z)) as Es by (rewrite Hp; set_solver).
  eapply wp_mono; [apply heap_free_spec; [done |]; rewrite Hlive, Es; set_solver |].
  intros h' (Hwf' & Hl' & _). split; [done | done | |].
  - intros q Hq. apply Hnew. rewrite Hp. set_solver.
  - rewrite Hl', Hlive, Es. set_solver.
Qed.

Lemma owned_free_list h0 h ps qs :
  owned h0 h ps -> ps ≡ₚ qs -> wp (heap_free_list h (Some <$> qs)) (fun h' => owned h0 h' []).
Proof.
  revert h ps. induction qs as [| q qs IH]; intros h ps Ho Hp.
  - apply Permutation_nil_r in Hp as ->. by apply wp_ret.
  - simpl. apply wp_bind. eapply wp_mono; [by eapply owned_free |]. intros h' Ho'. by apply (IH h' qs).
Qed.

(** What [ena_ring_alloc] promises for a result. *)
Definition blocks_of (b : ring_blocks) : list Z :=
  option_list (blk_head_wb b) ++ option_list (blk_in_flight b) ++ option_list (blk_allocated b)
  ++ option_list (blk_foreign b) ++ option_list (blk_bufs b) ++ option_list (blk_req_ids b)
  ++ option_list (blk_cq b) ++ option_list (blk_sq b) ++ option_list (blk_ring b).

Lemma alloc_fail_spec h0 h ps qs :
  owned h0 h ps -> ps ≡ₚ qs ->
  wp (alloc_fail h (Some <$> qs)) (fun '(err, r, h') => err = - ENOMEM /\ r = None /\ owned h0 h' []).
Proof.
  intros Ho Hp. unfold alloc_fail. apply wp_bind.
  eapply wp_mono; [by eapply owned_free_list |]. intros h' Ho'. by apply wp_ret.
Qed.

(** A pointer field is NULL exactly when the ring owns no block for it. *)
Record blocks_ok (r : ena_ring) : Prop := {
  bo_wb : sq_head_wb_virt (r_sq r) = non_null (blk_head_wb (r_blk r));
  bo_fl : non_null (req_in_flight (r_pool r)) = non_null (blk_in_flight (r_blk r));
  bo_al : non_null (req_allocated (r_pool r)) = non_null (blk_allocated (r_blk r));
  bo_fo : non_null (tx_foreign (r_own r)) = non_null (blk_foreign (r_blk r));
  bo_bufs : non_null (raw_bufs r) = non_null (blk_bufs (r_blk r));
  bo_ids : non_null (ff_ids (free_req (r_pool r))) = non_null (blk_req_ids (r_blk r));
  bo_cq : cq_virt (r_cq r) = non_null (blk_cq (r_blk r));
  bo_sq : non_null (sq_virt (r_sq r)) = non_null (blk_sq (r_blk r))
}.

Definition valid_shape (ty sq_d cq_d : Z) : Prop :=
  pow2_depth sq_d /\ pow2_depth cq_d /\ (ty = ENA_RING_TYPE_TX \/ ty = ENA_RING_TYPE_RX).

Definition alloc_post (h0 : heap) (q ty sq_d cq_d : Z) (x : Z * option ena_ring * heap) : Prop :=
  let '(err, r, h') := x in
  match r with
  | None => err = - ENOMEM /\ owned h0 h' []
  | Some r => err = 0 /\ owned h0 h' (blocks_of (r_blk r))
      /\ (exists sqp cqp wbp, r = ring_fresh q ty sq_d cq_d sqp cqp wbp (r_blk r))
      /\ blocks_ok r /\ blk_ring (r_blk r) <> None
  end.

(** One step of the allocation: what was obtained is owned, and a failure releases it all. *)
Ltac alloc_fails :=
  match goal with
  | Ho : owned ?h0 ?h ?ps |- wp (alloc_fail ?h ?qs) _ =>
      let qs' := constr:(omap id qs) in
      let qs' := eval simpl in qs' in
      eapply wp_mono; [apply (alloc_fail_spec h0 h ps qs' Ho) |
        intros [[? ?] ?] (-> & -> & ?); by split]
  end.
Ltac alloc_step a E :=
  match goal with
  | Ho : owned ?h0 ?h ?ps |- context [heap_alloc ?h] =>
      destruct (heap_alloc h) as [[a |] ?] eqn:E; cbn [non_null negb];
      apply (owned_alloc _ _ _ _ _ Ho) in E; simpl in E; clear Ho
  | Ho : owned ?h0 ?h ?ps |- context [ena_dma_alloc ?h] =>
      destruct (ena_dma_alloc h) as [[[a ?] |] ?] eqn:E; cbn [non_null negb];
      apply (owned_dma_alloc _ _ _ _ _ Ho) in E; simpl in E; clear Ho
  end.

#[export] Instance pow2_depth_dec d : Decision (pow2_depth d).
Proof.
  destruct (decide (0 <= d < 65536)) as [Hd | Hd].
  - refine (cast_if (decide (ena_is_power_of_two d = true))); by rewrite <- ena_is_power_of_two_spec.
  - right. intros H%pow2_depth_bounds. lia.
Defined.
#[export] Instance valid_shape_dec ty sq_d cq_d : Decision (valid_shape ty sq_d cq_d).
Proof. unfold valid_shape. apply _. Defined.

Lemma ena_ring_alloc_invalid h q ty sq_d cq_d :
  0 <= sq_d < 65536 -> 0 <= cq_d < 65536 -> ~ valid_shape ty sq_d cq_d ->
  ena_ring_alloc h q ty sq_d cq_d = Ret (- EINVAL, None, h).
Proof.
  intros Hs Hc Hv. unfold ena_ring_alloc, valid_shape in *.
  rewrite <- !ena_is_power_of_two_spec in Hv by done.
  destruct (ena_is_power_of_two sq_d), (ena_is_power_of_two cq_d); try done. simpl.
  destruct (Z.eqb_spec ty ENA_RING_TYPE_TX), (Z.eqb_spec ty ENA_RING_TYPE_RX); try done; tauto.
Qed.

Lemma ena_ring_alloc_spec h q ty sq_d cq_d :
  wf_heap h -> 0 <= sq_d < 65536 -> 0 <= cq_d < 65536 -> valid_shape ty sq_d cq_d ->
  wp (ena_ring_alloc h q ty sq_d cq_d) (alloc_post h q ty sq_d cq_d).
Proof.
  intros Hwf Hs Hc (Hps%ena_is_power_of_two_spec & Hpc%ena_is_power_of_two_spec & Hty); [| done..].
  pose proof (owned_refl h Hwf) as Ho. unfold ena_ring_alloc. rewrite Hps, Hpc. simpl.
  destruct (negb _) eqn:Hn; [exfalso; by destruct Hty as [-> | ->] |].
  alloc_step a1 E1; [| by apply wp_ret].
  alloc_step a2 E2; [| alloc_fails; done].
  alloc_step a3 E3; [| alloc_fails; done].
  alloc_step a4 E4; [| alloc_fails; done].
  alloc_step a5 E5; [| alloc_fails; done].
  alloc_step a6 E6; [| alloc_fails; done].
  alloc_step a7 E7; [| alloc_fails; done].
  destruct (ty =? ENA_RING_TYPE_TX) eqn:Htx.
  - alloc_step a8 E8; [| alloc_fails; apply Permutation_swap].
    alloc_step a9 E9; [| alloc_fails; done].
    apply wp_ret. split_and!; [done | eapply owned_perm; [| done]; unfold blocks_of; perm_solve | | | done].
    + by eexists _, _, _.
    + split; simpl; rewrite ?Htx; done.
  - apply wp_ret. split_and!; [done | eapply owned_perm; [| done]; unfold blocks_of; perm_solve | | | done].
    + by eexists _, _, _.
    + split; simpl; rewrite ?Htx; done.
Qed.

Lemma owned_free_if h0 h p ps :
  owned h0 h (option_list p ++ ps) ->
  wp (free_if (non_null p) h p) (fun h' => owned h0 h' ps).
Proof. intros Ho. destruct p; simpl in *; [by eapply owned_free | by apply wp_ret]. Qed.

Lemma owned_free_opt h0 h p :
  owned h0 h (option_list p) -> wp (heap_free h p) (fun h' => owned h0 h' []).
Proof. intros Ho. destruct p; simpl in *; [by eapply owned_free | by apply wp_ret]. Qed.

Lemma ena_ring_free_spec h0 h r :
  blocks_ok r -> owned h0 h (blocks_of (r_blk r)) ->
  wp (ena_ring_free h r) (fun h' => wf_heap h' /\ h_live h' = h_live h0).
Proof.
  intros Hb Ho. unfold ena_ring_free, blocks_of in *. destruct Hb as [-> -> -> -> -> -> -> ->].
  do 8 (apply wp_bind; eapply wp_mono; [apply (owned_free_if _ _ _ _ Ho) | clear h Ho; intros h Ho]).
  eapply wp_mono; [apply (owned_free_opt _ _ _ Ho) |]. apply owned_nil.
Qed.

(** ** The request id pool

    The free list of the pool is the content of its FIFO; [allocs], [flights] and
    [cells] are the contents of the three arrays indexed by request id. *)
Definition free_ids (d : Z) (p : pool_state) : list Z := fifo_contents d (free_req p).
Definition flights (p : pool_state) : list Z := default [] (req_in_flight p).
Definition allocs (p : pool_state) : list Z := default [] (req_allocated p).
Definition cells (a : arr ring_buffer) : list ring_buffer := default [] a.
#[global] Arguments free_ids _ !p /.
#[global] Arguments flights !p /.
#[global] Arguments allocs !p /.
#[global] Arguments cells !a /.

Definition allocated (p : pool_state) (id : Z) : Prop :=
  exists x, allocs p !! Z.to_nat id = Some x /\ x <> 0.
Definition in_flight (p : pool_state) (id : Z) : Prop :=
  exists x, flights p !! Z.to_nat id = Some x /\ x <> 0.

(** The invariant of the pool: the free list holds, once each, exactly the ids
    that are not marked allocated, and the tracking slot of a free id
    holds no netbuf. *)
Record wf_pool (d : Z) (p : pool_state) (a : arr ring_buffer) : Prop := {
  wp_fifo : wf_fifo d (free_req p);
  wp_fl : req_in_flight p = Some (flights p);
  wp_fl_len : Z.of_nat (length (flights p)) = d;
  wp_al : req_allocated p = Some (allocs p);
  wp_al_len : Z.of_nat (length (allocs p)) = d;
  wp_cells : a = Some (cells a);
  wp_cells_len : Z.of_nat (length (cells a)) = d;
  wp_nodup : NoDup (free_ids d p);
  wp_free : forall id, id ∈ free_ids d p <-> 0 <= id < d /\ allocs p !! Z.to_nat id = Some 0;
  wp_empty : forall id, id ∈ free_ids d p ->
    exists b, cells a !! Z.to_nat id = Some b /\ buf_netbuf b = None
}.

Lemma wf_pool_free_or_allocated d p a id :
  wf_pool d p a -> 0 <= id < d -> id ∈ free_ids d p \/ allocated p id.
Proof.
  intros Hwf Hid. destruct (lookup_in_range (allocs p) id) as [x Hx].
  { rewrite (wp_al_len _ _ _ Hwf). lia. }
  destruct (decide (x = 0)) as [-> | ?]; [left; by apply (wp_free _ _ _ Hwf) | right; by exists x].
Qed.

Lemma wf_pool_not_free d p a id : wf_pool d p a -> allocated p id -> id ∉ free_ids d p.
Proof. intros Hwf (x & Hx & ?) [_ Hy]%(wp_free _ _ _ Hwf). congruence. Qed.

Lemma wf_pool_count d p a :
  wf_pool d p a -> Z.of_nat (length (free_ids d p)) = ff_count (free_req p).
Proof.
  intros Hwf. pose proof (wff_count _ _ (wp_fifo _ _ _ Hwf)).
  unfold free_ids. rewrite length_fifo_contents by apply (wp_fifo _ _ _ Hwf). lia.
Qed.

(** While some id is allocated the pool is not full. *)
Lemma wf_pool_room d p a id :
  wf_pool d p a -> 0 <= id < d -> allocated p id -> ff_count (free_req p) < d.
Proof.
  intros Hwf Hid Hal. rewrite <- (wf_pool_count _ _ _ Hwf).
  pose proof (wf_pool_not_free _ _ _ _ Hwf Hal) as Hni.
  assert (length (id :: free_ids d p) <= length (seqZ 0 d))%nat as H.
  { apply submseteq_length, NoDup_submseteq; [constructor; [done | apply (wp_nodup _ _ _ Hwf)] |].
    intros x [-> | Hx]%elem_of_cons; apply elem_of_seqZ; [lia |].
    apply (wp_free _ _ _ Hwf) in Hx. lia. }
  rewrite length_seqZ in H. simpl in H. lia.
Qed.

(** Cells and in-flight marks of an allocated id may change freely. *)
Lemma wf_pool_set_cell d p a id b :
  wf_pool d p a -> 0 <= id < d -> allocated p id ->
  wf_pool d p (Some (<[Z.to_nat id := b]> (cells a))).
Proof.
  intros Hwf Hid Hal. pose proof (wf_pool_not_free _ _ _ _ Hwf Hal) as Hni.
  destruct Hwf. split; try done; simpl.
  - by rewrite length_insert.
  - intros i Hi. destruct (wp_free0 i) as [[? _] _]; [done |].
    rewrite zlookup_insert by lia. rewrite decide_False by congruence. auto.
Qed.

Lemma wf_pool_set_flight d p a id x :
  wf_pool d p a ->
  wf_pool d (mkPool (free_req p) (Some (<[Z.to_nat id := x]> (flights p))) (req_allocated p)) a.
Proof. intros Hwf. destruct Hwf. split; try done. simpl. by rewrite length_insert. Qed.

Lemma ena_ring_req_id_alloc_spec r d p a :
  d = sq_depth (r_sq r) -> p = r_pool r -> a = raw_bufs r ->
  wf_pool d p a -> 0 < ff_count (free_req p) ->
  wp (ena_ring_req_id_alloc r) (fun '(err, id, r') => err = 0 /\ 0 <= id < d /\
    exists p', r' = set_r_pool p' r /\ wf_pool d p' a /\ free_ids d p = id :: free_ids d p'
    /\ req_in_flight p' = req_in_flight p /\ allocs p' = <[Z.to_nat id := 1]> (allocs p)
    /\ allocated p' id /\ exists b, cells a !! Z.to_nat id = Some b /\ buf_netbuf b = None).
Proof.
  intros Hd Hp Ha Hwf Hpos. unfold ena_ring_req_id_alloc. rewrite <- Hd, <- Hp.
  destruct (Z.eqb_spec (ff_count (free_req p)) 0); [lia |].
  apply wp_bind. eapply wp_mono; [apply fifo_pop_spec; [apply Hwf | done] |].
  intros [id f] (Hf & Hc & _). change (free_ids d p = id :: fifo_contents d f) in Hc.
  pose proof (wp_nodup _ _ _ Hwf) as Hnd. rewrite Hc in Hnd. apply NoDup_cons in Hnd as [Hni Hnd].
  assert (id ∈ free_ids d p) as Hin by (rewrite Hc; set_solver).
  pose proof (wp_empty _ _ _ Hwf _ Hin) as Hcell.
  apply (wp_free _ _ _ Hwf) in Hin as [Hid Hal]. pose proof (wp_al_len _ _ _ Hwf).
  apply wp_bind. rewrite (wp_al _ _ _ Hwf). unfold aset_opt; simpl. apply wp_aset; [lia |].
  apply wp_ret. split; [done |]. split; [done |]. eexists. split; [done |].
  split_and!; try done; [| exists 1; split; [| done]; simpl; apply list_lookup_insert_eq; lia].
  pose proof (wp_free _ _ _ Hwf) as Hfree. rewrite Hc in Hfree.
  destruct Hwf. split; try done; simpl.
  - by rewrite length_insert.
  - intros i. destruct (decide (0 <= i)) as [Hi |].
    2: { split; [| lia]. intros Hi. destruct (Hfree i) as [[? _] _]; [set_solver | lia]. }
    rewrite zlookup_insert by lia. specialize (Hfree i). rewrite elem_of_cons in Hfree.
    case_decide; [subst; split; [done | by intros [_ [=]]] |]. rewrite <- Hfree. naive_solver.
  - intros i Hi. apply wp_empty0. rewrite Hc. set_solver.
Qed.

(** Releasing an allocated id appends it to the free list and empties its slot. *)
Lemma ena_ring_req_id_free_spec r d p a id :
  d = sq_depth (r_sq r) -> p = r_pool r -> a = raw_bufs r ->
  wf_pool d p a -> 0 <= id < d -> allocated p id ->
  wp (ena_ring_req_id_free r id) (fun '(err, r') => err = 0 /\
    exists p', r' = set_raw_bufs (Some (<[Z.to_nat id := buf_empty]> (cells a))) (set_r_pool p' r)
    /\ wf_pool d p' (Some (<[Z.to_nat id := buf_empty]> (cells a)))
    /\ free_ids d p' = free_ids d p ++ [id]
    /\ req_in_flight p' = req_in_flight p /\ allocs p' = <[Z.to_nat id := 0]> (allocs p)).
Proof.
  intros Hd Hp Ha Hwf Hid Hal. pose proof (wf_pool_room _ _ _ _ Hwf Hid Hal) as Hroom.
  pose proof (wf_pool_not_free _ _ _ _ Hwf Hal) as Hni.
  destruct Hal as (x & Hx & Hx0). unfold ena_ring_req_id_free. rewrite <- Hd, <- Hp.
  pose proof (wp_al_len _ _ _ Hwf). pose proof (wp_cells_len _ _ _ Hwf).
  destruct (Z.leb_spec d id); [lia |]. rewrite (wp_al _ _ _ Hwf). simpl.
  apply wp_bind, wp_bind, wp_aget; [lia |]. intros y Hy. apply wp_ret.
  destruct (Z.eqb_spec y 0); [congruence |].
  destruct (Z.leb_spec d (ff_count (free_req p))); [lia |].
  unfold aset_opt; simpl. apply wp_bind, wp_aset; [lia |].
  apply wp_bind. eapply wp_mono; [apply fifo_push_spec; [apply Hwf | done] |].
  intros f (Hf & Hc & _). change (fifo_contents d f = free_ids d p ++ [id]) in Hc.
  unfold ena_ring_slot_clear; simpl. rewrite <- Ha, (wp_cells _ _ _ Hwf).
  apply wp_bind, wp_bind, wp_aset; [lia |]. apply wp_ret, wp_ret. split; [done |].
  eexists. split; [done |]. split_and!; try done.
  pose proof (wp_free _ _ _ Hwf) as Hfree. pose proof (wp_empty _ _ _ Hwf) as Hempty.
  destruct Hwf. split; try done; simpl; rewrite ?length_insert, ?Hc; try done.
  - apply NoDup_app. split_and!; [done | set_solver | apply NoDup_singleton].
  - intros i. rewrite elem_of_app, list_elem_of_singleton. specialize (Hfree i).
    destruct (decide (0 <= i)) as [Hi |]; [| naive_solver lia].
    rewrite zlookup_insert by lia. case_decide; subst; naive_solver.
  - intros i. rewrite elem_of_app, list_elem_of_singleton.
    intros [Hi | ->]; [| exists buf_empty; split; [apply list_lookup_insert_eq; lia | done]].
    destruct (Hfree i) as [[? _] _]; [done |]. rewrite zlookup_insert by lia. case_decide; eauto.
Qed.

(** Releasing an id that is not allocated changes nothing: the release is idempotent. *)
Lemma ena_ring_req_id_free_idle r id :
  wf_pool (sq_depth (r_sq r)) (r_pool r) (raw_bufs r) -> 0 <= id < sq_depth (r_sq r) ->
  ~ allocated (r_pool r) id -> ena_ring_req_id_free r id = Ret (0, r).
Proof.
  intros Hwf Hid Hal. unfold ena_ring_req_id_free.
  destruct (Z.leb_spec (sq_depth (r_sq r)) id); [lia |]. rewrite (wp_al _ _ _ Hwf). cbn [non_null].
  destruct (lookup_in_range (allocs (r_pool r)) id) as [x Hx].
  { rewrite (wp_al_len _ _ _ Hwf). lia. }
  destruct (decide (x = 0)) as [-> |]; [| destruct Hal; by exists x].
  by rewrite (aget_ret (allocs (r_pool r)) id 0) by (done || lia).
Qed.

(** ** The ring invariant *)
Record wf_ring (r : ena_ring) : Prop := {
  wr_type : ring_type r = ENA_RING_TYPE_TX \/ ring_type r = ENA_RING_TYPE_RX;
  wr_pool : wf_pool (sq_depth (r_sq r)) (r_pool r) (raw_bufs r);
  wr_cqd : pow2_depth (cq_depth (r_cq r));
  wr_cqm : cq_virt (r_cq r) = true;
  wr_sqm : exists l, sq_virt (r_sq r) = Some l /\ Z.of_nat (length l) = sq_depth (r_sq r);
  wr_sqi : index_ok (sq_depth (r_sq r)) (sq_tail (r_sq r)) (sq_phase (r_sq r));
  wr_cqi : index_ok (cq_depth (r_cq r)) (cq_head (r_cq r)) (cq_phase (r_cq r));
  wr_blocks : blocks_ok r
}.

Lemma wr_depth r : wf_ring r -> pow2_depth (sq_depth (r_sq r)).
Proof. intros H. exact (wff_depth _ _ (wp_fifo _ _ _ (wr_pool _ H))). Qed.

(** Every operation on requests changes the pool and the cells only this way. *)
Lemma wf_ring_pool r p' a' :
  wf_ring r -> wf_pool (sq_depth (r_sq r)) p' a' -> wf_ring (set_raw_bufs a' (set_r_pool p' r)).
Proof.
  intros Hwf Hp'. pose proof (wr_pool _ Hwf) as Hp. pose proof (wr_blocks _ Hwf) as Hb.
  destruct Hwf. split; try done. destruct Hb as [? Hfl Hal ? Hbufs Hids ? ?].
  destruct (wff_ids _ _ (wp_fifo _ _ _ Hp)) as (ids & E & _).
  destruct (wff_ids _ _ (wp_fifo _ _ _ Hp')) as (ids' & E' & _).
  rewrite (wp_fl _ _ _ Hp) in Hfl. rewrite (wp_al _ _ _ Hp) in Hal.
  rewrite (wp_cells _ _ _ Hp) in Hbufs. rewrite E in Hids.
  destruct a' as [l |]; [| by pose proof (wp_cells _ _ _ Hp')].
  split; simpl; try done; [rewrite (wp_fl _ _ _ Hp') | rewrite (wp_al _ _ _ Hp') | rewrite E']; done.
Qed.

(** The invariant of a changed ring, field by field. *)
Lemma wf_ring_change r r' :
  wf_ring r -> ring_type r' = ring_type r -> r_blk r' = r_blk r ->
  non_null (tx_foreign (r_own r')) = non_null (tx_foreign (r_own r)) ->
  sq_head_wb_virt (r_sq r') = sq_head_wb_virt (r_sq r) -> sq_depth (r_sq r') = sq_depth (r_sq r) ->
  (exists l, sq_virt (r_sq r') = Some l /\ Z.of_nat (length l) = sq_depth (r_sq r)) ->
  index_ok (sq_depth (r_sq r)) (sq_tail (r_sq r')) (sq_phase (r_sq r')) ->
  cq_virt (r_cq r') = true -> cq_depth (r_cq r') = cq_depth (r_cq r) ->
  index_ok (cq_depth (r_cq r)) (cq_head (r_cq r')) (cq_phase (r_cq r')) ->
  wf_pool (sq_depth (r_sq r)) (r_pool r') (raw_bufs r') -> wf_ring r'.
Proof.
  intros Hwf Ety Eblk Efo Ewb Ed (l & El & Hlen) Hi Ecv Ecd Hci Hp'.
  pose proof (wf_ring_pool _ _ _ Hwf Hp') as Hwf'. pose proof (wr_blocks _ Hwf') as Hb.
  destruct (wr_sqm _ Hwf) as (l0 & El0 & _). destruct Hwf. split; rewrite ?Ety, ?Ed, ?Ecd; eauto.
  destruct Hb as [? ? ? ? ? ? ? Hsq]; simpl in *. rewrite El0 in Hsq.
  split; rewrite ?Eblk, ?Ewb, ?Efo, ?El, ?Ecv; try done. congruence.
Qed.

(** The netbufs a ring holds. *)
Definition held (a : arr ring_buffer) : list Z := omap buf_netbuf (cells a).

(** The deferred releases of a TX ring. *)
Definition deferred (o : own_state) : list ena_tx_foreign_free :=
  take (Z.to_nat (tx_foreign_count o)) (default [] (tx_foreign o)).
Arguments deferred !o /.

(** Every deferred release names, once, a request that is out of the free pool,
    no longer in flight, and still holds its netbuf. *)
Record wf_deferred (d : Z) (p : pool_state) (a : arr ring_buffer) (o : own_state) : Prop := {
  wd_arr : exists l, tx_foreign o = Some l /\ Z.of_nat (length l) = d;
  wd_count : 0 <= tx_foreign_count o <= d;
  wd_nodup : NoDup (fo_req_id <$> deferred o);
  wd_each : forall e, e ∈ deferred o ->
    0 <= fo_req_id e < d /\ allocated p (fo_req_id e) /\ ~ in_flight p (fo_req_id e)
    /\ exists b nb, cells a !! Z.to_nat (fo_req_id e) = Some b /\ buf_netbuf b = Some nb
}.

(** The invariant of a TX ring: an id in flight is allocated, and the deferred
    releases are well formed. *)
Record wf_tx (r : ena_ring) : Prop := {
  wt_ring : wf_ring r;
  wt_type : ring_type r = ENA_RING_TYPE_TX;
  wt_flight : forall id, 0 <= id -> in_flight (r_pool r) id -> allocated (r_pool r) id;
  wt_deferred : wf_deferred (sq_depth (r_sq r)) (r_pool r) (raw_bufs r) (r_own r)
}.

Definition wf_rx (r : ena_ring) : Prop := wf_ring r /\ ring_type r = ENA_RING_TYPE_RX.

(** *** Fresh rings *)
Lemma lookup_replicate_Z {A} n (x : A) i y :
  replicate (Z.to_nat n) x !! i = Some y -> y = x.
Proof. intros H. by apply lookup_replicate in H as [-> _]. Qed.

Lemma wf_pool_fresh d :
  pow2_depth d ->
  wf_pool d (mkPool (fifo_full d) (Some (replicate (Z.to_nat d) 0)) (Some (replicate (Z.to_nat d) 0)))
    (Some (replicate (Z.to_nat d) buf_empty)).
Proof.
  intros Hd. pose proof (pow2_depth_bounds _ Hd).
  split; simpl; rewrite ?length_replicate, ?fifo_full_contents by done; try done; try lia.
  - by apply fifo_full_wf.
  - apply NoDup_seqZ.
  - intros id. rewrite elem_of_seqZ. split; [| lia]. intros. split; [lia |].
    apply lookup_replicate_2. lia.
  - intros id Hid%elem_of_seqZ. exists buf_empty. split; [| done]. apply lookup_replicate_2. lia.
Qed.

Lemma ring_fresh_wf q ty sq_d cq_d sqp cqp wbp blk :
  pow2_depth sq_d -> pow2_depth cq_d -> ty = ENA_RING_TYPE_TX \/ ty = ENA_RING_TYPE_RX ->
  blocks_ok (ring_fresh q ty sq_d cq_d sqp cqp wbp blk) ->
  wf_ring (ring_fresh q ty sq_d cq_d sqp cqp wbp blk).
Proof.
  intros Hs Hc Hty Hb. pose proof (pow2_depth_bounds _ Hs). pose proof (pow2_depth_bounds _ Hc).
  split; simpl; try done.
  - by apply wf_pool_fresh.
  - eexists. split; [done |]. rewrite length_replicate. lia.
Qed.

Lemma wf_tx_idle r :
  wf_ring r -> ring_type r = ENA_RING_TYPE_TX ->
  (forall id, 0 <= id -> ~ in_flight (r_pool r) id) -> tx_foreign_count (r_own r) = 0 ->
  (exists l, tx_foreign (r_own r) = Some l /\ Z.of_nat (length l) = sq_depth (r_sq r)) ->
  wf_tx r.
Proof.
  intros Hwf Hty Hfl Hc (l & Hl & Hlen). pose proof (pow2_depth_bounds _ (wr_depth _ Hwf)).
  assert (deferred (r_own r) = []) as Hd by (unfold deferred; by rewrite Hc, take_0).
  split; try done.
  - intros id ? Hid. by destruct (Hfl id).
  - split; [eauto | lia | |]; rewrite Hd; [constructor | set_solver].
Qed.

Lemma not_in_flight_zero f al n id :
  ~ in_flight (mkPool f (Some (replicate (Z.to_nat n) 0)) al) id.
Proof. intros (x & Hx & Hx0). simpl in Hx. by apply lookup_replicate_Z in Hx. Qed.

Lemma ring_fresh_wf_tx q sq_d cq_d sqp cqp wbp blk :
  pow2_depth sq_d -> pow2_depth cq_d ->
  blocks_ok (ring_fresh q ENA_RING_TYPE_TX sq_d cq_d sqp cqp wbp blk) ->
  wf_tx (ring_fresh q ENA_RING_TYPE_TX sq_d cq_d sqp cqp wbp blk).
Proof.
  intros Hs Hc Hb. pose proof (pow2_depth_bounds _ Hs). apply wf_tx_idle; try done.
  - apply ring_fresh_wf; auto.
  - intros. apply not_in_flight_zero.
  - eexists. split; [done |]. rewrite length_replicate. simpl. lia.
Qed.

(** *** Reset *)
Definition clear_held (b : ring_buffer) : ring_buffer :=
  match buf_netbuf b with None => b | Some _ => buf_empty end.

Lemma clear_held_netbuf b : buf_netbuf (clear_held b) = None.
Proof. unfold clear_held. by destruct (buf_netbuf b) eqn:E. Qed.

Lemma reset_slots_spec cpu l2 : forall l1 r,
  raw_bufs r = Some (l1 ++ l2) ->
  reset_slots cpu (length l2) (Z.of_nat (length l1)) r
  = Ret (set_raw_bufs (Some (l1 ++ (clear_held <$> l2))) r,
         omap buf_netbuf l2 ≫= ring_drop_netbuf r cpu).
Proof.
  induction l2 as [| b l2 IH]; intros l1 r Hr; simpl.
  - rewrite app_nil_r in *. destruct r. simpl in Hr. by subst.
  - rewrite Hr. rewrite (aget_ret (l1 ++ b :: l2) (Z.of_nat (length l1)) b).
    2: lia. 2: by rewrite Nat2Z.id, list_lookup_middle.
    assert (Z.of_nat (length l1) + 1 = Z.of_nat (length (l1 ++ [b]))) as Hlen
      by (rewrite length_app; simpl; lia).
    simpl. unfold clear_held at 1. destruct (buf_netbuf b) as [nb |] eqn:Hnb; simpl.
    + unfold ena_ring_slot_clear. rewrite Hr, aset_ret by (rewrite length_app; simpl; lia). simpl.
      rewrite Nat2Z.id, insert_app_r_alt, Nat.sub_diag by lia. simpl.
      assert (Z.of_nat (length l1) + 1 = Z.of_nat (length (l1 ++ [buf_empty]))) as Hlen'
        by (rewrite length_app; simpl; lia).
      rewrite Hlen', IH by (simpl; by rewrite <- app_assoc). simpl. rewrite <- app_assoc. done.
    + rewrite Hlen, IH by (by rewrite <- app_assoc). by rewrite <- app_assoc.
Qed.

(** Where the netbufs of a reset or a drop go: the drop callback with no queue
    behind it swallows them. *)
Definition drop_releases (r : ena_ring) : bool := negb (drop_netbuf_cb r) || drop_netbuf_arg r.

Lemma freed_drops r cpu nbs :
  drop_releases r = true -> freed (nbs ≫= ring_drop_netbuf r cpu) = nbs.
Proof.
  intros Hd. induction nbs as [| nb nbs IH]; [done |].
  change ((nb :: nbs) ≫= ring_drop_netbuf r cpu)
    with (ring_drop_netbuf r cpu nb ++ (nbs ≫= ring_drop_netbuf r cpu)). rewrite freed_app, IH.
  unfold ring_drop_netbuf, ena_netdev_rxq_drop_netbuf, drop_releases in *.
  by destruct (drop_netbuf_cb r), (drop_netbuf_arg r).
Qed.

Lemma held_cleared l : omap buf_netbuf (clear_held <$> l) = [].
Proof. induction l as [| b l IH]; [done |]. simpl. by rewrite clear_held_netbuf. Qed.

(** The state a reset leaves: no request, every id free in order, no held netbuf,
    the hardware marked invalid and the indices at their start. *)
Record ring_pristine (r : ena_ring) : Prop := {
  rp_valid : hw_valid r = false;
  rp_tail : sq_tail (r_sq r) = 0 /\ sq_head (r_sq r) = 0 /\ sq_phase (r_sq r) = 1;
  rp_head : cq_head (r_cq r) = 0 /\ cq_phase (r_cq r) = 1;
  rp_db : sq_db (r_sq r) = None /\ cq_db (r_cq r) = None;
  rp_free : free_ids (sq_depth (r_sq r)) (r_pool r) = seqZ 0 (sq_depth (r_sq r));
  rp_flight : forall id, ~ in_flight (r_pool r) id;
  rp_held : held (raw_bufs r) = [];
  rp_deferred : deferred (r_own r) = []
}.

Definition reset_ring (r : ena_ring) : ena_ring :=
  let n := Z.to_nat (sq_depth (r_sq r)) in
  set_r_own (set_tx_foreign_count 0 (r_own r))
    (set_r_pool (mkPool (fifo_full (sq_depth (r_sq r))) (Some (replicate n 0)) (Some (replicate n 0)))
      (set_raw_bufs (Some (clear_held <$> cells (raw_bufs r)))
        (set_r_cq (set_cq_db None (set_cq_idx 0 (set_cq_phase 1 (set_cq_head 0 (r_cq r)))))
          (set_r_sq (set_sq_db None (set_sq_idx 0 (set_sq_phase 1 (set_sq_head 0
             (set_sq_tail 0 (r_sq r)))))) (set_hw_valid false r))))).

Lemma ena_ring_reset_sw_state_eq cpu r :
  wf_ring r ->
  ena_ring_reset_sw_state cpu r
  = Ret (reset_ring r, held (raw_bufs r) ≫= ring_drop_netbuf r cpu).
Proof.
  intros Hwf. pose proof (wr_pool _ Hwf) as Hp. unfold ena_ring_reset_sw_state, held. simpl.
  assert (non_null (raw_bufs r) = true) as -> by (by rewrite (wp_cells _ _ _ Hp)).
  rewrite <- (wp_cells_len _ _ _ Hp) at 1. rewrite Nat2Z.id.
  rewrite (reset_slots_spec cpu (cells (raw_bufs r)) []) by exact (wp_cells _ _ _ Hp). simpl.
  destruct (wff_ids _ _ (wp_fifo _ _ _ Hp)) as (ids & -> & _).
  simpl. rewrite (wp_fl _ _ _ Hp). simpl. rewrite (wp_al _ _ _ Hp). done.
Qed.

Lemma wf_ring_reset r : wf_ring r -> wf_ring (reset_ring r).
Proof.
  intros Hwf. pose proof (wr_depth _ Hwf) as Hd. pose proof (pow2_depth_bounds _ Hd).
  pose proof (pow2_depth_bounds _ (wr_cqd _ Hwf)). pose proof (wf_pool_fresh _ Hd) as Hf.
  pose proof (wr_pool _ Hwf) as Hp. pose proof (wr_blocks _ Hwf) as Hb.
  destruct Hwf. split; try done; simpl.
  - destruct Hf. split; try done; simpl.
    + by rewrite length_fmap, (wp_cells_len _ _ _ Hp).
    + intros id Hid%wp_free0. destruct (lookup_in_range (cells (raw_bufs r)) id) as [b Hb'].
      { rewrite (wp_cells_len _ _ _ Hp). lia. }
      exists (clear_held b). by rewrite list_lookup_fmap, Hb', clear_held_netbuf.
  - destruct Hb as [? Hfl Hal ? Hbufs Hids ? ?]. destruct (wff_ids _ _ (wp_fifo _ _ _ Hp)) as (ids & E & _).
    rewrite (wp_fl _ _ _ Hp) in Hfl. rewrite (wp_al _ _ _ Hp) in Hal.
    rewrite (wp_cells _ _ _ Hp) in Hbufs. rewrite E in Hids. by split.
Qed.

Lemma ring_pristine_reset r : wf_ring r -> ring_pristine (reset_ring r).
Proof.
  intros Hwf. split; try done; simpl.
  - apply fifo_full_contents, wr_depth, Hwf.
  - intros id. apply not_in_flight_zero.
  - unfold held; simpl. apply held_cleared.
Qed.

Lemma wf_tx_reset r : wf_tx r -> wf_tx (reset_ring r).
Proof.
  intros [Hwf Hty _ [Harr _ _ _]]. apply wf_tx_idle; try done.
  - by apply wf_ring_reset.
  - intros. apply not_in_flight_zero.
Qed.

(** ** Theorems *)

(** Ring allocation.  [ena_ring_alloc] rejects with -EINVAL exactly the
    depths that are not powers of two of at least 4 and the unknown ring types;
    it never faults, whatever allocations fail; on success it returns a ring
    that satisfies the ring invariant and owns exactly the blocks it allocated;
    on every failure path all it allocated is released again, once. *)
Theorem ring_alloc_correct h q ty sq_d cq_d :
  wf_heap h -> 0 <= sq_d < 65536 -> 0 <= cq_d < 65536 ->
  wp (ena_ring_alloc h q ty sq_d cq_d) (fun '(err, r, h') =>
    (err = - EINVAL <-> ~ valid_shape ty sq_d cq_d)
    /\ match r with
       | None => (err = - EINVAL \/ err = - ENOMEM) /\ h_live h' = h_live h
       | Some r => err = 0 /\ wf_ring r /\ (ty = ENA_RING_TYPE_TX -> wf_tx r)
           /\ (ty = ENA_RING_TYPE_RX -> wf_rx r)
           /\ owned h h' (blocks_of (r_blk r))
       end).
Proof.
  intros Hwf Hs Hc.
  destruct (decide (valid_shape ty sq_d cq_d)) as [Hv | Hv].
  2: { rewrite ena_ring_alloc_invalid by done. split; [tauto |]. split; [by left | done]. }
  eapply wp_mono; [by apply ena_ring_alloc_spec |]. intros [[err [r |]] h'].
  - intros (-> & Ho & (sqp & cqp & wbp & E) & Hb & _). split; [done |]. split; [done |].
    destruct Hv as (? & ? & Hty). rewrite E in Hb |- *. split_and!.
    + by apply ring_fresh_wf.
    + intros ->. by apply ring_fresh_wf_tx.
    + intros ->. split; [by apply ring_fresh_wf | done].
    + by rewrite E in Ho.
  - intros [-> Ho]. split; [done |]. split; [by right | by apply owned_nil].
Qed.

Definition example_heap : heap := mkHeap 1 ∅ (fun _ => true) (fun a => a * 4096).

Lemma example_heap_wf : wf_heap example_heap.
Proof. split; [done |]. set_solver. Qed.

Lemma ring_alloc_correct_witness :
  wp (ena_ring_alloc example_heap 0 ENA_RING_TYPE_TX 4 4) (fun '(err, r, h') =>
    match r with Some r => wf_tx r /\ err = 0 | None => False end).
Proof.
  pose proof (ring_alloc_correct example_heap 0 ENA_RING_TYPE_TX 4 4 example_heap_wf
                ltac:(lia) ltac:(lia)) as H.
  vm_compute ena_ring_alloc in H |- *. destruct H as (_ & He & _ & Ht & _). split; auto.
Defined.

(** Allocation and release are a round trip on the heap.  Releasing a ring
    [ena_ring_alloc] returned frees each of its blocks exactly once and leaves
    the heap with the blocks it had before the allocation. *)
Theorem ring_alloc_free_roundtrip h q ty sq_d cq_d r h1 :
  wf_heap h -> 0 <= sq_d < 65536 -> 0 <= cq_d < 65536 ->
  ena_ring_alloc h q ty sq_d cq_d = Ret (0, Some r, h1) ->
  wp (ena_ring_free h1 r) (fun h2 => wf_heap h2 /\ h_live h2 = h_live h).
Proof.
  intros Hwf Hs Hc Ha.
  assert (valid_shape ty sq_d cq_d) as Hv.
  { unfold ena_ring_alloc in Ha. destruct (negb _ || negb _) eqn:E1; [done |].
    destruct (negb (_ || _)) eqn:E2; [done |]. unfold valid_shape.
    rewrite <- !ena_is_power_of_two_spec by done.
    rewrite orb_false_iff, !negb_false_iff in E1. rewrite negb_false_iff, orb_true_iff, !Z.eqb_eq in E2.
    naive_solver. }
  pose proof (ena_ring_alloc_spec h q ty sq_d cq_d Hwf Hs Hc Hv) as H. rewrite Ha in H.
  destruct H as (_ & Ho & _ & Hb & _). by apply ena_ring_free_spec.
Qed.

Lemma ring_alloc_free_roundtrip_witness :
  exists r h1, ena_ring_alloc example_heap 0 ENA_RING_TYPE_RX 4 8 = Ret (0, Some r, h1)
    /\ wp (ena_ring_free h1 r) (fun h2 => wf_heap h2 /\ h_live h2 = ∅).
Proof.
  eexists _, _. split; [reflexivity |].
  apply (ring_alloc_free_roundtrip example_heap 0 ENA_RING_TYPE_RX 4 8);
    [apply example_heap_wf | lia | lia | reflexivity].
Defined.

(** *** The pool implements a queue of ids

    The abstract pool is the list of free ids; the concrete one is the array, its
    two indices, its count and the ownership marks. *)
Inductive pool_op := PAlloc | PFree (id : Z).

Definition pool_step (op : pool_op) (r : ena_ring) : res (Z * Z * ena_ring) :=
  match op with
  | PAlloc => ena_ring_req_id_alloc r
  | PFree id => '(err, r) ← ena_ring_req_id_free r id; mret (err, 0, r)
  end.

Fixpoint pool_run (ops : list pool_op) (r : ena_ring) : res (list (Z * Z) * ena_ring) :=
  match ops with
  | [] => mret ([], r)
  | op :: ops =>
      '(err, id, r) ← pool_step op r;
      '(out, r) ← pool_run ops r;
      mret ((err, id) :: out, r)
  end.

Definition apool_step (d : Z) (op : pool_op) (free : list Z) : Z * Z * list Z :=
  match op with
  | PAlloc => match free with [] => (- EBUSY, 0, []) | id :: free => (0, id, free) end
  | PFree id =>
      if d <=? id then (- EINVAL, 0, free)
      else if decide (id ∈ free) then (0, 0, free) else (0, 0, free ++ [id])
  end.

Fixpoint apool_run (d : Z) (ops : list pool_op) (free : list Z) : list (Z * Z) * list Z :=
  match ops with
  | [] => ([], free)
  | op :: ops =>
      let '(err, id, free) := apool_step d op free in
      let '(out, free) := apool_run d ops free in
      ((err, id) :: out, free)
  end.

Definition pool_ok (r : ena_ring) : Prop := wf_pool (sq_depth (r_sq r)) (r_pool r) (raw_bufs r).
Definition pool_list (r : ena_ring) : list Z := free_ids (sq_depth (r_sq r)) (r_pool r).

Definition op_ok (op : pool_op) : Prop := match op with PAlloc => True | PFree id => 0 <= id end.

Lemma pool_step_sim op r :
  pool_ok r -> op_ok op ->
  wp (pool_step op r) (fun '(err, id, r') =>
    pool_ok r' /\ sq_depth (r_sq r') = sq_depth (r_sq r)
    /\ (err, id, pool_list r') = apool_step (sq_depth (r_sq r)) op (pool_list r)).
Proof.
  intros Hok Hop. destruct op as [| id]; simpl.
  - pose proof (wf_pool_count _ _ _ Hok) as Hc.
    destruct (decide (ff_count (free_req (r_pool r)) = 0)) as [E | E].
    + unfold ena_ring_req_id_alloc. rewrite E. apply wp_ret. split_and!; try done.
      unfold pool_list. by destruct (free_ids _ _); [| simpl in Hc; lia].
    + eapply wp_mono; [apply ena_ring_req_id_alloc_spec; try done; lia |].
      intros [[err id] r'] (-> & _ & p' & -> & Hwf & Hl & _). split_and!; try done.
      unfold pool_list. rewrite Hl. done.
  - apply wp_bind. destruct (Z.leb_spec (sq_depth (r_sq r)) id).
    { unfold ena_ring_req_id_free. destruct (Z.leb_spec (sq_depth (r_sq r)) id); [| lia].
      by repeat apply wp_ret. }
    case_decide as Hin.
    + rewrite ena_ring_req_id_free_idle; [by apply wp_ret, wp_ret | done | simpl in Hop; lia |].
      intros Hal. by apply (wf_pool_not_free _ _ _ _ Hok Hal).
    + destruct (wf_pool_free_or_allocated _ _ _ id Hok) as [? | Hal]; [simpl in Hop; lia | done |].
      eapply wp_mono; [eapply ena_ring_req_id_free_spec; try done |].
      intros [err r'] (-> & p' & -> & Hwf & Hl & _). apply wp_ret. split_and!; try done.
      unfold pool_list. simpl. by rewrite Hl.
Qed.


Definition example_ring (ty d : Z) : ena_ring :=
  ring_fresh 0 ty d d 0x10000 0x20000 0x30000
    (if ty =? ENA_RING_TYPE_TX then mkBlocks (Some 1) (Some 2) (Some 3) (Some 4) (Some 5) (Some 6)
                                  (Some 7) (Some 8) (Some 9)
     else mkBlocks (Some 1) (Some 2) (Some 3) (Some 4) (Some 5) (Some 6) (Some 7) None None).

Lemma pow2_depth_4 : pow2_depth 4.
Proof. by exists 2. Qed.

Lemma example_tx_wf : wf_tx (example_ring ENA_RING_TYPE_TX 4).
Proof. apply ring_fresh_wf_tx; [apply pow2_depth_4 | apply pow2_depth_4 | by split]. Qed.

Lemma example_rx_wf : wf_rx (example_ring ENA_RING_TYPE_RX 4).
Proof.
  split; [| done]. apply ring_fresh_wf; [apply pow2_depth_4 | apply pow2_depth_4 | by right | by split].
Qed.

Definition example_pool_ops : list pool_op := [PAlloc; PAlloc; PFree 1; PFree 1; PFree 4; PAlloc].


(** Device reset of a ring.  [ena_ring_reset_sw_state] never faults on a
    well-formed ring; it leaves a pristine ring (no request in flight, every id
    back in the pool in order, no netbuf held, no deferred release, indices and
    phases at their start, hardware marked invalid) that satisfies the ring
    invariant, and releases exactly the netbufs the ring held, each once. *)
Theorem ring_reset_correct cpu r :
  wf_ring r -> drop_releases r = true ->
  wp (ena_ring_reset_sw_state cpu r) (fun '(r', es) =>
    wf_ring r' /\ (wf_tx r -> wf_tx r') /\ ring_pristine r'
    /\ freed es = held (raw_bufs r) /\ ring_lock r' = ring_lock r).
Proof.
  intros Hwf Hdrop. rewrite ena_ring_reset_sw_state_eq by done. apply wp_ret.
  split_and!; [by apply wf_ring_reset | apply wf_tx_reset | by apply ring_pristine_reset | | done].
  by apply freed_drops.
Qed.

(** A ring with one request outstanding: id 0 in flight, holding netbuf 7. *)
Definition example_busy : ena_ring :=
  let r := example_ring ENA_RING_TYPE_TX 4 in
  set_raw_bufs (Some [mkBuf (Some 7) 0x1000 60 1 0; buf_empty; buf_empty; buf_empty])
    (set_r_pool (mkPool (mkFifo (Some [0; 1; 2; 3]) 1 0 3) (Some [1; 0; 0; 0]) (Some [1; 0; 0; 0])) r).

Lemma example_busy_wf : wf_ring example_busy.
Proof.
  split; try done; [by left | | apply pow2_depth_4 | by eexists].
  split; try done.
  - split; try done; [apply pow2_depth_4 | by eexists].
  - apply (bool_decide_unpack _). by vm_compute.
  - intros id. change (free_ids (sq_depth (r_sq example_busy)) (r_pool example_busy)) with [1; 2; 3].
    rewrite !elem_of_cons, elem_of_nil. split.
    + intros [-> | [-> | [-> | []]]]; done.
    + change (0 <= id < 4 /\ [1; 0; 0; 0] !! Z.to_nat id = Some 0 -> id = 1 \/ id = 2 \/ id = 3 \/ False).
      intros [Hid Hal]. assert (id = 0 \/ id = 1 \/ id = 2 \/ id = 3) as [-> | ?] by lia; [done | lia].
  - intros id. change (free_ids (sq_depth (r_sq example_busy)) (r_pool example_busy)) with [1; 2; 3].
    rewrite !elem_of_cons, elem_of_nil. intros [-> | [-> | [-> | []]]]; by eexists.
Qed.

Lemma ring_reset_correct_witness :
  wp (ena_ring_reset_sw_state 0 example_busy) (fun '(r', es) => ring_pristine r' /\ freed es = [7]).
Proof.
  pose proof (ring_reset_correct 0 example_busy example_busy_wf eq_refl) as H.
  eapply wp_mono; [exact H |]. intros [r' es] (_ & _ & Hp & Hf & _). by split.
Defined.
