(* ===== verification/Tx.v ===== *)
(** * Transmit path

    src/ena_tx.c: submission of a packet, the doorbell, the completion poll and
    the hand-over of completed buffers to the core that sent them.

    The completion queue is memory the device writes while the driver reads it.
    A poll therefore takes the queue as a view [nat -> nat -> list cdesc]: what
    the [k]-th read of the [j]-th iteration sees (read 0 is the phase flag, read
    1 the request id, read 2 the submission head).  A theorem over every view
    covers a device that changes a completion between two reads of it. *)

From stdpp Require Import base tactics option list list_numbers numbers sets gmap.
From Stdlib Require Import ZArith Lia.
From S2P Require Import Prelude Fifo Mem Desc Netq Ring.

(** ** Index updates shared by both paths *)
Definition sq_advance (r : ena_ring) : ena_ring :=
  let '(tail, phase) := ring_advance (sq_depth (r_sq r)) (sq_tail (r_sq r)) (sq_phase (r_sq r)) in
  set_r_sq (set_sq_phase phase (set_sq_tail tail (r_sq r))) r.

Definition cq_advance (r : ena_ring) : ena_ring :=
  let '(head, phase) := ring_advance (cq_depth (r_cq r)) (cq_head (r_cq r)) (cq_phase (r_cq r)) in
  set_r_cq (set_cq_phase phase (set_cq_head head (r_cq r))) r.

(** ** Submission *)
Definition ena_tx_free_space (r : ena_ring) : Z :=
  if negb (ring_type r =? ENA_RING_TYPE_TX) then 0 else ff_count (free_req (r_pool r)).

(** Result: return value, request id, ring. *)
Definition ena_tx_submit (cpu : Z) (r : ena_ring) (pkt : ena_tx_pkt) : res (Z * Z * ena_ring) :=
  if negb (ring_type r =? ENA_RING_TYPE_TX) then mret (- EINVAL, 0, r)
  else if negb (hw_valid r) then mret (- ENODEV, 0, r)
  else if (txp_len pkt =? 0) || (0xFFFF <? txp_len pkt) then mret (- EINVAL, 0, r)
  else
    r ← ena_ring_lock r;
    if ff_count (free_req (r_pool r)) =? 0 then mret (- EBUSY, 0, ena_ring_unlock r)
    else
      '(ret, req_id, r) ← ena_ring_req_id_alloc r;
      if z2b ret then mret (ret, 0, ena_ring_unlock r)
      else
        fl ← aset_opt (req_in_flight (r_pool r)) req_id 1;
        let r := set_r_pool (set_req_in_flight fl (r_pool r)) r in
        bufs ← aset (raw_bufs r) req_id
                 (mkBuf (txp_netbuf pkt) (txp_phys_addr pkt) (txp_len pkt) 1 req_id);
        let r := set_raw_bufs bufs r in
        sqm ← aset (sq_virt (r_sq r)) (Z.land (sq_tail (r_sq r)) (sq_depth (r_sq r) - 1))
                (SlotTx (tx_desc_format pkt req_id (sq_phase (r_sq r))));
        let r := sq_advance (set_r_sq (set_sq_virt sqm (r_sq r)) r) in
        let st := r_stats r in
        let r := set_r_stats (set_tx_bytes (u64 (tx_bytes st + txp_len pkt))
                   (set_tx_packets (u64 (tx_packets st + 1)) st)) r in
        let r := set_r_own (set_tx_owner_cpu cpu (r_own r)) r in
        mret (0, req_id, ena_ring_unlock r).

Definition ena_tx_doorbell (r : ena_ring) : list event :=
  if negb (hw_valid r) then []
  else match sq_db (r_sq r) with
       | None => []
       | Some db => [EvWrite32 db (sq_tail (r_sq r))]
       end.

(** ** Completion *)
Definition ena_tx_report_foreign_reaper (r : ena_ring) : ena_ring :=
  if tx_owner_cpu (r_own r) =? ENA_CPU_ID_NONE then r
  else if tx_owner_warned (r_own r) then r
  else set_r_own (set_tx_owner_warned true (r_own r)) r.

Definition ena_tx_stage_foreign_free (r : ena_ring) (req_id owner_cpu : Z) : res (bool * ena_ring) :=
  let o := r_own r in
  if negb (non_null (raw_bufs r)) || negb (non_null (tx_foreign o)) then mret (false, r)
  else
    b ← aget (raw_bufs r) req_id;
    if negb (non_null (buf_netbuf b)) then mret (false, r)
    else if sq_depth (r_sq r) <=? tx_foreign_count o then
      bufs ← aset (raw_bufs r) req_id (set_buf_netbuf None b);
      mret (false, set_raw_bufs bufs r)
    else
      fo ← aset (tx_foreign o) (tx_foreign_count o) (mkForeign req_id owner_cpu);
      mret (true, set_r_own (set_tx_foreign_count (u16 (tx_foreign_count o + 1))
                    (set_tx_foreign fo o)) r).

(** Free the netbuf of a request here, and return its id to the pool. *)
Definition tx_release (cpu : Z) (r : ena_ring) (req_id : Z) : res (ena_ring * list event) :=
  b ← aget (raw_bufs r) req_id;
  bufs ← aset (raw_bufs r) req_id (set_buf_netbuf None b);
  '(_, r) ← ena_ring_req_id_free (set_raw_bufs bufs r) req_id;
  mret (r, match buf_netbuf b with Some nb => [EvFree cpu nb] | None => [] end).

(** The loop of [ena_tx_drain_foreign_frees] from entry [i]. *)
Fixpoint drain_loop (fuel : nat) (cpu i : Z) (r : ena_ring) : res (ena_ring * list event) :=
  match fuel with
  | O => Hang
  | S fuel =>
      if i <? tx_foreign_count (r_own r) then
        slot ← aget (tx_foreign (r_own r)) i;
        if negb (fo_owner_cpu slot =? cpu) then drain_loop fuel cpu (i + 1) r
        else
          '(r, es) ← tx_release cpu r (fo_req_id slot);
          let o := r_own r in
          let count := u16 (tx_foreign_count o - 1) in
          last ← aget (tx_foreign o) count;
          fo ← aset (tx_foreign o) i last;
          '(r, es') ← drain_loop fuel cpu i
                        (set_r_own (set_tx_foreign_count count (set_tx_foreign fo o)) r);
          mret (r, es ++ es')
      else mret (r, [])
  end.

(** Each iteration passes an entry or removes one, so one more than their number
    is enough fuel. *)
Definition ena_tx_drain_foreign_frees (cpu : Z) (r : ena_ring) : res (ena_ring * list event) :=
  let o := r_own r in
  if negb (non_null (tx_foreign o)) || (tx_foreign_count o =? 0) then mret (r, [])
  else drain_loop (S (Z.to_nat (tx_foreign_count o))) cpu 0 r.

Definition tx_view : Type := nat -> nat -> list ena_eth_io_tx_cdesc.

(** What happens to the buffer and the id of a completed request. *)
Definition tx_dispose (cpu : Z) (r : ena_ring) (req_id : Z) : res (ena_ring * list event) :=
  '(staged, r) ← (if negb (cpu =? tx_owner_cpu (r_own r)) then
                    ena_tx_stage_foreign_free (ena_tx_report_foreign_reaper r) req_id
                      (tx_owner_cpu (r_own r))
                  else mret (false, r));
  if (staged : bool) then mret (r, [])
  else if non_null (raw_bufs r) then tx_release cpu r req_id
  else
    '(_, r) ← ena_ring_req_id_free r req_id;
    mret (r, []).

(** The treatment of a completion whose request is in flight, up to
    [advance_cq]: [sq_head_idx] is the head the device reports. *)
Definition tx_complete_one (cpu : Z) (r : ena_ring) (txq : option uk_netdev_tx_queue)
    (req_id sq_head_idx : Z) : res (ena_ring * option uk_netdev_tx_queue * list event) :=
  fl ← aset (req_in_flight (r_pool r)) req_id 0;
  let r := set_r_pool (set_req_in_flight fl (r_pool r)) r in
  txq ← (if tx_complete_cb r then ena_netdev_txq_reclaim_slot txq req_id else mret txq);
  let r := set_r_sq (set_sq_head (Z.land sq_head_idx (sq_depth (r_sq r) - 1)) (r_sq r)) r in
  '(r, es) ← tx_dispose cpu r req_id;
  mret (r, txq, es).

(** Iteration [j] of the loop: [None] is a [break]; otherwise the new state and
    the number of completions it counts (a completion that is not in flight is
    skipped and counts for nothing). *)
Definition tx_poll_iter (j : nat) (cpu : Z) (view : tx_view) (r : ena_ring)
    (txq : option uk_netdev_tx_queue)
    : res (option (ena_ring * option uk_netdev_tx_queue * Z * list event)) :=
  let slot := Z.land (cq_head (r_cq r)) (cq_depth (r_cq r) - 1) in
  c ← aget (Some (view j 0%nat)) slot;
  if negb (tx_cdesc_phase c =? cq_phase (r_cq r)) then mret None
  else
    c1 ← aget (Some (view j 1%nat)) slot;
    let req_id := txc_req_id c1 in
    if sq_depth (r_sq r) <=? req_id then mret None
    else
      live ← (if non_null (req_in_flight (r_pool r)) then
                x ← aget (req_in_flight (r_pool r)) req_id; mret (z2b x)
              else mret false);
      if negb live then mret (Some (cq_advance r, txq, 0, []))
      else
        c2 ← aget (Some (view j 2%nat)) slot;
        '(r, txq, es) ← tx_complete_one cpu r txq req_id (txc_sq_head_idx c2);
        mret (Some (cq_advance r, txq, 1, es)).

Fixpoint tx_poll_loop (fuel j : nat) (cpu budget : Z) (view : tx_view) (r : ena_ring)
    (txq : option uk_netdev_tx_queue) (cleaned : Z)
    : res (ena_ring * option uk_netdev_tx_queue * Z * list event) :=
  match fuel with
  | O => Hang
  | S fuel =>
      if budget <=? cleaned then mret (r, txq, cleaned, [])
      else
        step ← tx_poll_iter j cpu view r txq;
        match step with
        | None => mret (r, txq, cleaned, [])
        | Some (r, txq, n, es) =>
            '(r, txq, cleaned, es') ← tx_poll_loop fuel (S j) cpu budget view r txq (cleaned + n);
            mret (r, txq, cleaned, es ++ es')
        end
  end.

(** Result: return value, the value written to [cleaned_count] if any, ring,
    queue and events. *)
Definition ena_tx_poll_completions (fuel : nat) (cpu : Z) (view : tx_view) (r : ena_ring)
    (txq : option uk_netdev_tx_queue) (budget : Z)
    : res (Z * option Z * ena_ring * option uk_netdev_tx_queue * list event) :=
  if negb (ring_type r =? ENA_RING_TYPE_TX) || negb (cq_virt (r_cq r)) then
    mret (- EINVAL, None, r, txq, [])
  else if negb (hw_valid r) then mret (0, None, r, txq, [])
  else if sq_depth (r_sq r) <=? ff_count (free_req (r_pool r)) then mret (0, Some 0, r, txq, [])
  else
    let budget := if budget =? 0 then cq_depth (r_cq r) else budget in
    r ← ena_ring_lock r;
    '(r, es) ← ena_tx_drain_foreign_frees cpu r;
    '(r, txq, cleaned, es') ← tx_poll_loop fuel 0 cpu budget view r txq 0;
    mret (cleaned, Some cleaned, ena_ring_unlock r, txq, es ++ es').

(** ** Deferred releases *)
Definition deferred_ids (o : own_state) : list Z := fo_req_id <$> deferred o.

(** The invariant depends on the pool and the cells only at the deferred ids. *)
Lemma wf_deferred_change d p a o p' a' :
  wf_deferred d p a o ->
  (forall id, id ∈ deferred_ids o ->
     allocs p' !! Z.to_nat id = allocs p !! Z.to_nat id
     /\ (flights p' !! Z.to_nat id = flights p !! Z.to_nat id)
     /\ cells a' !! Z.to_nat id = cells a !! Z.to_nat id) ->
  wf_deferred d p' a' o.
Proof.
  intros [Harr Hc Hnd Heach] Hch. split; [done.. |]. intros e He.
  destruct (Heach e He) as (Hr & Hal & Hfl & Hb).
  destruct (Hch (fo_req_id e)) as (Eal & Efl & Ec); [by apply list_elem_of_fmap_2 |].
  unfold allocated, in_flight in *. by rewrite Eal, Efl, Ec.
Qed.

Lemma lookup_insert_other {A} (l : list A) i j x :
  0 <= i -> 0 <= j -> i <> j -> <[Z.to_nat i := x]> l !! Z.to_nat j = l !! Z.to_nat j.
Proof. intros. apply list_lookup_insert_ne. lia. Qed.

Lemma deferred_id_spec d p a o id :
  wf_deferred d p a o -> id ∈ deferred_ids o -> 0 <= id < d /\ allocated p id /\ ~ in_flight p id.
Proof. intros H (e & -> & He)%list_elem_of_fmap. destruct (wd_each _ _ _ _ H e He) as (? & ? & ? & _). done. Qed.

(** An id outside the deferred list leaves room in it. *)
Lemma deferred_room d p a o id :
  wf_deferred d p a o -> 0 <= id < d -> id ∉ deferred_ids o -> tx_foreign_count o < d.
Proof.
  intros Hwd Hid Hni.
  assert (length (id :: deferred_ids o) <= length (seqZ 0 d))%nat as H.
  { apply submseteq_length, NoDup_submseteq; [constructor; [done | apply Hwd] |].
    intros x [-> | Hx]%elem_of_cons; apply elem_of_seqZ; [lia |].
    destruct (deferred_id_spec _ _ _ _ _ Hwd Hx). lia. }
  destruct (wd_arr _ _ _ _ Hwd) as (l & El & Hlen). pose proof (wd_count _ _ _ _ Hwd).
  unfold deferred_ids, deferred in H. rewrite El in H. simpl in H.
  rewrite length_fmap, length_take, length_seqZ in H. lia.
Qed.

Lemma insert_swap_perm {A} (l : list A) i x y :
  l !! i = Some x -> <[i := y]> l ++ [x] ≡ₚ l ++ [y].
Proof.
  intros Hx. pose proof (omap_insert_perm Some l i x y Hx) as H.
  assert (forall k : list A, omap Some k = k) as E.
  { induction k as [| z k IH]; [done |]. change (z :: omap Some k = z :: k). by rewrite IH. }
  by rewrite !E in H.
Qed.

(** Entry [i] removed, the last one in its place. *)
Lemma swap_remove_perm {A} (l : list A) n i x y :
  (i <= n)%nat -> (n < length l)%nat -> l !! i = Some x -> l !! n = Some y ->
  take (S n) l ≡ₚ x :: take n (<[i := y]> l).
Proof.
  intros Hi Hn Hx Hy. rewrite (take_S_r l n y Hy).
  destruct (decide (i = n)) as [-> |].
  - replace y with x in * by congruence. rewrite list_insert_id by done.
    by rewrite <- Permutation_cons_append.
  - rewrite take_insert_lt by lia. rewrite <- (insert_swap_perm (take n l) i x y).
    + by rewrite <- Permutation_cons_append.
    + rewrite lookup_take_lt by lia. done.
Qed.

(** ** What a step of the poll preserves *)
Record tx_frame (r r' : ena_ring) : Prop := {
  tf_qid : qid r' = qid r;
  tf_depth : sq_depth (r_sq r') = sq_depth (r_sq r);
  tf_cq : r_cq r' = r_cq r;
  tf_lock : ring_lock r' = ring_lock r;
  tf_valid : hw_valid r' = hw_valid r;
  tf_cb : tx_complete_cb r' = tx_complete_cb r;
  tf_owner : tx_owner_cpu (r_own r') = tx_owner_cpu (r_own r);
  tf_drop : drop_releases r' = drop_releases r;
  tf_sq : sq_virt (r_sq r') = sq_virt (r_sq r) /\ sq_tail (r_sq r') = sq_tail (r_sq r);
  tf_rest : r_llq r' = r_llq r /\ r_blk r' = r_blk r /\ sq_db (r_sq r') = sq_db (r_sq r)
}.

#[export] Instance tx_frame_preorder : PreOrder tx_frame.
Proof.
  split; [by intros r; split |].
  intros r1 r2 r3 [? ? ? ? ? ? ? ? [] (? & ? & ?)] [? ? ? ? ? ? ? ? [] (? & ? & ?)].
  split; [congruence.. | split; congruence | split_and!; congruence].
Qed.

(** What even a submission leaves alone. *)
Definition tx_kept (r r' : ena_ring) : Prop :=
  sq_depth (r_sq r') = sq_depth (r_sq r) /\ tx_complete_cb r' = tx_complete_cb r
  /\ r_llq r' = r_llq r /\ r_blk r' = r_blk r /\ sq_db (r_sq r') = sq_db (r_sq r) /\ cq_depth (r_cq r') = cq_depth (r_cq r)
  /\ hw_valid r' = hw_valid r.

#[export] Instance tx_kept_preorder : PreOrder tx_kept.
Proof. unfold tx_kept. split; [done |]. intros r1 r2 r3 ? ?. naive_solver congruence. Qed.

(** A TX step: the invariant and the frame are kept, and every netbuf the ring
    held is either still held or freed. *)
Record tx_step (r : ena_ring) (es : list event) (r' : ena_ring) : Prop := {
  ts_wf : wf_tx r';
  ts_frame : tx_frame r r';
  ts_held : held (raw_bufs r) ≡ₚ freed es ++ held (raw_bufs r')
}.

Lemma tx_step_refl r : wf_tx r -> tx_step r [] r.
Proof. intros. by split. Qed.

Lemma tx_step_trans r1 es1 r2 es2 r3 :
  tx_step r1 es1 r2 -> tx_step r2 es2 r3 -> tx_step r1 (es1 ++ es2) r3.
Proof.
  intros [_ F1 H1] [Hwf F2 H2]. split; [done | by etrans |].
  by rewrite H1, H2, freed_app, app_assoc.
Qed.

(** Releasing a request that is allocated, not in flight and not deferred. *)
Lemma tx_release_spec cpu r id :
  wf_tx r -> 0 <= id < sq_depth (r_sq r) -> allocated (r_pool r) id ->
  ~ in_flight (r_pool r) id -> id ∉ deferred_ids (r_own r) ->
  wp (tx_release cpu r id) (fun '(r', es) => tx_step r es r' /\ r_own r' = r_own r
    /\ req_in_flight (r_pool r') = req_in_flight (r_pool r)
    /\ ~ allocated (r_pool r') id
    /\ es = match cells (raw_bufs r) !! Z.to_nat id ≫= buf_netbuf with
            | Some nb => [EvFree cpu nb] | None => [] end).
Proof.
  intros Hwf Hid Hal Hfl Hdef. pose proof (wr_pool _ (wt_ring _ Hwf)) as Hp.
  pose proof (wp_cells_len _ _ _ Hp) as Hlen. unfold tx_release.
  apply wp_bind, (wp_aget_eq _ _ _ _ (wp_cells _ _ _ Hp)); [lia |]. intros b Hb.
  apply wp_bind, (wp_aset_eq _ _ _ _ _ (wp_cells _ _ _ Hp)); [lia |].
  pose proof (wf_pool_set_cell _ _ _ _ (set_buf_netbuf None b) Hp Hid Hal) as Hp1.
  apply wp_bind. eapply wp_mono; [exact (ena_ring_req_id_free_spec (set_raw_bufs _ r) _ _ _ id eq_refl eq_refl eq_refl Hp1 Hid Hal) |].
  intros [err r'] (_ & p' & -> & Hp' & Hfree & Hfl' & Hal'). apply wp_ret. simpl in *.
  rewrite list_insert_insert_eq in *.
  assert (forall x, 0 <= x -> x <> id -> allocs p' !! Z.to_nat x = allocs (r_pool r) !! Z.to_nat x) as Hx.
  { intros. rewrite Hal'. apply lookup_insert_other; lia. }
  split_and!; try done; [| intros (x & Hx' & ?); rewrite Hal', list_lookup_insert_eq in Hx';
    [congruence | pose proof (wp_al_len _ _ _ Hp); lia] | by rewrite Hb].
  split; [split | by split |]; try done; simpl.
  - exact (wf_ring_pool _ _ _ (wt_ring _ Hwf) Hp').
  - apply Hwf.
  - intros x Hx0 Hin. unfold in_flight, flights in Hin. rewrite Hfl' in Hin.
    unfold allocated. rewrite Hx; [by apply (wt_flight _ Hwf) | done | by intros ->].
  - eapply wf_deferred_change; [apply (wt_deferred _ Hwf) |]. intros x Hxd.
    destruct (deferred_id_spec _ _ _ _ _ (wt_deferred _ Hwf) Hxd) as (? & _ & _).
    assert (x <> id) by (by intros ->). simpl. unfold flights. rewrite Hfl'.
    rewrite Hx, lookup_insert_other by lia. done.
  - unfold held; simpl. destruct (buf_netbuf b) as [nb |] eqn:Enb; simpl.
    + by apply omap_insert_none with (x := b).
    + by rewrite (omap_insert_same buf_netbuf _ _ b buf_empty) by done.
Qed.

(** Handing a completed request to its owner: the entry fits, and the netbuf
    stays with the ring. *)
Lemma tx_stage_spec r id owner :
  wf_tx r -> 0 <= id < sq_depth (r_sq r) -> allocated (r_pool r) id ->
  ~ in_flight (r_pool r) id -> id ∉ deferred_ids (r_own r) ->
  wp (ena_tx_stage_foreign_free r id owner) (fun '(staged, r') =>
    tx_step r [] r' /\ r_pool r' = r_pool r /\ raw_bufs r' = raw_bufs r
    /\ if staged : bool then
         deferred (r_own r') = deferred (r_own r) ++ [mkForeign id owner]
         /\ is_Some (cells (raw_bufs r) !! Z.to_nat id ≫= buf_netbuf)
       else r' = r /\ cells (raw_bufs r) !! Z.to_nat id ≫= buf_netbuf = None).
Proof.
  intros Hwf Hid Hal Hfl Hdef. pose proof (wr_pool _ (wt_ring _ Hwf)) as Hp.
  pose proof (wp_cells_len _ _ _ Hp) as Hlen. pose proof (wt_deferred _ Hwf) as Hwd.
  pose proof (deferred_room _ _ _ _ _ Hwd Hid Hdef) as Hroom.
  pose proof (wd_count _ _ _ _ Hwd). destruct (wd_arr _ _ _ _ Hwd) as (fo & Hfo & Hfolen).
  pose proof (pow2_depth_bounds _ (wr_depth _ (wt_ring _ Hwf))).
  unfold ena_tx_stage_foreign_free.
  assert (non_null (raw_bufs r) = true) as -> by (by rewrite (wp_cells _ _ _ Hp)).
  rewrite Hfo. simpl.
  apply wp_bind, (wp_aget_eq _ _ _ _ (wp_cells _ _ _ Hp)); [lia |]. intros b Hb. rewrite Hb. simpl.
  destruct (buf_netbuf b) as [nb |] eqn:Hnb; simpl; [| by apply wp_ret].
  destruct (Z.leb_spec (sq_depth (r_sq r)) (tx_foreign_count (r_own r))); [lia |].
  apply wp_bind, wp_aset; [lia |]. apply wp_ret. rewrite u16_id by lia.
  set (o' := set_tx_foreign_count _ _).
  assert (deferred o' = deferred (r_own r) ++ [mkForeign id owner]) as Hd.
  { unfold deferred, o'; simpl. rewrite Hfo. simpl. rewrite Z2Nat.inj_add by lia.
    rewrite Nat.add_1_r. erewrite take_S_r by (apply list_lookup_insert_eq; lia).
    by rewrite take_insert_ge by lia. }
  split_and!; try done.
  split; [split | by split |]; try done; simpl.
  - destruct (wt_ring _ Hwf) as [? ? ? ? ? ? ? [? ? ? Hbo ? ? ? ?]]. split; try done.
    split; try done. simpl. by rewrite Hfo in Hbo.
  - apply Hwf.
  - apply (wt_flight _ Hwf).
  - split.
    + eexists. split; [done |]. by rewrite length_insert.
    + simpl. lia.
    + rewrite Hd, fmap_app. apply NoDup_app. split_and!; [apply Hwd | | apply NoDup_singleton].
      intros x Hx Hx'. apply list_elem_of_singleton in Hx'. subst. done.
    + intros e. rewrite Hd, elem_of_app, list_elem_of_singleton.
      intros [He | ->]; [by apply Hwd | simpl]. eauto 10.
Qed.

(** ** One completion *)
Definition txq_ok (txq : option uk_netdev_tx_queue) : Prop :=
  forall q, txq = Some q -> wf_bounce [] (txq_bounce q).

Lemma txq_reclaim_ok txq id :
  txq_ok txq -> 0 <= id -> wp (ena_netdev_txq_reclaim_slot txq id) txq_ok.
Proof.
  intros Hq Hid. destruct txq as [q |]; simpl; [| by apply wp_ret].
  apply wp_bind. eapply wp_mono; [by apply wf_bounce_unmap; [apply Hq |] |].
  intros [[] b] (Hb & _); apply wp_ret; intros q' [= <-]; [done | by apply Hq].
Qed.

(** Bounce slots belong to requests in flight; with the completion callback in place, a
    poll keeps it so.  The memory of the pool does not move. *)
Definition txq_mapped (r : ena_ring) (txq : option uk_netdev_tx_queue) : Prop :=
  forall q i s, txq = Some q -> default [] (bounce_map (txq_bounce q)) !! i = Some s -> 0 <= s ->
    in_flight (r_pool r) (Z.of_nat i).
Definition txq_shape (txq txq' : option uk_netdev_tx_queue) : Prop :=
  match txq, txq' with
  | Some q, Some q' => bounce_shape (txq_bounce q) (txq_bounce q')
  | None, None => True
  | _, _ => False
  end.

#[export] Instance txq_shape_preorder : PreOrder txq_shape.
Proof.
  split; [by intros [q |] |]. intros [q1 |] [q2 |] [q3 |]; try done. unfold txq_shape. intros. by etrans.
Qed.

Definition txq_step (r : ena_ring) (txq : option uk_netdev_tx_queue) (r' : ena_ring) (txq' : option uk_netdev_tx_queue) : Prop :=
  txq_shape txq txq' /\ (tx_complete_cb r = true -> txq_mapped r txq -> txq_mapped r' txq').

Lemma txq_step_trans r1 q1 r2 q2 r3 q3 : tx_complete_cb r2 = tx_complete_cb r1 ->
  txq_step r1 q1 r2 q2 -> txq_step r2 q2 r3 q3 -> txq_step r1 q1 r3 q3.
Proof. intros E [S1 M1] [S2 M2]. split; [by etrans |]. rewrite E in M2. auto. Qed.

Lemma txq_reclaim_mapped txq id :
  txq_ok txq -> 0 <= id -> wp (ena_netdev_txq_reclaim_slot txq id) (fun txq' => txq_ok txq' /\ txq_shape txq txq' /\
    forall q' i s, txq' = Some q' -> default [] (bounce_map (txq_bounce q')) !! i = Some s -> 0 <= s ->
      i <> Z.to_nat id /\ exists q, txq = Some q /\ default [] (bounce_map (txq_bounce q)) !! i = Some s).
Proof.
  intros Hq Hid. destruct txq as [q |]; simpl; [| by apply wp_ret]. pose proof (Hq q eq_refl) as Hb.
  pose proof (wf_bounce_unmap [] _ id Hb Hid) as H1. pose proof (bounce_unmap_map [] _ id Hb Hid) as H2.
  pose proof (bounce_unmap_shape (txq_bounce q) id) as H3.
  destruct (bounce_unmap _ id) as [[hit b] | |]; simpl in *; [| done..]. destruct H1 as (Hb' & _ & Hmiss & _).
  destruct hit; (split; [by intros q' [= <-] |]); (split; [first [exact (H3 _ _ eq_refl) | by split_and!] |]); intros q' i s [= <-] Hi Hs; simpl in Hi.
  - destruct (H2 i s Hi) as [| [? ?]]; [lia | eauto].
  - rewrite Hmiss in H2 by done. destruct (H2 i s Hi) as [| [? ?]]; [lia | eauto].
Qed.

(** Ring updates outside the pool, the cells and the deferred list. *)
Lemma wf_tx_sq_head r h : wf_tx r -> wf_tx (set_r_sq (set_sq_head h (r_sq r)) r).
Proof.
  intros [[? ? ? ? ? ? ? []] ? ? ?]. split; [split | ..]; done.
Qed.

Lemma wf_tx_warned r : wf_tx r -> wf_tx (set_r_own (set_tx_owner_warned true (r_own r)) r).
Proof.
  intros [[? ? ? ? ? ? ? []] ? ? []]. split; [split | ..]; try done; by split.
Qed.

Lemma wf_tx_report r : wf_tx r -> tx_step r [] (ena_tx_report_foreign_reaper r).
Proof.
  intros Hwf. unfold ena_tx_report_foreign_reaper. repeat case_match; try by apply tx_step_refl.
  split; [by apply wf_tx_warned | by split | done].
Qed.

Lemma report_same r :
  r_pool (ena_tx_report_foreign_reaper r) = r_pool r
  /\ raw_bufs (ena_tx_report_foreign_reaper r) = raw_bufs r
  /\ r_sq (ena_tx_report_foreign_reaper r) = r_sq r
  /\ deferred (r_own (ena_tx_report_foreign_reaper r)) = deferred (r_own r).
Proof. unfold ena_tx_report_foreign_reaper. by repeat case_match. Qed.

(** Clearing an in-flight mark. *)
Lemma wf_tx_unflight r id :
  wf_tx r -> 0 <= id < sq_depth (r_sq r) -> in_flight (r_pool r) id ->
  let r' := set_r_pool (mkPool (free_req (r_pool r))
              (Some (<[Z.to_nat id := 0]> (flights (r_pool r)))) (req_allocated (r_pool r))) r in
  tx_step r [] r' /\ ~ in_flight (r_pool r') id /\ id ∉ deferred_ids (r_own r').
Proof.
  intros Hwf Hid Hin. pose proof (wr_pool _ (wt_ring _ Hwf)) as Hp. cbv zeta.
  assert (id ∉ deferred_ids (r_own r)) as Hni.
  { intros Hd. by destruct (deferred_id_spec _ _ _ _ _ (wt_deferred _ Hwf) Hd) as (_ & _ & []). }
  pose proof (wf_pool_set_flight _ _ _ id 0 Hp) as Hp'.
  pose proof (wp_fl_len _ _ _ Hp).
  split; [| split; [| done]].
  - split; [split | by split | done]; simpl.
    + pose proof (wf_ring_pool _ _ _ (wt_ring _ Hwf) Hp') as H'. by destruct r.
    + apply Hwf.
    + intros x Hx (y & Hy & Hy0). simpl in Hy. rewrite zlookup_insert in Hy by lia.
      case_decide; [congruence |]. apply (wt_flight _ Hwf); [done |]. by exists y.
    + eapply wf_deferred_change; [apply (wt_deferred _ Hwf) |]. intros x Hx. simpl.
      destruct (deferred_id_spec _ _ _ _ _ (wt_deferred _ Hwf) Hx) as (? & _ & _).
      split_and!; try done. apply lookup_insert_other; [lia | lia |]. by intros ->.
  - intros (y & Hy & Hy0). simpl in Hy. rewrite list_lookup_insert_eq in Hy by lia. congruence.
Qed.

(** What [tx_dispose] does: its own netbufs are freed, others are deferred. *)
Definition disposed (cpu : Z) (r : ena_ring) (es : list event) (r' : ena_ring) : Prop :=
  let owner := tx_owner_cpu (r_own r) in
  if cpu =? owner then deferred (r_own r') = deferred (r_own r)
  else freed es = [] /\ exists k, deferred (r_own r') = deferred (r_own r) ++ k
                               /\ Forall (fun e => fo_owner_cpu e = owner) k.

Lemma tx_dispose_spec cpu r id :
  wf_tx r -> 0 <= id < sq_depth (r_sq r) -> allocated (r_pool r) id ->
  ~ in_flight (r_pool r) id -> id ∉ deferred_ids (r_own r) ->
  wp (tx_dispose cpu r id) (fun '(r', es) =>
    tx_step r es r' /\ req_in_flight (r_pool r') = req_in_flight (r_pool r) /\ disposed cpu r es r').
Proof.
  intros Hwf Hid Hal Hfl Hni. unfold tx_dispose, disposed.
  assert (forall r, wf_tx r -> non_null (raw_bufs r) = true) as Hnn.
  { intros r0 H0. by rewrite (wp_cells _ _ _ (wr_pool _ (wt_ring _ H0))). }
  destruct (Z.eqb_spec cpu (tx_owner_cpu (r_own r))) as [E | E]; simpl.
  - rewrite Hnn by done. eapply wp_mono; [by apply tx_release_spec |].
    intros [r' es] (Hs & Hown & Hfl' & _). by rewrite Hown.
  - pose proof (wf_tx_report r Hwf) as Sr. destruct (report_same r) as (Ep & Eb & Es & Ed).
    assert (deferred_ids (r_own (ena_tx_report_foreign_reaper r)) = deferred_ids (r_own r)) as Edi
      by (unfold deferred_ids; by rewrite Ed).
    apply wp_bind. eapply wp_mono.
    { apply tx_stage_spec; rewrite ?Ep, ?Es, ?Edi; try done. apply Sr. }
    intros [[] r1] (S1 & Ep1 & Eb1 & H1).
    + apply wp_ret. destruct H1 as [H1 _]. split; [exact (tx_step_trans _ [] _ [] _ Sr S1) |].
      split; [by rewrite Ep1, Ep |]. split; [done |]. rewrite H1, Ed.
      eexists. split; [done |]. by constructor.
    + destruct H1 as [-> Hnone]. rewrite Hnn by apply Sr.
      eapply wp_mono; [apply tx_release_spec; rewrite ?Ep, ?Es, ?Edi; try done; apply Sr |].
      intros [r' es] (S2 & Hown & Hfl' & _ & Hes). rewrite Eb in Hnone.
      rewrite Eb, Hnone in Hes. subst es. split; [exact (tx_step_trans _ [] _ [] _ Sr S2) |].
      split; [by rewrite Hfl', Ep |]. split; [done |]. exists []. by rewrite Hown, Ed, app_nil_r.
Qed.

(** A completion of a request in flight: afterwards the id is no longer in
    flight; its netbuf was freed by this core if this core submitted last, and is
    kept for the owner otherwise. *)
Lemma tx_complete_one_spec cpu r txq id hd :
  wf_tx r -> txq_ok txq -> 0 <= id < sq_depth (r_sq r) -> in_flight (r_pool r) id ->
  wp (tx_complete_one cpu r txq id hd) (fun '(r', txq', es) =>
    tx_step r es r' /\ txq_ok txq' /\ disposed cpu r es r'
    /\ flights (r_pool r') = <[Z.to_nat id := 0]> (flights (r_pool r)) /\ txq_step r txq r' txq').
Proof.
  intros Hwf Hq Hid Hin. pose proof (wr_pool _ (wt_ring _ Hwf)) as Hp.
  pose proof (wp_fl_len _ _ _ Hp).
  destruct (wf_tx_unflight r id Hwf Hid Hin) as (S1 & Hnin & Hni).
  pose proof (wt_flight _ Hwf id ltac:(lia) Hin) as Hal.
  unfold tx_complete_one. apply wp_bind, (wp_aset_eq _ _ _ _ _ (wp_fl _ _ _ Hp)); [lia |].
  set (r1 := set_r_pool _ r) in *. change (set_r_pool _ r) with r1.
  apply wp_bind. apply (wp_mono _ (fun txq' => txq_ok txq' /\ txq_shape txq txq' /\ (tx_complete_cb r = true ->
    forall q' i s, txq' = Some q' -> default [] (bounce_map (txq_bounce q')) !! i = Some s -> 0 <= s ->
      i <> Z.to_nat id /\ exists q, txq = Some q /\ default [] (bounce_map (txq_bounce q)) !! i = Some s))).
  { change (tx_complete_cb r1) with (tx_complete_cb r). destruct (tx_complete_cb r); [| by apply wp_ret].
    eapply wp_mono; [apply txq_reclaim_mapped; [done | lia] |]. naive_solver. }
  intros txq' (Hq' & Hsh & Hmap). set (r2 := set_r_sq _ r1).
  assert (tx_step r [] r2) as S2.
  { apply (tx_step_trans _ [] r1 [] _ S1). split; [by apply wf_tx_sq_head, S1 | by split | done]. }
  apply wp_bind. eapply wp_mono; [by apply tx_dispose_spec; [apply S2 | ..] |].
  intros [r' es] (S3 & Hfl & Hd). apply wp_ret. split; [exact (tx_step_trans _ [] _ _ _ S2 S3) |].
  assert (flights (r_pool r') = <[Z.to_nat id:=0]> (flights (r_pool r))) as Efl by (unfold flights at 1; by rewrite Hfl).
  split; [done |]. split; [done |]. split; [done |]. split; [exact Hsh |].
  intros Hcb Hm q' i s Eq Hi Hs.
  destruct (Hmap Hcb q' i s Eq Hi Hs) as (Hne & q & Eq' & Hi'). destruct (Hm q i s Eq' Hi' Hs) as (x & Hx & Hx0).
  exists x. split; [| done]. rewrite Efl, list_lookup_insert_ne by lia. done.
Qed.

(** ** The drain of deferred releases *)

(** A release reads nothing of the ownership state. *)
Lemma tx_release_own cpu r id o :
  tx_release cpu (set_r_own o r) id
  = ('(r', es) ← tx_release cpu r id; mret (set_r_own o r', es)).
Proof.
  unfold tx_release, ena_ring_req_id_free, ena_ring_slot_clear; simpl.
  destruct (aget (raw_bufs r) id) as [b | |]; simpl; [| done..].
  destruct (aset (raw_bufs r) id (set_buf_netbuf None b)) as [bufs | |]; simpl; [| done..].
  destruct (sq_depth (r_sq r) <=? id); [done |].
  match goal with |- (?m ≫= _) ≫= _ = _ => destruct m as [[] | |]; simpl; [done | | done..] end.
  destruct (sq_depth (r_sq r) <=? _); [done |].
  destruct (aset_opt _ _ _) as [al | |]; simpl; [| done..].
  destruct (fifo_push _ _ _) as [f | |]; simpl; [| done..].
  by destruct (aset bufs id buf_empty).
Qed.

Lemma set_r_own_id r : set_r_own (r_own r) r = r.
Proof. by destruct r. Qed.

(** Entry [i] of the deferred list and the state after its removal. *)
Definition own_remove (o : own_state) (l : list ena_tx_foreign_free) (i : Z)
    (last : ena_tx_foreign_free) : own_state :=
  set_tx_foreign_count (tx_foreign_count o - 1) (set_tx_foreign (Some (<[Z.to_nat i := last]> l)) o).

Lemma deferred_remove o l i e last :
  tx_foreign o = Some l -> 0 <= i < tx_foreign_count o -> tx_foreign_count o <= Z.of_nat (length l) ->
  l !! Z.to_nat i = Some e -> l !! Z.to_nat (tx_foreign_count o - 1) = Some last ->
  deferred o ≡ₚ e :: deferred (own_remove o l i last).
Proof.
  intros Hl Hi Hc He Hlast. unfold deferred, own_remove. simpl. rewrite Hl. simpl.
  replace (Z.to_nat (tx_foreign_count o)) with (S (Z.to_nat (tx_foreign_count o - 1))) by lia.
  apply swap_remove_perm; [lia | lia | done | done].
Qed.

Lemma wf_tx_remove r l i e last :
  wf_tx r -> tx_foreign (r_own r) = Some l -> 0 <= i < tx_foreign_count (r_own r) ->
  l !! Z.to_nat i = Some e -> l !! Z.to_nat (tx_foreign_count (r_own r) - 1) = Some last ->
  let o' := own_remove (r_own r) l i last in
  tx_step r [] (set_r_own o' r) /\ (fo_req_id e ∉ deferred_ids o')
  /\ 0 <= fo_req_id e < sq_depth (r_sq r) /\ allocated (r_pool r) (fo_req_id e)
  /\ ~ in_flight (r_pool r) (fo_req_id e)
  /\ is_Some (cells (raw_bufs r) !! Z.to_nat (fo_req_id e) ≫= buf_netbuf).
Proof.
  intros Hwf Hl Hi He Hlast. cbv zeta. set (o' := own_remove _ _ _ _).
  pose proof (wt_deferred _ Hwf) as [(l' & Hl' & Hlen) Hc Hnd Heach].
  replace l' with l in * by congruence.
  pose proof (deferred_remove _ _ _ _ _ Hl Hi ltac:(lia) He Hlast) as Hp. fold o' in Hp.
  assert (e ∈ deferred (r_own r)) as Hin by (rewrite Hp; set_solver).
  destruct (Heach e Hin) as (Hr & Hal & Hfl & b & nb & Hb & Hnb).
  rewrite Hp in Hnd. apply NoDup_cons in Hnd as [Hni Hnd].
  split_and!; try done; try lia; [| rewrite Hb; simpl; by rewrite Hnb].
  split; [split | by split | done]; try apply Hwf.
  - destruct (wt_ring _ Hwf) as [? ? ? ? ? ? ? [? ? ? Hfo ? ? ? ?]]. split; try done. split; try done.
    simpl. by rewrite <- Hfo, Hl.
  - simpl. split; simpl; [eexists; by rewrite length_insert | lia | done |].
    intros e' He'. apply Heach. rewrite Hp. set_solver.
Qed.

Lemma drain_loop_spec fuel cpu i r :
  wf_tx r -> 0 <= i <= tx_foreign_count (r_own r) ->
  (Z.to_nat (tx_foreign_count (r_own r) - i) < fuel)%nat ->
  Forall (fun e => fo_owner_cpu e <> cpu) (take (Z.to_nat i) (deferred (r_own r))) ->
  wp (drain_loop fuel cpu i r) (fun '(r', es) =>
    tx_step r es r' /\ req_in_flight (r_pool r') = req_in_flight (r_pool r)
    /\ Forall (fun e => fo_owner_cpu e <> cpu) (deferred (r_own r'))
    /\ exists k, deferred (r_own r) ≡ₚ k ++ deferred (r_own r')
         /\ Forall (fun e => fo_owner_cpu e = cpu) k /\ length (freed es) = length k).
Proof.
  revert i r. induction fuel as [| fuel IH]; intros i r Hwf Hi Hfuel Hpre; [lia |]. simpl.
  pose proof (wt_deferred _ Hwf) as [(l & Hl & Hlen) Hc _ _].
  destruct (Z.ltb_spec i (tx_foreign_count (r_own r))).
  2: { apply wp_ret. split_and!; [by apply tx_step_refl | done | | by exists []].
       rewrite take_ge in Hpre; [done |]. unfold deferred. rewrite length_take. lia. }
  apply wp_bind, (wp_aget_eq _ _ _ _ Hl); [lia |]. intros e He.
  assert (deferred (r_own r) !! Z.to_nat i = Some e) as Hde.
  { unfold deferred. rewrite Hl. simpl. rewrite lookup_take_lt by lia. done. }
  destruct (Z.eqb_spec (fo_owner_cpu e) cpu) as [Hown | Hown]; simpl.
  2: { apply IH; [done | lia | lia |]. replace (Z.to_nat (i + 1)) with (S (Z.to_nat i)) by lia.
       rewrite (take_S_r _ _ e) by done. by apply Forall_app_2; [| constructor]. }
  destruct (lookup_in_range l (tx_foreign_count (r_own r) - 1)) as [last Hlast]; [lia |].
  destruct (wf_tx_remove r l i e last Hwf Hl ltac:(lia) He Hlast) as (S1 & Hni & Hr & Hal & Hfl & [nb Hnb]).
  set (o' := own_remove (r_own r) l i last) in *.
  pose proof (tx_release_spec cpu (set_r_own o' r) (fo_req_id e) (ts_wf _ _ _ S1) Hr Hal Hfl Hni) as Hrel.
  pose proof (tx_release_own cpu r (fo_req_id e) (r_own r)) as Hid. rewrite set_r_own_id in Hid.
  rewrite (tx_release_own cpu r (fo_req_id e) o') in Hrel.
  destruct (tx_release cpu r (fo_req_id e)) as [[r1 es] | |]; simpl in Hrel; [| done..].
  destruct Hrel as (S2 & _ & Hfl2 & _ & Hes). simpl in Hes. rewrite Hnb in Hes. subst es.
  injection Hid as Hid.
  assert (r_own r1 = r_own r) as Hown1 by (rewrite Hid; done). clear Hid.
  pose proof (pow2_depth_bounds _ (wr_depth _ (wt_ring _ Hwf))).
  pose proof (tx_step_trans _ _ _ _ _ S1 S2) as S12. simpl in S12.
  apply wp_bind, (wp_of_ret _ _ (r1, [EvFree cpu nb])); [done |]. rewrite Hown1.
  rewrite (u16_id (tx_foreign_count (r_own r) - 1)) by lia.
  apply wp_bind, (wp_aget_eq _ _ _ _ Hl); [lia |]. intros last' Hlast'.
  replace last' with last by congruence. apply wp_bind, (wp_aset_eq _ _ _ _ _ Hl); [lia |].
  change (set_tx_foreign_count _ _) with o'. apply wp_bind.
  pose proof (deferred_remove (r_own r) l i e last Hl ltac:(lia) ltac:(lia) He Hlast) as Hp.
  fold o' in Hp. assert (tx_foreign_count o' = tx_foreign_count (r_own r) - 1) as Hco by done.
  eapply wp_mono; [apply IH; [apply S12 | simpl; lia | simpl; lia |] |].
  - simpl. unfold deferred, o' in *. simpl. rewrite Hl in Hpre. simpl in Hpre.
    rewrite take_take in *. rewrite Nat.min_l in * by lia. by rewrite take_insert_ge by lia.
  - intros [r2 es2] (S3 & Hfl3 & Hno & k & Hk & Hkc & Hlenk). apply wp_ret. simpl in *.
    split_and!; [by eapply (tx_step_trans _ [_]) | congruence | done |].
    exists (e :: k). rewrite Hp, Hk. split_and!; [done | by constructor | simpl; congruence].
Qed.

Lemma tx_drain_spec cpu r :
  wf_tx r ->
  wp (ena_tx_drain_foreign_frees cpu r) (fun '(r', es) =>
    tx_step r es r' /\ req_in_flight (r_pool r') = req_in_flight (r_pool r)
    /\ Forall (fun e => fo_owner_cpu e <> cpu) (deferred (r_own r'))
    /\ exists k, deferred (r_own r) ≡ₚ k ++ deferred (r_own r')
         /\ Forall (fun e => fo_owner_cpu e = cpu) k /\ length (freed es) = length k).
Proof.
  intros Hwf. unfold ena_tx_drain_foreign_frees.
  pose proof (wt_deferred _ Hwf) as [(l & Hl & Hlen) Hc _ _]. rewrite Hl. cbn [non_null negb orb].
  destruct (Z.eqb_spec (tx_foreign_count (r_own r)) 0) as [E | E].
  - apply wp_ret. assert (deferred (r_own r) = []) as Hd by (unfold deferred; by rewrite E).
    split_and!; [by apply tx_step_refl | done | by rewrite Hd | by exists []].
  - apply drain_loop_spec; [done | lia | lia | constructor].
Qed.

(** ** The poll loop *)

(** A poll step may also move the completion head: the frame holds up to the
    completion queue state, whose shape is kept. *)
Record tx_pstep (r : ena_ring) (es : list event) (r' : ena_ring) : Prop := {
  tp_wf : wf_tx r';
  tp_frame : tx_frame (set_r_cq (r_cq r') r) r';
  tp_cqd : cq_depth (r_cq r') = cq_depth (r_cq r);
  tp_held : held (raw_bufs r) ≡ₚ freed es ++ held (raw_bufs r')
}.

Lemma tx_step_pstep r es r' : tx_step r es r' -> tx_pstep r es r'.
Proof.
  intros [Hwf [? ? Hcq ? ? ? ? ? ? ?] Hh]. split; [done | by split | by rewrite Hcq | done].
Qed.

Lemma tx_pstep_trans r1 es1 r2 es2 r3 :
  tx_pstep r1 es1 r2 -> tx_pstep r2 es2 r3 -> tx_pstep r1 (es1 ++ es2) r3.
Proof.
  intros [_ [? ? ? ? ? ? ? F1 [] (? & ? & ?)] C1 HA] [Hwf [? ? ? ? ? ? ? F2 [] (? & ? & ?)] C2 HB].
  change (drop_releases r2 = drop_releases r1) in F1. change (drop_releases r3 = drop_releases r2) in F2.
  split; [done | | congruence |].
  - split; try (simpl in *; congruence); [by transitivity (drop_releases r2) | |];
    simpl in *; split_and!; congruence.
  - by rewrite HA, HB, freed_app, app_assoc.
Qed.

Lemma tx_pstep_owner r es r' :
  tx_pstep r es r' -> tx_owner_cpu (r_own r') = tx_owner_cpu (r_own r).
Proof. intros []. apply tp_frame0. Qed.

Lemma cq_advance_step r :
  wf_tx r -> tx_pstep r [] (cq_advance r) /\ r_own (cq_advance r) = r_own r
    /\ r_pool (cq_advance r) = r_pool r
    /\ (cq_head (r_cq (cq_advance r)), cq_phase (r_cq (cq_advance r)))
       = ring_advance (cq_depth (r_cq r)) (cq_head (r_cq r)) (cq_phase (r_cq r)).
Proof.
  intros Hwf. pose proof (ring_advance_ok _ _ _ (wr_cqd _ (wt_ring _ Hwf)) (wr_cqi _ (wt_ring _ Hwf))) as Hi.
  unfold cq_advance. destruct (ring_advance _ _ _) as [hd ph]. simpl in Hi.
  split; [| done]. split; [| by split | done | done].
  destruct Hwf as [[? ? ? ? ? ? ? []] ? ? ?]. split; [split | ..]; done.
Qed.

Definition tx_cdesc_ok (c : ena_eth_io_tx_cdesc) : Prop := 0 <= txc_req_id c < 2 ^ 16.

(** Completion queue memory: the right number of entries, each field in its type. *)
Definition tx_view_ok (d : Z) (view : tx_view) : Prop :=
  forall j k, Z.of_nat (length (view j k)) = d /\ Forall tx_cdesc_ok (view j k).

(** What an iteration that goes on has done. *)
Record tx_iter_ok (j : nat) (cpu : Z) (view : tx_view) (r : ena_ring) (r' : ena_ring)
    (txq txq' : option uk_netdev_tx_queue) (n : Z) (es : list event) : Prop := {
  ti_step : tx_pstep r es r';
  ti_txq : txq_ok txq' /\ txq_step r txq r' txq';
  ti_disposed : disposed cpu r es r';
  ti_head : (cq_head (r_cq r'), cq_phase (r_cq r'))
            = ring_advance (cq_depth (r_cq r)) (cq_head (r_cq r)) (cq_phase (r_cq r));
  ti_phase : exists c, view j 0%nat !! Z.to_nat (Z.land (cq_head (r_cq r)) (cq_depth (r_cq r) - 1)) = Some c
             /\ tx_cdesc_phase c = cq_phase (r_cq r);
  ti_count : 0 <= n <= 1;
  ti_flight : forall x, 0 <= x -> in_flight (r_pool r') x -> in_flight (r_pool r) x;
  ti_hit : forall c x, view j 1%nat !! Z.to_nat (Z.land (cq_head (r_cq r)) (cq_depth (r_cq r) - 1)) = Some c ->
    txc_req_id c = x -> in_flight (r_pool r) x -> n = 1 /\ ~ in_flight (r_pool r') x
}.

Lemma tx_poll_iter_spec j cpu view r txq :
  wf_tx r -> txq_ok txq -> tx_view_ok (cq_depth (r_cq r)) view ->
  wp (tx_poll_iter j cpu view r txq) (fun s =>
    match s with None => True | Some (r', txq', n, es) => tx_iter_ok j cpu view r r' txq txq' n es end).
Proof.
  intros Hwf Hq Hv. pose proof (wr_pool _ (wt_ring _ Hwf)) as Hp.
  pose proof (slot_range (cq_head (r_cq r)) _ (wr_cqd _ (wt_ring _ Hwf))) as Hslot.
  unfold tx_poll_iter. set (slot := Z.land _ _) in *.
  destruct (Hv j 0%nat) as [Hl0 _], (Hv j 1%nat) as [Hl1 Hok1], (Hv j 2%nat) as [Hl2 _].
  apply wp_bind, wp_aget; [lia |]. intros c Hc.
  destruct (Z.eqb_spec (tx_cdesc_phase c) (cq_phase (r_cq r))) as [Hph | Hph]; cbn [negb]; [| done].
  apply wp_bind, wp_aget; [lia |]. intros c1 Hc1.
  assert (tx_cdesc_ok c1) as Hreq by (by eapply (Forall_lookup_1 _ _ _ _ Hok1)).
  unfold tx_cdesc_ok in Hreq. destruct (Z.leb_spec (sq_depth (r_sq r)) (txc_req_id c1)); [done |].
  assert (non_null (req_in_flight (r_pool r)) = true) as -> by (by rewrite (wp_fl _ _ _ Hp)).
  pose proof (wp_fl_len _ _ _ Hp).
  apply wp_bind, wp_bind, (wp_aget_eq _ _ _ _ (wp_fl _ _ _ Hp)); [lia |]. intros x Hx. apply wp_ret.
  unfold z2b. destruct (Z.eqb_spec x 0); cbn [negb].
  - apply wp_ret. destruct (cq_advance_step r Hwf) as (S1 & Hown & Hpool & Hhead).
    split; [done | by split; [| split; [done | intros _; unfold txq_mapped; by rewrite Hpool]] | | done | by exists c | lia | by rewrite Hpool |].
    + unfold disposed. rewrite Hown. case_match; [done |]. split; [done |]. exists []. by rewrite app_nil_r.
    + intros c' y Hc' <- (z & Hz & Hz0). replace c' with c1 in * by (fold slot in Hc'; congruence). congruence.
  - apply wp_bind, wp_aget; [lia |]. intros c2 Hc2. apply wp_bind.
    eapply wp_mono; [apply tx_complete_one_spec; [done | done | lia | by exists x] |].
    intros [[r' txq'] es] (S1 & Hq' & Hd & Hfl & Hst). apply wp_ret.
    destruct (cq_advance_step r' (ts_wf _ _ _ S1)) as (S2 & Hown & Hpool & Hhead).
    pose proof (tf_cq _ _ (ts_frame _ _ _ S1)) as Hcq. rewrite Hcq in Hhead.
    split; [| split; [done |] | | done | by exists c | lia | |].
    2: { destruct Hst as [Hsh Hm]. split; [done |]. intros Hcb Hm0. unfold txq_mapped. rewrite Hpool. by apply Hm. }
    + rewrite <- (app_nil_r es). by eapply tx_pstep_trans; [apply tx_step_pstep |].
    + unfold disposed in *. by rewrite Hown.
    + intros y Hy (z & Hz & Hz0). rewrite Hpool, Hfl, zlookup_insert in Hz by lia.
      case_decide; [congruence | by exists z].
    + intros c' y Hc' <- _. replace c' with c1 in * by (fold slot in Hc'; congruence).
      split; [done |]. intros (z & Hz & Hz0). rewrite Hpool, Hfl, list_lookup_insert_eq in Hz by lia. congruence.
Qed.

(** What a run of the loop has done; [disposed] composes. *)
Lemma disposed_trans cpu r1 es1 r2 es2 r3 :
  tx_owner_cpu (r_own r2) = tx_owner_cpu (r_own r1) ->
  disposed cpu r1 es1 r2 -> disposed cpu r2 es2 r3 -> disposed cpu r1 (es1 ++ es2) r3.
Proof.
  unfold disposed. intros ->. case_match; [congruence |].
  intros (F1 & k1 & D1 & A1) (F2 & k2 & D2 & A2). rewrite freed_app, F1, F2. split; [done |].
  exists (k1 ++ k2). rewrite D2, D1, app_assoc. split; [done |]. by apply Forall_app_2.
Qed.

Record tx_poll_ok (cpu : Z) (r : ena_ring) (r' : ena_ring) (txq txq' : option uk_netdev_tx_queue)
    (es : list event) : Prop := {
  tpo_step : tx_pstep r es r';
  tpo_txq : txq_ok txq' /\ txq_step r txq r' txq';
  tpo_disposed : disposed cpu r es r';
  tpo_flight : forall x, 0 <= x -> in_flight (r_pool r') x -> in_flight (r_pool r) x
}.

Lemma tx_poll_ok_refl cpu r txq : wf_tx r -> txq_ok txq -> tx_poll_ok cpu r r txq txq [].
Proof.
  intros. split; [by apply tx_step_pstep, tx_step_refl | by split; [| split] | | done].
  unfold disposed. case_match; [done |]. split; [done |]. exists []. by rewrite app_nil_r.
Qed.

(** Safety, for any device: partial correctness with any fuel. *)
Lemma tx_poll_loop_safe fuel j cpu budget view r txq cleaned :
  wf_tx r -> txq_ok txq -> tx_view_ok (cq_depth (r_cq r)) view -> 0 <= cleaned ->
  wlp (tx_poll_loop fuel j cpu budget view r txq cleaned) (fun '(r', txq', cleaned', es) =>
    tx_poll_ok cpu r r' txq txq' es /\ cleaned <= cleaned' <= Z.max cleaned budget).
Proof.
  revert j r txq cleaned. induction fuel as [| fuel IH]; intros j r txq cleaned Hwf Hq Hv Hc; [done |].
  simpl. destruct (Z.leb_spec budget cleaned).
  { apply wlp_ret. split; [by apply tx_poll_ok_refl | lia]. }
  apply wlp_bind. eapply wlp_mono; [apply wp_wlp; by apply tx_poll_iter_spec |].
  intros [[[[r1 txq1] n] es1] |] H1.
  2: { apply wlp_ret. split; [by apply tx_poll_ok_refl | lia]. }
  destruct H1 as [S1 [Hq1 M1] D1 _ _ Hn F1 _]. apply wlp_bind. eapply wlp_mono.
  { apply IH; [apply S1 | done | by rewrite (tp_cqd _ _ _ S1) | lia]. }
  intros [[[r2 txq2] c2] es2] [[S2 [Hq2 M2] D2 F2] Hc2]. apply wlp_ret. split; [| lia].
  split; [by eapply tx_pstep_trans | split; [done |]; by eapply txq_step_trans; [apply S1 | ..] | | auto].
  eapply disposed_trans; [by eapply tx_pstep_owner | done | done].
Qed.

(** Termination, when the device is quiet: one lap of the queue flips the phase,
    so the slot the poll started from stops it. *)
Lemma tx_poll_loop_total V h0 fuel j m cpu budget r txq cleaned :
  wf_tx r -> txq_ok txq -> tx_view_ok (cq_depth (r_cq r)) (fun _ _ => V) -> 0 <= h0 < 65536 ->
  0 <= m <= cq_depth (r_cq r) -> cq_head (r_cq r) = u16 (h0 + m) ->
  (0 < m -> exists c, V !! Z.to_nat (Z.land h0 (cq_depth (r_cq r) - 1)) = Some c
                      /\ tx_cdesc_phase c = phase_of (cq_depth (r_cq r)) h0) ->
  cq_depth (r_cq r) - m < Z.of_nat fuel ->
  tx_poll_loop fuel j cpu budget (fun _ _ => V) r txq cleaned <> Hang.
Proof.
  revert j m r txq cleaned. induction fuel as [| fuel IH];
    intros j m r txq cleaned Hwf Hq Hv Hh0 Hm Hhd Hseen Hfuel; [lia |]. simpl.
  destruct (budget <=? cleaned); [done |].
  pose proof (tx_poll_iter_spec j cpu _ r txq Hwf Hq Hv) as Hi.
  destruct (tx_poll_iter j cpu _ r txq) as [[[[[r1 txq1] n] es1] |] | |]; simpl in Hi |- *; try done.
  destruct Hi as [S1 [Hq1 _] _ Hadv (c & Hc & Hph) _ _ _].
  pose proof (wr_cqd _ (wt_ring _ Hwf)) as Hd. pose proof (wr_cqi _ (wt_ring _ Hwf)) as [_ Hcp].
  set (d := cq_depth (r_cq r)) in *. rewrite Hhd in Hc, Hcp.
  assert (m < d).
  { destruct (Z.eq_dec m d) as [-> |]; [exfalso | lia].
    pose proof (pow2_depth_bounds _ Hd). destruct Hseen as (c' & Hc' & Hph'); [lia |].
    eapply (lap_contra tx_cdesc_phase V d h0); [done | done | exact Hc' | done | exact Hc | congruence]. }
  assert (cq_head (r_cq r1) = u16 (h0 + (m + 1))) as Hhd1.
  { injection Hadv as Hh _. rewrite Hh, Hhd, u16_add_l. f_equal. lia. }
  pose proof (tp_cqd _ _ _ S1) as Ed. fold d in Ed.
  assert (tx_poll_loop fuel (S j) cpu budget (fun _ _ => V) r1 txq1 (cleaned + n) <> Hang) as Hrec.
  { apply (IH _ (m + 1)); rewrite ?Ed; try done; [apply S1 | lia | | lia]. intros _.
    destruct (decide (m = 0)) as [-> |]; [| apply Hseen; lia].
    rewrite Z.add_0_r, u16_id in Hc, Hcp by lia. exists c. by rewrite Hph, Hcp. }
  by destruct (tx_poll_loop fuel _ _ _ _ _ _ _) as [[[[? ?] ?] ?] | |].
Qed.

(** ** Submission *)
Lemma sq_advance_eq r :
  sq_advance r = set_r_sq (set_sq_phase (ring_advance (sq_depth (r_sq r)) (sq_tail (r_sq r)) (sq_phase (r_sq r))).2
    (set_sq_tail (u16 (sq_tail (r_sq r) + 1)) (r_sq r))) r.
Proof. done. Qed.

(** What a successful submission of [pkt] does to the ring. *)
Record tx_submitted (cpu : Z) (pkt : ena_tx_pkt) (r : ena_ring) (id : Z) (r' : ena_ring) : Prop := {
  tsb_wf : wf_tx r';
  tsb_id : exists rest, pool_list r = id :: rest /\ pool_list r' = rest;
  tsb_flight : flights (r_pool r') = <[Z.to_nat id := 1]> (flights (r_pool r));
  tsb_cell : cells (raw_bufs r')
    = <[Z.to_nat id := mkBuf (txp_netbuf pkt) (txp_phys_addr pkt) (txp_len pkt) 1 id]> (cells (raw_bufs r));
  tsb_held : held (raw_bufs r') ≡ₚ option_list (txp_netbuf pkt) ++ held (raw_bufs r);
  tsb_desc : sq_virt (r_sq r') = (fun l => <[Z.to_nat (Z.land (sq_tail (r_sq r)) (sq_depth (r_sq r) - 1))
      := SlotTx (tx_desc_format pkt id (sq_phase (r_sq r)))]> l) <$> sq_virt (r_sq r);
  tsb_tail : sq_tail (r_sq r') = u16 (sq_tail (r_sq r) + 1);
  tsb_owner : tx_owner_cpu (r_own r') = cpu;
  tsb_lock : ring_lock r' = 0;
  tsb_frame : cq_depth (r_cq r') = cq_depth (r_cq r) /\ hw_valid r' = true
    /\ deferred (r_own r') = deferred (r_own r) /\ drop_releases r' = drop_releases r;
  tsb_kept : tx_kept r r'
}.

(** Taking a free id into flight keeps the rest of the TX invariant. *)
Lemma wf_tx_take r r' id :
  wf_tx r -> wf_ring r' -> ring_type r' = ring_type r -> sq_depth (r_sq r') = sq_depth (r_sq r) ->
  0 <= id < sq_depth (r_sq r) -> ~ allocated (r_pool r) id ->
  allocs (r_pool r') = <[Z.to_nat id := 1]> (allocs (r_pool r)) ->
  flights (r_pool r') = <[Z.to_nat id := 1]> (flights (r_pool r)) ->
  (exists b, cells (raw_bufs r') = <[Z.to_nat id := b]> (cells (raw_bufs r))) ->
  tx_foreign (r_own r') = tx_foreign (r_own r) ->
  tx_foreign_count (r_own r') = tx_foreign_count (r_own r) ->
  wf_tx r'.
Proof.
  intros Hwf Hwf' Ety Ed Hid Hna Hal Hfl (b & Hcells) Efo Efc.
  pose proof (wr_pool _ (wt_ring _ Hwf)) as Hp.
  pose proof (wp_al_len _ _ _ Hp). pose proof (wp_fl_len _ _ _ Hp).
  split; [done | by rewrite Ety; apply Hwf | |].
  - intros x Hx (y & Hy & Hy0). unfold allocated. rewrite Hal, zlookup_insert by lia.
    rewrite Hfl, zlookup_insert in Hy by lia. case_decide; [by exists 1 |].
    apply (wt_flight _ Hwf); [done | by exists y].
  - destruct (wf_deferred_change _ _ _ _ (r_pool r') (raw_bufs r') (wt_deferred _ Hwf)) as [? ? Hnd He].
    { intros x Hx. destruct (deferred_id_spec _ _ _ _ _ (wt_deferred _ Hwf) Hx) as (? & Hax & _).
      assert (id <> x) by (by intros ->). rewrite Hal, Hfl, Hcells, !lookup_insert_other by lia. done. }
    assert (deferred (r_own r') = deferred (r_own r)) as Edef by (unfold deferred; by rewrite Efo, Efc).
    split; rewrite ?Ed, ?Efo, ?Efc, ?Edef; done.
Qed.

(** The main branch. *)
Lemma ena_tx_submit_spec cpu r pkt :
  wf_tx r -> hw_valid r = true -> ring_lock r = 0 ->
  (txp_len pkt =? 0) || (0xFFFF <? txp_len pkt) = false -> 0 < ff_count (free_req (r_pool r)) ->
  wp (ena_tx_submit cpu r pkt) (fun '(err, id, r') => err = 0 /\ tx_submitted cpu pkt r id r').
Proof.
  intros Hwf Hv Hk Hlen Hc. pose proof (wr_pool _ (wt_ring _ Hwf)) as Hp.
  unfold ena_tx_submit. rewrite (wt_type _ Hwf), Hv, Hlen. simpl. unfold ena_ring_lock. rewrite Hk. simpl.
  destruct (Z.eqb_spec (ff_count (free_req (r_pool r))) 0); [lia |].
  apply wp_bind. eapply wp_mono.
  { exact (ena_ring_req_id_alloc_spec (set_ring_lock 1 r) _ _ _ eq_refl eq_refl eq_refl Hp Hc). }
  intros [[err id] r1] (-> & Hid & p' & -> & Hp' & Hfree & Hfl & Hal & Halloc & b0 & Hb0 & Hnb0).
  simpl in *. pose proof (wf_pool_set_flight _ _ _ id 1 Hp') as Hp1.
  pose proof (wp_fl_len _ _ _ Hp'). pose proof (wp_cells_len _ _ _ Hp').
  set (b := mkBuf _ _ _ _ _) in *.
  pose proof (wf_pool_set_cell _ _ _ id b Hp1 Hid Halloc) as Hp2.
  assert (flights p' = flights (r_pool r)) as Hfl' by (unfold flights; by rewrite Hfl).
  destruct (wr_sqm _ (wt_ring _ Hwf)) as (sqm & Hsqm & Hsqlen).
  pose proof (slot_range (sq_tail (r_sq r)) _ (wr_depth _ (wt_ring _ Hwf))) as Hslot.
  unfold aset_opt. rewrite (wp_fl _ _ _ Hp'). simpl.
  apply wp_bind, wp_aset; [lia |].
  apply wp_bind, (wp_aset_eq _ _ _ _ _ (wp_cells _ _ _ Hp')); [simpl in *; lia |].
  apply wp_bind. simpl. apply (wp_aset_eq _ _ _ _ _ Hsqm); [lia |]. apply wp_ret. split; [done |].
  assert (id ∈ free_ids (sq_depth (r_sq r)) (r_pool r)) as Hin by (rewrite Hfree; set_solver).
  split; try done.
  - apply (wf_tx_take r _ id Hwf); try done.
    + apply (wf_ring_change r); try done.
      * apply Hwf.
      * eexists. split; [reflexivity |]. by rewrite length_insert.
      * exact (ring_advance_ok _ _ _ (wr_depth _ (wt_ring _ Hwf)) (wr_sqi _ (wt_ring _ Hwf))).
      * apply Hwf.
      * apply Hwf.
    + intros (y & Hy & ?). apply (wp_free _ _ _ Hp) in Hin as [_ Hz]. congruence.
    + simpl. by rewrite Hfl'.
    + by exists b.
  - exists (free_ids (sq_depth (r_sq r)) p'). done.
  - simpl. by rewrite Hfl'.
  - exact (omap_insert_opt buf_netbuf _ _ b0 b Hb0 Hnb0).
  - simpl. by rewrite Hsqm.
Qed.

Lemma pool_list_count r : wf_ring r -> pool_list r = [] <-> ff_count (free_req (r_pool r)) = 0.
Proof.
  intros Hwf. pose proof (wf_pool_count _ _ _ (wr_pool _ Hwf)) as Hc. unfold pool_list.
  rewrite <- length_zero_iff_nil. lia.
Qed.



(** ** The poll as a whole *)
Lemma wf_tx_lock r v : wf_tx r -> wf_tx (set_ring_lock v r).
Proof. intros [[? ? ? ? ? ? ? []] ? ? ?]. split; [split | ..]; done. Qed.

(** What a poll by core [cpu] may have done. *)
Record tx_polled (cpu : Z) (r : ena_ring) (r' : ena_ring) (txq txq' : option uk_netdev_tx_queue)
    (es : list event) : Prop := {
  txp_wf : wf_tx r';
  txp_lock : ring_lock r' = ring_lock r;
  txp_valid : hw_valid r' = hw_valid r;
  txp_cqd : cq_depth (r_cq r') = cq_depth (r_cq r);
  txp_txq : txq_ok txq';
  txp_held : held (raw_bufs r) ≡ₚ freed es ++ held (raw_bufs r');
  txp_own : tx_owner_cpu (r_own r') = tx_owner_cpu (r_own r);
  txp_foreign : cpu <> tx_owner_cpu (r_own r) ->
    Forall (fun e => fo_owner_cpu e <> cpu) (deferred (r_own r)) ->
    freed es = [] /\ Forall (fun e => e ∈ deferred (r_own r) \/ fo_owner_cpu e = tx_owner_cpu (r_own r))
                       (deferred (r_own r'));
  txp_drained : cpu = tx_owner_cpu (r_own r) -> ff_count (free_req (r_pool r)) < sq_depth (r_sq r) ->
    hw_valid r = true ->
    Forall (fun e => fo_owner_cpu e <> cpu /\ e ∈ deferred (r_own r)) (deferred (r_own r'));
  txp_drop : drop_releases r' = drop_releases r;
  txp_step : txq_step r txq r' txq';
  txp_frame : tx_kept r r'
}.

Lemma tx_polled_refl cpu r txq :
  wf_tx r -> txq_ok txq ->
  (hw_valid r = false \/ sq_depth (r_sq r) <= ff_count (free_req (r_pool r))) ->
  tx_polled cpu r r txq txq [].
Proof.
  intros Hwf Hq Hidle. split; try done; try by split.
  - intros _ _. split; [done |]. apply Forall_forall. by left.
  - intros _ Hc Hv. destruct Hidle; [congruence | lia].
Qed.

(** The drain and the loop, composed. *)
Lemma tx_polled_compose cpu r r1 es1 r2 txq txq2 es2 k :
  wf_tx r -> ring_lock r = 0 -> tx_step (set_ring_lock 1 r) es1 r1 ->
  Forall (fun e => fo_owner_cpu e <> cpu) (deferred (r_own r1)) ->
  deferred (r_own r) ≡ₚ k ++ deferred (r_own r1) -> Forall (fun e => fo_owner_cpu e = cpu) k ->
  length (freed es1) = length k -> req_in_flight (r_pool r1) = req_in_flight (r_pool r) ->
  tx_poll_ok cpu r1 r2 txq txq2 es2 ->
  tx_polled cpu r (set_ring_lock 0 r2) txq txq2 (es1 ++ es2).
Proof.
  intros Hwf Hk S1 Hno Hdk Hkc Hlen Hfl [S2 [Hq2 [Hsh Hmp]] D2 _].
  destruct S1 as [Hwf1 [? ? Hcq ? ? ? Ho1 Hdr1 ? (? & ? & ?)] Hh1]. simpl in *.
  destruct S2 as [Hwf2 [? ? ? ? ? ? Ho2 Hdr2 ? (? & ? & ?)] Hcqd Hh2]. simpl in *.
  assert (forall e, e ∈ deferred (r_own r1) -> e ∈ deferred (r_own r)) as Hsub
    by (intros e He; rewrite Hdk; set_solver).
  split; simpl; try congruence; try done; try by apply wf_tx_lock.
  - by rewrite Hh1, Hh2, freed_app, app_assoc.
  - intros Hne Hnf. rewrite freed_app. unfold disposed in D2. rewrite Ho1 in D2.
    destruct (Z.eqb_spec cpu (tx_owner_cpu (r_own r))); [done |].
    destruct D2 as (-> & k2 & -> & Hk2). rewrite app_nil_r.
    assert (k = []) as ->.
    { destruct k as [| e k]; [done |]. rewrite Hdk in Hnf. apply Forall_cons in Hkc as [He _].
      by apply Forall_cons in Hnf as [? _]. }
    split; [by apply length_zero_iff_nil |]. apply Forall_app_2; [apply Forall_forall; auto |].
    eapply Forall_impl; [done |]. auto.
  - intros Heq _ _. unfold disposed in D2. rewrite Ho1, Heq, Z.eqb_refl in D2.
    rewrite D2. apply Forall_forall. intros e He. rewrite Forall_forall in Hno. auto.
  - unfold drop_releases in *. simpl in *. congruence.
  - split; [done |]. intros Hcb Hm. apply Hmp; [congruence |]. unfold txq_mapped, in_flight, flights. by rewrite Hfl.
  - unfold tx_kept; simpl; split_and!; congruence.
Qed.

Lemma tx_poll_spec fuel cpu view r txq budget :
  wf_tx r -> ring_lock r = 0 -> txq_ok txq -> tx_view_ok (cq_depth (r_cq r)) view -> 0 <= budget ->
  wlp (ena_tx_poll_completions fuel cpu view r txq budget) (fun '(ret, cnt, r', txq', es) =>
    tx_polled cpu r r' txq txq' es
    /\ 0 <= ret <= (if budget =? 0 then cq_depth (r_cq r) else budget)).
Proof.
  intros Hwf Hk Hq Hv Hb. pose proof (pow2_depth_bounds _ (wr_cqd _ (wt_ring _ Hwf))).
  assert (0 <= 0 <= (if budget =? 0 then cq_depth (r_cq r) else budget)) as Hb0 by (case_match; lia).
  unfold ena_tx_poll_completions. rewrite (wt_type _ Hwf), (wr_cqm _ (wt_ring _ Hwf)). simpl.
  destruct (hw_valid r) eqn:Hval; simpl; [| split; [apply tx_polled_refl; auto | done]].
  destruct (Z.leb_spec (sq_depth (r_sq r)) (ff_count (free_req (r_pool r)))); simpl.
  { split; [apply tx_polled_refl; auto | done]. }
  unfold ena_ring_lock. rewrite Hk. simpl. apply wlp_bind.
  eapply wlp_mono; [apply wp_wlp, tx_drain_spec; by apply wf_tx_lock |].
  intros [r1 es1] (S1 & Hfl & Hno & k & Hdk & Hkc & Hlen). simpl in Hdk.
  apply wlp_bind. eapply wlp_mono.
  { apply tx_poll_loop_safe; [apply S1 | done | | lia].
    rewrite (tf_cq _ _ (ts_frame _ _ _ S1)). done. }
  intros [[[r2 txq2] c] es2] [Hok Hc]. apply wlp_ret. split.
  - by eapply tx_polled_compose.
  - case_match; lia.
Qed.

(** The fuel a poll needs when the device is quiet. *)
Lemma tx_poll_total fuel cpu V r txq budget :
  wf_tx r -> ring_lock r = 0 -> txq_ok txq -> tx_view_ok (cq_depth (r_cq r)) (fun _ _ => V) ->
  cq_depth (r_cq r) < Z.of_nat fuel ->
  ena_tx_poll_completions fuel cpu (fun _ _ => V) r txq budget <> Hang.
Proof.
  intros Hwf Hk Hq Hv Hf. pose proof (pow2_depth_bounds _ (wr_cqd _ (wt_ring _ Hwf))).
  unfold ena_tx_poll_completions. case_match; [done |]. case_match; [done |]. case_match; [done |].
  unfold ena_ring_lock. rewrite Hk. simpl.
  pose proof (tx_drain_spec cpu (set_ring_lock 1 r) (wf_tx_lock _ _ Hwf)) as Hd.
  destruct (ena_tx_drain_foreign_frees cpu _) as [[r1 es1] | |]; [| done..].
  destruct Hd as (S1 & _). simpl. pose proof (tf_cq _ _ (ts_frame _ _ _ S1)) as Ecq. simpl in Ecq.
  pose proof (wr_cqi _ (wt_ring _ Hwf)) as [? _].
  assert (forall b, tx_poll_loop fuel 0 cpu b (fun _ _ => V) r1 txq 0 <> Hang) as Hl.
  { intros b. apply (tx_poll_loop_total V (cq_head (r_cq r)) fuel 0 0); rewrite ?Ecq; try done;
      [apply S1 | lia | rewrite Z.add_0_r; by rewrite u16_id | lia]. }
  specialize (Hl (if budget =? 0 then cq_depth (r_cq r) else budget)).
  destruct (tx_poll_loop _ _ _ _ _ _ _ _) as [[[[? ?] ?] ?] | |]; done.
Qed.

(** A visible completion of a valid id is not skipped by a [break]. *)
Lemma tx_poll_iter_goes j cpu view r txq c c1 :
  let slot := Z.land (cq_head (r_cq r)) (cq_depth (r_cq r) - 1) in
  0 <= slot -> view j 0%nat !! Z.to_nat slot = Some c -> tx_cdesc_phase c = cq_phase (r_cq r) ->
  view j 1%nat !! Z.to_nat slot = Some c1 -> txc_req_id c1 < sq_depth (r_sq r) ->
  tx_poll_iter j cpu view r txq <> Ret None.
Proof.
  cbv zeta. intros Hs Hc Hph Hc1 Hid. unfold tx_poll_iter.
  rewrite (aget_ret (view j 0%nat) _ c) by done. cbn [mbind res_bind]. rewrite Hph, Z.eqb_refl. cbn [negb].
  rewrite (aget_ret (view j 1%nat) _ c1) by done. cbn [mbind res_bind]. destruct (Z.leb_spec (sq_depth (r_sq r)) (txc_req_id c1)); [lia |].
  match goal with |- (?m ≫= _) <> _ => destruct m as [[] | |]; cbn [mbind res_bind negb]; try done end.
  destruct (aget (Some (view j 2%nat)) _); cbn [mbind res_bind]; try done. by destruct (tx_complete_one _ _ _ _ _) as [[[? ?] ?] | |].
Qed.

Lemma tx_poll_loop_progress V fuel cpu budget r txq c :
  wf_tx r -> txq_ok txq -> tx_view_ok (cq_depth (r_cq r)) (fun _ _ => V) ->
  cq_depth (r_cq r) < Z.of_nat fuel -> 0 < budget ->
  V !! Z.to_nat (Z.land (cq_head (r_cq r)) (cq_depth (r_cq r) - 1)) = Some c ->
  tx_cdesc_phase c = cq_phase (r_cq r) -> txc_req_id c < sq_depth (r_sq r) ->
  in_flight (r_pool r) (txc_req_id c) ->
  wlp (tx_poll_loop fuel 0 cpu budget (fun _ _ => V) r txq 0) (fun '(r', _, cleaned, _) =>
    1 <= cleaned /\ ~ in_flight (r_pool r') (txc_req_id c)).
Proof.
  intros Hwf Hq Hv Hf Hb Hc Hph Hid Hin. pose proof (wr_cqd _ (wt_ring _ Hwf)) as Hd.
  pose proof (pow2_depth_bounds _ Hd). pose proof (slot_range (cq_head (r_cq r)) _ Hd).
  assert (0 <= txc_req_id c) by (destruct (Hv 0%nat 0%nat) as [_ Hok];
    destruct (Forall_lookup_1 _ _ _ _ Hok Hc); lia).
  destruct fuel as [| fuel]; [lia |]. simpl. destruct (Z.leb_spec budget 0); [lia |].
  pose proof (tx_poll_iter_spec 0 cpu _ r txq Hwf Hq Hv) as Hi.
  pose proof (tx_poll_iter_goes 0 cpu (fun _ _ => V) r txq c c ltac:(lia) Hc Hph Hc Hid) as Hgo.
  destruct (tx_poll_iter _ _ _ _ _) as [[[[[r1 txq1] n] es1] |] | |]; simpl in Hi |- *; try done.
  destruct Hi as [S1 [Hq1 _] _ _ _ _ _ Hhit]. destruct (Hhit c _ Hc eq_refl Hin) as [-> Hnin].
  apply wlp_bind. eapply wlp_mono.
  { apply (tx_poll_loop_safe fuel 1 cpu budget (fun _ _ => V) r1 txq1 1); [apply S1 | done | | lia].
    by rewrite (tp_cqd _ _ _ S1). }
  intros [[[r2 txq2] c2] es2] [[_ _ _ F2] Hc2]. apply wlp_ret. split; [lia |]. auto.
Qed.

(** C12: Transmit poll, safety against any device.  Whatever the device writes to
    the completion queue, and however it changes the queue while the driver reads
    it, a poll of a well-formed ring never accesses memory out of bounds; when it
    returns, the ring invariant holds, the lock is free, the bounce slots of the
    queue are still partitioned, at most [budget] completions were counted, and
    every netbuf the ring held is either still held or was freed exactly once. *)
Theorem tx_poll_safe fuel cpu view r txq budget :
  wf_tx r -> ring_lock r = 0 -> txq_ok txq -> tx_view_ok (cq_depth (r_cq r)) view -> 0 <= budget ->
  wlp (ena_tx_poll_completions fuel cpu view r txq budget) (fun '(ret, _, r', txq', es) =>
    wf_tx r' /\ ring_lock r' = 0 /\ txq_ok txq'
    /\ 0 <= ret <= (if budget =? 0 then cq_depth (r_cq r) else budget)
    /\ held (raw_bufs r) ≡ₚ freed es ++ held (raw_bufs r')).
Proof.
  intros Hwf Hk Hq Hv Hb. eapply wlp_mono; [by apply tx_poll_spec |].
  intros [[[[ret cnt] r'] txq'] es] [[? Hl ? ? ? ? ? ? ? ? _ _] Hr]. rewrite Hk in Hl. done.
Qed.

(** A completion queue of depth 4 with one completion of id 0 in the first lap. *)
Definition example_cq : list ena_eth_io_tx_cdesc :=
  [mkTxCdesc 0 0 1 0 1; tx_cdesc_zero; tx_cdesc_zero; tx_cdesc_zero].

(** The ring after core 3 submitted [example_tx_pkt]. *)
Definition example_sent : ena_ring :=
  match ena_tx_submit 3 (example_ring ENA_RING_TYPE_TX 4) example_tx_pkt with
  | Ret (_, _, r) => r
  | _ => example_ring ENA_RING_TYPE_TX 4
  end.

Lemma example_sent_wf : wf_tx example_sent.
Proof.
  pose proof (ena_tx_submit_spec 3 _ example_tx_pkt example_tx_wf eq_refl eq_refl eq_refl ltac:(done)) as H.
  unfold example_sent. destruct (ena_tx_submit _ _ _) as [[[err id] r'] | |]; try done. apply H.
Qed.

Lemma example_view_ok : tx_view_ok 4 (fun _ _ => example_cq).
Proof. intros j k. split; [done |]. repeat constructor; simpl; lia. Qed.

Lemma tx_poll_safe_witness :
  wlp (ena_tx_poll_completions 6 3 (fun _ _ => example_cq) example_sent None 0)
    (fun '(ret, _, r', _, es) => ret = 1 /\ freed es = [7] /\ wf_tx r').
Proof.
  pose proof (tx_poll_safe 6 3 (fun _ _ => example_cq) example_sent None 0 example_sent_wf eq_refl
                ltac:(done) example_view_ok ltac:(lia)) as H.
  destruct (ena_tx_poll_completions _ _ _ _ _ _) as [[[[[ret cnt] r'] txq'] es] | |] eqn:E;
    [| done | done].
  destruct H as (Hwf & _). split; [| split; [| done]]; vm_compute in E; injection E as <- _ _ _ <-; done.
Defined.



(** A foreign core frees nothing.  A poll on a core that is neither the last
    submitter of the ring nor the owner of a deferred release frees no netbuf,
    whatever the device does: every completed buffer is kept for the core that
    submitted last.  And a poll on the submitting core frees all that was
    deferred for it. *)
Theorem tx_poll_ownership fuel cpu view r txq budget :
  wf_tx r -> ring_lock r = 0 -> txq_ok txq -> tx_view_ok (cq_depth (r_cq r)) view -> 0 <= budget ->
  wlp (ena_tx_poll_completions fuel cpu view r txq budget) (fun '(_, _, r', _, es) =>
    (cpu <> tx_owner_cpu (r_own r) -> Forall (fun e => fo_owner_cpu e <> cpu) (deferred (r_own r)) ->
     freed es = [] /\ held (raw_bufs r) ≡ₚ held (raw_bufs r'))
    /\ (cpu = tx_owner_cpu (r_own r) -> hw_valid r = true ->
        ff_count (free_req (r_pool r)) < sq_depth (r_sq r) ->
        Forall (fun e => fo_owner_cpu e <> cpu) (deferred (r_own r')))).
Proof.
  intros Hwf Hk Hq Hv Hb. eapply wlp_mono; [by apply tx_poll_spec |].
  intros [[[[ret cnt] r'] txq'] es] [[? ? ? ? ? Hh ? Hf Hd ? _ _] _]. split.
  - intros Hne Hno. destruct (Hf Hne Hno) as [E _]. rewrite E in Hh. done.
  - intros He Hv' Hc. eapply Forall_impl; [by apply Hd |]. naive_solver.
Qed.

Lemma tx_poll_ownership_witness :
  wlp (ena_tx_poll_completions 6 2 (fun _ _ => example_cq) example_sent None 0)
    (fun '(_, _, r', _, es) => freed es = [] /\ [7] ≡ₚ held (raw_bufs r')).
Proof.
  pose proof (tx_poll_ownership 6 2 (fun _ _ => example_cq) example_sent None 0 example_sent_wf eq_refl
                ltac:(done) example_view_ok ltac:(lia)) as H.
  eapply wlp_mono; [exact H |]. intros [[[[ret cnt] r'] txq'] es] [H' _]. apply H'; [by vm_compute |].
  constructor.
Defined.

(** ** Runs of a TX ring

    Any interleaving of submissions, polls and device resets, each on some core. *)
Inductive tx_action :=
| ASubmit (cpu : Z) (pkt : ena_tx_pkt)
| APoll (cpu : Z) (fuel : nat) (view : tx_view) (budget : Z)
| AReset (cpu : Z).

(** A step: the netbuf the ring accepted, the state after it and its events. *)
Definition tx_act (a : tx_action) (r : ena_ring) (txq : option uk_netdev_tx_queue)
    : res (list Z * ena_ring * option uk_netdev_tx_queue * list event) :=
  match a with
  | ASubmit cpu pkt =>
      '(err, _, r) ← ena_tx_submit cpu r pkt;
      mret (if err =? 0 then option_list (txp_netbuf pkt) else [], r, txq, [])
  | APoll cpu fuel view budget =>
      '(_, _, r, txq, es) ← ena_tx_poll_completions fuel cpu view r txq budget;
      mret ([], r, txq, es)
  | AReset cpu =>
      r ← ena_ring_lock r;
      '(r, es) ← ena_ring_reset_sw_state cpu r;
      mret ([], ena_ring_unlock r, txq, es)
  end.

Fixpoint tx_run (acts : list tx_action) (r : ena_ring) (txq : option uk_netdev_tx_queue)
    : res (list Z * ena_ring * list (tx_action * list event)) :=
  match acts with
  | [] => mret ([], r, [])
  | a :: acts =>
      '(nbs, r, txq, es) ← tx_act a r txq;
      '(nbs', r, log) ← tx_run acts r txq;
      mret (nbs ++ nbs', r, (a, es) :: log)
  end.

Definition log_freed (log : list (tx_action * list event)) : list Z :=
  log ≫= (fun '(_, es) => freed es).

(** The arguments of an action are within their C types, and a poll reads a
    completion queue of the ring's depth. *)
Definition act_ok (d : Z) (a : tx_action) : Prop :=
  match a with
  | ASubmit cpu pkt => True
  | APoll cpu fuel view budget => tx_view_ok d view /\ 0 <= budget
  | AReset cpu => True
  end.

(** The invariant of a run. *)
Record tx_live (r : ena_ring) (txq : option uk_netdev_tx_queue) : Prop := {
  tl_wf : wf_tx r;
  tl_lock : ring_lock r = 0;
  tl_txq : txq_ok txq;
  tl_drop : drop_releases r = true
}.

Lemma tx_submit_invalid cpu r pkt :
  wf_tx r -> hw_valid r = false -> ena_tx_submit cpu r pkt = Ret (- ENODEV, 0, r).
Proof. intros Hwf Hv. unfold ena_tx_submit. by rewrite (wt_type _ Hwf), Hv. Qed.

Lemma tx_submit_cases cpu r pkt :
  wf_tx r -> ring_lock r = 0 ->
  wp (ena_tx_submit cpu r pkt) (fun '(err, id, r') =>
    (err <> 0 /\ r' = r) \/ (err = 0 /\ tx_submitted cpu pkt r id r')).
Proof.
  intros Hwf Hk. destruct (hw_valid r) eqn:Hv; [| rewrite tx_submit_invalid by done; by left].
  destruct ((txp_len pkt =? 0) || (0xFFFF <? txp_len pkt)) eqn:Hl.
  { unfold ena_tx_submit. rewrite (wt_type _ Hwf), Hv, Hl. by left. }
  destruct (decide (0 < ff_count (free_req (r_pool r)))).
  - eapply wp_mono; [by apply ena_tx_submit_spec |]. intros [[err id] r'] ?. by right.
  - pose proof (wff_count _ _ (wp_fifo _ _ _ (wr_pool _ (wt_ring _ Hwf)))).
    unfold ena_tx_submit. rewrite (wt_type _ Hwf), Hv, Hl. simpl. unfold ena_ring_lock. rewrite Hk. simpl.
    replace (ff_count (free_req (r_pool r))) with 0 by lia. simpl. left. split; [done |].
    destruct r; simpl in *. by subst.
Qed.

Lemma tx_act_spec a r txq :
  tx_live r txq -> act_ok (cq_depth (r_cq r)) a ->
  wlp (tx_act a r txq) (fun '(nbs, r', txq', es) =>
    tx_live r' txq' /\ cq_depth (r_cq r') = cq_depth (r_cq r)
    /\ nbs ++ held (raw_bufs r) ≡ₚ freed es ++ held (raw_bufs r')).
Proof.
  intros [Hwf Hk Hq Hd] Ha. destruct a as [cpu pkt | cpu fuel view budget | cpu]; simpl in *.
  - apply wlp_bind. eapply wlp_mono; [apply wp_wlp; by apply tx_submit_cases |].
    intros [[err id] r'] [[He ->] | [-> Hs]]; apply wlp_ret.
    + rewrite (proj2 (Z.eqb_neq err 0) He). by split.
    + destruct Hs as [? _ _ _ Hh _ _ _ ? (Ecq & _ & _ & Edr)]. split; [| done].
      split; [done.. |]. by rewrite Edr.
  - destruct Ha as [Hv Hb]. apply wlp_bind. eapply wlp_mono; [by apply tx_poll_spec |].
    intros [[[[ret cnt] r'] txq'] es] [[? Hl ? Ecq ? Hh ? ? ? Hdr] _]. apply wlp_ret. split; [| done].
    split; [done | congruence | done | congruence].
  - pose proof (wf_tx_lock _ 1 Hwf) as Hwf1. apply wlp_bind. unfold ena_ring_lock. rewrite Hk.
    apply wlp_ret, wlp_bind. rewrite ena_ring_reset_sw_state_eq by apply Hwf1. apply wlp_ret, wlp_ret.
    split; [split; [by apply wf_tx_lock, wf_tx_reset | done..] | split; [done |]].
    rewrite freed_drops by done. unfold held at 3; simpl. rewrite held_cleared. by rewrite app_nil_r.
Qed.

(** C1: Netbuf conservation over any run of a TX ring.  For every interleaving of
    submissions, completion polls and resets on any cores, against any device:
    no step faults, the ring invariant holds throughout, and the netbufs the ring
    accepted, with those it held at first, are exactly those that were freed and
    those it holds at the end.  So no transmitted buffer is leaked or freed twice. *)
Theorem tx_run_conserves acts r txq :
  tx_live r txq -> Forall (act_ok (cq_depth (r_cq r))) acts ->
  wlp (tx_run acts r txq) (fun '(nbs, r', log) =>
    wf_tx r' /\ ring_lock r' = 0
    /\ nbs ++ held (raw_bufs r) ≡ₚ log_freed log ++ held (raw_bufs r')).
Proof.
  intros Hlive Hacts. revert r txq Hlive Hacts.
  induction acts as [| a acts IH]; intros r txq Hlive Hacts; simpl.
  { apply wlp_ret. destruct Hlive. done. }
  apply Forall_cons in Hacts as [Ha Hacts].
  apply wlp_bind. eapply wlp_mono; [by apply tx_act_spec |].
  intros [[[nbs r1] txq1] es] (Hl1 & Ecq & Hh). apply wlp_bind.
  eapply wlp_mono; [apply IH; [done | by rewrite Ecq] |].
  intros [[nbs' r2] log] (Hwf2 & Hk2 & Hh2). apply wlp_ret. split; [done |]. split; [done |].
  change (log_freed ((a, es) :: log)) with (freed es ++ log_freed log).
  transitivity (nbs' ++ (nbs ++ held (raw_bufs r))).
  - by rewrite app_assoc, (Permutation_app_comm nbs').
  - rewrite Hh, <- app_assoc, <- Hh2, !app_assoc. by rewrite (Permutation_app_comm nbs' (freed es)).
Qed.

Definition example_acts : list tx_action :=
  [ASubmit 3 example_tx_pkt; APoll 2 6 (fun _ _ => example_cq) 0; ASubmit 3 example_tx_pkt;
   APoll 3 6 (fun _ _ => example_cq) 0; AReset 3].

Lemma example_tx_live : tx_live (example_ring ENA_RING_TYPE_TX 4) None.
Proof. split; [apply example_tx_wf | done | by intros q | done]. Qed.

Lemma example_acts_ok : Forall (act_ok 4) example_acts.
Proof. repeat constructor; simpl; try lia; try done. Qed.

Lemma tx_run_conserves_witness :
  wlp (tx_run example_acts (example_ring ENA_RING_TYPE_TX 4) None) (fun '(nbs, r', log) =>
    nbs = [7; 7] /\ nbs ++ [] ≡ₚ log_freed log ++ held (raw_bufs r')).
Proof.
  pose proof (tx_run_conserves example_acts (example_ring ENA_RING_TYPE_TX 4) None example_tx_live
                example_acts_ok) as H.
  destruct (tx_run _ _ _) as [[[nbs r'] log] | |] eqn:E; [| done | done].
  destruct H as (_ & _ & H). split; [| exact H]. vm_compute in E. by injection E as <- _ _.
Defined.

(** *** One submitting core *)
Definition act_cpu (a : tx_action) : Z :=
  match a with ASubmit cpu _ => cpu | APoll cpu _ _ _ => cpu | AReset cpu => cpu end.
Definition submits_on (c0 : Z) (a : tx_action) : Prop :=
  match a with APoll _ _ _ _ => True | ASubmit cpu _ | AReset cpu => cpu = c0 end.

(** Every outstanding buffer belongs to [c0]. *)
Definition owned_by (c0 : Z) (r : ena_ring) : Prop :=
  (tx_owner_cpu (r_own r) = c0 \/ sq_depth (r_sq r) <= ff_count (free_req (r_pool r)))
  /\ Forall (fun e => fo_owner_cpu e = c0) (deferred (r_own r)).

Lemma tx_poll_idle fuel cpu view r txq budget :
  wf_tx r -> (hw_valid r = false \/ sq_depth (r_sq r) <= ff_count (free_req (r_pool r))) ->
  exists cnt, ena_tx_poll_completions fuel cpu view r txq budget = Ret (0, cnt, r, txq, []).
Proof.
  intros Hwf Hi. unfold ena_tx_poll_completions.
  rewrite (wt_type _ Hwf), (wr_cqm _ (wt_ring _ Hwf)). simpl.
  destruct (hw_valid r) eqn:Hv; simpl; [| by eexists].
  destruct (Z.leb_spec (sq_depth (r_sq r)) (ff_count (free_req (r_pool r)))); [by eexists |].
  destruct Hi; [done | lia].
Qed.

Lemma owned_by_poll c0 cpu r r' txq txq' es :
  hw_valid r = true -> ff_count (free_req (r_pool r)) < sq_depth (r_sq r) ->
  owned_by c0 r -> tx_polled cpu r r' txq txq' es ->
  owned_by c0 r' /\ (freed es <> [] -> cpu = c0).
Proof.
  intros Hv Hc [[Ho | ?] Hd] [? ? ? ? ? ? Eo Hf Hdr ? _ _]; [| lia].
  unfold owned_by. rewrite Eo, Ho. destruct (Z.eq_dec cpu c0) as [-> | Hne].
  - split; [| done]. split; [by left |]. symmetry in Ho. specialize (Hdr Ho Hc Hv).
    rewrite Forall_forall in Hd. eapply Forall_impl; [done |]. naive_solver.
  - destruct Hf as [E Hall]; [congruence | eapply Forall_impl; [done |]; simpl; congruence |].
    split; [| by rewrite E]. split; [by left |]. rewrite Forall_forall in Hd.
    eapply Forall_impl; [done |]. simpl. intros e [He | He]; [auto | congruence].
Qed.

Lemma tx_act_owned c0 a r txq :
  tx_live r txq -> act_ok (cq_depth (r_cq r)) a -> submits_on c0 a -> owned_by c0 r ->
  wlp (tx_act a r txq) (fun '(nbs, r', txq', es) =>
    owned_by c0 r' /\ (freed es <> [] -> act_cpu a = c0)).
Proof.
  intros [Hwf Hk Hq Hd] Ha Hs Ho. destruct a as [cpu pkt | cpu fuel view budget | cpu]; simpl in *.
  - subst cpu. apply wlp_bind. eapply wlp_mono; [apply wp_wlp; by apply tx_submit_cases |].
    intros [[err id] r'] [[He ->] | [-> Hsub]]; apply wlp_ret; [by split |].
    destruct Hsub as [? _ _ _ _ _ _ Hown _ (_ & _ & Hdef & _) _]. split; [| done].
    split; [by left | by rewrite Hdef; apply Ho].
  - destruct Ha as [Hv Hb].
    destruct (decide (hw_valid r = false \/ sq_depth (r_sq r) <= ff_count (free_req (r_pool r)))) as [Hi | Hi].
    { destruct (tx_poll_idle fuel cpu view r txq budget Hwf Hi) as [cnt ->]. simpl. by split. }
    apply wlp_bind. eapply wlp_mono; [by apply tx_poll_spec |].
    intros [[[[ret cnt] r'] txq'] es] [Hp _]. apply wlp_ret.
    eapply owned_by_poll; [| | done | done]; [destruct (hw_valid r); naive_solver | lia].
  - subst cpu. apply wlp_bind. unfold ena_ring_lock. rewrite Hk. apply wlp_ret, wlp_bind.
    rewrite ena_ring_reset_sw_state_eq by apply (wf_tx_lock _ 1 Hwf). apply wlp_ret, wlp_ret.
    split; [| done].
    split; [right; simpl; lia |]. unfold deferred; simpl. rewrite take_0. constructor.
Qed.

(** C19: Single-submitter ownership.  If one core [c0] does all submissions (and
    resets) of a ring, then in every run, whatever cores poll it and whatever the
    device does, only [c0] frees netbufs: no per-core heap is touched by another
    core. *)
Theorem tx_single_submitter c0 acts r txq :
  tx_live r txq -> owned_by c0 r -> Forall (act_ok (cq_depth (r_cq r))) acts ->
  Forall (submits_on c0) acts ->
  wlp (tx_run acts r txq) (fun '(_, _, log) =>
    Forall (fun '(a, es) => freed es <> [] -> act_cpu a = c0) log).
Proof.
  revert r txq. induction acts as [| a acts IH]; intros r txq Hlive Ho Hacts Hsub; simpl.
  { apply wlp_ret. constructor. }
  apply Forall_cons in Hacts as [Ha Hacts]. apply Forall_cons in Hsub as [Hs Hsub].
  pose proof (tx_act_spec a r txq Hlive Ha) as H1. pose proof (tx_act_owned c0 a r txq Hlive Ha Hs Ho) as H2.
  destruct (tx_act a r txq) as [[[[nbs r1] txq1] es] | |]; simpl in *; [| done..].
  destruct H1 as (Hl1 & Ecq & _), H2 as [Ho1 Hf]. apply wlp_bind.
  eapply wlp_mono; [apply IH; [done | done | by rewrite Ecq | done] |].
  intros [[nbs' r2] log] Hlog. apply wlp_ret. by constructor.
Qed.

Lemma tx_single_submitter_witness :
  wlp (tx_run example_acts (example_ring ENA_RING_TYPE_TX 4) None) (fun '(_, _, log) =>
    Forall (fun '(a, es) => freed es <> [] -> act_cpu a = 3) log).
Proof.
  apply (tx_single_submitter 3 example_acts (example_ring ENA_RING_TYPE_TX 4) None example_tx_live);
    [split; [right; vm_compute; congruence | constructor] | apply example_acts_ok
    | repeat constructor].
Defined.

(** ** Limits of the code *)

(** The events of each action of a run of the example ring. *)
Definition example_events (acts : list tx_action) : option (list (list event)) :=
  match tx_run acts (example_ring ENA_RING_TYPE_TX 4) None with
  | Ret (_, _, log) => Some (snd <$> log)
  | _ => None
  end.

(** The owner of a ring is the core that submitted last, not the core that sent
    the completed packet: with two submitting cores, core 2 frees netbuf 7 that
    core 1 sent. *)
Lemma tx_two_submitters :
  example_events [ASubmit 1 example_tx_pkt; ASubmit 2 example_tx_pkt; APoll 2 6 (fun _ _ => example_cq) 0]
  = Some [[]; []; [EvFree 2 7]].
Proof. by vm_compute. Qed.

(** A reset frees the outstanding netbufs on the core that runs the reset,
    without a look at their owner. *)
Lemma tx_reset_frees_on_caller :
  example_events [ASubmit 1 example_tx_pkt; AReset 2] = Some [[]; [EvFree 2 7]].
Proof. by vm_compute. Qed.

(** A completion with an id out of range is not consumed: the poll leaves the head
    where it is, so that every later poll stops at the same entry. *)
Lemma tx_invalid_id_stuck fuel cpu V r txq budget c :
  wf_tx r -> ring_lock r = 0 -> hw_valid r = true -> 0 <= budget -> (0 < fuel)%nat ->
  V !! Z.to_nat (Z.land (cq_head (r_cq r)) (cq_depth (r_cq r) - 1)) = Some c ->
  tx_cdesc_phase c = cq_phase (r_cq r) -> sq_depth (r_sq r) <= txc_req_id c ->
  wp (ena_tx_poll_completions fuel cpu (fun _ _ => V) r txq budget) (fun '(ret, _, r', _, _) =>
    ret = 0 /\ r_cq r' = r_cq r).
Proof.
  intros Hwf Hk Hv Hb Hf Hc Hph Hid. unfold ena_tx_poll_completions.
  pose proof (wr_cqd _ (wt_ring _ Hwf)) as Hd. pose proof (pow2_depth_bounds _ Hd).
  pose proof (slot_range (cq_head (r_cq r)) _ Hd) as Hslot.
  rewrite (wt_type _ Hwf), (wr_cqm _ (wt_ring _ Hwf)), Hv. simpl. case_match; [done |].
  unfold ena_ring_lock. rewrite Hk. simpl. apply wp_bind.
  eapply wp_mono; [apply tx_drain_spec; by apply wf_tx_lock |].
  intros [r1 es1] ([_ [? Ed Ecq ? ? ? ? ? ?] _] & _). simpl in Ed, Ecq.
  destruct fuel as [| fuel]; [lia |]. simpl. destruct (Z.leb_spec (if budget =? 0 then cq_depth (r_cq r) else budget) 0).
  { exfalso. case_match; lia. }
  unfold tx_poll_iter. rewrite Ecq, !(aget_ret V _ c) by (done || lia). cbn [mbind res_bind].
  rewrite Hph, Z.eqb_refl. cbn [negb]. rewrite Ed.
  destruct (Z.leb_spec (sq_depth (r_sq r)) (txc_req_id c)); [done | lia].
Qed.
