(* ===== verification/Rx.v ===== *)
(** * Receive path

    src/ena_rx.c: posting receive buffers, the refill loop, the doorbell and the
    completion poll.

    The refill allocates with [ena_netbuf_alloc_helper] (Netq), the only function
    the driver passes for [alloc_netbuf]; the netdev queue behind [alloc_arg] and
    [drop_netbuf_arg] is explicit state.  As in the transmit path the completion
    queue is a view [nat -> nat -> list cdesc]: what the [k]-th read of the [j]-th
    iteration sees (0: status, 1: request id, 2: length, 3: offset and hash). *)

From stdpp Require Import base tactics option list list_numbers numbers sets gmap.
From Stdlib Require Import ZArith Lia.
From S2P Require Import Prelude Fifo Mem Desc Netq Ring Tx.

(** ** Posting buffers *)
Definition ena_rx_free_space (r : ena_ring) : Z :=
  if negb (ring_type r =? ENA_RING_TYPE_RX) then 0 else ff_count (free_req (r_pool r)).

(** Result: return value, request id, ring. *)
Definition ena_rx_submit_one (r : ena_ring) (netbuf : option Z) (phys_addr buf_len : Z)
    : res (Z * Z * ena_ring) :=
  if negb (non_null netbuf) || negb (ring_type r =? ENA_RING_TYPE_RX) then mret (- EINVAL, 0, r)
  else if negb (hw_valid r) then mret (- ENODEV, 0, r)
  else if (buf_len =? 0) || (0xFFFF <? buf_len) then mret (- EINVAL, 0, r)
  else
    r ← ena_ring_lock r;
    if ff_count (free_req (r_pool r)) =? 0 then mret (- EBUSY, 0, ena_ring_unlock r)
    else
      '(ret, req_id, r) ← ena_ring_req_id_alloc r;
      if z2b ret then mret (ret, 0, ena_ring_unlock r)
      else
        fl ← aset_opt (req_in_flight (r_pool r)) req_id 1;
        let r := set_r_pool (set_req_in_flight fl (r_pool r)) r in
        b ← aget (raw_bufs r) req_id;
        bufs ← aset (raw_bufs r) req_id (mkBuf netbuf phys_addr buf_len (buf_num_descs b) req_id);
        let r := set_raw_bufs bufs r in
        sqm ← aset (sq_virt (r_sq r)) (Z.land (sq_tail (r_sq r)) (sq_depth (r_sq r) - 1))
                (SlotRx (rx_desc_format phys_addr buf_len req_id (sq_phase (r_sq r))));
        let r := sq_advance (set_r_sq (set_sq_virt sqm (r_sq r)) r) in
        mret (0, req_id, ena_ring_unlock r).

Definition ena_rx_doorbell (r : ena_ring) : list event :=
  if negb (hw_valid r) then []
  else match sq_db (r_sq r) with
       | None => []
       | Some db => [EvWrite32 db (sq_tail (r_sq r))]
       end.

(** *** The bookkeeping of the queue after a submit *)

(** Failure: the popped bounce slot goes back, nothing is pending. *)
Definition rxq_unpop (rxq : option uk_netdev_rx_queue) : res (option uk_netdev_rx_queue) :=
  match rxq with
  | None => mret None
  | Some q =>
      b ← (if 0 <=? pending_slot q then bounce_push (rxq_bounce q) (u16 (pending_slot q))
           else mret (rxq_bounce q));
      mret (Some (mkRxq b (-1)))
  end.

(** Success: the popped slot belongs to the request. *)
Definition rxq_bind (rxq : option uk_netdev_rx_queue) (req_id : Z) : res (option uk_netdev_rx_queue) :=
  match rxq with
  | None => mret None
  | Some q =>
      let b := rxq_bounce q in
      if non_null (bounce_map b) && (req_id <? nb_desc b) then
        m ← aset (bounce_map b) req_id (pending_slot q);
        mret (Some (mkRxq (set_bounce_map m b) (-1)))
      else mret rxq
  end.

Section Refill.
  Context `{NetbufAlloc W}.

  (** The loop of [ena_rx_refill]; each iteration takes a request id or leaves. *)
Fixpoint refill_loop (fuel : nat) (cpu count : Z) (r : ena_ring)
    (rxq : option uk_netdev_rx_queue) (w : W) (refilled : Z)
    : res (Z * ena_ring * option uk_netdev_rx_queue * W * list event) :=
  match fuel with
  | O => Hang
  | S fuel =>
      if (refilled <? count) && (0 <? ff_count (free_req (r_pool r))) then
        '(nb, rxq, es, w) ← ena_netbuf_alloc_helper cpu rxq w;
        match nb with
        | None => mret (refilled, r, rxq, w, es)
        | Some (nb, phys, len) =>
            '(ret, req_id, r) ← ena_rx_submit_one r (Some nb) phys len;
            if z2b ret then
              rxq ← rxq_unpop rxq;
              mret (refilled, r, rxq, w, es ++ ring_drop_netbuf r cpu nb)
            else
              rxq ← rxq_bind rxq req_id;
              '(n, r, rxq, w, es') ← refill_loop fuel cpu count r rxq w (refilled + 1);
              mret (n, r, rxq, w, es ++ es')
        end
      else mret (refilled, r, rxq, w, [])
  end.

Definition ena_rx_refill (cpu count : Z) (r : ena_ring) (rxq : option uk_netdev_rx_queue) (w : W)
    : res (Z * ena_ring * option uk_netdev_rx_queue * W * list event) :=
  if negb (ring_type r =? ENA_RING_TYPE_RX) then mret (- EINVAL, r, rxq, w, [])
  else
    let count := if count =? 0 then ff_count (free_req (r_pool r)) else count in
    '(n, r, rxq, w, es) ←
      refill_loop (S (Z.to_nat (ff_count (free_req (r_pool r))))) cpu count r rxq w 0;
    mret (n, r, rxq, w, es ++ ena_rx_doorbell r).
End Refill.

(** ** Completion *)
Definition rx_view : Type := nat -> nat -> list ena_eth_io_rx_cdesc_base.

(** The branch for a completion longer than its buffer: the bounce slot and the
    netbuf are released, the id returns to the pool. *)
Definition rx_drop_one (cpu : Z) (r : ena_ring) (rxq : option uk_netdev_rx_queue) (req_id : Z)
    (b : ring_buffer) : res (ena_ring * option uk_netdev_rx_queue * list event) :=
  let r := set_r_stats (set_rx_dropped (u64 (rx_dropped (r_stats r) + 1)) (r_stats r)) r in
  rxq ← match rxq with
        | Some q =>
            if drop_netbuf_arg r then
              '(_, bp) ← bounce_unmap (rxq_bounce q) req_id;
              mret (Some (mkRxq bp (pending_slot q)))
            else mret rxq
        | None => mret None
        end;
  '(r, es) ← match buf_netbuf b with
             | Some nb =>
                 bufs ← aset (raw_bufs r) req_id (set_buf_netbuf None b);
                 mret (set_raw_bufs bufs r, ring_drop_netbuf r cpu nb)
             | None => mret (r, [])
             end;
  '(_, r) ← ena_ring_req_id_free r req_id;
  mret (r, rxq, es).

(** The branch that reports a packet. *)
Definition rx_deliver_one (r : ena_ring) (req_id : Z) (b : ring_buffer)
    (c : ena_eth_io_rx_cdesc_base) (status_val pkt_len : Z) : res (ena_ring * ena_rx_pkt) :=
  fl ← aset (req_in_flight (r_pool r)) req_id 0;
  let r := set_r_pool (set_req_in_flight fl (r_pool r)) r in
  let pkt := rx_pkt_of_cdesc c status_val (buf_netbuf b) pkt_len req_id in
  let st := r_stats r in
  let r := set_r_stats (set_rx_bytes (u64 (rx_bytes st + pkt_len))
             (set_rx_packets (u64 (rx_packets st + 1)) st)) r in
  '(_, r) ← ena_ring_req_id_free r req_id;
  mret (r, pkt).

(** Iteration [j] of the poll: [None] is a [break]; otherwise the new state, the
    packet if one is reported, and whether a completion was dropped. *)
Definition rx_poll_iter (j : nat) (cpu : Z) (view : rx_view) (r : ena_ring)
    (rxq : option uk_netdev_rx_queue)
    : res (option (ena_ring * option uk_netdev_rx_queue * option ena_rx_pkt * Z * list event)) :=
  let slot := Z.land (cq_head (r_cq r)) (cq_depth (r_cq r) - 1) in
  c ← aget (Some (view j 0%nat)) slot;
  let status_val := rxc_status c in
  if negb (rx_cdesc_phase status_val =? cq_phase (r_cq r)) then mret None
  else
    c1 ← aget (Some (view j 1%nat)) slot;
    let req_id := rxc_req_id c1 in
    if sq_depth (r_sq r) <=? req_id then mret None
    else
      live ← (if non_null (req_in_flight (r_pool r)) then
                x ← aget (req_in_flight (r_pool r)) req_id; mret (z2b x)
              else mret false);
      if negb live then mret (Some (cq_advance r, rxq, None, 0, []))
      else
        b ← aget (raw_bufs r) req_id;
        c2 ← aget (Some (view j 2%nat)) slot;
        let pkt_len := rxc_length c2 in
        if buf_data_len b <? pkt_len then
          '(r, rxq, es) ← rx_drop_one cpu r rxq req_id b;
          mret (Some (cq_advance r, rxq, None, 1, es))
        else
          c3 ← aget (Some (view j 3%nat)) slot;
          '(r, pkt) ← rx_deliver_one r req_id b c3 status_val pkt_len;
          mret (Some (cq_advance r, rxq, Some pkt, 0, [])).

(** The loop, with the packets it still may report ([max]). *)
Fixpoint rx_poll_loop (fuel j : nat) (cpu max_pkts : Z) (view : rx_view) (r : ena_ring)
    (rxq : option uk_netdev_rx_queue)
    : res (ena_ring * option uk_netdev_rx_queue * list ena_rx_pkt * Z * list event) :=
  match fuel with
  | O => Hang
  | S fuel =>
      if max_pkts <=? 0 then mret (r, rxq, [], 0, [])
      else
        step ← rx_poll_iter j cpu view r rxq;
        match step with
        | None => mret (r, rxq, [], 0, [])
        | Some (r, rxq, pkt, d, es) =>
            let left := if non_null pkt then max_pkts - 1 else max_pkts in
            '(r, rxq, pkts, d', es') ← rx_poll_loop fuel (S j) cpu left view r rxq;
            mret (r, rxq, option_list pkt ++ pkts, d + d', es ++ es')
        end
  end.

(** Result: return value, the value written to [dropped_count] if any, packets,
    ring, queue and events. *)
Definition ena_rx_poll (fuel : nat) (cpu : Z) (view : rx_view) (r : ena_ring)
    (rxq : option uk_netdev_rx_queue) (max_pkts : Z)
    : res (Z * option Z * list ena_rx_pkt * ena_ring * option uk_netdev_rx_queue * list event) :=
  if negb (ring_type r =? ENA_RING_TYPE_RX) || negb (cq_virt (r_cq r)) || (max_pkts =? 0) then
    mret (- EINVAL, None, [], r, rxq, [])
  else if negb (hw_valid r) then mret (0, Some 0, [], r, rxq, [])
  else
    r ← ena_ring_lock r;
    '(r, rxq, pkts, dropped, es) ← rx_poll_loop fuel 0 cpu max_pkts view r rxq;
    let rcvd := Z.of_nat (length pkts) in
    let es' := match cq_db (r_cq r) with
               | Some db => if 0 <? rcvd then [EvWrite32 db (cq_head (r_cq r))] else []
               | None => []
               end in
    mret (rcvd, Some dropped, pkts, ena_ring_unlock r, rxq, es ++ es').

(** ** Invariants *)

(** The bounce slots of the queue, with the pending one.  The slots [lost] are neither
    free nor mapped: a device reset leaves such slots, see [Recover]. *)
Definition wf_rxq (lost : list Z) (q : uk_netdev_rx_queue) : Prop :=
  wf_bounce (option_list (mapped_slot (pending_slot q)) ++ lost) (rxq_bounce q).
Definition rxq_ok (lost : list Z) (rxq : option uk_netdev_rx_queue) : Prop :=
  forall q, rxq = Some q -> wf_rxq lost q.

(** The poll does not touch the pending slot or the size of the pool. *)
Definition rxq_kept (rxq rxq' : option uk_netdev_rx_queue) : Prop :=
  match rxq, rxq' with
  | Some q, Some q' => pending_slot q' = pending_slot q /\ nb_desc (rxq_bounce q') = nb_desc (rxq_bounce q)
  | None, None => True
  | _, _ => False
  end.

#[export] Instance rxq_kept_preorder : PreOrder rxq_kept.
Proof.
  split; [by intros [q |] |]. intros [q1 |] [q2 |] [q3 |]; try done. simpl. intros [] []. split; congruence.
Qed.

(** The slot of a request id. *)
Definition slot_of (q : uk_netdev_rx_queue) (id : Z) : option Z :=
  default [] (bounce_map (rxq_bounce q)) !! Z.to_nat id.

(** The buffer of an id holds a netbuf. *)
Definition filled (r : ena_ring) (id : Z) : Prop :=
  exists b nb, cells (raw_bufs r) !! Z.to_nat id = Some b /\ buf_netbuf b = Some nb.

(** Every slot belongs to an id whose buffer holds a netbuf, but for the ids [ds], whose
    packets were just reported. *)
Definition slots_filled (ds : list Z) (r : ena_ring) (rxq : option uk_netdev_rx_queue) : Prop :=
  forall q id s, rxq = Some q -> 0 <= id -> id ∉ ds -> slot_of q id = Some s -> 0 <= s -> filled r id.

(** [r'] keeps the buffers of [r], but for the id [id]. *)
Definition keeps_filled (id : Z) (r r' : ena_ring) : Prop :=
  forall i, 0 <= i -> i <> id -> filled r i -> filled r' i.

Lemma slots_filled_change id ds r r' rxq :
  keeps_filled id r r' -> id ∈ ds -> slots_filled ds r rxq -> slots_filled ds r' rxq.
Proof. intros Hk Hd Hu q i s Eq Hi Hds Hs Hs0. apply Hk; [done | by intros -> | by eapply Hu]. Qed.

Lemma slots_filled_more ds ds' r rxq : ds ⊆ ds' -> slots_filled ds r rxq -> slots_filled ds' r rxq.
Proof. intros Hds Hu q id s Eq Hi Hd Hs Hs0. eapply Hu; [done.. | set_solver | done | done]. Qed.

Lemma filled_cells r r' i : cells (raw_bufs r') = cells (raw_bufs r) -> filled r i -> filled r' i.
Proof. unfold filled. by intros ->. Qed.

Lemma free_not_filled r id : wf_rx r -> id ∈ pool_list r -> ~ filled r id.
Proof. intros Hwf Hin (b & nb & Hb & Hn). destruct (wp_empty _ _ _ (wr_pool _ (proj1 Hwf)) _ Hin) as (b' & Hb' & ?). congruence. Qed.

(** The ids of reported packets that come with a netbuf. *)
Definition reported (pkts : list ena_rx_pkt) : list Z :=
  omap (fun p => (fun _ => rxp_req_id p) <$> rxp_netbuf p) pkts.

(** The buffers that hold a netbuf in [a'] are buffers of [a]. *)
Definition cells_from (a' a : arr ring_buffer) : Prop :=
  forall b, b ∈ cells a' -> buf_netbuf b <> None -> b ∈ cells a.

Record rx_frame (r r' : ena_ring) : Prop := {
  rf_depth : sq_depth (r_sq r') = sq_depth (r_sq r);
  rf_cq : r_cq r' = r_cq r;
  rf_lock : ring_lock r' = ring_lock r;
  rf_valid : hw_valid r' = hw_valid r;
  rf_cb : drop_netbuf_cb r' = drop_netbuf_cb r;
  rf_arg : drop_netbuf_arg r' = drop_netbuf_arg r;
  rf_blk : r_blk r' = r_blk r;
  rf_refill : refill_netbuf r' = refill_netbuf r
}.

#[export] Instance rx_frame_preorder : PreOrder rx_frame.
Proof.
  split; [by intros r; split |].
  intros r1 r2 r3 [] []. split; congruence.
Qed.

(** A step of the poll, up to the completion queue state: the netbufs the ring
    held are delivered ([dlv]), freed, or still held. *)
Record rx_step (r : ena_ring) (dlv : list Z) (es : list event) (r' : ena_ring) : Prop := {
  rs_wf : wf_rx r';
  rs_frame : rx_frame (set_r_cq (r_cq r') r) r';
  rs_cqd : cq_depth (r_cq r') = cq_depth (r_cq r);
  rs_held : drop_releases r = true -> held (raw_bufs r) ≡ₚ dlv ++ freed es ++ held (raw_bufs r');
  rs_cells : cells_from (raw_bufs r') (raw_bufs r)
}.

Lemma rx_step_refl r : wf_rx r -> rx_step r [] [] r.
Proof. intros. split; [done | by split | done | done | by intros b]. Qed.

Lemma rx_frame_drop r c r' : rx_frame (set_r_cq c r) r' -> drop_releases r' = drop_releases r.
Proof. intros [? ? ? ? Hc Ha ? ?]. simpl in *. unfold drop_releases. by rewrite Hc, Ha. Qed.

Lemma rx_step_trans r1 d1 es1 r2 d2 es2 r3 :
  rx_step r1 d1 es1 r2 -> rx_step r2 d2 es2 r3 -> rx_step r1 (d1 ++ d2) (es1 ++ es2) r3.
Proof.
  intros [_ F1 C1 H1 B1] [Hwf F2 C2 H2 B2]. pose proof (rx_frame_drop _ _ _ F1) as Ed.
  split; [done | | congruence | |].
  - destruct F1, F2. split; simpl in *; congruence.
  - intros Hd. rewrite H1 by done. rewrite H2 by congruence. rewrite freed_app, !app_assoc.
    apply Permutation_app; [| done]. rewrite <- !app_assoc. apply Permutation_app; [done |].
    rewrite !app_assoc. apply Permutation_app; [apply Permutation_app_comm | done].
  - intros b Hb Hn. apply B1; [by apply B2 | done].
Qed.

(** *** Small ring updates *)
Lemma wf_rx_same r r' :
  wf_rx r -> ring_type r' = ring_type r -> r_blk r' = r_blk r -> r_own r' = r_own r ->
  r_sq r' = r_sq r -> r_cq r' = r_cq r ->
  wf_pool (sq_depth (r_sq r)) (r_pool r') (raw_bufs r') -> wf_rx r'.
Proof.
  intros [Hwf Hty] Ety Eb Eo Es Ec Hp. split; [| congruence].
  apply (wf_ring_change r); rewrite ?Es, ?Ec, ?Eo; try done; apply Hwf.
Qed.

(** Taking the netbuf out of a cell keeps the pool, whoever the cell belongs to. *)
Lemma wf_pool_take_netbuf d p a id b :
  wf_pool d p a -> 0 <= id < d -> cells a !! Z.to_nat id = Some b ->
  wf_pool d p (Some (<[Z.to_nat id := set_buf_netbuf None b]> (cells a))).
Proof.
  intros Hwf Hid Hb. pose proof (wp_free _ _ _ Hwf) as Hfree. pose proof (wp_empty _ _ _ Hwf) as Hempty.
  pose proof (wp_cells_len _ _ _ Hwf). destruct Hwf. split; try done; simpl; [by rewrite length_insert |].
  intros i Hi. destruct (Hfree i) as [[? _] _]; [done |].
  rewrite zlookup_insert by lia. case_decide; [by eexists | by apply Hempty].
Qed.

(** Releasing any id of the ring: if it was allocated its cell is emptied, else
    nothing changes; either way its netbuf leaves the ring. *)
Lemma req_id_free_any r id :
  wf_rx r -> 0 <= id < sq_depth (r_sq r) ->
  wp (ena_ring_req_id_free r id) (fun '(_, r') =>
    wf_rx r' /\ rx_frame r r' /\ r_sq r' = r_sq r
    /\ req_in_flight (r_pool r') = req_in_flight (r_pool r)
    /\ held (raw_bufs r) ≡ₚ option_list (cells (raw_bufs r) !! Z.to_nat id ≫= buf_netbuf) ++ held (raw_bufs r')
    /\ cells_from (raw_bufs r') (raw_bufs r)
    /\ keeps_filled id r r').
Proof.
  intros [Hwf Hty] Hid. pose proof (wr_pool _ Hwf) as Hp.
  destruct (wf_pool_free_or_allocated _ _ _ id Hp Hid) as [Hfree | Hal].
  - destruct (wp_empty _ _ _ Hp _ Hfree) as (b & Hb & Hnb).
    rewrite ena_ring_req_id_free_idle; [| done | done |].
    2: { intros Hal. by apply (wf_pool_not_free _ _ _ _ Hp Hal). }
    apply wp_ret. rewrite Hb. simpl. rewrite Hnb. split_and!; try done; by intros x.
  - destruct (lookup_in_range (cells (raw_bufs r)) id) as [b Hb].
    { rewrite (wp_cells_len _ _ _ Hp). lia. }
    eapply wp_mono; [exact (ena_ring_req_id_free_spec r _ _ _ id eq_refl eq_refl eq_refl Hp Hid Hal) |].
    intros [err r'] (_ & p' & -> & Hp' & Hfree' & Hfl & _). rewrite Hb. simpl. split_and!; try done.
    + by apply (wf_rx_same r).
    + unfold held; simpl. destruct (buf_netbuf b) as [nb |] eqn:Enb; simpl.
      * by apply omap_insert_none with (x := b).
      * by rewrite (omap_insert_same buf_netbuf _ _ b buf_empty).
    + intros x Hx Hn. apply list_elem_of_lookup in Hx as [i Hi]. simpl in Hi.
      destruct (decide (i = Z.to_nat id)) as [-> |].
      * apply list_lookup_insert_Some in Hi as [(_ & <- & _) | [? _]]; done.
      * rewrite list_lookup_insert_ne in Hi by done. by eapply list_elem_of_lookup_2.
    + intros i Hi Hne (x & nb & Hx & Hn). exists x, nb. simpl. by rewrite list_lookup_insert_ne by lia.
Qed.

(** The queue's part of a drop. *)
Lemma rx_unmap_spec lost r rxq id :
  rxq_ok lost rxq -> 0 <= id ->
  wp (match rxq with
      | Some q =>
          if drop_netbuf_arg r then
            '(_, bp) ← bounce_unmap (rxq_bounce q) id; mret (Some (mkRxq bp (pending_slot q)))
          else mret rxq
      | None => mret None
      end) (fun rxq' => rxq_ok lost rxq' /\ rxq_kept rxq rxq'
    /\ forall ds r', drop_netbuf_arg r = true -> keeps_filled id r r' -> slots_filled ds r rxq -> slots_filled ds r' rxq').
Proof.
  intros Hq Hid. destruct rxq as [q |]; [| by apply wp_ret]. destruct (drop_netbuf_arg r); [| by apply wp_ret].
  apply wp_bind. eapply wp_mono; [apply wp_conj; [apply wf_bounce_unmap | eapply bounce_unmap_map]; by apply Hq || lia |].
  intros [hit b'] [(Hb' & En & _) Hmap]. apply wp_ret. split; [by intros q' [= <-] |]. split; [done |].
  intros ds r' _ Hp Hu q' i s [= <-] Hi Hds Hs Hs0. destruct (Hmap _ _ Hs) as [? | [Hne Hs']]; [lia |].
  apply Hp; [done | congruence | by eapply Hu].
Qed.

(** A completion too long for its buffer. *)
Lemma rx_drop_one_spec lost cpu r rxq id b :
  wf_rx r -> rxq_ok lost rxq -> 0 <= id < sq_depth (r_sq r) ->
  cells (raw_bufs r) !! Z.to_nat id = Some b ->
  wp (rx_drop_one cpu r rxq id b) (fun '(r', rxq', es) =>
    rx_step r [] es r' /\ (rxq_ok lost rxq' /\ rxq_kept rxq rxq') /\ r_cq r' = r_cq r
    /\ forall ds, drop_netbuf_arg r = true -> slots_filled ds r rxq -> slots_filled ds r' rxq').
Proof.
  intros Hwf Hq Hid Hb. pose proof (wr_pool _ (proj1 Hwf)) as Hp.
  pose proof (wp_cells_len _ _ _ Hp). unfold rx_drop_one.
  set (r1 := set_r_stats _ r).
  assert (wf_rx r1) as Hwf1 by (by apply (wf_rx_same r)).
  apply wp_bind. eapply wp_mono; [apply (rx_unmap_spec lost r1); [done | lia] |].
  intros rxq' (Hq' & Hkept & Hm').
  destruct (buf_netbuf b) as [nb |] eqn:Hnb.
  - apply wp_bind, wp_bind, (wp_aset_eq _ _ _ _ _ (wp_cells _ _ _ Hp)); [lia |]. apply wp_ret.
    set (r2 := set_raw_bufs _ r1).
    assert (wf_rx r2) as Hwf2.
    { apply (wf_rx_same r1); try done. by apply wf_pool_take_netbuf. }
    apply wp_bind. eapply wp_mono; [by apply (req_id_free_any r2 id) |].
    intros [err r'] (Hwf' & F & _ & _ & Hheld & Hcells & Hpl). apply wp_ret.
    split; [| split_and!; [done | done | apply F | intros ds Ha; apply (Hm' ds r' Ha) ]].
    2: { intros i Hi Hne (x & y & Hx & Hy). apply Hpl; [done | done |]. exists x, y. unfold r2; simpl. by rewrite list_lookup_insert_ne by lia. }
    assert (held (raw_bufs r) ≡ₚ nb :: held (raw_bufs r2)) as Hh2.
    { unfold held, r2; simpl. by apply omap_insert_none with (x := b). }
    split; [done | | by rewrite (rf_cq _ _ F) | |].
    + destruct F. split; simpl in *; try done.
    + intros Hd. rewrite Hh2, Hheld. unfold r2 at 1; simpl. rewrite list_lookup_insert_eq by lia. simpl.
      unfold ring_drop_netbuf, ena_netdev_rxq_drop_netbuf, drop_releases in *; simpl.
      by destruct (drop_netbuf_cb r), (drop_netbuf_arg r).
    + intros x Hx Hn. specialize (Hcells x Hx Hn). apply list_elem_of_lookup in Hcells as [i Hi].
      unfold r2 in Hi; simpl in Hi. apply list_lookup_insert_Some in Hi as [(_ & <- & _) | [_ Hi]]; [done |].
      by eapply list_elem_of_lookup_2.
  - apply wp_bind, wp_ret, wp_bind. eapply wp_mono; [by apply (req_id_free_any r1 id) |].
    intros [err r'] (Hwf' & F & _ & _ & Hheld & Hcells & Hpl). apply wp_ret.
    split; [| split_and!; [done | done | apply F | intros ds Ha; by apply (Hm' ds r' Ha)]].
    split; [done | | by rewrite (rf_cq _ _ F) | | done].
    + destruct F. split; simpl in *; try done.
    + intros _. simpl in Hheld. rewrite Hb in Hheld. simpl in Hheld. by rewrite Hnb in Hheld.
Qed.

(** A packet reported from ring [r] fits the buffer it was posted with. *)
Definition rx_pkt_fits (r : ena_ring) (pkt : ena_rx_pkt) : Prop :=
  forall nb, rxp_netbuf pkt = Some nb ->
    exists b, b ∈ cells (raw_bufs r) /\ buf_netbuf b = Some nb /\ 0 <= rxp_len pkt <= buf_data_len b.

Lemma rx_deliver_one_spec r id b c status_val pkt_len :
  wf_rx r -> 0 <= id < sq_depth (r_sq r) -> cells (raw_bufs r) !! Z.to_nat id = Some b ->
  wp (rx_deliver_one r id b c status_val pkt_len) (fun '(r', pkt) =>
    rx_step r (option_list (buf_netbuf b)) [] r' /\ r_cq r' = r_cq r
    /\ pkt = rx_pkt_of_cdesc c status_val (buf_netbuf b) pkt_len id
    /\ keeps_filled id r r').
Proof.
  intros Hwf Hid Hb. pose proof (wr_pool _ (proj1 Hwf)) as Hp.
  pose proof (wp_fl_len _ _ _ Hp). unfold rx_deliver_one.
  apply wp_bind, (wp_aset_eq _ _ _ _ _ (wp_fl _ _ _ Hp)); [lia |].
  set (r1 := set_r_stats _ _).
  assert (wf_rx r1) as Hwf1.
  { apply (wf_rx_same r); try done. by apply wf_pool_set_flight. }
  apply wp_bind. eapply wp_mono; [by apply (req_id_free_any r1 id) |].
  intros [err r'] (Hwf' & F & _ & _ & Hheld & Hcells & Hpl). apply wp_ret. split; [| split_and!; [apply F | done | done]].
  split; [done | | by rewrite (rf_cq _ _ F) | | done].
  - destruct F. split; simpl in *; try done.
  - intros _. simpl in Hheld. by rewrite Hb in Hheld.
Qed.

(** The fields of a reported packet. *)
Definition rx_pkt_range (d : Z) (pkt : ena_rx_pkt) : Prop :=
  0 <= rxp_req_id pkt < d /\ 0 <= rxp_len pkt < 2 ^ 16 /\ 0 <= rxp_offset pkt < 2 ^ 8.

Definition rx_cdesc_ok (c : ena_eth_io_rx_cdesc_base) : Prop :=
  0 <= rxc_req_id c < 2 ^ 16 /\ 0 <= rxc_length c < 2 ^ 16 /\ 0 <= rxc_offset c < 2 ^ 8.
Definition rx_view_ok (d : Z) (view : rx_view) : Prop :=
  forall j k, Z.of_nat (length (view j k)) = d /\ Forall rx_cdesc_ok (view j k).

Lemma cq_advance_rx r :
  wf_rx r -> rx_step r [] [] (cq_advance r)
    /\ (cq_head (r_cq (cq_advance r)), cq_phase (r_cq (cq_advance r)))
       = ring_advance (cq_depth (r_cq r)) (cq_head (r_cq r)) (cq_phase (r_cq r)).
Proof.
  intros Hwf. pose proof (ring_advance_ok _ _ _ (wr_cqd _ (proj1 Hwf)) (wr_cqi _ (proj1 Hwf))) as Hi.
  unfold cq_advance. destruct (ring_advance _ _ _) as [hd ph]. simpl in Hi.
  split; [| done]. split; [| by split | done | done | by intros b].
  destruct Hwf as [Hwf ?]. split; [| done]. apply (wf_ring_change r); try done; apply Hwf.
Qed.

Lemma cq_advance_filled ds r rxq : slots_filled ds (cq_advance r) rxq = slots_filled ds r rxq.
Proof. unfold slots_filled, filled, cq_advance. by destruct (ring_advance _ _ _). Qed.

(** What an iteration that goes on has done. *)
Record rx_iter_ok (lost : list Z) (j : nat) (view : rx_view) (r r' : ena_ring) (rxq rxq' : option uk_netdev_rx_queue)
    (pkt : option ena_rx_pkt) (d : Z) (es : list event) : Prop := {
  ri_step : rx_step r (option_list (pkt ≫= rxp_netbuf)) es r';
  ri_rxq : rxq_ok lost rxq' /\ rxq_kept rxq rxq';
  ri_slots : forall ds, drop_netbuf_arg r = true -> slots_filled ds r rxq ->
    slots_filled (ds ++ reported (option_list pkt)) r' rxq';
  ri_head : (cq_head (r_cq r'), cq_phase (r_cq r'))
            = ring_advance (cq_depth (r_cq r)) (cq_head (r_cq r)) (cq_phase (r_cq r));
  ri_phase : exists c, view j 0%nat !! Z.to_nat (Z.land (cq_head (r_cq r)) (cq_depth (r_cq r) - 1)) = Some c
             /\ rx_cdesc_phase (rxc_status c) = cq_phase (r_cq r);
  ri_fits : forall p, pkt = Some p -> rx_pkt_fits r p;
  ri_dropped : 0 <= d <= 1;
  ri_range : forall p, pkt = Some p -> rx_pkt_range (sq_depth (r_sq r)) p
}.

Lemma rx_poll_iter_spec lost j cpu view r rxq :
  wf_rx r -> rxq_ok lost rxq -> rx_view_ok (cq_depth (r_cq r)) view ->
  wp (rx_poll_iter j cpu view r rxq) (fun s =>
    match s with
    | None => True
    | Some (r', rxq', pkt, d, es) => rx_iter_ok lost j view r r' rxq rxq' pkt d es
    end).
Proof.
  intros Hwf Hq Hv. pose proof (wr_pool _ (proj1 Hwf)) as Hp.
  pose proof (slot_range (cq_head (r_cq r)) _ (wr_cqd _ (proj1 Hwf))) as Hslot.
  pose proof (wp_fl_len _ _ _ Hp). pose proof (wp_cells_len _ _ _ Hp).
  unfold rx_poll_iter. set (slot := Z.land _ _) in *.
  destruct (Hv j 0%nat) as [Hl0 _], (Hv j 1%nat) as [Hl1 Hok1], (Hv j 2%nat) as [Hl2 Hok2],
    (Hv j 3%nat) as [Hl3 Hok3].
  apply wp_bind, wp_aget; [lia |]. intros c Hc.
  destruct (Z.eqb_spec (rx_cdesc_phase (rxc_status c)) (cq_phase (r_cq r))) as [Hph | Hph];
    cbn [negb]; [| done].
  apply wp_bind, wp_aget; [lia |]. intros c1 Hc1.
  destruct (Forall_lookup_1 _ _ _ _ Hok1 Hc1) as [Hreq _].
  destruct (Z.leb_spec (sq_depth (r_sq r)) (rxc_req_id c1)); [done |].
  assert (non_null (req_in_flight (r_pool r)) = true) as -> by (by rewrite (wp_fl _ _ _ Hp)).
  apply wp_bind, wp_bind, (wp_aget_eq _ _ _ _ (wp_fl _ _ _ Hp)); [lia |]. intros x Hx. apply wp_ret.
  unfold z2b. destruct (Z.eqb_spec x 0); cbn [negb].
  { apply wp_ret. destruct (cq_advance_rx r Hwf) as (S1 & Hhead). split; try done; [| by exists c].
    intros ds _ Hu. simpl. rewrite app_nil_r. by rewrite cq_advance_filled. }
  apply wp_bind, (wp_aget_eq _ _ _ _ (wp_cells _ _ _ Hp)); [lia |]. intros b Hb.
  apply wp_bind, wp_aget; [lia |]. intros c2 Hc2.
  destruct (Forall_lookup_1 _ _ _ _ Hok2 Hc2) as (_ & Hlen & _).
  destruct (Z.ltb_spec (buf_data_len b) (rxc_length c2)).
  - apply wp_bind. eapply wp_mono; [apply (rx_drop_one_spec lost); [done | done | lia | done] |].
    intros [[r' rxq'] es] (S1 & Hq' & Ecq & Hu'). apply wp_ret.
    destruct (cq_advance_rx r' (rs_wf _ _ _ _ S1)) as (S2 & Hhead). rewrite Ecq in Hhead.
    split; try done; [| intros ds Ha Hu; simpl; rewrite app_nil_r, cq_advance_filled; by apply Hu' | by exists c].
    simpl. rewrite <- (app_nil_r es). exact (rx_step_trans _ [] _ _ [] _ _ S1 S2).
  - apply wp_bind, wp_aget; [lia |]. intros c3 Hc3. apply wp_bind.
    eapply wp_mono; [apply rx_deliver_one_spec; [done | lia | done] |].
    intros [r' pkt] (S1 & Ecq & -> & Hpl). apply wp_ret.
    destruct (cq_advance_rx r' (rs_wf _ _ _ _ S1)) as (S2 & Hhead). rewrite Ecq in Hhead.
    destruct (Forall_lookup_1 _ _ _ _ Hok3 Hc3) as (_ & _ & Hoff).
    split; try done; [| | by exists c | | intros p [= <-]; unfold rx_pkt_range; simpl; lia].
    2: { intros ds _ Hu. rewrite cq_advance_filled. simpl. destruct (buf_netbuf b) as [nb |] eqn:Enb.
         - apply (slots_filled_change (rxc_req_id c1) _ r); [done | simpl; set_solver |]. eapply slots_filled_more; [| exact Hu]. set_solver.
         - simpl. rewrite app_nil_r. intros q i t Eq Hi Hds Ht Ht0. pose proof (Hu q i t Eq Hi Hds Ht Ht0) as Hfi.
           apply Hpl; [done | | done]. intros ->. destruct Hfi as (b' & nb' & ? & ?). congruence. }
    + pose proof (rx_step_trans _ _ _ _ _ _ _ S1 S2) as S12. rewrite app_nil_r in S12. exact S12.
    + intros p [= <-] nb Hnb. exists b. split; [by eapply list_elem_of_lookup_2 |].
      simpl in *. split; [done | lia].
Qed.

(** What a run of the poll has done. *)
Record rx_poll_ok (lost : list Z) (r r' : ena_ring) (rxq rxq' : option uk_netdev_rx_queue) (pkts : list ena_rx_pkt)
    (d : Z) (es : list event) : Prop := {
  rpo_step : rx_step r (omap rxp_netbuf pkts) es r';
  rpo_rxq : rxq_ok lost rxq' /\ rxq_kept rxq rxq';
  rpo_slots : forall ds, drop_netbuf_arg r = true -> slots_filled ds r rxq ->
    slots_filled (ds ++ reported pkts) r' rxq';
  rpo_fits : Forall (rx_pkt_fits r) pkts;
  rpo_dropped : 0 <= d;
  rpo_range : Forall (rx_pkt_range (sq_depth (r_sq r))) pkts
}.

Lemma rx_pkt_fits_from r r' pkt :
  cells_from (raw_bufs r') (raw_bufs r) -> rx_pkt_fits r' pkt -> rx_pkt_fits r pkt.
Proof.
  intros Hc Hf nb Hnb. destruct (Hf nb Hnb) as (b & Hb & Hbn & Hl). exists b.
  split; [apply Hc; [done | congruence] | done].
Qed.

Lemma omap_option_list pkt pkts :
  omap rxp_netbuf (option_list pkt ++ pkts) = option_list (pkt ≫= rxp_netbuf) ++ omap rxp_netbuf pkts.
Proof. destruct pkt as [p |]; [| done]. simpl. by destruct (rxp_netbuf p). Qed.

Lemma rx_poll_loop_safe lost fuel j cpu max_pkts view r rxq :
  wf_rx r -> rxq_ok lost rxq -> rx_view_ok (cq_depth (r_cq r)) view ->
  wlp (rx_poll_loop fuel j cpu max_pkts view r rxq) (fun '(r', rxq', pkts, d, es) =>
    rx_poll_ok lost r r' rxq rxq' pkts d es /\ Z.of_nat (length pkts) <= Z.max 0 max_pkts).
Proof.
  revert j max_pkts r rxq. induction fuel as [| fuel IH]; intros j max_pkts r rxq Hwf Hq Hv; [done |].
  assert (rx_poll_ok lost r r rxq rxq [] 0 []) as Hrefl.
  { split; [by apply rx_step_refl | done | intros ds _; by rewrite app_nil_r | done | lia | done]. }
  simpl. destruct (Z.leb_spec max_pkts 0); [apply wlp_ret; split; [done | simpl; lia] |].
  apply wlp_bind. eapply wlp_mono; [apply wp_wlp; by apply rx_poll_iter_spec |].
  intros [[[[[r1 rxq1] pkt] d1] es1] |] H1; [| apply wlp_ret; split; [done | simpl; lia]].
  destruct H1 as [S1 [Hq1 Hk1] Hu1 _ _ Hf1 Hd1 Hg1]. apply wlp_bind.
  eapply wlp_mono; [apply IH; [apply S1 | done | by rewrite (rs_cqd _ _ _ _ S1)] |].
  intros [[[[r2 rxq2] pkts] d2] es2] [[S2 [Hq2 Hk2] Hu2 Hf2 Hd2 Hg2] Hlen]. apply wlp_ret. split.
  - split; [| split; [done | by etrans] | | | lia |].
    + rewrite omap_option_list. by eapply rx_step_trans.
    + intros ds Ha Hu. unfold reported. rewrite omap_app, app_assoc.
      apply Hu2; [by rewrite (rf_arg _ _ (rs_frame _ _ _ _ S1)) | by apply Hu1].
    + apply Forall_app_2.
      * destruct pkt as [p |]; [| constructor]. constructor; [by apply Hf1 | constructor].
      * eapply Forall_impl; [exact Hf2 |]. intros p. apply rx_pkt_fits_from, (rs_cells _ _ _ _ S1).
    + rewrite (rf_depth _ _ (rs_frame _ _ _ _ S1)) in Hg2. apply Forall_app_2; [| exact Hg2].
      destruct pkt as [p |]; [| constructor]. constructor; [by apply Hg1 | constructor].
  - rewrite length_app. destruct pkt; simpl in *; lia.
Qed.

(** With a quiet device, [m] entries after [h0] were consumed, the first of which had the
    phase of its lap: less than a lap, since the next entry of the same slot has the other
    phase. *)
Record cq_lap (V : list ena_eth_io_rx_cdesc_base) (h0 m : Z) (r : ena_ring) : Prop := {
  lap_count : 0 <= m <= cq_depth (r_cq r);
  lap_head : cq_head (r_cq r) = u16 (h0 + m);
  lap_seen : 0 < m -> exists c, V !! Z.to_nat (Z.land h0 (cq_depth (r_cq r) - 1)) = Some c
                      /\ rx_cdesc_phase (rxc_status c) = phase_of (cq_depth (r_cq r)) h0
}.

Lemma cq_lap_start V r : wf_rx r -> cq_lap V (cq_head (r_cq r)) 0 r.
Proof.
  intros Hwf. pose proof (pow2_depth_bounds _ (wr_cqd _ (proj1 Hwf))). pose proof (wr_cqi _ (proj1 Hwf)) as [? _].
  split; [lia | rewrite Z.add_0_r; by rewrite u16_id | lia].
Qed.

Lemma cq_lap_next lost V h0 m j r r1 rxq rxq1 pkt d es :
  wf_rx r -> 0 <= h0 < 65536 -> cq_lap V h0 m r -> rx_iter_ok lost j (fun _ _ => V) r r1 rxq rxq1 pkt d es ->
  m < cq_depth (r_cq r) /\ cq_lap V h0 (m + 1) r1.
Proof.
  intros Hwf Hh0 [Hm Hhd Hseen] Hi. destruct Hi as [S1 _ _ Hadv (c & Hc & Hph) _ _ _].
  pose proof (wr_cqd _ (proj1 Hwf)) as Hd. pose proof (wr_cqi _ (proj1 Hwf)) as [_ Hcp]. rewrite Hhd in Hc, Hcp.
  assert (m < cq_depth (r_cq r)) as Hlt.
  { destruct (Z.eq_dec m (cq_depth (r_cq r))) as [-> |]; [exfalso | lia].
    pose proof (pow2_depth_bounds _ Hd). destruct Hseen as (c' & Hc' & Hph'); [lia |].
    eapply (lap_contra (fun c => rx_cdesc_phase (rxc_status c)) V (cq_depth (r_cq r)) h0);
      [done | done | exact Hc' | done | exact Hc | congruence]. }
  split; [done |]. split; rewrite ?(rs_cqd _ _ _ _ S1); [lia | |].
  - injection Hadv as Hh _. rewrite Hh, Hhd, u16_add_l. f_equal. lia.
  - intros _. destruct (decide (m = 0)) as [-> |]; [| apply Hseen; lia].
    rewrite Z.add_0_r, u16_id in Hc, Hcp by lia. exists c. by rewrite Hph, Hcp.
Qed.

(** Termination when the device is quiet, as on the transmit side. *)
Lemma rx_poll_loop_quiet lost V h0 fuel j m cpu max_pkts r rxq :
  wf_rx r -> rxq_ok lost rxq -> rx_view_ok (cq_depth (r_cq r)) (fun _ _ => V) -> 0 <= h0 < 65536 ->
  cq_lap V h0 m r -> cq_depth (r_cq r) - m < Z.of_nat fuel ->
  wp (rx_poll_loop fuel j cpu max_pkts (fun _ _ => V) r rxq) (fun '(r', _, pkts, _, _) =>
    wf_rx r' /\ exists m', m + Z.of_nat (length pkts) <= m' /\ cq_lap V h0 m' r').
Proof.
  revert j m max_pkts r rxq. induction fuel as [| fuel IH];
    intros j m max_pkts r rxq Hwf Hq Hv Hh0 Hlap Hfuel; [pose proof (lap_count _ _ _ _ Hlap); lia |]. simpl.
  destruct (max_pkts <=? 0); [apply wp_ret; split; [done |]; exists m; split; [simpl; lia | done] |].
  apply wp_bind. eapply wp_mono; [by apply (rx_poll_iter_spec lost) |].
  intros [[[[[r1 rxq1] pkt] d1] es1] |] Hi; [| apply wp_ret; split; [done |]; exists m; split; [simpl; lia | done]].
  destruct (cq_lap_next _ _ _ _ _ _ _ _ _ _ _ _ Hwf Hh0 Hlap Hi) as [Hlt Hlap1]. destruct Hi as [S1 [Hq1 _] _ _ _ _ _ _].
  apply wp_bind. eapply wp_mono; [apply (IH _ (m + 1)); try done; rewrite ?(rs_cqd _ _ _ _ S1); [apply S1 | done | lia] |].
  intros [[[[r2 rxq2] pkts] d2] es2] (Hwf2 & m' & Hm' & Hl'). apply wp_ret. split; [done |]. exists m'. split; [| done].
  rewrite length_app. destruct pkt; simpl; lia.
Qed.

(** ** Posting *)
Record rx_submitted (nb phys len : Z) (r : ena_ring) (id : Z) (r' : ena_ring) : Prop := {
  rsb_wf : wf_rx r';
  rsb_id : exists rest, pool_list r = id :: rest /\ pool_list r' = rest;
  rsb_range : 0 <= id < sq_depth (r_sq r);
  rsb_flight : flights (r_pool r') = <[Z.to_nat id := 1]> (flights (r_pool r));
  rsb_cell : exists nd, cells (raw_bufs r') = <[Z.to_nat id := mkBuf (Some nb) phys len nd id]> (cells (raw_bufs r));
  rsb_held : held (raw_bufs r') ≡ₚ nb :: held (raw_bufs r);
  rsb_desc : sq_virt (r_sq r') = (fun l => <[Z.to_nat (Z.land (sq_tail (r_sq r)) (sq_depth (r_sq r) - 1))
      := SlotRx (rx_desc_format phys len id (sq_phase (r_sq r)))]> l) <$> sq_virt (r_sq r);
  rsb_tail : sq_tail (r_sq r') = u16 (sq_tail (r_sq r) + 1);
  rsb_lock : ring_lock r' = 0;
  rsb_frame : sq_depth (r_sq r') = sq_depth (r_sq r) /\ hw_valid r' = hw_valid r
    /\ drop_releases r' = drop_releases r /\ sq_db (r_sq r') = sq_db (r_sq r)
    /\ r_blk r' = r_blk r /\ refill_netbuf r' = refill_netbuf r /\ drop_netbuf_arg r' = drop_netbuf_arg r
    /\ r_cq r' = r_cq r
}.

Lemma ena_rx_submit_one_spec r nb phys len :
  wf_rx r -> hw_valid r = true -> ring_lock r = 0 ->
  (len =? 0) || (0xFFFF <? len) = false -> 0 < ff_count (free_req (r_pool r)) ->
  wp (ena_rx_submit_one r (Some nb) phys len) (fun '(err, id, r') =>
    err = 0 /\ rx_submitted nb phys len r id r').
Proof.
  intros [Hwf Hty] Hv Hk Hlen Hc. pose proof (wr_pool _ Hwf) as Hp.
  unfold ena_rx_submit_one. rewrite Hty, Hv, Hlen. simpl. unfold ena_ring_lock. rewrite Hk. simpl.
  destruct (Z.eqb_spec (ff_count (free_req (r_pool r))) 0); [lia |].
  apply wp_bind. eapply wp_mono.
  { exact (ena_ring_req_id_alloc_spec (set_ring_lock 1 r) _ _ _ eq_refl eq_refl eq_refl Hp Hc). }
  intros [[err id] r1] (-> & Hid & p' & -> & Hp' & Hfree & Hfl & Hal & Halloc & b0 & Hb0 & Hnb0).
  simpl in *. pose proof (wf_pool_set_flight _ _ _ id 1 Hp') as Hp1.
  pose proof (wp_fl_len _ _ _ Hp'). pose proof (wp_cells_len _ _ _ Hp').
  pose proof (fun b => wf_pool_set_cell _ _ _ id b Hp1 Hid Halloc) as Hp2.
  assert (flights p' = flights (r_pool r)) as Hfl' by (unfold flights; by rewrite Hfl).
  destruct (wr_sqm _ Hwf) as (sqm & Hsqm & Hsqlen).
  pose proof (slot_range (sq_tail (r_sq r)) _ (wr_depth _ Hwf)) as Hslot.
  unfold aset_opt. rewrite (wp_fl _ _ _ Hp'). simpl.
  apply wp_bind, wp_aset; [lia |].
  apply wp_bind, (wp_aget_eq _ _ _ _ (wp_cells _ _ _ Hp')); [lia |]. intros b1 Hb1.
  apply wp_bind, (wp_aset_eq _ _ _ _ _ (wp_cells _ _ _ Hp')); [simpl in *; lia |].
  apply wp_bind. simpl. apply (wp_aset_eq _ _ _ _ _ Hsqm); [lia |]. apply wp_ret. split; [done |].
  split; try done.
  - split; [| done]. apply (wf_ring_change r); try done.
    + eexists. split; [reflexivity |]. by rewrite length_insert.
    + exact (ring_advance_ok _ _ _ (wr_depth _ Hwf) (wr_sqi _ Hwf)).
    + apply Hwf.
    + apply Hwf.
    + apply Hp2.
  - exists (free_ids (sq_depth (r_sq r)) p'). done.
  - simpl. by rewrite Hfl'.
  - by eexists.
  - unfold held; simpl. by apply omap_insert_some with (x := b0).
  - simpl. by rewrite Hsqm.
Qed.

Lemma rx_submit_cases r nb phys len :
  wf_rx r -> ring_lock r = 0 ->
  wp (ena_rx_submit_one r (Some nb) phys len) (fun '(err, id, r') =>
    (err <> 0 /\ r' = r) \/ (err = 0 /\ rx_submitted nb phys len r id r')).
Proof.
  intros Hwf Hk. destruct (hw_valid r) eqn:Hv.
  2: { unfold ena_rx_submit_one. rewrite (proj2 Hwf), Hv. by left. }
  destruct ((len =? 0) || (0xFFFF <? len)) eqn:Hl.
  { unfold ena_rx_submit_one. rewrite (proj2 Hwf), Hv, Hl. by left. }
  destruct (decide (0 < ff_count (free_req (r_pool r)))).
  - eapply wp_mono; [by apply ena_rx_submit_one_spec |]. intros [[err id] r'] ?. by right.
  - pose proof (wff_count _ _ (wp_fifo _ _ _ (wr_pool _ (proj1 Hwf)))).
    unfold ena_rx_submit_one. rewrite (proj2 Hwf), Hv, Hl. simpl. unfold ena_ring_lock. rewrite Hk. simpl.
    replace (ff_count (free_req (r_pool r))) with 0 by lia. simpl. left. split; [done |].
    destruct r; simpl in *. by subst.
Qed.

(** ** Refill *)

(** The queue side of a refill: nothing pending and the map as long as the ring. *)
Record rxq_ready (lost : list Z) (r : ena_ring) (q : uk_netdev_rx_queue) : Prop := {
  rr_wf : wf_rxq lost q;
  rr_pending : pending_slot q = -1;
  rr_depth : nb_desc (rxq_bounce q) = sq_depth (r_sq r)
}.

(** Between the allocation of a netbuf and its submission a slot may be pending. *)
Record rxq_popped (lost : list Z) (q q' : uk_netdev_rx_queue) : Prop := {
  rp_wf : wf_rxq lost q';
  rp_map : bounce_map (rxq_bounce q') = bounce_map (rxq_bounce q);
  rp_desc : nb_desc (rxq_bounce q') = nb_desc (rxq_bounce q)
}.

Lemma rxq_ready_popped lost r q q' :
  rxq_ready lost r q -> rxq_popped lost q q' -> pending_slot q' = -1 ->
  rxq_ready lost r q' /\ (slots_filled [] r (Some q) -> slots_filled [] r (Some q')).
Proof.
  intros [_ _ Hd] [Hwf Hm Hd'] Hpend. split; [by split; [| | congruence] |].
  intros Hu q2 id s [= <-] Hi Hn Hs. apply (Hu q id s); try done. unfold slot_of in *. by rewrite <- Hm.
Qed.

Section RefillSpec.
  Context `{NetbufAlloc W}.

  (** The netbufs the allocator hands out between two of its states. *)
Inductive got : W -> list Z -> W -> Prop :=
| got_refl w : got w [] w
| got_fail w w' nbs w'' : nb_alloc w = (None, w') -> got w' nbs w'' -> got w nbs w''
| got_some w nb w' nbs w'' : nb_alloc w = (Some nb, w') -> got w' nbs w'' -> got w (nb_id nb :: nbs) w''.

Lemma got_trans w1 l1 w2 l2 w3 : got w1 l1 w2 -> got w2 l2 w3 -> got w1 (l1 ++ l2) w3.
Proof. induction 1; simpl; eauto using got. Qed.

(** The allocator handed out [nb] between two of its states. *)
Definition offered (w : W) (nb : netbuf) (w' : W) : Prop :=
  exists l1 w1 w2 l2, got w l1 w1 /\ nb_alloc w1 = (Some nb, w2) /\ got w2 l2 w'.

Lemma offered_later w l w1 nb w' : got w l w1 -> offered w1 nb w' -> offered w nb w'.
Proof. intros Hg (l1 & w2 & w3 & l2 & ? & ? & ?). exists (l ++ l1), w2, w3, l2. split; [by eapply got_trans | done]. Qed.

(** The length posted for a netbuf is at most its size. *)
Definition posted_for (nb : netbuf) (id len : Z) : Prop :=
  id = nb_id nb /\ (0 <= nb_buflen nb < 2 ^ 32 -> len <= nb_buflen nb).

Lemma alloc_helper_spec lost cpu q w :
  wf_rxq lost q -> pending_slot q = -1 ->
  wp (ena_netbuf_alloc_helper cpu (Some q) w) (fun '(nb, rxq', es, w') =>
    exists q', rxq' = Some q' /\ rxq_popped lost q q'
      /\ exists nbs, got w nbs w'
      /\ match nb with
         | Some (id, _, len) => nbs = [id] /\ es = [] /\ exists nb, nb_alloc w = (Some nb, w') /\ posted_for nb id len
         | None => freed es = nbs /\ pending_slot q' = -1
         end).
Proof.
  intros Hq Hpend. unfold ena_netbuf_alloc_helper.
  assert (rxq_popped lost q q) as Hself by (by split).
  destruct (nb_alloc w) as [[nb |] w'] eqn:Ea.
  2: { apply wp_ret. exists q. split; [done |]. split; [done |].
       exists []. split; [by eapply got_fail; [| apply got_refl] | done]. }
  assert (got w [nb_id nb] w') as Hgot by (eapply got_some; [done | apply got_refl]).
  destruct (_ && _).
  2: { apply wp_ret. exists q. split; [done |]. split; [done |]. exists [nb_id nb]. split_and!; try done.
       exists nb. split; [done |]. split; [done |]. intros. rewrite u32_id; lia. }
  destruct (Z.eqb_spec (ff_count (bounce_free (rxq_bounce q))) 0).
  { apply wp_ret. exists q. split; [done |]. split; [done |]. by exists [nb_id nb]. }
  unfold wf_rxq in Hq. rewrite Hpend in Hq. simpl in Hq.
  pose proof (pow2_depth_bounds _ (wff_depth _ _ (wfb_free _ _ Hq))).
  pose proof (wff_count _ _ (wfb_free _ _ Hq)).
  apply wp_bind. eapply wp_mono; [apply fifo_pop_spec; [apply Hq | lia] |].
  intros [slot f] (Hf & Hc & _). apply wp_ret. eexists. split; [done |].
  assert (0 <= slot < nb_desc (rxq_bounce q)) as Hs.
  { apply (wf_bounce_range _ _ _ Hq). unfold slots_free. rewrite Hc. set_solver. }
  split; [| exists [nb_id nb]; split_and!; try done; exists nb; split; [done |]; split; [done |];
              unfold ENA_RX_BUF_SIZE; destruct (Z.ltb_spec (nb_buflen nb) 2048); intros; rewrite ?u32_id; lia].
  split; [| done | done].
  unfold wf_rxq; simpl. rewrite i16_id by lia. unfold mapped_slot.
  destruct (Z.leb_spec 0 slot); [| lia]. simpl. destruct Hq as [_ (m & Hm & Hlen) Hp].
  split; simpl; [done | eauto |]. unfold slots_free, slots_mapped in *; simpl. rewrite <- Hp, Hc, Hm. simpl.
  by rewrite !app_assoc, <- Permutation_middle.
Qed.
End RefillSpec.

Lemma rxq_unpop_spec lost q q' :
  rxq_popped lost q q' ->
  wp (rxq_unpop (Some q')) (fun rxq'' => exists q'', rxq'' = Some q''
    /\ rxq_popped lost q q'' /\ pending_slot q'' = -1).
Proof.
  intros [Hwf Hm Hd]. unfold rxq_unpop, wf_rxq, mapped_slot in *.
  destruct (Z.leb_spec 0 (pending_slot q')); simpl in Hwf.
  - assert (0 <= pending_slot q' < nb_desc (rxq_bounce q')).
    { apply (wf_bounce_range _ _ _ Hwf). set_solver. }
    pose proof (pow2_depth_bounds _ (wff_depth _ _ (wfb_free _ _ Hwf))).
    rewrite u16_id by lia. apply wp_bind. eapply wp_mono; [by apply wf_bounce_push |].
    intros b (Hb & En & Em & _). apply wp_ret. eexists. split; [done |]. split; [| done].
    split; simpl; [done | congruence | congruence].
  - apply wp_bind, wp_ret, wp_ret. eexists. split; [done |]. split; [| done]. by split.
Qed.

(** A slot the map held for the id is lost. *)
Lemma rxq_bind_spec lost r q q' nb phys len id r' :
  wf_rx r -> rxq_ready lost r q -> rxq_popped lost q q' -> rx_submitted nb phys len r id r' ->
  wp (rxq_bind (Some q') id) (fun rxq'' => exists q'' more, rxq'' = Some q'' /\ rxq_ready (more ++ lost) r' q''
    /\ (slots_filled [] r (Some q) -> more = [] /\ slots_filled [] r' (Some q''))).
Proof.
  intros Hwf0 [_ _ Hd] [Hwf' Hm' Hd'] Hsub. unfold rxq_bind.
  destruct Hsub as [Hwfr (rest & Hpl & _) Hid _ (nd & Hcell) _ _ _ _ (Ed & _)].
  destruct (wfb_map _ _ Hwf') as (m & Hm & Hlen). rewrite Hm. cbn [non_null andb].
  destruct (Z.ltb_spec id (nb_desc (rxq_bounce q'))); [| lia].
  apply wp_bind, wp_aset; [lia |]. apply wp_ret.
  destruct (lookup_in_range m id) as [s Hs]; [lia |].
  exists (mkRxq (set_bounce_map (Some (<[Z.to_nat id := pending_slot q']> m)) (rxq_bounce q')) (-1)), (option_list (mapped_slot s)).
  split; [done |]. split; [split; simpl; [| done | congruence] |].
  - unfold wf_rxq in *; simpl. destruct Hwf' as [Hf _ Hp]. split; simpl; [done | |].
    + eexists. split; [done |]. by rewrite length_insert.
    + rewrite <- Hp. unfold slots_free, slots_mapped; simpl. rewrite Hm. apply Permutation_app; [done |].
      rewrite !app_assoc. apply Permutation_app; [| done].
      by apply omap_insert_perm.
  - intros Hu. assert (s < 0) as Hs0.
    { destruct (decide (s < 0)) as [| Hs0]; [done | exfalso]. apply (free_not_filled r id Hwf0); [rewrite Hpl; by left |].
      apply (Hu q id s); [done | lia | set_solver | | lia]. unfold slot_of. by rewrite <- Hm', Hm. }
    assert (mapped_slot s = None) as -> by (unfold mapped_slot; by destruct (Z.leb_spec 0 s); [lia |]).
    split; [done |]. intros q2 i t [= <-] Hi _ Ht Ht0. pose proof (wp_cells_len _ _ _ (wr_pool _ (proj1 Hwf0))).
    unfold slot_of in Ht. simpl in Ht. unfold filled. rewrite Hcell. destruct (decide (i = id)) as [-> | Hne].
    + do 2 eexists. split; [apply list_lookup_insert_eq; lia | done].
    + rewrite list_lookup_insert_ne in Ht by lia. rewrite list_lookup_insert_ne by lia. apply (Hu q i t); [done | done | set_solver | | done].
      unfold slot_of. by rewrite <- Hm', Hm.
Qed.

Section RefillTheorem.
  Context `{NetbufAlloc W}.

  (** What a refill by a queue [q] has done. *)
Record rx_refilled (lost : list Z) (r : ena_ring) (q : uk_netdev_rx_queue) (w : W) (n : Z) (r' : ena_ring)
    (q' : uk_netdev_rx_queue) (w' : W) (es : list event) : Prop := {
  rfl_wf : wf_rx r';
  rfl_lock : ring_lock r' = 0;
  rfl_rxq : exists more, rxq_ready (more ++ lost) r' q'
    /\ (slots_filled [] r (Some q) -> more = [] /\ slots_filled [] r' (Some q'));
  rfl_count : ff_count (free_req (r_pool r')) = ff_count (free_req (r_pool r)) - n;
  rfl_frame : hw_valid r' = hw_valid r /\ drop_releases r' = drop_releases r /\ r_blk r' = r_blk r
    /\ refill_netbuf r' = refill_netbuf r /\ drop_netbuf_arg r' = drop_netbuf_arg r /\ r_cq r' = r_cq r
    /\ sq_depth (r_sq r') = sq_depth (r_sq r);
  rfl_held : exists nbs, got w nbs w' /\ held (raw_bufs r') ++ freed es ≡ₚ nbs ++ held (raw_bufs r);
  rfl_cells : forall b nb, b ∈ cells (raw_bufs r') -> buf_netbuf b = Some nb ->
    b ∈ cells (raw_bufs r) \/ exists m, offered w m w' /\ posted_for m nb (buf_data_len b)
}.

Lemma rx_submitted_count nb phys len r id r' :
  wf_rx r -> rx_submitted nb phys len r id r' ->
  ff_count (free_req (r_pool r')) = ff_count (free_req (r_pool r)) - 1.
Proof.
  intros Hwf [Hwf' (rest & E & E') _ _ _ _ _ _ _ _].
  rewrite <- (wf_pool_count _ _ _ (wr_pool _ (proj1 Hwf))), <- (wf_pool_count _ _ _ (wr_pool _ (proj1 Hwf'))).
  fold (pool_list r) (pool_list r'). rewrite E, E'. simpl. lia.
Qed.

Lemma freed_drop r cpu nb : drop_releases r = true -> freed (ring_drop_netbuf r cpu nb) = [nb].
Proof.
  unfold ring_drop_netbuf, ena_netdev_rxq_drop_netbuf, drop_releases.
  by destruct (drop_netbuf_cb r), (drop_netbuf_arg r).
Qed.

Lemma refill_loop_spec lost fuel cpu count r q w n :
  wf_rx r -> ring_lock r = 0 -> drop_releases r = true -> rxq_ready lost r q ->
  (Z.to_nat (ff_count (free_req (r_pool r))) < fuel)%nat ->
  wp (refill_loop fuel cpu count r (Some q) w n) (fun '(n', r', rxq', w', es) =>
    exists q', rxq' = Some q' /\ n <= n' <= Z.max n count /\ rx_refilled lost r q w (n' - n) r' q' w' es).
Proof.
  revert lost r q w n. induction fuel as [| fuel IH]; intros lost r q w n Hwf Hk Hd Hq Hfuel; [lia |]. simpl.
  destruct ((n <? count) && (0 <? ff_count (free_req (r_pool r)))) eqn:Hgo.
  2: { apply wp_ret. exists q. split; [done |]. split; [lia |]. split; try done; [by exists [] | lia | | by left].
       exists []. split; [apply got_refl | by rewrite app_nil_r]. }
  apply andb_true_iff in Hgo as [Hn%Z.ltb_lt Hc%Z.ltb_lt].
  apply wp_bind. eapply wp_mono; [apply (alloc_helper_spec lost); apply Hq |].
  intros [[[nb rxq1] es1] w1] (q1 & -> & Hpop & nbs & Hgot & Hnb).
  destruct nb as [[[nb phys] len] |].
  2: { apply wp_ret. destruct Hnb as [Hf Hpend]. exists q1. split; [done |]. split; [lia |].
       split; try done; [| lia | | by left].
       - destruct (rxq_ready_popped _ _ _ _ Hq Hpop Hpend). exists []. auto.
       - exists nbs. split; [done |]. rewrite Hf. apply Permutation_app_comm. }
  destruct Hnb as (-> & -> & m & Hm & Hpost). apply wp_bind. eapply wp_mono; [by apply rx_submit_cases |].
  intros [[err id] r1] [[He ->] | [-> Hsub]].
  - assert (z2b err = true) as -> by (unfold z2b; by rewrite (proj2 (Z.eqb_neq err 0) He)).
    apply wp_bind. eapply wp_mono; [by apply rxq_unpop_spec |]. intros rxq2 (q2 & -> & Hpop2 & Hpend).
    apply wp_ret. exists q2. split; [done |]. split; [lia |]. split; try done; [| lia | | by left].
    + destruct (rxq_ready_popped _ _ _ _ Hq Hpop2 Hpend). exists []. auto.
    + exists [nb]. split; [done |]. simpl. rewrite freed_drop by done. apply Permutation_app_comm.
  - apply wp_bind. eapply wp_mono; [by eapply rxq_bind_spec |]. intros rxq2 (q2 & more & -> & Hq2 & Hu2).
    pose proof (rx_submitted_count _ _ _ _ _ _ Hwf Hsub) as Hcnt.
    destruct Hsub as [Hwf1 _ _ _ (nd & Hcell) Hh _ _ Hk1 (Hs1 & Hv1 & Hd1 & _ & Hb1 & Hr1 & Ha1 & Hcq1)].
    apply wp_bind. eapply wp_mono; [apply (IH (more ++ lost)); try done; [congruence | lia] |].
    intros [[[[n' r2] rxq'] w2] es2] (q3 & -> & Hn' & [Hwf2 Hk2 (more3 & Hq3 & Hu3) Hc2 (Hv2 & Hd2 & Hb2 & Hr2 & Ha2 & Hcq2 & Hs2) (nbs2 & Hgot2 & Hh2) Hc3]).
    apply wp_ret. exists q3. split; [done |]. split; [lia |]. split; try done; [| lia | | |].
    + exists (more3 ++ more). rewrite <- app_assoc. split; [done |]. intros Hu. destruct (Hu2 Hu) as [-> Hu2'].
      destruct (Hu3 Hu2') as [-> ?]. done.
    + split_and!; congruence.
    + exists ([nb] ++ nbs2). split; [by eapply got_trans |]. simpl. rewrite Hh2, Hh. symmetry. apply Permutation_middle.
    + intros b x Hb Hx. destruct (Hc3 b x Hb Hx) as [Hin | (m' & Ho & Hp)]; [| right; exists m'; split; [by eapply offered_later | done]].
      rewrite Hcell in Hin. apply list_elem_of_lookup in Hin as [i Hi].
      apply list_lookup_insert_Some in Hi as [(_ & <- & _) | [_ Hi]]; [right | left; by eapply list_elem_of_lookup_2].
      injection Hx as <-. exists m. split; [| done]. exists [], w, w1, nbs2. split; [apply got_refl | done].
Qed.
End RefillTheorem.

Lemma freed_doorbell r : freed (ena_rx_doorbell r) = [].
Proof. unfold ena_rx_doorbell. by repeat case_match. Qed.

Lemma ena_rx_refill_spec `{NetbufAlloc W} lost cpu count r q (w : W) :
  wf_rx r -> ring_lock r = 0 -> drop_releases r = true -> rxq_ready lost r q -> 0 <= count ->
  wp (ena_rx_refill cpu count r (Some q) w) (fun '(n, r', rxq', w', es) =>
    exists q', rxq' = Some q' /\ 0 <= n <= (if count =? 0 then ff_count (free_req (r_pool r)) else count)
    /\ rx_refilled lost r q w n r' q' w' es).
Proof.
  intros Hwf Hk Hd Hq Hcnt. unfold ena_rx_refill. rewrite (proj2 Hwf). cbn [negb Z.eqb ENA_RING_TYPE_RX Pos.eqb].
  pose proof (wff_count _ _ (wp_fifo _ _ _ (wr_pool _ (proj1 Hwf)))).
  apply wp_bind. eapply wp_mono; [apply refill_loop_spec; try done; lia |].
  intros [[[[n r'] rxq'] w'] es] (q' & -> & Hn & [Hwf' Hk' Hq' Hc Hf (nbs & Hgot & Hh) Hcells]).
  rewrite Z.sub_0_r in Hc. apply wp_ret. exists q'. split_and!; try done; [lia | case_match; lia |]. split; try done.
  exists nbs. split; [done |]. by rewrite freed_app, freed_doorbell, app_nil_r.
Qed.

(** ** Theorems *)


(** An allocator that hands out netbufs 100, 101, ... of 2048 bytes. *)
#[local] Instance counter_alloc : NetbufAlloc Z := fun n => (Some (mkNetbuf n (n * 0x1000000) 2048), n + 1).

Definition example_rxq : uk_netdev_rx_queue :=
  mkRxq (mkBounce true 0x80000 4 (fifo_full 4) (Some [-1; -1; -1; -1])) (-1).

Lemma example_rxq_ready : rxq_ready [] (example_ring ENA_RING_TYPE_RX 4) example_rxq.
Proof. split; try done. split; simpl; [apply fifo_full_wf, pow2_depth_4 | by eexists | by vm_compute]. Qed.
Lemma example_rxq_unmapped r : slots_filled [] r (Some example_rxq).
Proof.
  intros q id s [= <-] _ _ Hs. apply (list_elem_of_lookup_2 [-1; -1; -1; -1]) in Hs. set_unfold in Hs. lia.
Qed.


(** What a poll leaves, for any content of the completion queue. *)
Lemma ena_rx_poll_spec lost fuel cpu view r rxq max_pkts :
  wf_rx r -> ring_lock r = 0 -> rxq_ok lost rxq -> rx_view_ok (cq_depth (r_cq r)) view -> 0 <= max_pkts ->
  wlp (ena_rx_poll fuel cpu view r rxq max_pkts) (fun '(ret, _, pkts, r', rxq', es) =>
    (exists d, rx_poll_ok lost r r' rxq rxq' pkts d es)
    /\ ret <= max_pkts /\ (0 <= ret -> ret = Z.of_nat (length pkts)) /\ (ret < 0 -> pkts = [])).
Proof.
  intros Hwf Hk Hq Hv Hmax. assert (rx_poll_ok lost r r rxq rxq [] 0 []) as Hrefl.
  { split; [by apply rx_step_refl | done | intros ds _; by rewrite app_nil_r | done | lia | done]. }
  unfold ena_rx_poll. rewrite (proj2 Hwf), (wr_cqm _ (proj1 Hwf)). simpl.
  destruct (Z.eqb_spec max_pkts 0); simpl; [split_and!; [by exists 0 | unfold EINVAL; lia | unfold EINVAL; lia | done] |].
  destruct (hw_valid r); simpl; [| split_and!; [by exists 0 | lia | done | done]].
  unfold ena_ring_lock. rewrite Hk. simpl. apply wlp_bind.
  eapply wlp_mono; [apply (rx_poll_loop_safe lost); [| done | done]; by apply (wf_rx_same r); try done; apply Hwf |].
  intros [[[[r1 rxq1] pkts] d] es] [[[Hwf1 F Ec Hh Hcl] Hq1 Hu1 Hf Hd Hg] Hlen]. apply wlp_ret.
  split_and!; [| lia | done | lia]. exists d. split; try done. split; [| | done | | done].
  - by apply (wf_rx_same r1); try done; apply Hwf1.
  - destruct F. split; simpl in *; congruence.
  - intros Hdr. simpl in *. rewrite (Hh Hdr), freed_app.
    assert (freed (match cq_db (r_cq r1) with
                   | Some db => if 0 <? Z.of_nat (length pkts) then [EvWrite32 db (cq_head (r_cq r1))] else []
                   | None => [] end) = []) as -> by (by repeat case_match).
    by rewrite app_nil_r.
Qed.

(** C11: Receive poll, safety against any device.  Whatever the device writes to
    the completion queue, and however it changes it during the poll, a poll of a
    well-formed RX ring never accesses memory out of bounds; when it returns, the
    invariants hold and the lock is free, at most [max_pkts] packets are reported,
    every packet with a buffer is no longer than the buffer posted for it, and
    every netbuf the ring held was delivered once, freed once, or is still held.
    No bounce slot is lost: every slot belongs to an id whose buffer holds a netbuf,
    or whose packet is reported. *)
Theorem rx_poll_safe lost fuel cpu view r rxq max_pkts :
  wf_rx r -> ring_lock r = 0 -> rxq_ok lost rxq -> rx_view_ok (cq_depth (r_cq r)) view -> 0 <= max_pkts ->
  wlp (ena_rx_poll fuel cpu view r rxq max_pkts) (fun '(ret, _, pkts, r', rxq', es) =>
    wf_rx r' /\ ring_lock r' = 0 /\ rxq_ok lost rxq'
    /\ (drop_netbuf_arg r = true -> slots_filled [] r rxq -> slots_filled (reported pkts) r' rxq')
    /\ ret <= max_pkts /\ (0 <= ret -> ret = Z.of_nat (length pkts))
    /\ Forall (rx_pkt_fits r) pkts
    /\ (drop_releases r = true ->
        held (raw_bufs r) ≡ₚ omap rxp_netbuf pkts ++ freed es ++ held (raw_bufs r'))).
Proof.
  intros Hwf Hk Hq Hv Hmax. eapply wlp_mono; [by apply ena_rx_poll_spec |].
  intros [[[[[ret dr] pkts] r'] rxq'] es] ((d & [[Hwf' F _ Hh _] [Hq' _] Hu Hf _ _]) & Hret & Hlen & _).
  split_and!; try done; [rewrite (rf_lock _ _ F); exact Hk | exact (Hu [])].
Qed.

(** A poll of a quiet device stays within a lap. *)
Lemma ena_rx_poll_quiet lost V h0 m fuel cpu r rxq max_pkts :
  wf_rx r -> ring_lock r = 0 -> rxq_ok lost rxq -> rx_view_ok (cq_depth (r_cq r)) (fun _ _ => V) -> 0 <= h0 < 65536 ->
  cq_lap V h0 m r -> cq_depth (r_cq r) - m < Z.of_nat fuel ->
  wp (ena_rx_poll fuel cpu (fun _ _ => V) r rxq max_pkts) (fun '(_, _, pkts, r', _, _) =>
    wf_rx r' /\ exists m', m + Z.of_nat (length pkts) <= m' /\ cq_lap V h0 m' r').
Proof.
  intros Hwf Hk Hq Hv Hh0 Hlap Hf. unfold ena_rx_poll. case_match; [split; [done |]; exists m; split; [simpl; lia | done] |].
  case_match; [split; [done |]; exists m; split; [simpl; lia | done] |].
  assert (wf_rx (set_ring_lock 1 r)) as Hwf1 by (by apply (wf_rx_same r); try done; apply Hwf).
  unfold ena_ring_lock. rewrite Hk. simpl. apply wp_bind.
  eapply wp_mono; [apply (rx_poll_loop_quiet lost V h0 fuel 0 m); try done; by destruct Hlap |].
  intros [[[[r1 rxq1] pkts] d] es] (Hwf2 & m' & Hm' & Hl'). apply wp_ret.
  split; [by apply (wf_rx_same r1); try done; apply Hwf2 |]. exists m'. split; [done |]. by destruct Hl'.
Qed.


(** A ring with three posted buffers and a queue in which the device completed
    two of them: 60 bytes in the first, and an impossible length in the second. *)
Definition example_posted : ena_ring :=
  match ena_rx_refill 0 3 (example_ring ENA_RING_TYPE_RX 4) (Some example_rxq) 100 with
  | Ret (_, r, _, _, _) => r
  | _ => example_ring ENA_RING_TYPE_RX 4
  end.
Definition example_rx_cq : list ena_eth_io_rx_cdesc_base :=
  [mkRxCdesc 0x0D000000 60 0 7 0 0 0; mkRxCdesc 0x0D000000 4000 1 7 0 0 0;
   rx_cdesc_zero; rx_cdesc_zero].

Lemma example_rx_view_ok : rx_view_ok 4 (fun _ _ => example_rx_cq).
Proof. intros j k. split; [done |]. repeat constructor; simpl; lia. Qed.

Lemma example_posted_wf : wf_rx example_posted.
Proof.
  pose proof (refill_loop_spec [] 5 0 3 (example_ring ENA_RING_TYPE_RX 4) example_rxq 100 0 example_rx_wf
                eq_refl eq_refl example_rxq_ready ltac:(vm_compute; lia)) as Hr.
  unfold example_posted, ena_rx_refill.
  change (refill_loop (S _) 0 _ _ _ _ 0)
    with (refill_loop 5 0 3 (example_ring ENA_RING_TYPE_RX 4) (Some example_rxq) 100 0).
  destruct (refill_loop 5 0 3 _ _ _ 0) as [[[[[n r'] rxq'] w'] es] | |]; try done.
  simpl. destruct Hr as (q' & _ & _ & [Hw _ _ _ _ _ _]). done.
Qed.

Lemma rx_poll_safe_witness :
  wlp (ena_rx_poll 6 0 (fun _ _ => example_rx_cq) example_posted None 4)
    (fun '(ret, _, pkts, r', _, es) =>
       ret = 1 /\ (rxp_len <$> pkts) = [60] /\ freed es = [101] /\ held (raw_bufs r') = [102]
       /\ Forall (rx_pkt_fits example_posted) pkts).
Proof.
  pose proof (rx_poll_safe [] 6 0 (fun _ _ => example_rx_cq) example_posted None 4 example_posted_wf
                eq_refl ltac:(done) example_rx_view_ok ltac:(lia)) as Hr.
  destruct (ena_rx_poll 6 0 _ _ _ _) as [[[[[[ret d] pkts] r'] rxq'] es] | |] eqn:E; [| done | done].
  destruct Hr as (_ & _ & _ & _ & _ & _ & Hf & _). vm_compute in E. injection E as <- _ <- <- _ <-.
  split_and!; try reflexivity. exact Hf.
Defined.


(** ** Limits of the code *)

(** The drop branch returns the id to the pool but leaves it marked in flight, so
    a second completion of the same id, of length 0, is accepted and reported as a
    packet without a buffer. *)
Lemma rx_dropped_id_stays_live :
  match ena_rx_poll 6 0 (fun _ _ => [mkRxCdesc 0x0D000000 4000 0 7 0 0 0;
                                     mkRxCdesc 0x0D000000 0 0 7 0 0 0;
                                     rx_cdesc_zero; rx_cdesc_zero]) example_posted None 4 with
  | Ret (ret, _, pkts, _, _, _) => (ret, rxp_netbuf <$> pkts)
  | _ => (0, [])
  end = (1, [None]).
Proof. by vm_compute. Qed.
