(* ===== verification/Llq.v ===== *)
(** * Low latency queue push

    [ena_llq_tx_push] (src/ena_llq.c, lines 58-205): a TX submission that copies
    the descriptor and the packet header into device memory (BAR2) instead of the
    host queue.  The push buffer is a list of bytes; an access outside it, or
    outside the 256-byte stack buffer the entry is built in, is a fault. *)

From stdpp Require Import base tactics option list list_numbers numbers sets gmap.
From Stdlib Require Import ZArith Lia.
From S2P Require Import Prelude Fifo Mem Desc Netq Ring Tx.

Definition desc_bytes (d : ena_eth_io_tx_desc) : list Z :=
  le_bytes 4 (txd_len_ctrl d) ++ le_bytes 4 (txd_meta_ctrl d) ++ le_bytes 4 (txd_buff_addr_lo d)
  ++ le_bytes 4 (txd_buff_addr_hi_hdr_sz d).

(** The entry: descriptor, inline header, zero pad, cut to whole 64-bit words. *)
Definition llq_entry (d : ena_eth_io_tx_desc) (hdr_data : option (list Z)) (hdr_len entry_size : Z)
    : res (list Z) :=
  buf ← write_at (replicate 256 0) 0 (desc_bytes d);
  buf ← match hdr_data with
        | Some h => if 0 <? hdr_len then hd ← read_at h hdr_len; write_at buf 16 hd else mret buf
        | None => mret buf
        end;
  read_at buf (entry_size / 8 * 8).

Definition llq_eff_entry_size (r : ena_ring) : Z :=
  if llq_entry_size (r_llq r) =? 0 then 128 else llq_entry_size (r_llq r).

(** The body of the push while the ring lock is held. *)
Definition llq_push_locked (r : ena_ring) (pkt : ena_tx_pkt) (hdr_data : option (list Z))
    (hdr_len : Z) (bar2 : list Z) : res (Z * Z * ena_ring * list Z * list event) :=
  let q := r_llq r in
  let entry_size := llq_eff_entry_size r in
  if ff_count (free_req (r_pool r)) =? 0 then mret (- EBUSY, 0, ena_ring_unlock r, bar2, [])
  else
    let slot_idx := Z.land (sq_tail (r_sq r)) (sq_depth (r_sq r) - 1) in
    if (0 <? push_buf_size q) && (push_buf_size q <? (slot_idx + 1) * entry_size) then
      mret (- EINVAL, 0, ena_ring_unlock r, bar2, [])
    else
      '(ret, req_id, r) ← ena_ring_req_id_alloc r;
      if z2b ret then mret (ret, 0, ena_ring_unlock r, bar2, [])
      else
        fl ← aset_opt (req_in_flight (r_pool r)) req_id 1;
        let r := set_r_pool (set_req_in_flight fl (r_pool r)) r in
        bufs ← aset (raw_bufs r) req_id
                 (mkBuf (txp_netbuf pkt) (txp_phys_addr pkt) (txp_len pkt) 1 req_id);
        let r := set_raw_bufs bufs r in
        entry ← llq_entry (llq_desc_format pkt hdr_len req_id (sq_phase (r_sq r)))
                  hdr_data hdr_len entry_size;
        bar2 ← write_at bar2 (slot_idx * entry_size) entry;
        let r := sq_advance r in
        let st := r_stats r in
        let r := set_r_stats (set_tx_bytes (u64 (tx_bytes st + txp_len pkt))
                   (set_tx_packets (u64 (tx_packets st + 1)) st)) r in
        mret (0, req_id, ena_ring_unlock r, bar2, ena_tx_doorbell r).

(** Result: return value, request id, ring, push buffer, events.  The fallback to
    host memory also copies the header into the netbuf, whose bytes are not part
    of the model. *)
Definition ena_llq_tx_push (cpu : Z) (r : ena_ring) (pkt : ena_tx_pkt) (hdr_data : option (list Z))
    (hdr_len : Z) (bar2 : list Z) : res (Z * Z * ena_ring * list Z * list event) :=
  if negb (ring_type r =? ENA_RING_TYPE_TX) then mret (- EINVAL, 0, r, bar2, [])
  else
    let entry_size := llq_eff_entry_size r in
    let header_cap := u32 (entry_size - 2 * 16) in
    if header_cap <? hdr_len then mret (- EINVAL, 0, r, bar2, [])
    else
      let q := r_llq r in
      if negb (is_llq q) || negb (non_null (push_buf_virt q))
         || ((0 <? push_buf_size q) && (push_buf_size q <? sq_depth (r_sq r) * entry_size)) then
        '(ret, id, r) ← ena_tx_submit cpu r pkt;
        mret (ret, id, r, bar2, if ret =? 0 then ena_tx_doorbell r else [])
      else
        r ← ena_ring_lock r;
        llq_push_locked r pkt hdr_data hdr_len bar2.

(** ** Entries *)
Lemma length_desc_bytes d : length (desc_bytes d) = 16%nat.
Proof. done. Qed.

(** The entry sizes the device offers. *)
Definition llq_size_ok (n : Z) : Prop := n = 128 \/ n = 192 \/ n = 256.

(** What the device finds in an entry: the descriptor, then the header, then zeros. *)
Definition llq_image (d : ena_eth_io_tx_desc) (hdr : list Z) (n : Z) : list Z :=
  take (Z.to_nat n) (desc_bytes d ++ hdr ++ replicate (240 - length hdr) 0).

Lemma llq_entry_spec d hdr_data hdr_len n :
  llq_size_ok n -> 0 <= hdr_len <= n - 32 ->
  (forall h, hdr_data = Some h -> hdr_len <= Z.of_nat (length h)) ->
  llq_entry d hdr_data hdr_len n
  = Ret (llq_image d (take (Z.to_nat hdr_len) (default [] hdr_data)) n).
Proof.
  intros Hn Hh Hdata. unfold llq_entry.
  assert (list_inserts 0 (desc_bytes d) (replicate 256 0) = desc_bytes d ++ replicate 240 0) as E0
    by exact (list_inserts_0_r (desc_bytes d) (replicate 16 0) (replicate 240 0) eq_refl).
  rewrite write_at_ret by (rewrite ?length_desc_bytes, ?length_replicate; lia).
  change (Z.to_nat 0) with 0%nat. rewrite E0. cbn [mbind res_bind].
  assert (forall hd, (length hd <= 224)%nat ->
    read_at (desc_bytes d ++ hd ++ replicate (240 - length hd) 0) (n / 8 * 8) = Ret (llq_image d hd n)) as Hr.
  { intros hd Hhd. assert (n / 8 * 8 = n) as -> by (destruct Hn as [-> | [-> | ->]]; done).
    apply read_at_ret. rewrite !length_app, length_replicate, length_desc_bytes.
    destruct Hn as [-> | [-> | ->]]; lia. }
  destruct hdr_data as [h |]; simpl default.
  2: { rewrite take_nil. apply (Hr []). simpl. lia. }
  specialize (Hdata h eq_refl).
  destruct (Z.ltb_spec 0 hdr_len).
  2: { assert (hdr_len = 0) as -> by lia. apply (Hr []). simpl. lia. }
  rewrite read_at_ret by lia. cbn [mbind res_bind]. set (hd := take (Z.to_nat hdr_len) h).
  assert (length hd = Z.to_nat hdr_len) as Hlen by (unfold hd; rewrite length_take; lia).
  assert (hdr_len <= 224) by (destruct Hn as [-> | [-> | ->]]; lia).
  rewrite write_at_ret by (rewrite ?length_app, ?length_replicate, ?length_desc_bytes; lia).
  change (Z.to_nat 16) with (length (desc_bytes d) + 0)%nat. rewrite list_inserts_app_r.
  rewrite (replicate_split 240 (length hd)) by lia.
  rewrite list_inserts_0_r by (by rewrite length_replicate). cbn [mbind res_bind]. apply Hr. lia.
Qed.

(** The device's reading of the 16 bytes of a descriptor. *)
Definition desc_of_bytes (l : list Z) : ena_eth_io_tx_desc :=
  mkTxDesc (le_get 4 0 l) (le_get 4 4 l) (le_get 4 8 l) (le_get 4 12 l).

Definition word32 (x : Z) : Prop := 0 <= x < 2 ^ 32.

Lemma le_val_word x : word32 x -> le_val (le_bytes 4 x) = x.
Proof. intros. rewrite le_val_bytes. change (256 ^ Z.of_nat 4) with (2 ^ 32). by apply Z.mod_small. Qed.

Lemma desc_bytes_roundtrip d rest :
  word32 (txd_len_ctrl d) -> word32 (txd_meta_ctrl d) -> word32 (txd_buff_addr_lo d) ->
  word32 (txd_buff_addr_hi_hdr_sz d) -> desc_of_bytes (desc_bytes d ++ rest) = d.
Proof.
  intros H0 H1 H2 H3. destruct d as [a b c e]; simpl in *. unfold desc_of_bytes, le_get, desc_bytes.
  f_equal; [exact (le_val_word a H0) | exact (le_val_word b H1) | exact (le_val_word c H2)
           | exact (le_val_word e H3)].
Qed.

Lemma bits_lt x n : 0 <= x -> 0 <= n -> (forall i, n <= i -> Z.testbit x i = false) -> x < 2 ^ n.
Proof.
  intros Hx Hn Hb. destruct (Z.lt_ge_cases x (2 ^ n)) as [| Hge]; [done | exfalso].
  pose proof (Z.pow_pos_nonneg 2 n). assert (n <= Z.log2 x) as Hl by (apply Z.log2_le_pow2; lia).
  specialize (Hb _ Hl). rewrite Z.bit_log2 in Hb by lia. done.
Qed.

Lemma word32_lor a b : word32 a -> word32 b -> word32 (Z.lor a b).
Proof.
  intros Ha Hb. assert (0 <= Z.lor a b) by (apply Z.lor_nonneg; unfold word32 in *; lia).
  split; [done |]. apply bits_lt; [done | lia |]. intros i Hi.
  rewrite Z.lor_spec, (testbit_above a 32), (testbit_above b 32) by done. done.
Qed.

Lemma word32_or_if b m w : word32 m -> word32 w -> word32 (or_if b m w).
Proof. intros. destruct b; simpl; [by apply word32_lor | done]. Qed.

Lemma word32_land_shift x n s : 0 <= n -> 0 <= s -> n + s <= 32 -> word32 (Z.shiftl (Z.land x (Z.ones n)) s).
Proof.
  intros. rewrite Z.land_ones, Z.shiftl_mul_pow2 by lia.
  pose proof (Z.mod_pos_bound x (2 ^ n) ltac:(lia)).
  assert (2 ^ n * 2 ^ s <= 2 ^ 32) by (rewrite <- Z.pow_add_r by lia; apply Z.pow_le_mono_r; lia).
  pose proof (Z.pow_pos_nonneg 2 s). split; [nia |]. unfold word32 in *. nia.
Qed.

Lemma word32_land x n : 0 <= n <= 32 -> word32 (Z.land x (Z.ones n)).
Proof. intros. pose proof (word32_land_shift x n 0). rewrite Z.shiftl_0_r in *. auto with lia. Qed.

Lemma tx_len_ctrl_word len id ph : word32 (tx_len_ctrl len id ph).
Proof.
  unfold tx_len_ctrl. repeat first [apply word32_lor | apply word32_or_if]; try (split; done).
  - by apply (word32_land _ 16).
  - by apply (word32_land_shift _ 6 16).
Qed.

Lemma tx_meta_ctrl_word pkt id : word32 (tx_meta_ctrl pkt id).
Proof.
  unfold tx_meta_ctrl. repeat first [apply word32_or_if | apply word32_lor]; try (split; done).
  - by apply (word32_land_shift _ 10 22).
  - by apply (word32_land _ 4).
  - by apply (word32_land_shift _ 5 8).
Qed.

Lemma llq_desc_words pkt hdr_len id ph rest :
  desc_of_bytes (desc_bytes (llq_desc_format pkt hdr_len id ph) ++ rest) = llq_desc_format pkt hdr_len id ph.
Proof.
  apply desc_bytes_roundtrip; simpl; [apply tx_len_ctrl_word | apply tx_meta_ctrl_word | |];
    apply u32_range.
Qed.

(** ** The push *)

(** A ring in LLQ mode with a push buffer [bar2] that holds all its entries. *)
Record llq_ready (r : ena_ring) (bar2 : list Z) : Prop := {
  lr_on : is_llq (r_llq r) = true;
  lr_buf : non_null (push_buf_virt (r_llq r)) = true;
  lr_entry : llq_size_ok (llq_eff_entry_size r);
  lr_size : push_buf_size (r_llq r) = Z.of_nat (length bar2);
  lr_room : sq_depth (r_sq r) * llq_eff_entry_size r <= Z.of_nat (length bar2)
}.

(** The device memory after an entry of [n] bytes was written at [off]. *)
Record llq_written (pkt : ena_tx_pkt) (hdr : list Z) (id ph n : Z) (off : nat) (bar2 bar2' : list Z) : Prop := {
  lw_desc : tx_desc_decode (desc_of_bytes (drop off bar2'))
    = tx_request_of pkt false (Z.of_nat (length hdr)) id ph;
  lw_hdr : take (length hdr) (drop (off + 16) bar2') = hdr;
  lw_frame : forall i, (i < off \/ off + Z.to_nat n <= i)%nat -> bar2' !! i = bar2 !! i
}.

(** What a successful push leaves for the device. *)
Record llq_pushed (pkt : ena_tx_pkt) (hdr : list Z) (r : ena_ring) (bar2 : list Z) (id : Z)
    (r' : ena_ring) (bar2' : list Z) (es : list event) : Prop := {
  lp_wf : wf_tx r';
  lp_lock : ring_lock r' = 0;
  lp_id : exists rest, pool_list r = id :: rest /\ pool_list r' = rest;
  lp_held : held (raw_bufs r') ≡ₚ option_list (txp_netbuf pkt) ++ held (raw_bufs r);
  lp_len : length bar2' = length bar2;
  lp_written : llq_written pkt hdr id (sq_phase (r_sq r)) (llq_eff_entry_size r)
    (Z.to_nat (Z.land (sq_tail (r_sq r)) (sq_depth (r_sq r) - 1) * llq_eff_entry_size r)) bar2 bar2';
  lp_tail : sq_tail (r_sq r') = u16 (sq_tail (r_sq r) + 1);
  lp_db : es = ena_tx_doorbell r';
  lp_owner : r_own r' = r_own r;
  lp_flight : flights (r_pool r') = <[Z.to_nat id := 1]> (flights (r_pool r));
  lp_kept : tx_kept r r'
}.

Lemma length_llq_image d hd n :
  llq_size_ok n -> (length hd <= 224)%nat -> length (llq_image d hd n) = Z.to_nat n.
Proof.
  intros Hn Hh. unfold llq_image. rewrite length_take, !length_app, length_replicate, length_desc_bytes.
  destruct Hn as [-> | [-> | ->]]; lia.
Qed.

(** The bytes the device finds at an entry written over [bar2]. *)
Lemma image_read d hd n off bar2 :
  llq_size_ok n -> Z.of_nat (length hd) <= n - 32 -> (off + Z.to_nat n <= length bar2)%nat ->
  let bar2' := list_inserts off (llq_image d hd n) bar2 in
  (exists rest, drop off bar2' = desc_bytes d ++ rest) /\ take (length hd) (drop (off + 16) bar2') = hd.
Proof.
  intros Hn Hh Hoff. cbv zeta.
  assert (length hd <= 224)%nat as Hhd by (destruct Hn as [-> | [-> | ->]]; lia).
  pose proof (length_llq_image d hd n Hn Hhd) as Hl.
  assert (drop off (list_inserts off (llq_image d hd n) bar2)
          = llq_image d hd n ++ drop (off + Z.to_nat n) bar2) as E.
  { apply list_eq. intros i. rewrite lookup_drop. destruct (decide (i < Z.to_nat n)%nat).
    - rewrite list_lookup_inserts by lia. rewrite lookup_app_l by lia. f_equal. lia.
    - rewrite list_lookup_inserts_ge by lia. rewrite lookup_app_r, lookup_drop by lia. f_equal. lia. }
  assert (exists tl, llq_image d hd n = desc_bytes d ++ hd ++ tl) as [tl Et].
  { unfold llq_image. rewrite take_app_ge, take_app_ge by (rewrite ?length_desc_bytes; lia). by eexists. }
  split; [exists (hd ++ tl ++ drop (off + Z.to_nat n) bar2); by rewrite E, Et, <- !app_assoc |].
  rewrite <- drop_drop, E, Et, <- app_assoc. rewrite drop_app_length' by done.
  by rewrite <- app_assoc, take_app_length.
Qed.

(** Building the entry for slot [slot] and copying it to the push buffer. *)
Lemma llq_write pkt h hdr_len id ph n slot bar2 :
  tx_pkt_fits pkt -> 0 <= id < 2 ^ 16 -> ph = 0 \/ ph = 1 -> llq_size_ok n ->
  0 <= hdr_len <= n - 32 -> hdr_len <= Z.of_nat (length h) ->
  0 <= slot -> (slot + 1) * n <= Z.of_nat (length bar2) ->
  exists entry bar2', llq_entry (llq_desc_format pkt hdr_len id ph) (Some h) hdr_len n = Ret entry
    /\ write_at bar2 (slot * n) entry = Ret bar2' /\ length bar2' = length bar2
    /\ llq_written pkt (take (Z.to_nat hdr_len) h) id ph n (Z.to_nat (slot * n)) bar2 bar2'.
Proof.
  intros Hfits Hid Hph Hsize Hhl Hh Hs Hroom.
  assert (128 <= n <= 256) as Hn by (destruct Hsize as [-> | [-> | ->]]; lia).
  rewrite llq_entry_spec; [| done | lia | intros ? [= <-]; done].
  change (default [] (Some h)) with h. set (hd := take (Z.to_nat hdr_len) h).
  assert (length hd = Z.to_nat hdr_len) as Hlh by (unfold hd; rewrite length_take; lia).
  set (d := llq_desc_format pkt hdr_len id ph).
  assert (length (llq_image d hd n) = Z.to_nat n) as Hli by (apply length_llq_image; [done | lia]).
  assert (0 <= slot * n) by (apply Z.mul_nonneg_nonneg; lia).
  destruct (image_read d hd n (Z.to_nat (slot * n)) bar2) as ((rest & Hdesc) & Hhdr); [done | lia | lia |].
  do 2 eexists. split; [done |]. split; [apply write_at_ret; lia |]. rewrite length_inserts.
  split; [done |]. split; [| done |].
  - rewrite Hdesc. unfold d. rewrite llq_desc_words, Hlh, Z2Nat.id by lia.
    apply llq_desc_decoded; [done | lia | lia | done].
  - intros i [Hi | Hi]; [apply list_lookup_inserts_lt; lia | apply list_lookup_inserts_ge; lia].
Qed.

(** The guards pass on a ready ring. *)
Lemma llq_push_guards cpu r pkt h hdr_len bar2 :
  wf_tx r -> ring_lock r = 0 -> llq_ready r bar2 -> hdr_len <= llq_eff_entry_size r - 32 ->
  ena_llq_tx_push cpu r pkt h hdr_len bar2 = llq_push_locked (set_ring_lock 1 r) pkt h hdr_len bar2.
Proof.
  intros Hwf Hk [Hon Hbuf Hsize Hpsz Hroom] Hhl. unfold ena_llq_tx_push.
  rewrite (wt_type _ Hwf), Hon, Hbuf, Hpsz. simpl.
  rewrite u32_id by (destruct Hsize as [-> | [-> | ->]]; lia).
  destruct (Z.ltb_spec (llq_eff_entry_size r - 2 * 16) hdr_len); [lia |].
  destruct (Z.ltb_spec (Z.of_nat (length bar2)) (sq_depth (r_sq r) * llq_eff_entry_size r)); [lia |].
  rewrite andb_false_r. unfold ena_ring_lock. by rewrite Hk.
Qed.

Lemma sq_phase_bit r : wf_tx r -> sq_phase (r_sq r) = 0 \/ sq_phase (r_sq r) = 1.
Proof.
  intros Hwf. pose proof (wr_sqi _ (wt_ring _ Hwf)) as [_ ->].
  pose proof (phase_of_range (sq_depth (r_sq r)) (sq_tail (r_sq r))). lia.
Qed.

(** The main branch: an id is free. *)
Lemma ena_llq_tx_push_main cpu r pkt h hdr_len bar2 :
  wf_tx r -> ring_lock r = 0 -> llq_ready r bar2 -> tx_pkt_fits pkt ->
  0 <= hdr_len <= llq_eff_entry_size r - 32 -> hdr_len <= Z.of_nat (length h) ->
  0 < ff_count (free_req (r_pool r)) ->
  wp (ena_llq_tx_push cpu r pkt (Some h) hdr_len bar2) (fun '(err, id, r', bar2', es) =>
    err = 0 /\ llq_pushed pkt (take (Z.to_nat hdr_len) h) r bar2 id r' bar2' es).
Proof.
  intros Hwf Hk Hr Hfits Hhl Hh Hc. pose proof (wr_pool _ (wt_ring _ Hwf)) as Hp.
  pose proof (wr_depth _ (wt_ring _ Hwf)) as Hd. pose proof (pow2_depth_bounds _ Hd) as Hdb.
  pose proof (slot_range (sq_tail (r_sq r)) _ Hd) as Hslot. pose proof (lr_room _ _ Hr).
  rewrite llq_push_guards by (done || lia). unfold llq_push_locked. simpl. pose proof (lr_entry _ _ Hr) as Hsize.
  change (llq_eff_entry_size (set_ring_lock 1 r)) with (llq_eff_entry_size r).
  set (n := llq_eff_entry_size r) in *. set (slot := Z.land _ _) in *.
  assert (128 <= n <= 256) as Hn by (destruct Hsize as [-> | [-> | ->]]; lia).
  assert ((slot + 1) * n <= sq_depth (r_sq r) * n) by (apply Z.mul_le_mono_nonneg_r; lia).
  destruct (Z.eqb_spec (ff_count (free_req (r_pool r))) 0); [lia |].
  rewrite (lr_size _ _ Hr). destruct (Z.ltb_spec (Z.of_nat (length bar2)) ((slot + 1) * n)); [lia |].
  rewrite andb_false_r. apply wp_bind. eapply wp_mono.
  { exact (ena_ring_req_id_alloc_spec (set_ring_lock 1 r) _ _ _ eq_refl eq_refl eq_refl Hp Hc). }
  intros [[err id] r1] (-> & Hid & p' & -> & Hp' & Hfree & Hfl & Hal & Halloc & b0 & Hb0 & Hnb0).
  simpl in *. pose proof (wf_pool_set_flight _ _ _ id 1 Hp') as Hp1.
  pose proof (wp_fl_len _ _ _ Hp'). pose proof (wp_cells_len _ _ _ Hp').
  set (b := mkBuf _ _ _ _ _) in *.
  pose proof (wf_pool_set_cell _ _ _ id b Hp1 Hid Halloc) as Hp2.
  assert (flights p' = flights (r_pool r)) as Hfl' by (unfold flights; by rewrite Hfl).
  unfold aset_opt. rewrite (wp_fl _ _ _ Hp'). simpl. apply wp_bind, wp_aset; [lia |].
  apply wp_bind, (wp_aset_eq _ _ _ _ _ (wp_cells _ _ _ Hp')); [simpl in *; lia |]. simpl.
  pose proof (sq_phase_bit _ Hwf) as Hph.
  destruct (llq_write pkt h hdr_len id (sq_phase (r_sq r)) n slot bar2)
    as (entry & bar2' & -> & Hw & Hlen & Hwr); [done | lia | done | done | lia | lia | lia | lia |].
  cbn [mbind res_bind]. rewrite Hw. cbn [mbind res_bind]. apply wp_ret. split; [done |].
  assert (~ allocated (r_pool r) id) as Hna.
  { intros (y & Hy & ?). assert (id ∈ free_ids (sq_depth (r_sq r)) (r_pool r)) as Hin
      by (rewrite Hfree; set_solver). apply (wp_free _ _ _ Hp) in Hin as [_ Hz]. congruence. }
  split; try done.
  - apply (wf_tx_take r _ id Hwf); try done; [| simpl; by rewrite Hfl' | by exists b].
    apply (wf_ring_change r); try done; [apply Hwf.. | | apply Hwf | apply Hwf].
    exact (ring_advance_ok _ _ _ (wr_depth _ (wt_ring _ Hwf)) (wr_sqi _ (wt_ring _ Hwf))).
  - exists (free_ids (sq_depth (r_sq r)) p'). done.
  - exact (omap_insert_opt buf_netbuf _ _ b0 b Hb0 Hnb0).
  - simpl. by rewrite Hfl'.
Qed.

(** C24: LLQ push.  On a well-formed TX ring in LLQ mode whose push buffer holds
    one entry per slot, a packet with a header that fits the entry is refused with
    -EBUSY (nothing changed) when no request id is free; otherwise the device can
    read, at the entry of the ring's tail, a descriptor that decodes to the packet
    with the request id and the header length, followed by the header; no other
    byte of the device memory changes, no access leaves the push buffer or the
    256-byte staging buffer, the ring invariant holds, the lock is free and the
    doorbell announces the new tail. *)
Theorem llq_push_correct cpu r pkt h hdr_len bar2 :
  wf_tx r -> ring_lock r = 0 -> llq_ready r bar2 -> tx_pkt_fits pkt ->
  0 <= hdr_len <= llq_eff_entry_size r - 32 -> hdr_len <= Z.of_nat (length h) ->
  wp (ena_llq_tx_push cpu r pkt (Some h) hdr_len bar2) (fun '(err, id, r', bar2', es) =>
    match pool_list r with
    | [] => err = - EBUSY /\ r' = r /\ bar2' = bar2 /\ es = []
    | _ => err = 0 /\ llq_pushed pkt (take (Z.to_nat hdr_len) h) r bar2 id r' bar2' es
    end).
Proof.
  intros Hwf Hk Hr Hfits Hhl Hh. pose proof (pool_list_count _ (wt_ring _ Hwf)) as Hpl.
  destruct (pool_list r) as [| x l].
  - rewrite llq_push_guards by (done || lia). unfold llq_push_locked. simpl.
    rewrite (proj1 Hpl eq_refl). simpl. split_and!; try done.
    destruct r; simpl in *. by subst.
  - apply ena_llq_tx_push_main; try done.
    pose proof (wff_count _ _ (wp_fifo _ _ _ (wr_pool _ (wt_ring _ Hwf)))).
    assert (ff_count (free_req (r_pool r)) <> 0) by (intros E; by apply Hpl in E). lia.
Qed.

Definition example_llq_ring : ena_ring :=
  set_r_llq (mkLlq true (Some 0x8000) 0 512 96 128) (example_ring ENA_RING_TYPE_TX 4).

Definition example_hdr : list Z := seqZ 1 54.

Lemma example_llq_wf : wf_tx example_llq_ring.
Proof. destruct example_tx_wf as [[? ? ? ? ? ? ? []] ? ? ?]. split; [split | ..]; done. Qed.

Lemma example_llq_ready : llq_ready example_llq_ring (replicate 512 0).
Proof. split; [done | done | by left | done | by vm_compute]. Qed.

Lemma llq_push_correct_witness :
  wp (ena_llq_tx_push 3 example_llq_ring example_tx_pkt (Some example_hdr) 54 (replicate 512 0))
    (fun '(err, id, r', bar2', es) => err = 0
      /\ llq_pushed example_tx_pkt example_hdr example_llq_ring (replicate 512 0) id r' bar2' es).
Proof.
  apply (llq_push_correct 3 example_llq_ring example_tx_pkt example_hdr 54 (replicate 512 0) example_llq_wf
    eq_refl example_llq_ready); [repeat split; vm_compute; congruence | vm_compute; split; congruence |
    vm_compute; congruence].
Defined.

(** A push does not record its core as the owner.  The poll that completes it, on
    the core that pushed, takes the packet for another core's: netbuf 7 is
    deferred to the owner "none", which no core is, and is never freed. *)
Lemma llq_owner_never_set :
  match ena_llq_tx_push 3 example_llq_ring example_tx_pkt (Some example_hdr) 54 (replicate 512 0) with
  | Ret (_, _, r, _, _) =>
      match ena_tx_poll_completions 6 3 (fun _ _ => example_cq) r None 0 with
      | Ret (n, _, r', _, es) =>
          (n, es, deferred (r_own r')) = (1, [], [mkForeign 0 ENA_CPU_ID_NONE])
          /\ match ena_tx_poll_completions 6 3 (fun _ _ => example_cq) r' None 0 with
             | Ret (n2, _, r2, _, es2) => (n2, es2, deferred (r_own r2)) = (0, [], [mkForeign 0 ENA_CPU_ID_NONE])
             | _ => False
             end
      | _ => False
      end
  | _ => False
  end.
Proof. vm_compute. done. Qed.
