(* ===== verification/Xmit.v ===== *)
(** * Transmission of a netbuf

    The transmit side of src/ena_netdev.c: the classification of a frame
    ([ena_netdev_classify_tx_pkt]), the choice between the host queue and the LLQ push
    ([ena_netdev_tx_xmit_one]) and [ena_netdev_tx_one], which reaps completions, copies a
    packet in low memory to a bounce slot and submits it.  These functions work on one
    ring and its queue; [Netdev] runs them inside the device. *)

From stdpp Require Import base tactics option list list_numbers numbers sets gmap.
From Stdlib Require Import ZArith Lia.
From S2P Require Import Prelude Fifo Mem Desc Netq Ring Tx Llq.

(** ** Frames *)
Definition ENA_ETH_IO_L3_PROTO_UNKNOWN : Z := 0.
Definition ENA_ETH_IO_L3_PROTO_IPV4 : Z := 8.
Definition ENA_ETH_IO_L3_PROTO_IPV6 : Z := 11.
Definition ENA_ETH_IO_L4_PROTO_UNKNOWN : Z := 0.
Definition ENA_ETH_IO_L4_PROTO_TCP : Z := 12.
Definition ENA_ETH_IO_L4_PROTO_UDP : Z := 13.
Definition ENA_TX_BOUNCE_SIZE : Z := 4096.
Definition ENA_TX_BOUNCE_STALL_LIMIT : Z := 256.
Definition UK_NETDEV_STATUS_SUCCESS : Z := 0x1.

(** A netbuf to send: the memory its data pointer points to, its length, the physical
    address of the data and the two flags the driver looks at. *)
Record tx_netbuf := mkTxNetbuf {
  tn_id : Z;
  tn_data : option (list Z);
  tn_len : Z;
  tn_phys : Z;
  tn_partial_csum : bool;     (* UK_NETBUF_F_PARTIAL_CSUM *)
  tn_gso_tcpv4 : bool         (* UK_NETBUF_F_GSO_TCPV4 *)
}.

Definition be16 (hi lo : Z) : Z := u16 (Z.lor (Z.shiftl hi 8) lo).

(** The transport protocol from the protocol byte at [off], when the packet reaches up to
    [need]. *)
Definition l4_at (data : list Z) (len need off : Z) : res Z :=
  if need <=? len then
    proto ← aget (Some data) off;
    mret (if proto =? 6 then ENA_ETH_IO_L4_PROTO_TCP
          else if proto =? 17 then ENA_ETH_IO_L4_PROTO_UDP else ENA_ETH_IO_L4_PROTO_UNKNOWN)
  else mret ENA_ETH_IO_L4_PROTO_UNKNOWN.

(** Network and transport protocol of a frame of at least 14 bytes. *)
Definition classify_protos (data : list Z) (len : Z) : res (Z * Z) :=
  hi ← aget (Some data) 12;
  lo ← aget (Some data) 13;
  '(ethertype, l3_off) ←
    (if (be16 hi lo =? 0x8100) && (18 <=? len) then
       hi ← aget (Some data) 16;
       lo ← aget (Some data) 17;
       mret (be16 hi lo, 18)
     else mret (be16 hi lo, 14));
  if ethertype =? 0x0800 then
    l4 ← l4_at data len (l3_off + 20) (l3_off + 9);
    mret (ENA_ETH_IO_L3_PROTO_IPV4, l4)
  else if ethertype =? 0x86DD then
    l4 ← l4_at data len (l3_off + 40) (l3_off + 6);
    mret (ENA_ETH_IO_L3_PROTO_IPV6, l4)
  else mret (ENA_ETH_IO_L3_PROTO_UNKNOWN, ENA_ETH_IO_L4_PROTO_UNKNOWN).

Definition ena_netdev_classify_tx_pkt (pkt : tx_netbuf) (t : ena_tx_pkt) : res ena_tx_pkt :=
  let none := mkTxPkt (txp_netbuf t) (txp_phys_addr t) (txp_len t) ENA_ETH_IO_L3_PROTO_UNKNOWN
                ENA_ETH_IO_L4_PROTO_UNKNOWN false false (txp_df t) (txp_tso_en t) in
  match tn_data pkt with
  | None => mret none
  | Some data =>
      if tn_len pkt <? 14 then mret none
      else
        '(l3, l4) ← classify_protos data (tn_len pkt);
        mret (mkTxPkt (txp_netbuf t) (txp_phys_addr t) (txp_len t) l3 l4
                (tn_partial_csum pkt && (l3 =? ENA_ETH_IO_L3_PROTO_IPV4))
                (tn_partial_csum pkt && ((l4 =? ENA_ETH_IO_L4_PROTO_TCP) || (l4 =? ENA_ETH_IO_L4_PROTO_UDP)))
                (txp_df t) (tn_gso_tcpv4 pkt || txp_tso_en t))
  end.

(** ** Submission *)

(** Result: return value, request id, ring, push buffer, events. *)
Definition ena_netdev_tx_xmit_one (cpu : Z) (r : ena_ring) (t : ena_tx_pkt) (hdr_data : option (list Z))
    (bar2 : list Z) : res (Z * Z * ena_ring * list Z * list event) :=
  if is_llq (r_llq r) then
    let max_hdr := if z2b (llq_header_len (r_llq r)) then llq_header_len (r_llq r) else 96 in
    let hdr_len := u16 (if txp_len t <? max_hdr then txp_len t else max_hdr) in
    ena_llq_tx_push cpu r t hdr_data hdr_len bar2
  else
    '(ret, id, r) ← ena_tx_submit cpu r t;
    mret (ret, id, r, bar2, if ret =? 0 then ena_tx_doorbell r else []).

Definition tx_drop (r : ena_ring) : ena_ring :=
  set_r_stats (set_tx_dropped (u64 (tx_dropped (r_stats r) + 1)) (r_stats r)) r.

(** The wait counter; at the limit the driver only logs. *)
Definition tx_wait (q : uk_netdev_tx_queue) : uk_netdev_tx_queue :=
  let b := txq_bounce q in
  if (ff_count (bounce_free b) =? 0) && (0 <? nb_desc b) then
    if ENA_TX_BOUNCE_STALL_LIMIT <=? bounce_wait_polls q then q
    else mkTxq b (bounce_in_use q) (u32 (bounce_wait_polls q + 1))
  else q.

(** A queue with free slots [f]. *)
Definition txq_with (b : bounce_pool) (polls : Z) : uk_netdev_tx_queue :=
  mkTxq b (ff_count (bounce_free b) <? nb_desc b) polls.

(** The state a transmission works on: ring, queue with the last bounced request
    ([bounce_req_id]), the bounce memory and the push buffer. *)
Record tx_state := mkTxState {
  xs_ring : ena_ring;
  xs_queue : uk_netdev_tx_queue;
  xs_req_id : Z;
  xs_bounce : list Z;
  xs_bar2 : list Z
}.

Definition tx_request (pkt : tx_netbuf) (phys : Z) : res ena_tx_pkt :=
  ena_netdev_classify_tx_pkt pkt (mkTxPkt (Some (tn_id pkt)) phys (u32 (tn_len pkt)) 0 0 false false false false).

(** Submission with the bounce slot [slot] already taken from the pool of [q]. *)
Definition tx_bounced (cpu : Z) (s : tx_state) (slot : Z) (pkt : tx_netbuf) : res (Z * tx_state * list event) :=
  let q := xs_queue s in
  let b := txq_bounce q in
  bytes ← match tn_data pkt with Some d => read_at d (tn_len pkt) | None => Fault end;
  mem ← write_at (xs_bounce s) (slot * ENA_TX_BOUNCE_SIZE) bytes;
  t ← tx_request pkt (u64 (bounce_phys b + slot * ENA_TX_BOUNCE_SIZE));
  '(ret, id, r, bar2, es) ← ena_netdev_tx_xmit_one cpu (xs_ring s) t
     (Some (drop (Z.to_nat (slot * ENA_TX_BOUNCE_SIZE)) mem)) (xs_bar2 s);
  if ret =? 0 then
    m ← aset (bounce_map b) id (i16 slot);
    mret (UK_NETDEV_STATUS_SUCCESS, mkTxState r (txq_with (set_bounce_map m b) 0) id mem bar2, es)
  else
    f ← fifo_push (nb_desc b) (bounce_free b) slot;
    mret (ret, mkTxState (tx_drop r) (txq_with (set_bounce_free f b) (bounce_wait_polls q)) (xs_req_id s) mem bar2, es).

Definition tx_direct (cpu : Z) (s : tx_state) (pkt : tx_netbuf) : res (Z * tx_state * list event) :=
  t ← tx_request pkt (tn_phys pkt);
  '(ret, id, r, bar2, es) ← ena_netdev_tx_xmit_one cpu (xs_ring s) t (tn_data pkt) (xs_bar2 s);
  if ret =? 0 then mret (UK_NETDEV_STATUS_SUCCESS, mkTxState r (xs_queue s) (xs_req_id s) (xs_bounce s) bar2, es)
  else mret (ret, mkTxState (tx_drop r) (xs_queue s) (xs_req_id s) (xs_bounce s) bar2, es).

(** After the completions are reaped. *)
Definition tx_send (cpu : Z) (s : tx_state) (pkt : tx_netbuf) : res (Z * tx_state * list event) :=
  let q := tx_wait (xs_queue s) in
  let s := mkTxState (xs_ring s) q (xs_req_id s) (xs_bounce s) (xs_bar2 s) in
  let fail err := mret (err, mkTxState (tx_drop (xs_ring s)) q (xs_req_id s) (xs_bounce s) (xs_bar2 s), []) in
  if tn_phys pkt <? ENA_DMA_LOW_MEM_LIMIT then
    let b := txq_bounce q in
    if ff_count (bounce_free b) =? 0 then fail (- EBUSY)
    else if ENA_TX_BOUNCE_SIZE <? tn_len pkt then fail (- EINVAL)
    else
      '(slot, f) ← fifo_pop (nb_desc b) (bounce_free b);
      tx_bounced cpu (mkTxState (xs_ring s) (txq_with (set_bounce_free f b) (bounce_wait_polls q)) (xs_req_id s)
                        (xs_bounce s) (xs_bar2 s)) slot pkt
  else tx_direct cpu s pkt.

Definition ena_netdev_tx_one (fuel : nat) (cpu : Z) (view : tx_view) (s : tx_state) (pkt : tx_netbuf)
    : res (Z * tx_state * list event) :=
  '(_, _, r, txq, es) ← ena_tx_poll_completions fuel cpu view (xs_ring s) (Some (xs_queue s)) 32;
  '(ret, s, es') ← tx_send cpu (mkTxState r (default (xs_queue s) txq) (xs_req_id s) (xs_bounce s) (xs_bar2 s)) pkt;
  mret (ret, s, es ++ es').

(** ** Classification *)

(** A frame by its parts. *)
Record eth_frame := mkFrame {
  ef_macs : list Z;                 (* destination and source *)
  ef_vlan : option (Z * Z);         (* tag control information *)
  ef_type : Z * Z;
  ef_payload : list Z
}.
Definition frame_bytes (f : eth_frame) : list Z :=
  ef_macs f ++ match ef_vlan f with Some (a, b) => [0x81; 0x00; a; b] | None => [] end
  ++ [(ef_type f).1; (ef_type f).2] ++ ef_payload f.

Definition frame_l3 (f : eth_frame) : Z :=
  if decide (ef_type f = (0x08, 0x00)) then ENA_ETH_IO_L3_PROTO_IPV4
  else if decide (ef_type f = (0x86, 0xDD)) then ENA_ETH_IO_L3_PROTO_IPV6 else ENA_ETH_IO_L3_PROTO_UNKNOWN.
(** The protocol byte of a complete IP header. *)
Definition frame_proto (f : eth_frame) : option Z :=
  if decide (ef_type f = (0x08, 0x00)) then if decide (20 <= length (ef_payload f))%nat then ef_payload f !! 9%nat else None
  else if decide (ef_type f = (0x86, 0xDD)) then if decide (40 <= length (ef_payload f))%nat then ef_payload f !! 6%nat else None
  else None.
Definition frame_l4 (f : eth_frame) : Z :=
  if decide (frame_proto f = Some 6) then ENA_ETH_IO_L4_PROTO_TCP
  else if decide (frame_proto f = Some 17) then ENA_ETH_IO_L4_PROTO_UDP else ENA_ETH_IO_L4_PROTO_UNKNOWN.

Record wf_frame (f : eth_frame) : Prop := {
  wfr_macs : length (ef_macs f) = 12%nat;
  wfr_type : 0 <= (ef_type f).1 < 256 /\ 0 <= (ef_type f).2 < 256;
  wfr_plain : ef_vlan f = None -> ef_type f <> (0x81, 0x00)
}.

Lemma be16_val hi lo : 0 <= hi < 256 -> 0 <= lo < 256 -> be16 hi lo = hi * 256 + lo.
Proof.
  intros Hh Hl. unfold be16. assert (Z.land (Z.shiftl hi 8) lo = 0) as E.
  { apply Z.bits_inj'. intros n Hn. rewrite Z.land_spec, Z.bits_0. destruct (Z.ltb_spec n 8).
    - rewrite Z.shiftl_spec_low by lia. done.
    - rewrite (testbit_above lo 8) by lia. apply andb_false_r. }
  rewrite <- Z.lxor_lor, <- Z.add_nocarry_lxor, Z.shiftl_mul_pow2 by (done || lia). change (2 ^ 8) with 256. rewrite u16_id; lia.
Qed.

Lemma be16_eqb hi lo a b : 0 <= hi < 256 -> 0 <= lo < 256 -> 0 <= a < 256 -> 0 <= b < 256 ->
  (be16 hi lo =? a * 256 + b) = bool_decide ((hi, lo) = (a, b)).
Proof.
  intros. rewrite be16_val by done. destruct (Z.eqb_spec (hi * 256 + lo) (a * 256 + b)); symmetry.
  - apply bool_decide_eq_true. f_equal; lia.
  - apply bool_decide_eq_false. intros [= -> ->]. done.
Qed.

Lemma aget_app_at (l1 : list Z) l2 i x : Z.of_nat (length l1) <= i -> l2 !! (Z.to_nat i - length l1)%nat = Some x ->
  aget (Some (l1 ++ l2)) i = Ret x.
Proof. intros. apply aget_ret; [lia |]. by rewrite lookup_app_r by lia. Qed.

(** The protocol byte of the payload behind a header of [off] bytes. *)
Lemma l4_at_payload (pre payload rest : list Z) len off need at_ :
  Z.of_nat (length pre) = off -> len = off + Z.of_nat (length payload) -> 0 <= at_ < need ->
  l4_at (pre ++ payload ++ rest) len (off + need) (off + at_)
  = Ret (let p := if decide (Z.to_nat need <= length payload)%nat then payload !! Z.to_nat at_ else None in
         if decide (p = Some 6) then ENA_ETH_IO_L4_PROTO_TCP
         else if decide (p = Some 17) then ENA_ETH_IO_L4_PROTO_UDP else ENA_ETH_IO_L4_PROTO_UNKNOWN).
Proof.
  intros Hp -> Ha. cbv zeta.
  set (p := if decide (Z.to_nat need <= length payload)%nat then _ else None). unfold l4_at.
  destruct (Z.leb_spec (off + need) (off + Z.of_nat (length payload))).
  - assert (p = payload !! Z.to_nat at_) as Ep by (unfold p; by rewrite decide_True by lia). clearbody p.
    destruct (lookup_lt_is_Some_2 payload (Z.to_nat at_)) as [x Hx]; [lia |]. rewrite Hx in Ep. subst p.
    erewrite aget_app_at; [| lia |].
    2: { replace (Z.to_nat (off + at_) - length pre)%nat with (Z.to_nat at_) by lia.
         rewrite lookup_app_l by lia. exact Hx. }
    cbn [mbind res_bind]. destruct (Z.eqb_spec x 6) as [-> |]; [by rewrite decide_True |].
    rewrite (decide_False (P := Some x = Some 6)) by congruence. destruct (Z.eqb_spec x 17) as [-> |]; [by rewrite decide_True |].
    by rewrite decide_False by congruence.
  - assert (p = None) as -> by (unfold p; by rewrite decide_False by lia). done.
Qed.

Lemma frame_types f : wf_frame f ->
  forall a b, 0 <= a < 256 -> 0 <= b < 256 ->
    (be16 (ef_type f).1 (ef_type f).2 =? a * 256 + b) = bool_decide (ef_type f = (a, b)).
Proof. intros [_ [? ?] _] a b ? ?. destruct (ef_type f). by apply be16_eqb. Qed.

(** The part after the type field. *)
Lemma classify_type f (pre rest : list Z) off len : wf_frame f ->
  Z.of_nat (length pre) = off -> len = off + Z.of_nat (length (ef_payload f)) ->
  (if be16 (ef_type f).1 (ef_type f).2 =? 0x0800 then
     l4 ← l4_at (pre ++ ef_payload f ++ rest) len (off + 20) (off + 9); mret (ENA_ETH_IO_L3_PROTO_IPV4, l4)
   else if be16 (ef_type f).1 (ef_type f).2 =? 0x86DD then
     l4 ← l4_at (pre ++ ef_payload f ++ rest) len (off + 40) (off + 6); mret (ENA_ETH_IO_L3_PROTO_IPV6, l4)
   else mret (ENA_ETH_IO_L3_PROTO_UNKNOWN, ENA_ETH_IO_L4_PROTO_UNKNOWN)) = Ret (frame_l3 f, frame_l4 f).
Proof.
  intros Hf Hp Hl. change 0x0800 with (0x08 * 256 + 0x00). change 0x86DD with (0x86 * 256 + 0xDD).
  rewrite !(frame_types f Hf) by lia. unfold frame_l3, frame_l4, frame_proto.
  destruct (decide (ef_type f = (0x08, 0x00))) as [E | E].
  - rewrite bool_decide_eq_true_2 by done. by rewrite (l4_at_payload pre (ef_payload f) rest len off 20 9) by lia.
  - rewrite bool_decide_eq_false_2 by done. destruct (decide (ef_type f = (0x86, 0xDD))) as [E' | E'].
    + rewrite bool_decide_eq_true_2 by done. by rewrite (l4_at_payload pre (ef_payload f) rest len off 40 6) by lia.
    + by rewrite bool_decide_eq_false_2.
Qed.

Lemma classify_protos_frame f rest : wf_frame f ->
  classify_protos (frame_bytes f ++ rest) (Z.of_nat (length (frame_bytes f))) = Ret (frame_l3 f, frame_l4 f).
Proof.
  intros Hf. pose proof Hf as [Hm [Ht1 Ht2] Hv]. unfold classify_protos, frame_bytes.
  destruct (ef_type f) as [hi lo] eqn:Et. cbn [fst snd] in *. destruct (ef_vlan f) as [[a b] |].
  - rewrite <- !app_assoc. rewrite (aget_app_at _ _ 12 0x81), (aget_app_at _ _ 13 0x00) by (rewrite ?Hm; (lia || done)).
    cbn [mbind res_bind]. change (be16 0x81 0x00 =? 0x8100) with true. rewrite !length_app. cbn [length].
    rewrite (proj2 (Z.leb_le _ _)) by lia. cbn [andb].
    rewrite (aget_app_at _ _ 16 hi), (aget_app_at _ _ 17 lo) by (rewrite ?Hm; (lia || done)). cbn [mbind res_bind].
    pose proof (classify_type f (ef_macs f ++ [0x81; 0x00; a; b; hi; lo]) rest 18
      (Z.of_nat (length (ef_macs f) + (4 + (2 + length (ef_payload f))))) Hf) as Hc. rewrite Et, <- app_assoc in Hc. cbn [fst snd app] in Hc.
    apply Hc; rewrite ?length_app; cbn [length]; lia.
  - rewrite <- !app_assoc. cbn [app]. rewrite (aget_app_at _ _ 12 hi), (aget_app_at _ _ 13 lo) by (rewrite ?Hm; (lia || done)).
    cbn [mbind res_bind]. pose proof (frame_types f Hf 0x81 0x00 ltac:(lia) ltac:(lia)) as Hty. rewrite Et in Hty. cbn [fst snd] in Hty.
    change 0x8100 with (0x81 * 256 + 0x00). rewrite Hty, bool_decide_eq_false_2 by (by apply Hv). cbn [andb mbind res_bind].
    rewrite !length_app. cbn [length].
    pose proof (classify_type f (ef_macs f ++ [hi; lo]) rest 14
      (Z.of_nat (length (ef_macs f) + S (S (length (ef_payload f))))) Hf) as Hc. rewrite Et, <- app_assoc in Hc. cbn [fst snd app] in Hc.
    apply Hc; rewrite ?length_app; cbn [length]; lia.
Qed.

Lemma l4_at_safe data len need at_ : len <= Z.of_nat (length data) -> 0 <= at_ < need ->
  wp (l4_at data len need at_) (fun l4 => l4 = ENA_ETH_IO_L4_PROTO_UNKNOWN \/ l4 = ENA_ETH_IO_L4_PROTO_TCP \/ l4 = ENA_ETH_IO_L4_PROTO_UDP).
Proof.
  intros Hl Ha. unfold l4_at. destruct (Z.leb_spec need len); [| apply wp_ret; auto].
  apply wp_bind, wp_aget; [lia |]. intros x _. apply wp_ret. repeat case_match; auto.
Qed.

Lemma classify_protos_safe data len : 14 <= len <= Z.of_nat (length data) ->
  wp (classify_protos data len) (fun '(l3, l4) => 0 <= l3 < 16 /\ 0 <= l4 < 32).
Proof.
  intros Hl. unfold classify_protos. apply wp_bind, wp_aget; [lia |]. intros hi _. apply wp_bind, wp_aget; [lia |]. intros lo _.
  apply wp_bind. apply (wp_mono _ (fun '(_, off) => off = 14 \/ off = 18)).
  { destruct (_ && _) eqn:E; [| apply wp_ret; auto]. apply andb_true_iff in E as [_ E%Z.leb_le].
    apply wp_bind, wp_aget; [lia |]. intros hi' _. apply wp_bind, wp_aget; [lia |]. intros lo' _. apply wp_ret. auto. }
  intros [ty off] Ho. destruct (ty =? 0x0800); [| destruct (ty =? 0x86DD); [| apply wp_ret; done]];
    (apply wp_bind; eapply wp_mono; [apply l4_at_safe; lia |]); intros l4 Hl4; apply wp_ret;
    unfold ENA_ETH_IO_L3_PROTO_IPV4, ENA_ETH_IO_L3_PROTO_IPV6, ENA_ETH_IO_L4_PROTO_UNKNOWN, ENA_ETH_IO_L4_PROTO_TCP, ENA_ETH_IO_L4_PROTO_UDP in *; lia.
Qed.

(** C38: Classification of a frame to send.  For a frame built from its parts (two MAC
    addresses, an optional VLAN tag, a type and a payload), in a buffer that may be
    longer, the request carries the network protocol of the type, and the transport
    protocol of the IP header when the header is complete; checksum offload is
    requested only with the flag of the netbuf, the network checksum only for IPv4 and
    the transport checksum only for TCP and UDP. *)
Theorem classify_frame_correct f rest id phys csum gso t :
  wf_frame f ->
  ena_netdev_classify_tx_pkt (mkTxNetbuf id (Some (frame_bytes f ++ rest)) (Z.of_nat (length (frame_bytes f))) phys csum gso) t
  = Ret (mkTxPkt (txp_netbuf t) (txp_phys_addr t) (txp_len t) (frame_l3 f) (frame_l4 f)
      (csum && bool_decide (ef_type f = (0x08, 0x00))) (csum && bool_decide (frame_proto f = Some 6 \/ frame_proto f = Some 17))
      (txp_df t) (gso || txp_tso_en t)).
Proof.
  intros Hf. unfold ena_netdev_classify_tx_pkt. cbn [tn_data tn_len tn_partial_csum tn_gso_tcpv4].
  assert (14 <= Z.of_nat (length (frame_bytes f))) as Hl.
  { unfold frame_bytes. rewrite !length_app, (wfr_macs _ Hf). simpl. lia. }
  rewrite (proj2 (Z.ltb_ge _ _)) by lia. rewrite classify_protos_frame by done. cbn [mbind res_bind].
  assert ((frame_l3 f =? ENA_ETH_IO_L3_PROTO_IPV4) = bool_decide (ef_type f = (0x08, 0x00))) as ->.
  { unfold frame_l3. repeat case_decide; rewrite ?bool_decide_eq_true_2, ?bool_decide_eq_false_2 by done; done. }
  assert ((frame_l4 f =? ENA_ETH_IO_L4_PROTO_TCP) || (frame_l4 f =? ENA_ETH_IO_L4_PROTO_UDP)
    = bool_decide (frame_proto f = Some 6 \/ frame_proto f = Some 17)) as ->; [| done].
  unfold frame_l4. generalize (frame_proto f) as p. intros p.
  destruct (decide (p = Some 6)); [rewrite bool_decide_eq_true_2 by auto; done |].
  destruct (decide (p = Some 17)); [rewrite bool_decide_eq_true_2 by auto | rewrite bool_decide_eq_false_2 by naive_solver]; done.
Qed.

(** A TCP segment over IPv4 in a VLAN, with the checksum flag. *)
Definition example_frame : eth_frame :=
  mkFrame (seqZ 1 12) (Some (0, 7)) (0x08, 0x00) (<[9%nat := 6]> (replicate 40 0)).
Lemma classify_frame_witness :
  ena_netdev_classify_tx_pkt (mkTxNetbuf 7 (Some (frame_bytes example_frame ++ [1; 2])) 58 0x200000 true false) example_tx_pkt
  = Ret (mkTxPkt (txp_netbuf example_tx_pkt) (txp_phys_addr example_tx_pkt) (txp_len example_tx_pkt)
      ENA_ETH_IO_L3_PROTO_IPV4 ENA_ETH_IO_L4_PROTO_TCP true true (txp_df example_tx_pkt) (txp_tso_en example_tx_pkt)).
Proof.
  apply (classify_frame_correct example_frame [1; 2] 7 0x200000 true false example_tx_pkt).
  split; [reflexivity | by vm_compute | done].
Defined.

(** ** The submission *)

(** What the device finds for the request [t] under [id]: a descriptor in the host queue,
    or an entry with the first [hl] bytes of [h] in the push buffer. *)
Definition xmit_entry (t : ena_tx_pkt) (h : list Z) (r : ena_ring) (bar2 : list Z) (id : Z) (r' : ena_ring)
    (bar2' : list Z) : Prop :=
  let slot := Z.land (sq_tail (r_sq r)) (sq_depth (r_sq r) - 1) in
  if is_llq (r_llq r) then
    exists hl, llq_written t (take hl h) id (sq_phase (r_sq r)) (llq_eff_entry_size r)
      (Z.to_nat (slot * llq_eff_entry_size r)) bar2 bar2'
  else sq_virt (r_sq r') = (fun l => <[Z.to_nat slot := SlotTx (tx_desc_format t id (sq_phase (r_sq r)))]> l) <$> sq_virt (r_sq r).

(** A request was submitted under [id]. *)
Record xmitted (t : ena_tx_pkt) (h : list Z) (r : ena_ring) (bar2 : list Z) (id : Z) (r' : ena_ring) (bar2' : list Z)
    : Prop := {
  xm_wf : wf_tx r';
  xm_lock : ring_lock r' = 0;
  xm_id : exists rest, pool_list r = id :: rest;
  xm_flight : flights (r_pool r') = <[Z.to_nat id := 1]> (flights (r_pool r));
  xm_held : held (raw_bufs r') ≡ₚ option_list (txp_netbuf t) ++ held (raw_bufs r);
  xm_entry : xmit_entry t h r bar2 id r' bar2';
  xm_kept : tx_kept r r'
}.

(** The longest header that is pushed inline. *)
Definition llq_max_hdr (r : ena_ring) : Z := if z2b (llq_header_len (r_llq r)) then llq_header_len (r_llq r) else 96.

(** In LLQ mode the push buffer is usable and the inline header fits an entry. *)
Definition push_fits (r : ena_ring) (bar2 : list Z) : Prop :=
  is_llq (r_llq r) = true -> llq_ready r bar2 /\ 0 <= llq_max_hdr r <= llq_eff_entry_size r - 32.

Lemma doorbell_frees r : freed (ena_tx_doorbell r) = [].
Proof. unfold ena_tx_doorbell. by repeat case_match. Qed.

Lemma llq_push_full cpu r t h hl bar2 :
  wf_tx r -> ring_lock r = 0 -> llq_ready r bar2 -> hl <= llq_eff_entry_size r - 32 -> pool_list r = [] ->
  exists e id, e < 0 /\ ena_llq_tx_push cpu r t h hl bar2 = Ret (e, id, r, bar2, []).
Proof.
  intros Hwf Hk Hr Hhl El. rewrite llq_push_guards by (done || lia). unfold llq_push_locked. simpl.
  rewrite (proj1 (pool_list_count _ (wt_ring _ Hwf)) El). simpl. do 2 eexists. split; [| repeat f_equal; destruct r; simpl in *; by subst]. done.
Qed.

Lemma pool_list_some r : wf_ring r -> pool_list r <> [] -> 0 < ff_count (free_req (r_pool r)).
Proof.
  intros Hwf Hn. pose proof (wff_count _ _ (wp_fifo _ _ _ (wr_pool _ Hwf))). pose proof (pool_list_count _ Hwf) as Hpl.
  assert (ff_count (free_req (r_pool r)) <> 0) by (intros E; by apply Hpl in E). lia.
Qed.

Lemma submit_full cpu r t :
  wf_tx r -> hw_valid r = true -> ring_lock r = 0 -> (txp_len t =? 0) || (0xFFFF <? txp_len t) = false ->
  pool_list r = [] -> exists e id, e < 0 /\ ena_tx_submit cpu r t = Ret (e, id, r).
Proof.
  intros Hwf Hv Hk Hlen El. unfold ena_tx_submit. rewrite (wt_type _ Hwf), Hv, Hlen. simpl. unfold ena_ring_lock.
  rewrite Hk. simpl. rewrite (proj1 (pool_list_count _ (wt_ring _ Hwf)) El). simpl. do 2 eexists.
  split; [| repeat f_equal; destruct r; simpl in *; by subst]. done.
Qed.

(** The submission fails only when no request id is free. *)
Lemma tx_xmit_one_spec cpu r t h bar2 :
  wf_tx r -> hw_valid r = true -> ring_lock r = 0 -> tx_pkt_fits t -> 0 < txp_len t -> push_fits r bar2 ->
  txp_len t <= Z.of_nat (length h) ->
  wp (ena_netdev_tx_xmit_one cpu r t (Some h) bar2) (fun '(ret, id, r', bar2', es) =>
    freed es = [] /\ length bar2' = length bar2 /\
    (ret < 0 /\ r' = r /\ pool_list r = [] \/ ret = 0 /\ xmitted t h r bar2 id r' bar2')).
Proof.
  intros Hwf Hv Hk Hfit Hpos Hl Hh. assert (0 <= txp_len t < 65536) as Hlen by apply Hfit.
  assert ((txp_len t =? 0) || (0xFFFF <? txp_len t) = false) as Hl2 by (apply orb_false_iff; split; lia).
  unfold ena_netdev_tx_xmit_one, xmit_entry. destruct (is_llq (r_llq r)) eqn:Ell.
  - destruct (Hl Ell) as [Hr Hm]. cbv zeta. fold (llq_max_hdr r).
    rewrite u16_id by (case_match; lia). set (hl := if _ <? _ then _ else _).
    assert (0 <= hl <= llq_eff_entry_size r - 32 /\ hl <= Z.of_nat (length h)) as [? ?] by (unfold hl; case_match; lia).
    destruct (decide (pool_list r = [])) as [El | El].
    + destruct (llq_push_full cpu r t (Some h) hl bar2) as (e & id & ? & ->); [done || lia.. |]. by split_and!; [| | left].
    + eapply wp_mono; [apply ena_llq_tx_push_main; try done; by apply pool_list_some, El; apply Hwf |].
      intros [[[[ret id] r'] bar2'] es] (-> & Hp). split_and!; [rewrite (lp_db _ _ _ _ _ _ _ _ Hp); apply doorbell_frees | by apply Hp |].
      right. split; [done |]. destruct Hp as [? ? (rest & ? & _)]. split; try done; [by exists rest |].
      unfold xmit_entry. rewrite Ell. by eexists.
  - destruct (decide (pool_list r = [])) as [El | El].
    + destruct (submit_full cpu r t) as (e & id & ? & ->); [done.. |]. simpl.
      rewrite (proj2 (Z.eqb_neq e 0)) by lia. by split_and!; [| | left].
    + apply wp_bind. eapply wp_mono; [apply ena_tx_submit_spec; try done; by apply pool_list_some, El; apply Hwf |].
      intros [[ret id] r'] (-> & Hs). apply wp_ret. split_and!; [apply doorbell_frees | done |]. right. split; [done |].
      destruct Hs as [? (rest & ? & _)]. split; try done; [by exists rest |]. unfold xmit_entry. by rewrite Ell.
Qed.

(** ** The transmission *)

(** The first [n] bytes of a bounce slot. *)
Definition slot_bytes (mem : list Z) (slot : Z) (n : nat) : list Z :=
  take n (drop (Z.to_nat (slot * ENA_TX_BOUNCE_SIZE)) mem).

(** A ring ready for submissions. *)
Record tx_ready (r : ena_ring) (bar2 : list Z) : Prop := {
  xr_wf : wf_tx r;
  xr_lock : ring_lock r = 0;
  xr_valid : hw_valid r = true;
  xr_cb : tx_complete_cb r = true;
  xr_llq : push_fits r bar2
}.

(** The bounce pool of the queue of [r], with the slots [pending] being filled, and its
    memory, which a descriptor can address. *)
Record txq_inv (pending : list Z) (r : ena_ring) (q : uk_netdev_tx_queue) (mem : list Z) : Prop := {
  xq_bounce : wf_bounce pending (txq_bounce q);
  xq_desc : nb_desc (txq_bounce q) = sq_depth (r_sq r);
  xq_mapped : txq_mapped r (Some q);
  xq_mem : Z.of_nat (length mem) = nb_desc (txq_bounce q) * ENA_TX_BOUNCE_SIZE;
  xq_phys : 0 <= bounce_phys (txq_bounce q) /\ bounce_phys (txq_bounce q) + nb_desc (txq_bounce q) * ENA_TX_BOUNCE_SIZE <= 2 ^ 48
}.

Record tx_inv (s : tx_state) : Prop := {
  xi_ready : tx_ready (xs_ring s) (xs_bar2 s);
  xi_queue : txq_inv [] (xs_ring s) (xs_queue s) (xs_bounce s)
}.

(** A packet in one piece. *)
Record pkt_ok (pkt : tx_netbuf) (data : list Z) : Prop := {
  po_data : tn_data pkt = Some data;
  po_len : 0 < tn_len pkt < 65536 /\ tn_len pkt <= Z.of_nat (length data);
  po_phys : 0 <= tn_phys pkt < 2 ^ 48
}.

Lemma slot_write mem slot bytes n :
  (length bytes <= 4096)%nat -> 0 <= slot < n -> Z.of_nat (length mem) = n * ENA_TX_BOUNCE_SIZE ->
  let mem' := list_inserts (Z.to_nat (slot * ENA_TX_BOUNCE_SIZE)) bytes mem in
  slot_bytes mem' slot (length bytes) = bytes
  /\ forall x, 0 <= x < n -> x <> slot -> slot_bytes mem' x 4096 = slot_bytes mem x 4096.
Proof.
  intros Hb Hs Hm. unfold ENA_TX_BOUNCE_SIZE in *. cbv zeta. unfold slot_bytes, ENA_TX_BOUNCE_SIZE. split.
  - rewrite list_inserts_split by lia. rewrite drop_app_length' by (rewrite length_take; lia). apply take_app_length.
  - intros x Hx Hne. apply list_eq. intros i. destruct (decide (i < 4096)%nat) as [Hi |]; [| by rewrite !lookup_take_ge by lia].
    rewrite !lookup_take_lt by lia. rewrite !lookup_drop. destruct (decide (x < slot)).
    + by rewrite list_lookup_inserts_lt by lia.
    + by rewrite list_lookup_inserts_ge by lia.
Qed.

Lemma tx_request_spec pkt data phys :
  pkt_ok pkt data -> 0 <= phys < 2 ^ 48 ->
  wp (tx_request pkt phys) (fun t => tx_pkt_fits t /\ txp_netbuf t = Some (tn_id pkt) /\ txp_len t = tn_len pkt /\ txp_phys_addr t = phys).
Proof.
  intros [Hd Hl Hp] Hph. unfold tx_request, ena_netdev_classify_tx_pkt. rewrite Hd, u32_id by lia. cbn [txp_netbuf txp_phys_addr txp_len].
  destruct (Z.ltb_spec (tn_len pkt) 14).
  - apply wp_ret. split_and!; try done. unfold tx_pkt_fits; simpl. change ENA_ETH_IO_L3_PROTO_UNKNOWN with 0. change ENA_ETH_IO_L4_PROTO_UNKNOWN with 0. lia.
  - apply wp_bind. eapply wp_mono; [apply classify_protos_safe; lia |]. intros [l3 l4] [H3 H4]. apply wp_ret.
    split_and!; try done. unfold tx_pkt_fits; simpl. lia.
Qed.

Lemma tx_kept_ready r r' bar2 bar2' :
  tx_ready r bar2 -> tx_kept r r' -> wf_tx r' -> ring_lock r' = 0 -> length bar2' = length bar2 -> tx_ready r' bar2'.
Proof.
  intros [Hwf Hk Hv Hcb Hl] (Ed & Ecb & Ell & _ & _ & _ & Ev) Hwf' Hk' El. split; [done | done | congruence | congruence |].
  intros Hon. rewrite Ell in Hon. destruct (Hl Hon) as [[? ? ? ? ?] ?]. unfold llq_max_hdr, llq_eff_entry_size in *.
  split; [| by rewrite Ell]. split; rewrite ?Ell, ?Ed, ?El; unfold llq_eff_entry_size; rewrite ?Ell; done.
Qed.

Lemma tx_drop_ready r bar2 bar2' : tx_ready r bar2 -> length bar2' = length bar2 -> tx_ready (tx_drop r) bar2'.
Proof.
  intros Hr Hl. eapply tx_kept_ready; [done | done | | by apply Hr | done].
  destruct Hr as [[[? ? ? ? ? ? ? []] ? ? ?] ? ? ? ?]. split; [split | ..]; done.
Qed.

Lemma txq_mapped_flight r r' q id : flights (r_pool r') = <[Z.to_nat id := 1]> (flights (r_pool r)) ->
  txq_mapped r (Some q) -> txq_mapped r' (Some q).
Proof.
  intros Ef Hm q' i s Hq Hi Hs. destruct (Hm q' i s Hq Hi Hs) as (x & Hx & Hne). unfold in_flight. rewrite Ef, Nat2Z.id in *.
  destruct (decide (i = Z.to_nat id)) as [-> | Hd].
  - exists 1. split; [| done]. apply list_lookup_insert_eq. by eapply lookup_lt_Some.
  - exists x. by rewrite list_lookup_insert_ne.
Qed.

(** Why a packet is refused: no bounce slot is free, it is longer than a slot, or no
    request id is free. *)
Definition tx_reason (s1 : tx_state) (pkt : tx_netbuf) : Prop :=
  (tn_phys pkt < ENA_DMA_LOW_MEM_LIMIT /\ (slots_free (txq_bounce (xs_queue s1)) = [] \/ ENA_TX_BOUNCE_SIZE < tn_len pkt))
  \/ pool_list (xs_ring s1) = [].

(** A refused packet changes neither the requests nor the slots in use, and is counted. *)
Record tx_refused (pkt : tx_netbuf) (s1 s' : tx_state) : Prop := {
  rf_bufs : raw_bufs (xs_ring s') = raw_bufs (xs_ring s1) /\ r_pool (xs_ring s') = r_pool (xs_ring s1);
  rf_slots : slots_free (txq_bounce (xs_queue s')) ≡ₚ slots_free (txq_bounce (xs_queue s1));
  rf_map : bounce_map (txq_bounce (xs_queue s')) = bounce_map (txq_bounce (xs_queue s1));
  rf_count : tx_dropped (r_stats (xs_ring s')) = u64 (tx_dropped (r_stats (xs_ring s1)) + 1);
  rf_reason : tx_reason s1 pkt
}.

(** A low packet went through the slot [slot], now mapped to [id]: the slot holds its
    bytes and no other slot changed. *)
Record sent_bounced (pkt : tx_netbuf) (data : list Z) (t : ena_tx_pkt) (id slot : Z) (s1 s' : tx_state) : Prop := {
  sb_addr : txp_phys_addr t = bounce_phys (txq_bounce (xs_queue s1)) + slot * ENA_TX_BOUNCE_SIZE;
  sb_slot : slots_free (txq_bounce (xs_queue s1)) = slot :: slots_free (txq_bounce (xs_queue s'));
  sb_map : exists m, bounce_map (txq_bounce (xs_queue s1)) = Some m
    /\ bounce_map (txq_bounce (xs_queue s')) = Some (<[Z.to_nat id := slot]> m);
  sb_bytes : slot_bytes (xs_bounce s') slot (Z.to_nat (tn_len pkt)) = take (Z.to_nat (tn_len pkt)) data;
  sb_others : forall x, 0 <= x < nb_desc (txq_bounce (xs_queue s1)) -> x <> slot ->
    slot_bytes (xs_bounce s') x 4096 = slot_bytes (xs_bounce s1) x 4096
}.

(** A packet that was sent is one request, at its own address or through a slot. *)
Record tx_sent (pkt : tx_netbuf) (data : list Z) (t : ena_tx_pkt) (h : list Z) (id : Z) (s1 s' : tx_state) : Prop := {
  st_xmit : xmitted t h (xs_ring s1) (xs_bar2 s1) id (xs_ring s') (xs_bar2 s');
  st_req : txp_netbuf t = Some (tn_id pkt) /\ txp_len t = tn_len pkt;
  st_hdr : take (Z.to_nat (tn_len pkt)) h = take (Z.to_nat (tn_len pkt)) data;
  st_source :
    if tn_phys pkt <? ENA_DMA_LOW_MEM_LIMIT then exists slot, sent_bounced pkt data t id slot s1 s'
    else txp_phys_addr t = tn_phys pkt /\ xs_bounce s' = xs_bounce s1
         /\ txq_bounce (xs_queue s') = txq_bounce (xs_queue s1)
}.

Definition tx_answer (pkt : tx_netbuf) (data : list Z) (s1 : tx_state) (ret : Z) (s' : tx_state) : Prop :=
  (ret = UK_NETDEV_STATUS_SUCCESS /\ exists t h id, tx_sent pkt data t h id s1 s') \/ (ret < 0 /\ tx_refused pkt s1 s').

Lemma tx_direct_spec cpu s pkt data :
  tx_inv s -> pkt_ok pkt data -> ENA_DMA_LOW_MEM_LIMIT <= tn_phys pkt ->
  wp (tx_direct cpu s pkt) (fun '(ret, s', es) => tx_inv s' /\ freed es = [] /\ tx_answer pkt data s ret s').
Proof.
  intros [Hr Hq] Hp Hph. pose proof Hp as [Hd Hl Hpp]. unfold tx_direct. apply wp_bind.
  eapply wp_mono; [by apply (tx_request_spec pkt data) |]. intros t (Hfit & Hnb & Hlen & Hpa). rewrite Hd. apply wp_bind.
  eapply wp_mono; [apply tx_xmit_one_spec; (apply Hr || done || lia) |].
  intros [[[[ret id] r'] bar2'] es] (Hes & Hb2 & [(Hret & -> & Hfull) | (-> & Hx)]).
  - rewrite (proj2 (Z.eqb_neq ret 0)) by lia. apply wp_ret. split_and!; [| done |].
    + split; [by eapply tx_drop_ready | by destruct Hq].
    + right. split; [done |]. split; try done. by right.
  - apply wp_ret. pose proof Hx as [Hwf' Hk' _ Hfl _ _ Hkept]. split_and!; [| done |].
    + split; [by eapply tx_kept_ready |]. destruct Hq as [Hb Hn Hm ? ?]. split; try done; [simpl; rewrite (proj1 Hkept); done |].
      by eapply txq_mapped_flight.
    + left. split; [done |]. exists t, data, id. split; try done. rewrite (proj2 (Z.ltb_ge _ _)) by lia. done.
Qed.

(** A free request id has no slot in the bounce map. *)
Lemma free_id_unmapped r q mem pending id rest :
  wf_tx r -> txq_inv pending r q mem -> pool_list r = id :: rest ->
  exists m x, bounce_map (txq_bounce q) = Some m /\ m !! Z.to_nat id = Some x /\ x < 0
    /\ 0 <= id < Z.of_nat (length m).
Proof.
  intros Hwf [[_ (m & Em & Hlm) _] Hn Hmp _ _] Hid. pose proof (wr_pool _ (wt_ring _ Hwf)) as Hpool.
  assert (id ∈ free_ids (sq_depth (r_sq r)) (r_pool r)) as Hin by (unfold pool_list in Hid; rewrite Hid; by left).
  assert (0 <= id < sq_depth (r_sq r)) as Hr by (by apply (wp_free _ _ _ Hpool) in Hin as [? _]).
  destruct (lookup_in_range m id) as [x Hx]; [lia |]. exists m, x. split_and!; try done; try lia.
  destruct (decide (x < 0)); [done |]. exfalso. apply (wf_pool_not_free _ _ _ id Hpool); [| done].
  apply (wt_flight _ Hwf); [lia |]. rewrite <- (Z2Nat.id id) by lia. eapply Hmp; [done | by rewrite Em | lia].
Qed.

Lemma txq_mapped_set r r' q id m slot polls :
  0 <= id < Z.of_nat (length m) -> Z.of_nat (length (flights (r_pool r))) = Z.of_nat (length m) ->
  flights (r_pool r') = <[Z.to_nat id := 1]> (flights (r_pool r)) -> bounce_map (txq_bounce q) = Some m ->
  txq_mapped r (Some q) ->
  txq_mapped r' (Some (txq_with (set_bounce_map (Some (<[Z.to_nat id := slot]> m)) (txq_bounce q)) polls)).
Proof.
  intros Hid Hfl Ef Em Hm q' i s [= <-] Hi Hs. simpl in Hi. destruct (decide (i = Z.to_nat id)) as [-> | Hd].
  - exists 1. split; [| done]. rewrite Ef, Nat2Z.id. apply list_lookup_insert_eq. lia.
  - rewrite list_lookup_insert_ne in Hi by done. eapply (txq_mapped_flight r r' q id); [done | done | done | by rewrite Em | done].
Qed.

(** The slot goes to the request, or back to the pool. *)
Lemma bounced_done s slot r' bar2' id mem t h :
  tx_ready (xs_ring s) (xs_bar2 s) -> txq_inv [slot] (xs_ring s) (xs_queue s) (xs_bounce s) ->
  0 <= slot < nb_desc (txq_bounce (xs_queue s)) -> xmitted t h (xs_ring s) (xs_bar2 s) id r' bar2' ->
  length bar2' = length (xs_bar2 s) -> length mem = length (xs_bounce s) ->
  exists m, bounce_map (txq_bounce (xs_queue s)) = Some m
    /\ aset (Some m) id (i16 slot) = Ret (Some (<[Z.to_nat id := slot]> m))
    /\ tx_inv (mkTxState r' (txq_with (set_bounce_map (Some (<[Z.to_nat id := slot]> m)) (txq_bounce (xs_queue s))) 0) id mem bar2').
Proof.
  intros Hr Hq Hs [Hwf' Hk' (rest & Hid) Hfl _ _ Hkept] Hb2 Hml. pose proof Hq as [Hb Hn Hm Hmem Haddr].
  pose proof (pow2_depth_bounds _ (wr_depth _ (wt_ring _ (xr_wf _ _ Hr)))).
  destruct (free_id_unmapped _ _ _ _ _ _ (xr_wf _ _ Hr) Hq Hid) as (m & x & Em & Hx & Hneg & Hrange). exists m.
  assert (Z.of_nat (length m) = nb_desc (txq_bounce (xs_queue s))) as Hlm by (destruct Hb as [_ (? & ? & ?) _]; congruence).
  split_and!; [done | rewrite i16_id by lia; by rewrite aset_ret by lia |]. split; [by eapply tx_kept_ready |].
  split; simpl; [| rewrite (proj1 Hkept); done | | congruence | done].
  - eapply wf_bounce_map_set; [done | done | done | done | lia].
  - eapply txq_mapped_set; [done | | done | done | done].
    pose proof (wp_fl_len _ _ _ (wr_pool _ (wt_ring _ (xr_wf _ _ Hr)))). lia.
Qed.

Lemma bounced_undone s slot bar2' mem polls :
  tx_ready (xs_ring s) (xs_bar2 s) -> txq_inv [slot] (xs_ring s) (xs_queue s) (xs_bounce s) ->
  length bar2' = length (xs_bar2 s) -> length mem = length (xs_bounce s) ->
  wp (fifo_push (nb_desc (txq_bounce (xs_queue s))) (bounce_free (txq_bounce (xs_queue s))) slot) (fun f =>
    tx_inv (mkTxState (tx_drop (xs_ring s)) (txq_with (set_bounce_free f (txq_bounce (xs_queue s))) polls) (xs_req_id s) mem bar2')
    /\ slots_free (set_bounce_free f (txq_bounce (xs_queue s))) = slots_free (txq_bounce (xs_queue s)) ++ [slot]).
Proof.
  intros Hr [Hb Hn Hm Hmem Haddr] Hb2 Hml. eapply wp_mono; [by apply wf_bounce_fifo_push |]. intros f (Hb' & E).
  split; [| done]. split; [by eapply tx_drop_ready |]. split; simpl; try done; [| congruence].
  intros q i x [= <-] Hi Hx. by eapply Hm.
Qed.

Lemma tx_bounced_spec cpu s slot pkt data :
  tx_ready (xs_ring s) (xs_bar2 s) -> txq_inv [slot] (xs_ring s) (xs_queue s) (xs_bounce s) -> pkt_ok pkt data ->
  tn_phys pkt < ENA_DMA_LOW_MEM_LIMIT -> tn_len pkt <= ENA_TX_BOUNCE_SIZE ->
  0 <= slot < nb_desc (txq_bounce (xs_queue s)) ->
  wp (tx_bounced cpu s slot pkt) (fun '(ret, s', es) => tx_inv s' /\ freed es = [] /\
    forall s1, xs_ring s1 = xs_ring s -> xs_bar2 s1 = xs_bar2 s -> xs_bounce s1 = xs_bounce s ->
      bounce_shape (txq_bounce (xs_queue s)) (txq_bounce (xs_queue s1)) ->
      bounce_map (txq_bounce (xs_queue s1)) = bounce_map (txq_bounce (xs_queue s)) ->
      slots_free (txq_bounce (xs_queue s1)) = slot :: slots_free (txq_bounce (xs_queue s)) ->
      tx_answer pkt data s1 ret s').
Proof.
  intros Hr Hq Hp Hph Hln Hs. pose proof Hp as [Hd Hl Hpp]. pose proof Hq as [Hb Hn Hm Hmem Haddr].
  pose proof (wr_depth _ (wt_ring _ (xr_wf _ _ Hr))) as Hdep. apply pow2_depth_bounds in Hdep.
  unfold tx_bounced. rewrite Hd, read_at_ret by lia. cbn [mbind res_bind].
  set (bytes := take (Z.to_nat (tn_len pkt)) data). unfold ENA_TX_BOUNCE_SIZE in *.
  assert (length bytes = Z.to_nat (tn_len pkt)) as Hbl by (unfold bytes; rewrite length_take; lia).
  rewrite write_at_ret by lia. cbn [mbind res_bind]. set (mem := list_inserts _ bytes _).
  destruct (slot_write (xs_bounce s) slot bytes (nb_desc (txq_bounce (xs_queue s)))) as [Hw Ho]; [lia | done | done |].
  cbv zeta in Hw, Ho. change (list_inserts _ bytes _) with mem in Hw, Ho. unfold ENA_TX_BOUNCE_SIZE in Hw, Ho.
  assert (length mem = length (xs_bounce s)) as Hml by (unfold mem; by rewrite length_inserts). clearbody mem.
  rewrite u64_id by lia. apply wp_bind. eapply wp_mono; [apply (tx_request_spec pkt data); [done | lia] |].
  intros t (Hfit & Hnb & Hlen & Hpa). apply wp_bind.
  eapply wp_mono; [apply tx_xmit_one_spec; try (apply Hr || done || lia); rewrite length_drop; lia |].
  intros [[[[ret id] r'] bar2'] es] (Hes & Hb2 & [(Hret & -> & Hfull) | (-> & Hx)]).
  - rewrite (proj2 (Z.eqb_neq ret 0)) by lia. apply wp_bind.
    eapply wp_mono; [by apply (bounced_undone s slot bar2' mem (bounce_wait_polls (xs_queue s))) |].
    intros f [Hinv Hf]. apply wp_ret. split_and!; [done | done |]. intros s1 E1 E2 E3 _ E5 E6.
    right. split; [done |]. split; simpl; rewrite ?E1; try done.
    + rewrite E6. simpl. change (slots_free _) with (slots_free (set_bounce_free f (txq_bounce (xs_queue s)))) at 1.
      rewrite Hf. by rewrite Permutation_app_comm.
    + right. by rewrite E1.
  - destruct (bounced_done _ _ _ _ _ mem _ _ Hr Hq Hs Hx Hb2 Hml) as (m & Em & Ha & Hinv). rewrite Em, Ha. cbn [Z.eqb mbind res_bind].
    apply wp_ret. split_and!; [done | done |]. intros s1 E1 E2 E3 (_ & E4 & E4') E5 E6.
    left. split; [done |]. eexists t, _, id. split; [rewrite E1, E2; exact Hx | done | |].
    + unfold slot_bytes, ENA_TX_BOUNCE_SIZE in Hw. rewrite Hbl in Hw. exact Hw.
    + rewrite (proj2 (Z.ltb_lt _ _)) by lia. exists slot. split; unfold ENA_TX_BOUNCE_SIZE in *; simpl.
      * by rewrite E4.
      * done.
      * exists m. by rewrite E5.
      * rewrite Hbl in Hw. exact Hw.
      * rewrite E4', E3. done.
Qed.

Lemma tx_wait_bounce q : txq_bounce (tx_wait q) = txq_bounce q.
Proof. unfold tx_wait. by repeat case_match. Qed.

Lemma tx_send_spec cpu s pkt data :
  tx_inv s -> pkt_ok pkt data ->
  wp (tx_send cpu s pkt) (fun '(ret, s', es) => tx_inv s' /\ freed es = [] /\ tx_answer pkt data s ret s').
Proof.
  intros [Hr [Hb Hn Hm Hmem Haddr]] Hp. unfold tx_send. set (q := tx_wait (xs_queue s)). cbv zeta.
  assert (txq_bounce q = txq_bounce (xs_queue s)) as Eq by apply tx_wait_bounce. clearbody q. cbn [xs_ring xs_req_id xs_bounce xs_bar2].
  assert (txq_inv [] (xs_ring s) q (xs_bounce s)) as Hq.
  { split; rewrite ?Eq; try done. intros q' i x [= <-] Hi. rewrite Eq in Hi. by eapply Hm. }
  assert (forall e, e < 0 -> tx_reason s pkt ->
    wp (mret (e, mkTxState (tx_drop (xs_ring s)) q (xs_req_id s) (xs_bounce s) (xs_bar2 s), []))
      (fun '(ret, s', es) => tx_inv s' /\ freed es = [] /\ tx_answer pkt data s ret s')) as Hfail.
  { intros e He Hre. apply wp_ret. split_and!; [| done |].
    - split; [by eapply tx_drop_ready |]. by destruct Hq.
    - right. split; [done |]. split; simpl; rewrite ?Eq; done. }
  destruct (Z.ltb_spec (tn_phys pkt) ENA_DMA_LOW_MEM_LIMIT) as [Hlow | Hhigh].
  - rewrite Eq. destruct (Z.eqb_spec (ff_count (bounce_free (txq_bounce (xs_queue s)))) 0) as [Hz | Hz].
    { apply Hfail; [done |]. left. split; [done |]. left. apply length_zero_iff_nil. unfold slots_free.
      pose proof (length_fifo_contents _ _ (wfb_free _ _ Hb)). lia. }
    destruct (Z.ltb_spec ENA_TX_BOUNCE_SIZE (tn_len pkt)).
    { apply Hfail; [done |]. left. split; [done |]. by right. }
    apply wp_bind. eapply wp_mono; [apply (wf_bounce_pop []); [done | pose proof (wff_count _ _ (wfb_free _ _ Hb)); lia] |].
    intros [slot f] (Hb' & Ef & Hs). eapply wp_mono; [apply (tx_bounced_spec cpu _ slot pkt data); try done |].
    + split; simpl; try done. intros q' i x [= <-] Hi. by eapply Hm.
    + intros [[ret s'] es] (Hi & Hes & Ha). split_and!; [done | done |]. by apply Ha.
  - eapply wp_mono; [apply (tx_direct_spec cpu _ pkt data); [by split | done | done] |].
    intros [[ret s'] es] (Hi & Hes & Ha). split_and!; [done | done |].
    destruct Ha as [(-> & t & h & id & [? ? ? Hso]) | (Hn' & [? ? ? ? Hre])].
    + left. split; [done |]. exists t, h, id. split; try done. rewrite (proj2 (Z.ltb_ge _ _)) in Hso |- * by lia. simpl in Hso. by rewrite <- Eq.
    + right. split; [done |]. simpl in *. rewrite Eq in *. split; try done. unfold tx_reason in *. simpl in *. by rewrite Eq in *.
Qed.

Lemma tx_polled_inv cpu s r' txq' es :
  tx_inv s -> tx_polled cpu (xs_ring s) r' (Some (xs_queue s)) txq' es ->
  exists q, txq' = Some q /\ tx_inv (mkTxState r' q (xs_req_id s) (xs_bounce s) (xs_bar2 s)).
Proof.
  intros [Hr [Hb Hn Hm Hmem Haddr]] Hp. destruct (txp_step _ _ _ _ _ _ Hp) as [Hsh Hmp].
  destruct txq' as [q |]; [| done]. exists q. split; [done |]. destruct Hsh as (_ & Ep & Ed). split; simpl.
  - eapply tx_kept_ready; [done | by eapply txp_frame | by eapply txp_wf | | done]. rewrite (txp_lock _ _ _ _ _ _ Hp). by apply Hr.
  - split; [by eapply txp_txq | | apply Hmp; [by apply Hr | done] | by rewrite Ed | by rewrite Ep, Ed].
    destruct (txp_frame _ _ _ _ _ _ Hp) as [Hd _]. rewrite Ed, Hd. done.
Qed.

(** C4: Transmission of a netbuf.  With any completions of the device, the ring, the
    bounce pool and its memory keep their invariant, and no netbuf is lost: those in the
    ring before the call, and the packet if it was accepted, are released exactly once or
    still in the ring.  An accepted packet is one request whose descriptor (or push entry)
    carries its length and its own address, or, for a packet in low memory, the address of
    a bounce slot that was free, holds its bytes and is recorded for the request; no other
    slot changes.  A refusal has a cause and only counts.  The call returns when the device
    is quiet. *)
Theorem tx_one_correct fuel cpu view s pkt data :
  tx_inv s -> pkt_ok pkt data -> tx_view_ok (cq_depth (r_cq (xs_ring s))) view ->
  wlp (ena_netdev_tx_one fuel cpu view s pkt) (fun '(ret, s', es) =>
    tx_inv s' /\ exists s1, tx_inv s1 /\ tx_answer pkt data s1 ret s'
      /\ held (raw_bufs (xs_ring s)) ≡ₚ freed es ++ held (raw_bufs (xs_ring s1))
      /\ (if ret <? 0 then [] else [tn_id pkt]) ++ held (raw_bufs (xs_ring s)) ≡ₚ freed es ++ held (raw_bufs (xs_ring s')))
  /\ (forall V, view = (fun _ _ => V) -> cq_depth (r_cq (xs_ring s)) < Z.of_nat fuel ->
       ena_netdev_tx_one fuel cpu view s pkt <> Hang).
Proof.
  intros Hinv Hp Hv. pose proof Hinv as [Hr [Hb Hn Hm Hmem Haddr]].
  assert (txq_ok (Some (xs_queue s))) as Hok by (by intros q [= <-]).
  assert (0 <= 32) as Hb32 by lia.
  pose proof (tx_poll_spec fuel cpu view _ _ 32 (xr_wf _ _ Hr) (xr_lock _ _ Hr) Hok Hv Hb32) as Hpoll.
  assert (forall V, view = (fun _ _ => V) -> cq_depth (r_cq (xs_ring s)) < Z.of_nat fuel ->
    ena_tx_poll_completions fuel cpu view (xs_ring s) (Some (xs_queue s)) 32 <> Hang) as Htot.
  { intros V -> Hf. apply tx_poll_total; (apply Hr || done). }
  unfold ena_netdev_tx_one. destruct (ena_tx_poll_completions _ _ _ _ _ _) as [[[[[ret cnt] r1] txq1] es] | |]; [| done |]; cycle 1.
  { split; [done |]. intros V E Hf. by destruct (Htot V E Hf). }
  clear Htot. destruct Hpoll as [Hpoll _]. destruct (tx_polled_inv _ _ _ _ _ Hinv Hpoll) as (q & -> & Hinv1). cbn [mbind res_bind default].
  pose proof (tx_send_spec cpu _ pkt data Hinv1 Hp) as Hsend. destruct (tx_send _ _ _) as [[[ret' s'] es'] | |]; [| done..].
  destruct Hsend as (Hinv' & Hes' & Ha). cbn [mbind res_bind mret res_ret wlp]. split; [| done]. split; [done |].
  eexists. split_and!; [exact Hinv1 | exact Ha | |]; rewrite freed_app, Hes', app_nil_r; simpl; [by apply Hpoll |].
  destruct Ha as [(-> & t & h & id & Ht) | (Hneg & Hrf)].
  - simpl. rewrite (xm_held _ _ _ _ _ _ _ (st_xmit _ _ _ _ _ _ _ Ht)), (proj1 (st_req _ _ _ _ _ _ _ Ht)). simpl.
    rewrite (txp_held _ _ _ _ _ _ Hpoll). apply Permutation_middle.
  - rewrite (proj2 (Z.ltb_lt _ _)) by lia. rewrite (proj1 (rf_bufs _ _ _ Hrf)). by apply Hpoll.
Qed.

(** A frame of 64 bytes below 1 MiB on a ring of four with a fresh pool. *)
Definition example_tx_state : tx_state :=
  mkTxState (set_ring_callbacks true true true false (example_ring ENA_RING_TYPE_TX 4)) (mkTxq (bounce_fresh 0x200000 4) false 0) 0
    (replicate (Z.to_nat 16384) 0) [].
Definition example_low_pkt : tx_netbuf := mkTxNetbuf 7 (Some (seqZ 1 64)) 64 0x9000 false false.

Lemma example_tx_inv : tx_inv example_tx_state.
Proof.
  split; simpl.
  - split; try done. destruct example_tx_wf as [[? ? ? ? ? ? ? []] ? ? ?]. split; [split | ..]; done.
  - split; try done; [apply wf_bounce_fresh, pow2_depth_4 |].
    intros q i s [= <-] Hi Hs. apply lookup_replicate in Hi as [-> _]. lia.
Qed.

Lemma tx_one_correct_witness :
  exists s' es, ena_netdev_tx_one 5 3 (fun _ _ => example_cq) example_tx_state example_low_pkt = Ret (UK_NETDEV_STATUS_SUCCESS, s', es)
    /\ tx_inv s' /\ held (raw_bufs (xs_ring s')) = [7] /\ slot_bytes (xs_bounce s') 0 64 = seqZ 1 64.
Proof.
  destruct (tx_one_correct 5 3 (fun _ _ => example_cq) example_tx_state example_low_pkt (seqZ 1 64) example_tx_inv) as [H _].
  - split; [done | vm_compute; split; [split |]; congruence | done].
  - apply example_view_ok.
  - destruct (ena_netdev_tx_one _ _ _ _ _) as [[[ret s'] es] | |] eqn:E; [| by vm_compute in E..]. destruct H as [H _].
    exists s', es. vm_compute in E. injection E as <- Es Ee. split; [done |]. split; [done |]. rewrite <- Es. by vm_compute.
Defined.
