(* ===== verification/Recv.v ===== *)
(** * Reception of a frame

    The receive side of src/ena_netdev.c on one ring and its queue: the refill around a
    poll ([ena_netdev_rx_refill_helper]), the copy out of a bounce slot, the chain of the
    fragments of a frame and [ena_netdev_rx_one].  The first two calls of that function, the
    drain of the event queue ([ena_admin_aenq_poll] of [Admin]) and the reaping of the
    transmit ring of the same queue ([ena_tx_poll_completions] of [Tx]), are not composed
    with it here. *)

From stdpp Require Import base tactics option list list_numbers numbers sets gmap.
From Stdlib Require Import ZArith Lia.
From S2P Require Import Prelude Fifo Mem Desc Netq Ring Tx Rx Xmit.

(** ** Netbufs *)

(** The fields of a netbuf the driver touches: the memory from the data pointer on, the
    size of the buffer, the length and the flag [UK_NETBUF_F_DATA_VALID]. *)
Record nb_mem := mkNbMem {
  nm_data : option (list Z);
  nm_buflen : Z;
  nm_len : Z;
  nm_valid : bool
}.

(** Netbufs in memory, and what the driver relies on: a netbuf that is handed out is none
    of those handed out before, has the size the allocator says and a buffer of that size
    at its data pointer, and the others keep their contents. *)
Class NetbufMem (W : Type) := {
  nb_get : W -> Z -> nb_mem;
  nb_put : Z -> nb_mem -> W -> W;
  nb_out : W -> gset Z
}.

Definition nb_room (m : nb_mem) : Prop := forall d, nm_data m = Some d -> nm_buflen m <= Z.of_nat (length d).

Class NetbufMemOk (W : Type) `{NetbufAlloc W, NetbufMem W} := {
  nb_get_put : forall w id m, nb_get (nb_put id m w) id = m;
  nb_get_put_ne : forall w id m i, i <> id -> nb_get (nb_put id m w) i = nb_get w i;
  nb_out_put : forall w id m, nb_out (nb_put id m w) = nb_out w;
  nb_alloc_some : forall w nb w', nb_alloc w = (Some nb, w') ->
    (nb_id nb ∉ nb_out w) /\ nb_out w' = {[nb_id nb]} ∪ nb_out w
    /\ nm_buflen (nb_get w' (nb_id nb)) = nb_buflen nb /\ 0 <= nb_buflen nb < 2 ^ 32 /\ nb_room (nb_get w' (nb_id nb))
    /\ forall i, i <> nb_id nb -> nb_get w' i = nb_get w i;
  nb_alloc_none : forall w w', nb_alloc w = (None, w') -> nb_out w' = nb_out w /\ forall i, nb_get w' i = nb_get w i
}.

(** ** Operations *)
Definition UK_NETDEV_STATUS_MORE : Z := 0x2.

(** [V] is the completion queue at this moment. *)
Definition ena_netdev_rx_status (r : ena_ring) (V : list ena_eth_io_rx_cdesc_base) : res Z :=
  if cq_virt (r_cq r) then
    c ← aget (Some V) (Z.land (cq_head (r_cq r)) (cq_depth (r_cq r) - 1));
    mret (if rx_cdesc_phase (rxc_status c) =? cq_phase (r_cq r) then Z.lor UK_NETDEV_STATUS_SUCCESS UK_NETDEV_STATUS_MORE
          else UK_NETDEV_STATUS_SUCCESS)
  else mret UK_NETDEV_STATUS_SUCCESS.

(** The fragments of the frame that is being assembled, from [chain_head] to
    [chain_tail] by their [next] pointers. *)
Definition ena_netdev_rxq_drop_chain (cpu : Z) (chain : list Z) : list event :=
  chain ≫= ena_netdev_rxq_drop_netbuf true cpu.

(** The data of a packet: out of the bounce slot [slot], whose memory is [mem], or in
    place at its offset.  [None]: the packet is dropped. *)
Definition rx_place (b : bounce_pool) (mem : list Z) (slot : Z) (pkt : ena_rx_pkt) (m : nb_mem) : res (option nb_mem) :=
  if 0 <=? slot then
    match nm_data m with
    | Some data =>
        if bounce_buf b && (u16 slot <? nb_desc b) then
          if (rxp_len pkt <=? nm_buflen m) && (u32 (rxp_offset pkt + rxp_len pkt) <=? ENA_RX_BUF_SIZE) then
            bytes ← read_at (drop (Z.to_nat (slot * ENA_RX_BUF_SIZE + rxp_offset pkt)) mem) (rxp_len pkt);
            data ← write_at data 0 bytes;
            mret (Some (mkNbMem (Some data) (nm_buflen m) (nm_len m) (nm_valid m)))
          else mret None
        else mret (Some m)
    | None => mret (Some m)
    end
  else
    match nm_data m with
    | Some data =>
        if z2b (rxp_offset pkt) then
          if u32 (rxp_offset pkt + rxp_len pkt) <=? nm_buflen m then
            mret (Some (mkNbMem (Some (drop (Z.to_nat (rxp_offset pkt)) data)) (nm_buflen m) (nm_len m) (nm_valid m)))
          else mret None
        else mret (Some m)
    | None => mret (Some m)
    end.

(** What the device shows during a call: the completion queue during the [i]-th poll and
    the bounce memory when the [i]-th packet is copied, and the queue at the end. *)
Record rx_input := mkRxInput {
  in_poll : nat -> rx_view;
  in_bounce : nat -> list Z;
  in_status : nat -> list ena_eth_io_rx_cdesc_base
}.

Section Receive.
  Context `{NetbufAlloc W, NetbufMem W}.

Record rx_state := mkRxState {
  xr_ring : ena_ring;
  xr_queue : uk_netdev_rx_queue;
  xr_chain : list Z;
  xr_mem : W
}.

(** The queue stays the argument the refill was given. *)
Definition ena_netdev_rx_refill_helper (cpu : Z) (s : rx_state) : res (rx_state * list event) :=
  let r := xr_ring s in
  let free := ff_count (free_req (r_pool r)) in
  let to_refill := if sq_depth (r_sq r) <=? free then sq_depth (r_sq r) - 1 else free in
  '(n, r, rxq, w, es) ← ena_rx_refill cpu to_refill r (Some (xr_queue s)) (xr_mem s);
  let r := if (n <? 0) || ((1 <? ff_count (free_req (r_pool r))) && (n =? 0)) then
             set_r_stats (set_rx_refill_err (u64 (rx_refill_err (r_stats r) + 1)) (r_stats r)) r
           else r in
  mret (mkRxState r (default (xr_queue s) rxq) (xr_chain s) w, es).

(** The slot the reported request was received in. *)
Definition rx_slot (q : uk_netdev_rx_queue) (pkt : ena_rx_pkt) : res Z :=
  let b := rxq_bounce q in
  if non_null (bounce_map b) && (rxp_req_id pkt <? nb_desc b) then aget (bounce_map b) (rxp_req_id pkt) else mret (-1).

(** A packet in the netbuf [nb]: whether it was dropped, and the state. *)
Definition rx_take (mem : list Z) (s : rx_state) (pkt : ena_rx_pkt) (nb : Z) : res (bool * rx_state) :=
  let q := xr_queue s in
  let b := rxq_bounce q in
  slot ← rx_slot q pkt;
  let m := nb_get (xr_mem s) nb in
  let m := mkNbMem (nm_data m) (nm_buflen m) (rxp_len pkt)
             (nm_valid m || (negb (rxp_l3_csum_err pkt) && negb (rxp_l4_csum_err pkt) && rxp_l4_csum_checked pkt)) in
  b' ← (if 0 <=? slot then
          map ← aset (bounce_map b) (rxp_req_id pkt) (-1);
          bounce_push (set_bounce_map map b) (u16 slot)
        else mret b);
  m' ← rx_place b mem slot pkt m;
  mret (negb (non_null m'), mkRxState (xr_ring s) (mkRxq b' (pending_slot q)) (xr_chain s) (nb_put nb (default m m') (xr_mem s))).

(** A fragment that was kept: the frame is delivered ([inl]: return value, fragments,
    state) or goes on ([inr]). *)
Definition rx_chain (V : list ena_eth_io_rx_cdesc_base) (s : rx_state) (pkt : ena_rx_pkt) (nb : Z)
    : res ((Z * list Z * rx_state) + rx_state) :=
  let with_chain chain := mkRxState (xr_ring s) (xr_queue s) chain (xr_mem s) in
  let deliver dlv := st ← ena_netdev_rx_status (xr_ring s) V; mret (inl (st, dlv, with_chain [])) in
  match xr_chain s with
  | [] => if rxp_first pkt && negb (rxp_last pkt) then mret (inr (with_chain [nb])) else deliver [nb]
  | chain => if rxp_last pkt then deliver (chain ++ [nb]) else mret (inr (with_chain (chain ++ [nb])))
  end.

(** No packet for the caller. *)
Definition rx_none (cpu : Z) (s : rx_state) : res (((Z * list Z * rx_state) + rx_state) * list event) :=
  '(s, es) ← ena_netdev_rx_refill_helper cpu s; mret (inl (0, [], s), es).

(** A packet in the netbuf [nb]. *)
Definition rx_packet (i : nat) (cpu : Z) (inp : rx_input) (s : rx_state) (pkt : ena_rx_pkt) (nb : Z)
    : res (((Z * list Z * rx_state) + rx_state) * list event) :=
  '(drp, s) ← rx_take (in_bounce inp i) s pkt nb;
  if (drp : bool) then
    let r := set_r_stats (set_rx_dropped (u64 (rx_dropped (r_stats (xr_ring s)) + 1)) (r_stats (xr_ring s))) (xr_ring s) in
    '(x, es) ← rx_none cpu (mkRxState r (xr_queue s) [] (xr_mem s));
    mret (x, ena_netdev_rxq_drop_netbuf true cpu nb ++ ena_netdev_rxq_drop_chain cpu (xr_chain s) ++ es)
  else
    '(s, es) ← ena_netdev_rx_refill_helper cpu s;
    x ← rx_chain (in_status inp i) s pkt nb;
    mret (x, es).

(** The body of [while (1)] of [ena_netdev_rx_one] after its poll. *)
Definition rx_react (i : nat) (cpu : Z) (inp : rx_input) (s : rx_state) (ret : Z) (dropped : option Z) (pkts : list ena_rx_pkt)
    (r : ena_ring) (rxq : option uk_netdev_rx_queue) (es : list event) : res (((Z * list Z * rx_state) + rx_state) * list event) :=
  let gone := 0 <? default 0 dropped in
  let es := es ++ (if gone then ena_netdev_rxq_drop_chain cpu (xr_chain s) else []) in
  let s := mkRxState r (default (xr_queue s) rxq) (if gone then [] else xr_chain s) (xr_mem s) in
  '(x, es') ←
    match (if ret <=? 0 then None else head pkts) with
    | None => rx_none cpu s
    | Some pkt => match rxp_netbuf pkt with None => rx_none cpu s | Some nb => rx_packet i cpu inp s pkt nb end
    end;
  mret (x, es ++ es').

(** The body for the [i]-th time; [pf] bounds the poll. *)
Definition rx_turn (pf i : nat) (cpu : Z) (inp : rx_input) (s : rx_state)
    : res (((Z * list Z * rx_state) + rx_state) * list event) :=
  '(ret, dropped, pkts, r, rxq, es) ← ena_rx_poll pf cpu (in_poll inp i) (xr_ring s) (Some (xr_queue s)) 1;
  rx_react i cpu inp s ret dropped pkts r rxq es.

(** Result: return value, the fragments of the frame delivered, state, events. *)
Fixpoint rx_loop (pf fuel i : nat) (cpu : Z) (inp : rx_input) (s : rx_state) : res (Z * list Z * rx_state * list event) :=
  match fuel with
  | O => Hang
  | S fuel =>
      '(x, es) ← rx_turn pf i cpu inp s;
      match x with
      | inl (ret, dlv, s) => mret (ret, dlv, s, es)
      | inr s => '(ret, dlv, s, es') ← rx_loop pf fuel (S i) cpu inp s; mret (ret, dlv, s, es ++ es')
      end
  end.

(** The part of [ena_netdev_rx_one] on the receive ring. *)
Definition rx_one_ring (pf fuel : nat) (cpu : Z) (inp : rx_input) (s : rx_state) : res (Z * list Z * rx_state * list event) :=
  '(s, es) ← ena_netdev_rx_refill_helper cpu s;
  '(ret, dlv, s, es') ← rx_loop pf fuel 0 cpu inp s;
  mret (ret, dlv, s, es ++ es').

End Receive.

(** ** Invariant *)

(** What the receive path leaves alone. *)
Definition rx_kept (r r' : ena_ring) : Prop :=
  sq_depth (r_sq r') = sq_depth (r_sq r) /\ cq_depth (r_cq r') = cq_depth (r_cq r) /\ hw_valid r' = hw_valid r
  /\ r_blk r' = r_blk r /\ drop_releases r' = drop_releases r /\ drop_netbuf_arg r' = drop_netbuf_arg r
  /\ refill_netbuf r' = refill_netbuf r.

#[export] Instance rx_kept_preorder : PreOrder rx_kept.
Proof. unfold rx_kept. split; [done |]. intros r1 r2 r3 ? ?. naive_solver congruence. Qed.

(** The stack can read the packet. *)
Definition nb_fits (m : nb_mem) : Prop := forall d, nm_data m = Some d -> 0 <= nm_len m <= Z.of_nat (length d).

Section ReceiveSpec.
  Context `{NetbufMemOk W}.

(** The netbufs handed out between two states. *)
Record newly (w : W) (nbs : list Z) (w' : W) : Prop := {
  nw_nodup : NoDup nbs;
  nw_fresh : forall x, x ∈ nbs -> x ∉ nb_out w;
  nw_out : nb_out w' = list_to_set nbs ∪ nb_out w
}.

Lemma newly_nil w w' : nb_out w' = nb_out w -> newly w [] w'.
Proof. intros E. split; [constructor | set_solver | rewrite E; set_solver]. Qed.

Lemma newly_trans w1 l1 w2 l2 w3 : newly w1 l1 w2 -> newly w2 l2 w3 -> newly w1 (l1 ++ l2) w3.
Proof.
  intros [N1 F1 O1] [N2 F2 O2]. split.
  - apply NoDup_app. split_and!; [done | | done]. intros x Hx Hx2. apply (F2 x Hx2). rewrite O1. set_solver.
  - intros x [Hx | Hx]%elem_of_app; [by apply F1 |]. intros Hin. apply (F2 x Hx). rewrite O1. set_solver.
  - rewrite O2, O1, list_to_set_app_L. set_solver.
Qed.

Lemma got_newly w nbs w' : got w nbs w' -> newly w nbs w' /\ forall i, i ∈ nb_out w -> nb_get w' i = nb_get w i.
Proof.
  induction 1 as [w | w w1 nbs w' Ha _ [IH IHg] | w nb w1 nbs w' Ha _ [IH IHg]].
  - split; [by apply newly_nil | done].
  - destruct (nb_alloc_none _ _ Ha) as [Ho Hg]. split.
    + apply (newly_trans w [] w1); [by apply newly_nil | done].
    + intros i Hi. rewrite IHg by (by rewrite Ho). apply Hg.
  - destruct (nb_alloc_some _ _ _ Ha) as (Hn & Ho & _ & _ & _ & Hg). split.
    + apply (newly_trans w [nb_id nb] w1); [| done]. split; [apply NoDup_singleton | set_solver | rewrite Ho; set_solver].
    + intros i Hi. rewrite IHg by (rewrite Ho; set_solver). apply Hg. set_solver.
Qed.

Lemma offered_ok w m w' : offered w m w' ->
  nm_buflen (nb_get w' (nb_id m)) = nb_buflen m /\ 0 <= nb_buflen m < 2 ^ 32 /\ nb_room (nb_get w' (nb_id m)).
Proof.
  intros (l1 & w1 & w2 & l2 & _ & Ha & Hg). destruct (nb_alloc_some _ _ _ Ha) as (_ & Ho & Hb & Hr & Hroom & _).
  destruct (got_newly _ _ _ Hg) as [_ E]. rewrite E by (rewrite Ho; set_solver). done.
Qed.

(** The netbufs of the driver: in the ring, in the chain and in the hands of a call. *)
Definition rx_owned (s : rx_state (W := W)) (hand : list Z) : list Z := held (raw_bufs (xr_ring s)) ++ xr_chain s ++ hand.

(** The reported ids [ds] may still have a slot; the netbufs [hand] belong to packets in
    progress. *)
Record rx_inv (lost ds hand : list Z) (s : rx_state) : Prop := {
  ri_wf : wf_rx (xr_ring s);
  ri_lock : ring_lock (xr_ring s) = 0;
  ri_drop : drop_releases (xr_ring s) = true /\ drop_netbuf_arg (xr_ring s) = true;
  ri_ready : rxq_ready lost (xr_ring s) (xr_queue s);
  ri_filled : slots_filled ds (xr_ring s) (Some (xr_queue s));
  ri_nodup : NoDup (rx_owned s hand);
  ri_out : forall x, x ∈ rx_owned s hand -> x ∈ nb_out (xr_mem s);
  ri_cells : forall b nb, b ∈ cells (raw_bufs (xr_ring s)) -> buf_netbuf b = Some nb ->
    buf_data_len b <= nm_buflen (nb_get (xr_mem s) nb) /\ nb_room (nb_get (xr_mem s) nb);
  ri_chain : forall nb, nb ∈ xr_chain s -> nb_fits (nb_get (xr_mem s) nb)
}.

(** Netbufs are conserved: those in the ring, the chain and the hands of the driver, and
    those the allocator gave, are released, delivered or still there. *)
Definition rx_conserved (s : rx_state) (hand : list Z) (s' : rx_state) (hand' out : list Z) : Prop :=
  exists nbs, newly (xr_mem s) nbs (xr_mem s') /\ nbs ++ rx_owned s hand ≡ₚ out ++ rx_owned s' hand'.

Lemma cells_held b nb r : b ∈ cells (raw_bufs r) -> buf_netbuf b = Some nb -> nb ∈ held (raw_bufs r).
Proof. intros Hb Hn. unfold held. apply list_elem_of_omap. eauto. Qed.

Lemma refill_helper_spec lost hand cpu s :
  rx_inv lost [] hand s ->
  wp (ena_netdev_rx_refill_helper cpu s) (fun '(s', es) =>
    rx_inv lost [] hand s' /\ xr_chain s' = xr_chain s /\ rx_kept (xr_ring s) (xr_ring s') /\ r_cq (xr_ring s') = r_cq (xr_ring s)
    /\ rx_conserved s hand s' hand (freed es)
    /\ forall i, i ∈ nb_out (xr_mem s) -> nb_get (xr_mem s') i = nb_get (xr_mem s) i).
Proof.
  intros [Hwf Hk [Hd Ha] Hq Hu Hnd Hout Hcells Hch]. unfold ena_netdev_rx_refill_helper.
  pose proof (pow2_depth_bounds _ (wr_depth _ (proj1 Hwf))). pose proof (wff_count _ _ (wp_fifo _ _ _ (wr_pool _ (proj1 Hwf)))).
  apply wp_bind. eapply wp_mono; [apply (ena_rx_refill_spec lost); try done; case_match; lia |].
  intros [[[[n r'] rxq'] w'] es] (q' & -> & Hn & [Hwf' Hk' (more & Hq' & Hu') Hc Hf (nbs & Hgot & Hheld) Hcl]).
  destruct (Hu' Hu) as [-> Hu2]. destruct (got_newly _ _ _ Hgot) as [Hnew Hget]. apply wp_ret.
  set (st := set_rx_refill_err _ _). set (c := (_ || _)).
  assert (exists st', (if c then set_r_stats st r' else r') = set_r_stats st' r') as [st' ->]
    by (destruct c; [by eexists | exists (r_stats r'); by destruct r']).
  destruct Hf as (Hv & Hdr & Hbl & Hrf & Har & Hcq & Hsd). cbn [default].
  assert (nbs ++ held (raw_bufs (xr_ring s)) ++ xr_chain s ++ hand ≡ₚ freed es ++ held (raw_bufs r') ++ xr_chain s ++ hand) as Hperm
    by (rewrite !app_assoc, <- Hheld; by rewrite (Permutation_app_comm (held (raw_bufs r')))).
  assert (NoDup (nbs ++ held (raw_bufs (xr_ring s)) ++ xr_chain s ++ hand)) as Hnd'.
  { apply NoDup_app. split_and!; [apply Hnew | | done]. intros x Hx Hx2. apply (nw_fresh _ _ _ Hnew x Hx). by apply Hout. }
  assert (forall x, x ∈ freed es ++ held (raw_bufs r') ++ xr_chain s ++ hand -> x ∈ nb_out w') as Hout'.
  { intros x. rewrite <- Hperm, (nw_out _ _ _ Hnew). intros [Hx | Hx]%elem_of_app; [set_solver |]. apply elem_of_union_r. by apply Hout. }
  split_and!; [| done | by unfold rx_kept; simpl; rewrite Hcq; split_and! | exact Hcq | |].
  - split; simpl; try done; try congruence; [by apply (wf_rx_same r'); try done; apply Hwf' | split; [transitivity (drop_releases r'); [done | congruence] | congruence] | by destruct Hq' | | | |].
    + rewrite Hperm in Hnd'. by apply NoDup_app in Hnd' as (_ & _ & ?).
    + intros x Hx. apply Hout'. apply elem_of_app. by right.
    + intros b nb Hb Hn'. destruct (Hcl b nb Hb Hn') as [Hin | (m & Ho & -> & Hlen)].
      * rewrite Hget; [by apply Hcells |]. apply Hout, elem_of_app. left. by eapply cells_held.
      * destruct (offered_ok _ _ _ Ho) as (-> & Hr & Hroom). split; [by apply Hlen | done].
    + intros nb Hnb. rewrite Hget; [by apply Hch |]. apply Hout. set_solver.
  - exists nbs. split; [done |]. exact Hperm.
  - done.
Qed.

(** A packet that is kept ends inside the buffer; the bytes come from its place in the
    slot. *)
Lemma rx_place_spec b mem slot pkt m :
  nb_room m -> nm_len m = rxp_len pkt -> rxp_len pkt <= nm_buflen m -> rx_pkt_range (nb_desc b) pkt ->
  nb_desc b <= 32768 -> slot < nb_desc b -> Z.of_nat (length mem) = nb_desc b * ENA_RX_BUF_SIZE ->
  wp (rx_place b mem slot pkt m) (fun o => forall m', o = Some m' -> nb_fits m'
    /\ (0 <= slot -> bounce_buf b = true -> forall d, nm_data m' = Some d ->
         take (Z.to_nat (rxp_len pkt)) d = take (Z.to_nat (rxp_len pkt)) (drop (Z.to_nat (slot * ENA_RX_BUF_SIZE + rxp_offset pkt)) mem))).
Proof.
  intros Hroom Hl Hlen (_ & Hr & Ho) Hdb Hs Hmem. unfold rx_place, ENA_RX_BUF_SIZE in *.
  assert (forall d, nm_data m = Some d -> 0 <= nm_len m <= Z.of_nat (length d)) as Hfit.
  { intros d Hd. specialize (Hroom d Hd). lia. }
  destruct (nm_data m) as [data |] eqn:Ed.
  2: { case_match; apply wp_ret; intros m' [= <-]; split; (intros d; congruence) || (intros ? ? d; congruence). }
  specialize (Hfit data eq_refl). specialize (Hroom data Ed).
  assert (forall d, nm_data m = Some d -> d = data) as Hd by (intros; congruence).
  destruct (Z.leb_spec 0 slot) as [Hs0 | Hs0]; rewrite ?u16_id, ?u32_id by lia.
  - rewrite (proj2 (Z.ltb_lt slot _)) by lia. rewrite andb_true_r. destruct (bounce_buf b) eqn:Eb.
    2: { apply wp_ret. intros m' [= <-]. split; [intros d Hd'; by rewrite (Hd d Hd') | done]. }
    destruct ((rxp_len pkt <=? nm_buflen m) && _) eqn:Hc; [| by apply wp_ret].
    apply andb_true_iff in Hc as [_ Hc%Z.leb_le].
    rewrite read_at_ret by (rewrite length_drop; nia). cbn [mbind res_bind]. set (bytes := take _ (drop _ mem)).
    assert (length bytes = Z.to_nat (rxp_len pkt)) as Hbl by (unfold bytes; rewrite length_take, length_drop; nia).
    rewrite write_at_ret by lia. cbn [mbind res_bind]. apply wp_ret. intros m' [= <-]. split.
    + intros d [= <-]. simpl. rewrite length_inserts. lia.
    + intros _ _ d [= <-]. rewrite list_inserts_split by lia. simpl. rewrite <- Hbl. by rewrite take_app_length.
  - destruct (z2b _); [| apply wp_ret; intros m' [= <-]; split; [intros d Hd'; by rewrite (Hd d Hd') | lia]].
    destruct (Z.leb_spec (rxp_offset pkt + rxp_len pkt) (nm_buflen m)); [| by apply wp_ret].
    apply wp_ret. intros m' [= <-]. split; [| lia]. intros d [= <-]. simpl. rewrite length_drop. lia.
Qed.

(** The slot of the reported request returns to the pool. *)
Lemma rx_slot_spec lost hand s pkt :
  rx_inv lost [rxp_req_id pkt] hand s -> rx_pkt_range (sq_depth (r_sq (xr_ring s))) pkt ->
  exists slot, rx_slot (xr_queue s) pkt = Ret slot /\ slot < nb_desc (rxq_bounce (xr_queue s))
    /\ wp (if 0 <=? slot then
             map ← aset (bounce_map (rxq_bounce (xr_queue s))) (rxp_req_id pkt) (-1);
             bounce_push (set_bounce_map map (rxq_bounce (xr_queue s))) (u16 slot)
           else mret (rxq_bounce (xr_queue s))) (fun b' =>
         rxq_ready lost (xr_ring s) (mkRxq b' (pending_slot (xr_queue s)))
         /\ slots_filled [] (xr_ring s) (Some (mkRxq b' (pending_slot (xr_queue s))))).
Proof.
  intros Hi (Hid & _). destruct (ri_ready _ _ _ _ Hi) as [Hwf Hpend Hdep]. unfold wf_rxq in Hwf. rewrite Hpend in Hwf. simpl in Hwf.
  destruct (wfb_map _ _ Hwf) as (m & Hm & Hlen). destruct (lookup_in_range m (rxp_req_id pkt)) as [slot Hs]; [lia |]. exists slot.
  pose proof (wf_bounce_unmap lost _ (rxp_req_id pkt) Hwf ltac:(lia)) as Hun.
  pose proof (bounce_unmap_map lost _ (rxp_req_id pkt) Hwf ltac:(lia)) as Hmap. unfold bounce_unmap in Hun, Hmap.
  assert (aget (bounce_map (rxq_bounce (xr_queue s))) (rxp_req_id pkt) = Ret slot) as Ha by (rewrite Hm; by apply aget_ret; [lia |]).
  rewrite Ha in Hun, Hmap. rewrite (proj2 (Z.ltb_lt (rxp_req_id pkt) _)) in Hun, Hmap by lia.
  assert (non_null (bounce_map (rxq_bounce (xr_queue s))) = true) as En by (by rewrite Hm). rewrite En in Hun, Hmap. cbn [andb mbind res_bind] in Hun, Hmap.
  unfold rx_slot. rewrite En, (proj2 (Z.ltb_lt (rxp_req_id pkt) _)), Ha by lia. cbn [andb]. split_and!; [done | |].
  - destruct (decide (slot < 0)); [pose proof (pow2_depth_bounds _ (wff_depth _ _ (wfb_free _ _ Hwf))); lia |].
    apply (wf_bounce_range _ _ _ Hwf). unfold slots_mapped. rewrite Hm. apply elem_of_app. right. apply elem_of_app. left.
    apply list_elem_of_omap. exists slot. split; [by eapply list_elem_of_lookup_2 |]. unfold mapped_slot. by rewrite (proj2 (Z.leb_le _ _)) by lia.
  - rewrite Z.leb_antisym. destruct (Z.ltb_spec slot 0) as [Hneg | Hpos]; simpl.
    + apply wp_ret. split; [by destruct (ri_ready _ _ _ _ Hi) |]. intros q i t [= <-] Hi0 _ Ht Ht0.
      apply (ri_filled _ _ _ _ Hi (xr_queue s) i t); try done. intros ->%list_elem_of_singleton. unfold slot_of in Ht. simpl in Ht. rewrite Hm in Ht.
      simpl in Ht. rewrite Hs in Ht. injection Ht as <-. lia.
    + destruct (aset _ _ _) as [m' | |]; [| done..]. cbn [mbind res_bind] in *. destruct (bounce_push _ _) as [b' | |]; [| done..].
      destruct Hun as (Hb' & En' & _). simpl in Hmap. split.
      * split; simpl; [| done | congruence]. unfold wf_rxq. simpl. by rewrite Hpend.
      * intros q i t [= <-] Hi0 _ Ht Ht0. destruct (Hmap _ _ Ht) as [? | [Hne Ht']]; [lia |].
        apply (ri_filled _ _ _ _ Hi (xr_queue s) i t); try done. intros ->%list_elem_of_singleton. done.
Qed.

Lemma rx_take_spec lost mem s pkt nb :
  rx_inv lost [rxp_req_id pkt] [nb] s -> rx_pkt_range (sq_depth (r_sq (xr_ring s))) pkt ->
  nb_room (nb_get (xr_mem s) nb) -> rxp_len pkt <= nm_buflen (nb_get (xr_mem s) nb) ->
  Z.of_nat (length mem) = sq_depth (r_sq (xr_ring s)) * ENA_RX_BUF_SIZE ->
  wp (rx_take mem s pkt nb) (fun '(drp, s') => rx_inv lost [] [nb] s' /\ xr_ring s' = xr_ring s /\ xr_chain s' = xr_chain s
    /\ nb_out (xr_mem s') = nb_out (xr_mem s) /\ (drp = false -> nb_fits (nb_get (xr_mem s') nb))).
Proof.
  intros Hi Hrange Hroom Hlen Hmem. destruct (rx_slot_spec _ _ _ _ Hi Hrange) as (slot & Hslot & Hs & Hb).
  pose proof (pow2_depth_bounds _ (wr_depth _ (proj1 (ri_wf _ _ _ _ Hi)))). pose proof (rr_depth _ _ _ (ri_ready _ _ _ _ Hi)) as Hdep.
  unfold rx_take. rewrite Hslot. cbn [mbind res_bind]. set (m := mkNbMem _ _ _ _). apply wp_bind. eapply wp_mono; [exact Hb |].
  intros b' [Hready Hfilled]. apply wp_bind. eapply wp_mono; [apply (rx_place_spec _ mem slot pkt m); rewrite ?Hdep; try done; lia |].
  intros o Ho. apply wp_ret. destruct Hi as [Hwf Hk Hd _ _ Hnd Hout Hcells Hch]. simpl.
  assert (forall x, x ∈ held (raw_bufs (xr_ring s)) ++ xr_chain s -> x <> nb) as Hne.
  { intros x Hx ->. unfold rx_owned in Hnd. rewrite app_assoc in Hnd. apply NoDup_app in Hnd as (_ & Hdis & _). apply (Hdis nb Hx). by left. }
  split_and!; try done.
  - split; simpl; try done.
    + intros x Hx. rewrite nb_out_put. by apply Hout.
    + intros b x Hb' Hx. rewrite nb_get_put_ne by (apply Hne, elem_of_app; left; by eapply cells_held). by apply Hcells.
    + intros x Hx. rewrite nb_get_put_ne by (apply Hne, elem_of_app; by right). by apply Hch.
  - apply nb_out_put.
  - rewrite nb_get_put. destruct o as [m' |]; [| done]. intros _. by apply Ho.
Qed.

(** What a poll for one packet leaves in hand. *)
Record rx_polled (lost : list Z) (s : rx_state) (r' : ena_ring) (q' : uk_netdev_rx_queue) (pkts : list ena_rx_pkt)
    (es : list event) : Prop := {
  rpl_inv : rx_inv lost (reported pkts) (omap rxp_netbuf pkts) (mkRxState r' q' (xr_chain s) (xr_mem s));
  rpl_held : held (raw_bufs (xr_ring s)) ≡ₚ omap rxp_netbuf pkts ++ freed es ++ held (raw_bufs r');
  rpl_kept : rx_kept (xr_ring s) r';
  rpl_range : Forall (rx_pkt_range (sq_depth (r_sq r'))) pkts;
  rpl_fits : forall pkt nb, pkt ∈ pkts -> rxp_netbuf pkt = Some nb ->
    rxp_len pkt <= nm_buflen (nb_get (xr_mem s) nb) /\ nb_room (nb_get (xr_mem s) nb)
}.

Lemma rx_polled_spec lost pf cpu view s :
  rx_inv lost [] [] s -> rx_view_ok (cq_depth (r_cq (xr_ring s))) view ->
  wlp (ena_rx_poll pf cpu view (xr_ring s) (Some (xr_queue s)) 1) (fun '(ret, _, pkts, r', rxq', es) =>
    exists q', rxq' = Some q' /\ rx_polled lost s r' q' pkts es /\ (0 <= ret -> ret = Z.of_nat (length pkts)) /\ (ret < 0 -> pkts = []) /\ ret <= 1).
Proof.
  intros [Hwf Hk [Hd Ha] Hq Hu Hnd Hout Hcells Hch] Hv. pose proof Hq as [Hwq Hpend Hdep].
  eapply wlp_mono; [apply (ena_rx_poll_spec lost); try done; by intros q [= <-] |].
  intros [[[[[ret dr] pkts] r'] rxq'] es] ((d & [[Hwf' F Hcd Hh Hcl] [Hq' Hkept] Hu' Hf _ Hg]) & Hret & Hlen & Hneg).
  destruct rxq' as [q' |]; [| done]. exists q'. split; [done |]. split; [| done]. specialize (Hh Hd).
  pose proof (rx_frame_drop _ _ _ F) as Edr. destruct F as [Fd Fc Fl Fv Fcb Fa Fb Ff]. simpl in *.
  assert (forall x, x ∈ held (raw_bufs r') ++ xr_chain s ++ omap rxp_netbuf pkts -> x ∈ held (raw_bufs (xr_ring s)) ++ xr_chain s) as Hsub.
  { intros x. rewrite Hh, !elem_of_app. tauto. }
  split.
  - split; simpl; try done; try congruence.
    + split; [by rewrite Edr | congruence].
    + destruct Hkept as [Kp Kn]. split; [by apply Hq' | congruence | congruence].
    + exact (Hu' [] Ha Hu).
    + unfold rx_owned in *. simpl. rewrite app_nil_r, Hh in Hnd.
      assert ((omap rxp_netbuf pkts ++ freed es ++ held (raw_bufs r')) ++ xr_chain s
        ≡ₚ freed es ++ held (raw_bufs r') ++ xr_chain s ++ omap rxp_netbuf pkts) as E.
      { rewrite <- !app_assoc, (Permutation_app_comm (omap rxp_netbuf pkts)). by rewrite <- !app_assoc. }
      rewrite E in Hnd. by apply NoDup_app in Hnd as (_ & _ & ?).
    + intros x Hx. apply Hout. unfold rx_owned. rewrite app_nil_r. by apply Hsub.
    + intros b x Hb Hx. apply (Hcells b x); [| done]. apply Hcl; [done | congruence].
  - done.
  - unfold rx_kept. rewrite Hcd. split_and!; congruence.
  - by rewrite Fd.
  - intros pkt nb Hin Hnb. destruct (proj1 (Forall_forall _ _) Hf pkt Hin nb Hnb) as (b & Hb & Hbn & Hl).
    destruct (Hcells b nb Hb Hbn). split; [lia | done].
Qed.

(** *** Conservation step by step *)
Lemma rx_conserved_trans s1 h1 s2 h2 o1 s3 h3 o2 :
  rx_conserved s1 h1 s2 h2 o1 -> rx_conserved s2 h2 s3 h3 o2 -> rx_conserved s1 h1 s3 h3 (o1 ++ o2).
Proof.
  intros (n1 & N1 & P1) (n2 & N2 & P2). exists (n1 ++ n2). split; [by eapply newly_trans |].
  rewrite (Permutation_app_comm n1), <- app_assoc, P1, app_assoc, (Permutation_app_comm n2), <- !app_assoc. by rewrite P2.
Qed.

(** Netbufs change hands inside the driver. *)
Lemma rx_conserved_move s h s' h' out :
  raw_bufs (xr_ring s') = raw_bufs (xr_ring s) -> nb_out (xr_mem s') = nb_out (xr_mem s) ->
  xr_chain s ++ h ≡ₚ out ++ xr_chain s' ++ h' -> rx_conserved s h s' h' out.
Proof.
  intros Er Ew P. exists []. split; [by apply newly_nil |]. unfold rx_owned. rewrite Er, P. simpl.
  rewrite !app_assoc. by rewrite (Permutation_app_comm (held _)).
Qed.

(** A move keeps the invariant; so does a change of the counters. *)
Lemma rx_inv_move lost h h' s s' st :
  rx_inv lost [] h s -> xr_ring s' = set_r_stats st (xr_ring s) -> xr_queue s' = xr_queue s -> xr_mem s' = xr_mem s ->
  xr_chain s' ++ h' ⊆+ xr_chain s ++ h -> (forall nb, nb ∈ xr_chain s' -> nb_fits (nb_get (xr_mem s) nb)) -> rx_inv lost [] h' s'.
Proof.
  intros [Hwf Hk Hd Hq Hu Hnd Hout Hcells Hch] Er Eq Em Hsub Hfit. destruct s' as [r' q' c' w']. simpl in *. subst r' q' w'.
  assert (rx_owned (mkRxState (set_r_stats st (xr_ring s)) (xr_queue s) c' (xr_mem s)) h' ⊆+ rx_owned s h) as Hs.
  { unfold rx_owned. simpl. by apply submseteq_skips_l. }
  split; simpl; try done.
  - by apply (wf_rx_same (xr_ring s)); try done; apply Hwf.
  - by destruct Hq.
  - apply submseteq_Permutation in Hs as (k & Hs). rewrite Hs in Hnd. by apply NoDup_app in Hnd as [? _].
  - intros x Hx. apply Hout. by eapply elem_of_submseteq.
Qed.

Lemma freed_drop_chain cpu chain : freed (ena_netdev_rxq_drop_chain cpu chain) = chain.
Proof. induction chain as [| x l IH]; [done |]. unfold ena_netdev_rxq_drop_chain in *. rewrite bind_cons, freed_app, IH. done. Qed.

(** ** The call *)

(** What a call has done from [s], with the netbufs [hand] taken from the ring, to [s'],
    with the fragments [dlv] delivered. *)
Record rx_done (lost : list Z) (s : rx_state) (hand : list Z) (ret : Z) (dlv : list Z) (s' : rx_state) (es : list event) : Prop := {
  rd_inv : rx_inv lost [] dlv s';
  rd_cons : rx_conserved s hand s' dlv (freed es);
  rd_ret : (ret = 0 /\ dlv = []) \/ ((ret = 1 \/ ret = 3) /\ dlv <> []);
  rd_fits : forall nb, nb ∈ dlv -> nb_fits (nb_get (xr_mem s') nb);
  rd_chain : (forall x, x ∈ xr_chain s -> x ∈ freed es) \/ exists l, dlv ++ xr_chain s' = xr_chain s ++ l;
  rd_kept : rx_kept (xr_ring s) (xr_ring s')
}.

(** What a turn has done. *)
Definition rx_turned (lost : list Z) (s : rx_state) (hand : list Z) (x : (Z * list Z * rx_state) + rx_state) (es : list event) : Prop :=
  match x with
  | inl (ret, dlv, s') => rx_done lost s hand ret dlv s' es
  | inr s' =>
      rx_inv lost [] [] s' /\ rx_conserved s hand s' [] (freed es) /\ rx_kept (xr_ring s) (xr_ring s')
      /\ ((forall x, x ∈ xr_chain s -> x ∈ freed es) \/ exists l, xr_chain s' = xr_chain s ++ l)
  end.

(** A turn after some steps of the driver. *)
Lemma rx_turned_step lost s h s1 h1 es1 x es2 :
  rx_conserved s h s1 h1 (freed es1) -> rx_kept (xr_ring s) (xr_ring s1) ->
  (forall x, x ∈ xr_chain s -> x ∈ freed es1) \/ (exists l, xr_chain s1 = xr_chain s ++ l) ->
  rx_turned lost s1 h1 x es2 -> rx_turned lost s h x (es1 ++ es2).
Proof.
  intros Hc Hk Hch. destruct x as [[[ret dlv] s'] | s'].
  - intros [Hi Hc2 Hr Hf Hch2 Hk2]. split; try done; [| | by etrans]; rewrite freed_app.
    + by eapply rx_conserved_trans.
    + destruct Hch as [Hch | (l & Hl)]; [left; set_solver |].
      destruct Hch2 as [Hch2 | (l2 & Hl2)]; [left; rewrite Hl in Hch2; set_solver |]. right. exists (l ++ l2). by rewrite Hl2, Hl, app_assoc.
  - intros (Hi & Hc2 & Hk2 & Hch2). split_and!; [done | | by etrans |]; rewrite freed_app.
    + by eapply rx_conserved_trans.
    + destruct Hch as [Hch | (l & Hl)]; [left; set_solver |].
      destruct Hch2 as [Hch2 | (l2 & Hl2)]; [left; rewrite Hl in Hch2; set_solver |]. right. exists (l ++ l2). by rewrite Hl2, Hl, app_assoc.
Qed.

Lemma rx_none_spec lost cpu s :
  rx_inv lost [] [] s -> wp (rx_none cpu s) (fun '(x, es) => rx_turned lost s [] x es /\ forall s', x <> inr s').
Proof.
  intros Hi. apply wp_bind. eapply wp_mono; [by apply refill_helper_spec |]. intros [s' es] (Hi' & Hch & Hk & _ & Hc & _).
  apply wp_ret. split; [| done]. split; try done; [by left | set_solver |]. right. exists []. by rewrite app_nil_r.
Qed.

Lemma rx_chain_spec lost V s pkt nb :
  rx_inv lost [] [nb] s -> nb_fits (nb_get (xr_mem s) nb) -> Z.of_nat (length V) = cq_depth (r_cq (xr_ring s)) ->
  wp (rx_chain V s pkt nb) (fun x => rx_turned lost s [nb] x [] /\ forall s', x = inr s' -> r_cq (xr_ring s') = r_cq (xr_ring s)).
Proof.
  intros Hi Hf HV. pose proof (slot_range (cq_head (r_cq (xr_ring s))) _ (wr_cqd _ (proj1 (ri_wf _ _ _ _ Hi)))) as Hslot.
  assert (forall dlv, dlv = xr_chain s ++ [nb] ->
    wp (st ← ena_netdev_rx_status (xr_ring s) V; mret (inl (st, dlv, mkRxState (xr_ring s) (xr_queue s) [] (xr_mem s))))
      (fun x => rx_turned lost s [nb] x [] /\ forall s', x = inr s' -> r_cq (xr_ring s') = r_cq (xr_ring s))) as Hdlv.
  { intros dlv ->. apply wp_bind. unfold ena_netdev_rx_status. rewrite (wr_cqm _ (proj1 (ri_wf _ _ _ _ Hi))).
    apply wp_bind, wp_aget; [lia |]. intros c _. apply wp_ret, wp_ret. split; [| done]. split; try done.
    - eapply (rx_inv_move _ [nb] _ s _ (r_stats (xr_ring s))); try done; simpl; [by destruct (xr_ring s) | set_solver].
    - by apply rx_conserved_move.
    - right. split; [case_match; auto | by destruct (xr_chain s)].
    - intros x [Hx | ->%list_elem_of_singleton]%elem_of_app; [by apply (ri_chain _ _ _ _ Hi) | done].
    - right. exists [nb]. by rewrite app_nil_r. }
  assert (forall chain, chain = xr_chain s ++ [nb] ->
    rx_turned lost s [nb] (inr (mkRxState (xr_ring s) (xr_queue s) chain (xr_mem s))) []
    /\ forall s', inr (A := Z * list Z * rx_state (W := W)) (mkRxState (xr_ring s) (xr_queue s) chain (xr_mem s)) = inr s' -> r_cq (xr_ring s') = r_cq (xr_ring s)) as Hnext.
  { intros chain ->. split; [| by intros s' [= <-]]. split_and!.
    - eapply (rx_inv_move _ [nb] _ s _ (r_stats (xr_ring s))); try done; simpl; [by destruct (xr_ring s) | by rewrite app_nil_r |].
      intros x [Hx | ->%list_elem_of_singleton]%elem_of_app; [by apply (ri_chain _ _ _ _ Hi) | done].
    - apply rx_conserved_move; [done | done |]. simpl. by rewrite app_nil_r.
    - done.
    - right. by exists [nb]. }
  unfold rx_chain. cbv zeta. destruct (xr_chain s) as [| c l] eqn:Ec.
  - destruct (_ && _); [apply wp_ret; by apply Hnext | by apply Hdlv].
  - destruct (rxp_last pkt); [by apply Hdlv | apply wp_ret; by apply Hnext].
Qed.

Lemma rx_packet_spec lost i cpu inp s pkt nb :
  rx_inv lost [rxp_req_id pkt] [nb] s -> rx_pkt_range (sq_depth (r_sq (xr_ring s))) pkt ->
  nb_room (nb_get (xr_mem s) nb) -> rxp_len pkt <= nm_buflen (nb_get (xr_mem s) nb) ->
  Z.of_nat (length (in_bounce inp i)) = sq_depth (r_sq (xr_ring s)) * ENA_RX_BUF_SIZE ->
  Z.of_nat (length (in_status inp i)) = cq_depth (r_cq (xr_ring s)) ->
  wp (rx_packet i cpu inp s pkt nb) (fun '(x, es) =>
    rx_turned lost s [nb] x es /\ forall s', x = inr s' -> r_cq (xr_ring s') = r_cq (xr_ring s)).
Proof.
  intros Hi Hr Hroom Hlen Hmem HV. unfold rx_packet. apply wp_bind. eapply wp_mono; [by apply (rx_take_spec lost) |].
  intros [drp s1] (Hi1 & Er & Ec & Eo & Hf). destruct drp.
  - apply wp_bind. eapply wp_mono; [apply (rx_none_spec lost) |].
    { eapply (rx_inv_move _ [nb] [] s1); simpl; try done; [apply submseteq_nil_l | set_solver]. }
    intros [x es] [Ht Hx]. apply wp_ret. split; [| intros s' E; by destruct (Hx s')]. rewrite app_assoc. eapply rx_turned_step; [| | | exact Ht].
    + apply rx_conserved_move; [simpl; by rewrite Er | done |].
      rewrite freed_app, freed_drop_chain, Ec. simpl. rewrite app_nil_r. by rewrite Permutation_app_comm.
    + simpl. by rewrite Er.
    + left. rewrite freed_app, freed_drop_chain, Ec. set_solver.
  - specialize (Hf eq_refl). apply wp_bind. eapply wp_mono; [by apply (refill_helper_spec lost) |].
    intros [s2 es] (Hi2 & Hch & Hk & Hcq & Hc & Hget). apply wp_bind. eapply wp_mono.
    { apply (rx_chain_spec lost); [done | | by rewrite Hcq, Er]. rewrite Hget; [done |]. apply (ri_out _ _ _ _ Hi1). unfold rx_owned. set_solver. }
    intros x [Ht Hx]. apply wp_ret. split; [| intros s' E; by rewrite (Hx s' E), Hcq, Er].
    rewrite <- (app_nil_r es). eapply rx_turned_step; [| | | exact Ht].
    + eapply (rx_conserved_trans _ _ s1 [nb] []); [| done]. apply rx_conserved_move; [by rewrite Er | done | by rewrite Ec].
    + by rewrite <- Er.
    + right. exists []. by rewrite Hch, Ec, app_nil_r.
Qed.

(** What the device shows is as large as it should be. *)
Record rx_input_ok (sqd cqd : Z) (inp : rx_input) : Prop := {
  io_poll : forall i, rx_view_ok cqd (in_poll inp i);
  io_bounce : forall i, Z.of_nat (length (in_bounce inp i)) = sqd * ENA_RX_BUF_SIZE;
  io_status : forall i, Z.of_nat (length (in_status inp i)) = cqd
}.

Lemma rx_react_spec lost i cpu inp s ret dropped pkts r q es :
  rx_input_ok (sq_depth (r_sq (xr_ring s))) (cq_depth (r_cq (xr_ring s))) inp -> rx_polled lost s r q pkts es ->
  (0 <= ret -> ret = Z.of_nat (length pkts)) -> (ret < 0 -> pkts = []) -> ret <= 1 ->
  wp (rx_react i cpu inp s ret dropped pkts r (Some q) es) (fun '(x, es') =>
    rx_turned lost s [] x es' /\ forall s', x = inr s' -> r_cq (xr_ring s') = r_cq r /\ length pkts = 1%nat).
Proof.
  intros [Hv Hb HV] [Hi1 Hh Hk Hr Hf] Hret Hneg Hle. unfold rx_react. cbn [default].
  set (gone := 0 <? default 0 dropped). set (es1 := es ++ _). set (s1 := mkRxState _ _ _ _).
  assert (rx_conserved s [] s1 (omap rxp_netbuf pkts) (freed es1)) as Hc.
  { exists []. split; [by apply newly_nil |]. unfold rx_owned, s1, es1. simpl. rewrite Hh, freed_app.
    rewrite (Permutation_app_comm (omap _ _)), <- !app_assoc.
    destruct gone; simpl; rewrite ?freed_drop_chain, ?app_nil_r; apply Permutation_app; try done;
      rewrite (Permutation_app_comm (omap _ _) (xr_chain s)); [apply Permutation_app_swap_app | done]. }
  assert (rx_kept (xr_ring s) (xr_ring s1)) as Hk1 by done.
  assert ((forall x, x ∈ xr_chain s -> x ∈ freed es1) \/ (exists l, xr_chain s1 = xr_chain s ++ l)) as Hch.
  { unfold es1, s1. simpl. rewrite freed_app. destruct gone; [left; rewrite freed_drop_chain; set_solver | right; exists []; by rewrite app_nil_r]. }
  assert (rx_inv lost (reported pkts) (omap rxp_netbuf pkts) s1) as Hi2.
  { unfold s1. destruct gone; [| done]. destruct Hi1 as [? ? ? ? ? Hnd Hout ? ?]. unfold rx_owned in *. simpl in *. split; simpl; try done; unfold rx_owned; simpl.
    - apply NoDup_app in Hnd as (? & Hd & Hnd). apply NoDup_app in Hnd as (_ & _ & ?). apply NoDup_app. split_and!; [done | | done]. set_solver.
    - set_solver.
    - set_solver. }
  assert (rx_inv lost [] [] s1 -> omap rxp_netbuf pkts = [] ->
    wp ('(x, es') ← rx_none cpu s1; mret (x, es1 ++ es')) (fun '(x, es') =>
      rx_turned lost s [] x es' /\ forall s', x = inr s' -> r_cq (xr_ring s') = r_cq r /\ length pkts = 1%nat)) as Hnone.
  { intros Hi3 E. rewrite E in Hc. apply wp_bind. eapply wp_mono; [by apply (rx_none_spec lost) |]. intros [x es'] [Ht Hx].
    apply wp_ret. split; [by eapply rx_turned_step | intros s' Ex; by destruct (Hx s')]. }
  destruct (Z.leb_spec ret 0).
  { assert (pkts = []) as -> by (destruct (decide (ret < 0)); [by apply Hneg | apply length_zero_iff_nil; lia]). by apply Hnone. }
  assert (length pkts = 1%nat) as Hl by lia. destruct pkts as [| pkt [|]]; [done | | done]. simpl in *.
  unfold reported in Hi2. simpl in Hi2. destruct (rxp_netbuf pkt) as [nb |] eqn:Enb; [| by apply Hnone].
  destruct (Hf pkt nb ltac:(by left) Enb) as [Hlen Hroom]. destruct Hk1 as (Ed & Ecq & _). apply wp_bind.
  eapply wp_mono; [apply (rx_packet_spec lost); [done | by inversion Hr | done | done | unfold s1; simpl; by rewrite Ed | unfold s1; simpl; by rewrite Ecq] |].
  intros [x es'] [Ht Hx]. apply wp_ret. split; [by eapply rx_turned_step | intros s' Ex; by rewrite (Hx s' Ex)].
Qed.

Lemma rx_turn_spec lost pf i cpu inp s :
  rx_inv lost [] [] s -> rx_input_ok (sq_depth (r_sq (xr_ring s))) (cq_depth (r_cq (xr_ring s))) inp ->
  wlp (rx_turn pf i cpu inp s) (fun '(x, es) => rx_turned lost s [] x es).
Proof.
  intros Hi Hin. unfold rx_turn. apply wlp_bind. eapply wlp_mono; [apply (rx_polled_spec lost); [done | apply Hin] |].
  intros [[[[[ret dropped] pkts] r] rxq] es] (q & -> & Hp & Hret & Hneg & Hle). apply wp_wlp.
  eapply wp_mono; [by apply (rx_react_spec lost) |]. by intros [x es'] [Ht _].
Qed.

(** A turn with a quiet device returns, and consumes an entry when the frame goes on. *)
Lemma rx_turn_quiet lost V h0 m pf i cpu inp s :
  rx_inv lost [] [] s -> rx_input_ok (sq_depth (r_sq (xr_ring s))) (cq_depth (r_cq (xr_ring s))) inp ->
  in_poll inp i = (fun _ _ => V) -> 0 <= h0 < 65536 -> cq_lap V h0 m (xr_ring s) -> cq_depth (r_cq (xr_ring s)) - m < Z.of_nat pf ->
  wp (rx_turn pf i cpu inp s) (fun '(x, es) =>
    forall s', x = inr s' -> exists m', m < m' /\ cq_lap V h0 m' (xr_ring s')).
Proof.
  intros Hi Hin EV Hh Hlap Hpf. assert (rx_view_ok (cq_depth (r_cq (xr_ring s))) (fun _ _ => V)) as Hv by (rewrite <- EV; apply Hin).
  pose proof (ri_ready _ _ _ _ Hi) as [Hwq _ _].
  pose proof (ena_rx_poll_quiet lost V h0 m pf cpu _ (Some (xr_queue s)) 1 (ri_wf _ _ _ _ Hi) (ri_lock _ _ _ _ Hi) ltac:(by intros q [= <-]) Hv Hh Hlap Hpf) as Hq.
  pose proof (rx_polled_spec lost pf cpu _ s Hi Hv) as Hs. unfold rx_turn. rewrite EV.
  destruct (ena_rx_poll _ _ _ _ _ _) as [[[[[[ret dropped] pkts] r] rxq] es] | |]; [| done..]. simpl in Hq, Hs.
  destruct Hs as (q & -> & Hp & Hret & Hneg & Hle). destruct Hq as (_ & m' & Hm' & [? ? ?]). cbn [mbind res_bind].
  eapply wp_mono; [by apply (rx_react_spec lost) |]. intros [x es'] [_ Hx] s' E. destruct (Hx s' E) as [Ecq Hl].
  exists m'. split; [lia |]. split; by rewrite Ecq.
Qed.

Lemma rx_turned_inr lost s s1 es1 ret dlv s' es2 :
  rx_turned lost s [] (inr s1) es1 -> rx_done lost s1 [] ret dlv s' es2 -> rx_done lost s [] ret dlv s' (es1 ++ es2).
Proof. intros (_ & Hc & Hk & Hch) Hd. by apply (rx_turned_step lost s [] s1 [] es1 (inl (ret, dlv, s')) es2). Qed.

Lemma rx_input_kept r r' inp :
  rx_kept r r' -> rx_input_ok (sq_depth (r_sq r)) (cq_depth (r_cq r)) inp -> rx_input_ok (sq_depth (r_sq r')) (cq_depth (r_cq r')) inp.
Proof. by intros (-> & -> & _). Qed.

Lemma rx_loop_spec lost pf fuel i cpu inp s :
  rx_inv lost [] [] s -> rx_input_ok (sq_depth (r_sq (xr_ring s))) (cq_depth (r_cq (xr_ring s))) inp ->
  wlp (rx_loop pf fuel i cpu inp s) (fun '(ret, dlv, s', es) => rx_done lost s [] ret dlv s' es).
Proof.
  revert i s. induction fuel as [| fuel IH]; intros i s Hi Hin; [done |]. simpl. apply wlp_bind.
  eapply wlp_mono; [by apply (rx_turn_spec lost) |]. intros [[[[ret dlv] s1] | s1] es1] Ht; [by apply wlp_ret |].
  pose proof Ht as (Hi1 & _ & Hk & _). apply wlp_bind. eapply wlp_mono; [apply IH; [done | by eapply rx_input_kept] |].
  intros [[[ret dlv] s'] es'] Hd. apply wlp_ret. by eapply rx_turned_inr.
Qed.

Lemma rx_loop_quiet lost V h0 m pf fuel i cpu inp s :
  rx_inv lost [] [] s -> rx_input_ok (sq_depth (r_sq (xr_ring s))) (cq_depth (r_cq (xr_ring s))) inp ->
  (forall i, in_poll inp i = (fun _ _ => V)) -> 0 <= h0 < 65536 -> cq_lap V h0 m (xr_ring s) ->
  cq_depth (r_cq (xr_ring s)) - m < Z.of_nat pf -> cq_depth (r_cq (xr_ring s)) - m < Z.of_nat fuel ->
  rx_loop pf fuel i cpu inp s <> Hang.
Proof.
  revert m i s. induction fuel as [| fuel IH]; intros m i s Hi Hin EV Hh Hlap Hpf Hf; [pose proof (lap_count _ _ _ _ Hlap); lia |]. simpl.
  pose proof (rx_turn_spec lost pf i cpu inp s Hi Hin) as Hs. pose proof (rx_turn_quiet lost V h0 m pf i cpu inp s Hi Hin (EV i) Hh Hlap Hpf) as Hq.
  destruct (rx_turn _ _ _ _ _) as [[x es1] | |]; [| done..]. simpl in Hs, Hq |- *. destruct x as [[[ret dlv] s1] | s1]; [done |].
  destruct (Hq s1 eq_refl) as (m' & Hm' & Hlap'). destruct Hs as (Hi1 & _ & Hk & _). pose proof Hk as (_ & Ecq & _).
  assert (rx_loop pf fuel (S i) cpu inp s1 <> Hang) as Hr.
  { pose proof (rx_input_kept _ _ _ Hk Hin). apply (IH m'); try done; rewrite ?Ecq; lia. }
  by destruct (rx_loop _ _ _ _ _ s1) as [[[[? ?] ?] ?] | |].
Qed.

End ReceiveSpec.

(** ** An example *)

(** Netbufs 100, 101, ... of 2048 bytes in low memory. *)
Record ex_heap := mkExHeap { eh_count : nat; eh_mem : gmap Z nb_mem }.
Definition ex_nb : nb_mem := mkNbMem (Some (replicate (Z.to_nat 2048) 0)) 2048 0 false.
#[export] Instance ex_heap_alloc : NetbufAlloc ex_heap := fun w =>
  let id := 100 + Z.of_nat (eh_count w) in
  (Some (mkNetbuf id (id * 0x1000) 2048), mkExHeap (S (eh_count w)) (<[id := ex_nb]> (eh_mem w))).
#[export] Instance ex_heap_mem : NetbufMem ex_heap := {|
  nb_get w id := default ex_nb (eh_mem w !! id);
  nb_put id m w := mkExHeap (eh_count w) (<[id := m]> (eh_mem w));
  nb_out w := list_to_set (seqZ 100 (Z.of_nat (eh_count w)))
|}.
Lemma ex_nb_room : nb_room ex_nb.
Proof.
  intros d Hd. assert (d = replicate (Z.to_nat 2048) 0) as -> by (unfold ex_nb in Hd; cbn [nm_data] in Hd; congruence).
  rewrite length_replicate. unfold ex_nb. cbn [nm_buflen]. lia.
Qed.
#[export] Instance ex_heap_ok : NetbufMemOk ex_heap.
Proof.
  split; unfold nb_get, nb_put, nb_out; simpl.
  - intros. by rewrite lookup_insert_eq.
  - intros. by rewrite lookup_insert_ne.
  - done.
  - intros w nb w' [= <- <-]. simpl. rewrite elem_of_list_to_set, elem_of_seqZ. split_and!; [lia | | by rewrite lookup_insert_eq | lia | lia | | ].
    + apply set_eq. intros x. rewrite elem_of_union, elem_of_singleton, !elem_of_list_to_set, !elem_of_seqZ. lia.
    + rewrite lookup_insert_eq. exact ex_nb_room.
    + intros i Hi. by rewrite lookup_insert_ne.
  - intros w w' [=].
Qed.

Definition ex_rx_state : rx_state (W := ex_heap) :=
  mkRxState (set_ring_callbacks true true false true (example_ring ENA_RING_TYPE_RX 4)) example_rxq [] (mkExHeap 0 ∅).

(** A frame of two fragments of 1500 and 60 bytes, in the slots 0 and 1. *)
Definition ex_rx_view : list ena_eth_io_rx_cdesc_base :=
  [mkRxCdesc 0x05000000 1500 0 7 0 0 0; mkRxCdesc 0x09000000 60 1 7 0 0 0; rx_cdesc_zero; rx_cdesc_zero].
Definition ex_rx_input : rx_input :=
  mkRxInput (fun _ _ _ => ex_rx_view) (fun _ => replicate (Z.to_nat 8192) 5) (fun _ => ex_rx_view).

Lemma ex_rx_inv : rx_inv [] [] [] ex_rx_state.
Proof.
  split; simpl; try done.
  - by apply (wf_rx_same (example_ring ENA_RING_TYPE_RX 4)); try done; apply example_rx_wf.
  - by destruct example_rxq_ready.
  - apply example_rxq_unmapped.
  - constructor.
  - intros x Hx. change (rx_owned _ _) with (@nil Z) in Hx. set_solver.
  - intros b nb Hb. apply (elem_of_replicate 4 buf_empty b) in Hb as [-> _]. done.
  - set_solver.
Qed.


(** A fragment that neither starts nor ends a frame, with no frame in progress, is handed
    to the stack as a frame of its own; the ring layer reports such a fragment after it
    dropped the first one. *)
Lemma rx_stray_fragment :
  match rx_one_ring 6 6 0 (mkRxInput (fun _ _ _ => [mkRxCdesc 0x01000000 60 0 7 0 0 0; rx_cdesc_zero; rx_cdesc_zero; rx_cdesc_zero])
          (in_bounce ex_rx_input) (in_status ex_rx_input)) ex_rx_state with
  | Ret (ret, dlv, s', _) => (ret, dlv, xr_chain s') = (3, [100], [])
  | _ => False
  end.
Proof. by vm_compute. Qed.
