(* ===== verification/Adapter.v ===== *)
(** * The adapter and the world of the control plane

    [struct ena_adapter] (include/ena.h), and the state the control-plane code
    acts on: the adapter, the C heap, the memory of the three admin queues, the
    device behind BAR0 and the log of what the driver did.  Control-plane code is
    written in a state monad [M] over the outcomes of [Prelude].

    The device is an instance of [EnaDevice]: it answers register reads, reacts
    to register writes, and changes the admin queue memory on its own.  It may act
    before every single read of that memory by the driver. *)

From stdpp Require Import base tactics option list list_numbers numbers sets gmap.
From Stdlib Require Import ZArith Lia.
From S2P Require Import Prelude Fifo Mem Desc Netq Ring.

Inductive ena_state :=
| ENA_STATE_UNINITIALIZED
| ENA_STATE_PCI_PROBED
| ENA_STATE_ADMIN_READY
| ENA_STATE_CONFIGURED
| ENA_STATE_RUNNING
| ENA_STATE_STOPPED
| ENA_STATE_ERROR.

#[export] Instance ena_state_eq_dec : EqDecision ena_state.
Proof. solve_decision. Defined.

(** The event handlers: the one of the driver, or another one by number. *)
Inductive aenq_handler_fn :=
| AenqDefault
| AenqOther (f : Z).

(** One admin queue: the fields [aq_base], [aq_phys], [aq_depth], [aq_tail],
    [aq_phase] of the adapter, and those of the completion ([acq_]) and event
    ([aenq_]) queues.  [q_idx] is [aq_tail], [acq_head] or [aenq_head]. *)
Record admin_q := mkAdminQ {
  q_base : option Z;
  q_phys : Z;
  q_depth : Z;
  q_idx : Z;
  q_phase : Z
}.

Definition set_q_base (v : option Z) (s : admin_q) : admin_q :=
  mkAdminQ v (q_phys s) (q_depth s) (q_idx s) (q_phase s).
Definition set_q_idx (v : Z) (s : admin_q) : admin_q :=
  mkAdminQ (q_base s) (q_phys s) (q_depth s) v (q_phase s).
Definition set_q_phase (v : Z) (s : admin_q) : admin_q :=
  mkAdminQ (q_base s) (q_phys s) (q_depth s) (q_idx s) v.

(** Last keep-alive report, and the event groups enabled on the device. *)
Record aen_report := mkAen {
  aen_keepalives : Z;
  aen_rx_drops : Z;
  aen_tx_drops : Z;
  aenq_enabled_groups : Z
}.

Definition set_aen_keepalives (v : Z) (s : aen_report) : aen_report :=
  mkAen v (aen_rx_drops s) (aen_tx_drops s) (aenq_enabled_groups s).
Definition set_aen_rx_drops (v : Z) (s : aen_report) : aen_report :=
  mkAen (aen_keepalives s) v (aen_tx_drops s) (aenq_enabled_groups s).
Definition set_aen_tx_drops (v : Z) (s : aen_report) : aen_report :=
  mkAen (aen_keepalives s) (aen_rx_drops s) v (aenq_enabled_groups s).
Definition set_aenq_enabled_groups (v : Z) (s : aen_report) : aen_report :=
  mkAen (aen_keepalives s) (aen_rx_drops s) (aen_tx_drops s) v.

(** The registers read at probe time. *)
Record version_regs := mkVer {
  ad_version : Z;
  controller_version : Z;
  ad_caps : Z
}.

(** Device attributes. *)
Record device_attr := mkAttr {
  impl_id : Z;
  device_version : Z;
  supported_features : Z;
  attr_caps : Z;
  phys_addr_width : Z;
  virt_addr_width : Z;
  mac_addr : list Z;
  max_mtu : Z
}.

(** Queue limits. *)
Record queue_limits := mkLimits {
  max_tx_queues : Z;
  max_rx_queues : Z;
  max_tx_ring_size : Z;
  max_rx_ring_size : Z;
  max_header_size : Z;
  max_packet_tx_descs : Z;
  max_packet_rx_descs : Z
}.

(** LLQ configuration. *)
Record ena_llq_info := mkLlqInfo {
  llq_supported : bool;
  llq_enabled : bool;
  max_llq_num : Z;
  max_llq_depth : Z;
  llq_info_header_len : Z;
  llq_info_entry_size : Z
}.

(** RSS state.  A table is its heap block and its contents (16-bit queue indices
    for the two tables, bytes for the key and the control buffer). *)
Record ena_rss_info := mkRssInfo {
  rss_supported : bool;
  rss_enabled : bool;
  ind_table_size : Z;
  host_ind_table : option (Z * list Z);
  ind_table : option (Z * list Z);
  ind_table_phys : Z;
  hash_key : option (Z * list Z);
  hash_key_phys : Z;
  hash_ctrl : option (Z * list Z);
  hash_ctrl_phys : Z
}.

Definition set_rss_supported (v : bool) (s : ena_rss_info) : ena_rss_info :=
  mkRssInfo v (rss_enabled s) (ind_table_size s) (host_ind_table s) (ind_table s)
    (ind_table_phys s) (hash_key s) (hash_key_phys s) (hash_ctrl s) (hash_ctrl_phys s).
Definition set_rss_enabled (v : bool) (s : ena_rss_info) : ena_rss_info :=
  mkRssInfo (rss_supported s) v (ind_table_size s) (host_ind_table s) (ind_table s)
    (ind_table_phys s) (hash_key s) (hash_key_phys s) (hash_ctrl s) (hash_ctrl_phys s).
Definition set_ind_table_size (v : Z) (s : ena_rss_info) : ena_rss_info :=
  mkRssInfo (rss_supported s) (rss_enabled s) v (host_ind_table s) (ind_table s) (ind_table_phys
    s) (hash_key s) (hash_key_phys s) (hash_ctrl s) (hash_ctrl_phys s).
Definition set_host_ind_table (v : option (Z * list Z)) (s : ena_rss_info) : ena_rss_info :=
  mkRssInfo (rss_supported s) (rss_enabled s) (ind_table_size s) v (ind_table s) (ind_table_phys
    s) (hash_key s) (hash_key_phys s) (hash_ctrl s) (hash_ctrl_phys s).
Definition set_ind_table (v : option (Z * list Z)) (s : ena_rss_info) : ena_rss_info :=
  mkRssInfo (rss_supported s) (rss_enabled s) (ind_table_size s) (host_ind_table s) v
    (ind_table_phys s) (hash_key s) (hash_key_phys s) (hash_ctrl s) (hash_ctrl_phys s).
Definition set_ind_table_phys (v : Z) (s : ena_rss_info) : ena_rss_info :=
  mkRssInfo (rss_supported s) (rss_enabled s) (ind_table_size s) (host_ind_table s) (ind_table
    s) v (hash_key s) (hash_key_phys s) (hash_ctrl s) (hash_ctrl_phys s).
Definition set_hash_key (v : option (Z * list Z)) (s : ena_rss_info) : ena_rss_info :=
  mkRssInfo (rss_supported s) (rss_enabled s) (ind_table_size s) (host_ind_table s) (ind_table
    s) (ind_table_phys s) v (hash_key_phys s) (hash_ctrl s) (hash_ctrl_phys s).
Definition set_hash_key_phys (v : Z) (s : ena_rss_info) : ena_rss_info :=
  mkRssInfo (rss_supported s) (rss_enabled s) (ind_table_size s) (host_ind_table s) (ind_table
    s) (ind_table_phys s) (hash_key s) v (hash_ctrl s) (hash_ctrl_phys s).
Definition set_hash_ctrl (v : option (Z * list Z)) (s : ena_rss_info) : ena_rss_info :=
  mkRssInfo (rss_supported s) (rss_enabled s) (ind_table_size s) (host_ind_table s) (ind_table
    s) (ind_table_phys s) (hash_key s) (hash_key_phys s) v (hash_ctrl_phys s).
Definition set_hash_ctrl_phys (v : Z) (s : ena_rss_info) : ena_rss_info :=
  mkRssInfo (rss_supported s) (rss_enabled s) (ind_table_size s) (host_ind_table s) (ind_table
    s) (ind_table_phys s) (hash_key s) (hash_key_phys s) (hash_ctrl s) v.

(** The mapped BARs. *)
Record adapter_bars := mkBars {
  bar0_base : option Z;
  bar0_size : Z;
  bar2_base : option Z;
  bar2_size : Z
}.

(** Admin queues, command ids, the lock, and the registered event handler.
    [aenq_handler_arg] says whether the argument is the adapter (or NULL). *)
Record admin_state := mkAdmin {
  aq : admin_q;
  next_command_id : Z;
  admin_lock : Z;
  acq : admin_q;
  aenq : admin_q;
  aenq_handler : option aenq_handler_fn;
  aenq_handler_arg : bool
}.

Definition set_aq (v : admin_q) (s : admin_state) : admin_state :=
  mkAdmin v (next_command_id s) (admin_lock s) (acq s) (aenq s) (aenq_handler s)
    (aenq_handler_arg s).
Definition set_next_command_id (v : Z) (s : admin_state) : admin_state :=
  mkAdmin (aq s) v (admin_lock s) (acq s) (aenq s) (aenq_handler s) (aenq_handler_arg s).
Definition set_admin_lock (v : Z) (s : admin_state) : admin_state :=
  mkAdmin (aq s) (next_command_id s) v (acq s) (aenq s) (aenq_handler s) (aenq_handler_arg s).
Definition set_acq (v : admin_q) (s : admin_state) : admin_state :=
  mkAdmin (aq s) (next_command_id s) (admin_lock s) v (aenq s) (aenq_handler s)
    (aenq_handler_arg s).
Definition set_aenq (v : admin_q) (s : admin_state) : admin_state :=
  mkAdmin (aq s) (next_command_id s) (admin_lock s) (acq s) v (aenq_handler s) (aenq_handler_arg
    s).
Definition set_aenq_handler (v : option aenq_handler_fn) (s : admin_state) : admin_state :=
  mkAdmin (aq s) (next_command_id s) (admin_lock s) (acq s) (aenq s) v (aenq_handler_arg s).
Definition set_aenq_handler_arg (v : bool) (s : admin_state) : admin_state :=
  mkAdmin (aq s) (next_command_id s) (admin_lock s) (acq s) (aenq s) (aenq_handler s) v.

(** The host information buffer, with its contents. *)
Record host_info := mkHostInfo {
  host_info_base : option Z;
  host_info_phys : Z;
  host_info_data : list Z
}.

(** The IO rings, and the heap blocks of the two arrays of pointers. *)
Record io_rings := mkIo {
  tx_rings : arr (option ena_ring);
  rx_rings : arr (option ena_ring);
  num_tx_rings : Z;
  num_rx_rings : Z;
  tx_rings_blk : option Z;
  rx_rings_blk : option Z
}.

Definition set_tx_rings (v : arr (option ena_ring)) (s : io_rings) : io_rings :=
  mkIo v (rx_rings s) (num_tx_rings s) (num_rx_rings s) (tx_rings_blk s) (rx_rings_blk s).
Definition set_rx_rings (v : arr (option ena_ring)) (s : io_rings) : io_rings :=
  mkIo (tx_rings s) v (num_tx_rings s) (num_rx_rings s) (tx_rings_blk s) (rx_rings_blk s).
Definition set_num_tx_rings (v : Z) (s : io_rings) : io_rings :=
  mkIo (tx_rings s) (rx_rings s) v (num_rx_rings s) (tx_rings_blk s) (rx_rings_blk s).
Definition set_num_rx_rings (v : Z) (s : io_rings) : io_rings :=
  mkIo (tx_rings s) (rx_rings s) (num_tx_rings s) v (tx_rings_blk s) (rx_rings_blk s).

(** An MSI-X vector (include/ena_intr.h). *)
Record ena_irq_vector := mkVector {
  vector_id : Z;
  queue_id : Z;
  is_admin : bool;
  masked : bool;
  moderation_interval_usec : Z;
  intr_count : Z
}.

(** The adapter.  [irq_vectors] is the heap block and the contents of the vector table. *)
Record ena_adapter := mkAdapter {
  ad_bars : adapter_bars;
  ad_state : ena_state;
  ad_adm : admin_state;
  recover_active : Z;
  ad_aen : aen_report;
  link_up : bool;
  ad_ver : version_regs;
  ad_attr : device_attr;
  ad_lim : queue_limits;
  ad_mtu : Z;
  ad_host : host_info;
  ad_io : io_rings;
  irq_vectors : option (Z * list ena_irq_vector);
  num_irq_vectors : Z;
  llq_info : ena_llq_info;
  rss_info : ena_rss_info
}.

Definition set_ad_state (v : ena_state) (a : ena_adapter) : ena_adapter :=
  mkAdapter (ad_bars a) v (ad_adm a) (recover_active a) (ad_aen a) (link_up a) (ad_ver a)
    (ad_attr a) (ad_lim a) (ad_mtu a) (ad_host a) (ad_io a) (irq_vectors a) (num_irq_vectors a)
    (llq_info a) (rss_info a).
Definition set_ad_adm (v : admin_state) (a : ena_adapter) : ena_adapter :=
  mkAdapter (ad_bars a) (ad_state a) v (recover_active a) (ad_aen a) (link_up a) (ad_ver a)
    (ad_attr a) (ad_lim a) (ad_mtu a) (ad_host a) (ad_io a) (irq_vectors a) (num_irq_vectors a)
    (llq_info a) (rss_info a).
Definition set_recover_active (v : Z) (a : ena_adapter) : ena_adapter :=
  mkAdapter (ad_bars a) (ad_state a) (ad_adm a) v (ad_aen a) (link_up a) (ad_ver a) (ad_attr a)
    (ad_lim a) (ad_mtu a) (ad_host a) (ad_io a) (irq_vectors a) (num_irq_vectors a) (llq_info a)
    (rss_info a).
Definition set_ad_aen (v : aen_report) (a : ena_adapter) : ena_adapter :=
  mkAdapter (ad_bars a) (ad_state a) (ad_adm a) (recover_active a) v (link_up a) (ad_ver a)
    (ad_attr a) (ad_lim a) (ad_mtu a) (ad_host a) (ad_io a) (irq_vectors a) (num_irq_vectors a)
    (llq_info a) (rss_info a).
Definition set_link_up (v : bool) (a : ena_adapter) : ena_adapter :=
  mkAdapter (ad_bars a) (ad_state a) (ad_adm a) (recover_active a) (ad_aen a) v (ad_ver a)
    (ad_attr a) (ad_lim a) (ad_mtu a) (ad_host a) (ad_io a) (irq_vectors a) (num_irq_vectors a)
    (llq_info a) (rss_info a).
Definition set_ad_ver (v : version_regs) (a : ena_adapter) : ena_adapter :=
  mkAdapter (ad_bars a) (ad_state a) (ad_adm a) (recover_active a) (ad_aen a) (link_up a) v
    (ad_attr a) (ad_lim a) (ad_mtu a) (ad_host a) (ad_io a) (irq_vectors a) (num_irq_vectors a)
    (llq_info a) (rss_info a).
Definition set_ad_attr (v : device_attr) (a : ena_adapter) : ena_adapter :=
  mkAdapter (ad_bars a) (ad_state a) (ad_adm a) (recover_active a) (ad_aen a) (link_up a)
    (ad_ver a) v (ad_lim a) (ad_mtu a) (ad_host a) (ad_io a) (irq_vectors a) (num_irq_vectors a)
    (llq_info a) (rss_info a).
Definition set_ad_lim (v : queue_limits) (a : ena_adapter) : ena_adapter :=
  mkAdapter (ad_bars a) (ad_state a) (ad_adm a) (recover_active a) (ad_aen a) (link_up a)
    (ad_ver a) (ad_attr a) v (ad_mtu a) (ad_host a) (ad_io a) (irq_vectors a) (num_irq_vectors
    a) (llq_info a) (rss_info a).
Definition set_ad_mtu (v : Z) (a : ena_adapter) : ena_adapter :=
  mkAdapter (ad_bars a) (ad_state a) (ad_adm a) (recover_active a) (ad_aen a) (link_up a)
    (ad_ver a) (ad_attr a) (ad_lim a) v (ad_host a) (ad_io a) (irq_vectors a) (num_irq_vectors
    a) (llq_info a) (rss_info a).
Definition set_ad_host (v : host_info) (a : ena_adapter) : ena_adapter :=
  mkAdapter (ad_bars a) (ad_state a) (ad_adm a) (recover_active a) (ad_aen a) (link_up a)
    (ad_ver a) (ad_attr a) (ad_lim a) (ad_mtu a) v (ad_io a) (irq_vectors a) (num_irq_vectors a)
    (llq_info a) (rss_info a).
Definition set_ad_io (v : io_rings) (a : ena_adapter) : ena_adapter :=
  mkAdapter (ad_bars a) (ad_state a) (ad_adm a) (recover_active a) (ad_aen a) (link_up a)
    (ad_ver a) (ad_attr a) (ad_lim a) (ad_mtu a) (ad_host a) v (irq_vectors a) (num_irq_vectors
    a) (llq_info a) (rss_info a).
Definition set_irq_vectors (v : option (Z * list ena_irq_vector)) (a : ena_adapter) : ena_adapter :=
  mkAdapter (ad_bars a) (ad_state a) (ad_adm a) (recover_active a) (ad_aen a) (link_up a)
    (ad_ver a) (ad_attr a) (ad_lim a) (ad_mtu a) (ad_host a) (ad_io a) v (num_irq_vectors a)
    (llq_info a) (rss_info a).
Definition set_num_irq_vectors (v : Z) (a : ena_adapter) : ena_adapter :=
  mkAdapter (ad_bars a) (ad_state a) (ad_adm a) (recover_active a) (ad_aen a) (link_up a)
    (ad_ver a) (ad_attr a) (ad_lim a) (ad_mtu a) (ad_host a) (ad_io a) (irq_vectors a) v
    (llq_info a) (rss_info a).
Definition set_llq_info (v : ena_llq_info) (a : ena_adapter) : ena_adapter :=
  mkAdapter (ad_bars a) (ad_state a) (ad_adm a) (recover_active a) (ad_aen a) (link_up a)
    (ad_ver a) (ad_attr a) (ad_lim a) (ad_mtu a) (ad_host a) (ad_io a) (irq_vectors a)
    (num_irq_vectors a) v (rss_info a).
Definition set_rss_info (v : ena_rss_info) (a : ena_adapter) : ena_adapter :=
  mkAdapter (ad_bars a) (ad_state a) (ad_adm a) (recover_active a) (ad_aen a) (link_up a)
    (ad_ver a) (ad_attr a) (ad_lim a) (ad_mtu a) (ad_host a) (ad_io a) (irq_vectors a)
    (num_irq_vectors a) (llq_info a) v.

(** The adapter after [memset], with its register window. *)
Definition admin_q_zero : admin_q := mkAdminQ None 0 0 0 0.
Definition adapter_zero (bar0 : option Z) (bar0_size : Z) : ena_adapter :=
  mkAdapter (mkBars bar0 bar0_size None 0) ENA_STATE_UNINITIALIZED
    (mkAdmin admin_q_zero 0 0 admin_q_zero admin_q_zero None false) 0
    (mkAen 0 0 0 0) false (mkVer 0 0 0) (mkAttr 0 0 0 0 0 0 (replicate 6 0) 0) (mkLimits 0 0 0 0 0 0 0) 0
    (mkHostInfo None 0 []) (mkIo None None 0 0 None None) None 0 (mkLlqInfo false false 0 0 0 0)
    (mkRssInfo false false 0 None None 0 None 0 None 0).

(** ** Register offsets (include/ena_regs.h) *)
Definition ENA_REGS_VERSION_OFF : Z := 0x00.
Definition ENA_REGS_CONTROLLER_VERSION_OFF : Z := 0x04.
Definition ENA_REGS_CAPS_OFF : Z := 0x08.
Definition ENA_REGS_AQ_BASE_LO_OFF : Z := 0x10.
Definition ENA_REGS_AQ_BASE_HI_OFF : Z := 0x14.
Definition ENA_REGS_AQ_CAPS_OFF : Z := 0x18.
Definition ENA_REGS_ACQ_BASE_LO_OFF : Z := 0x20.
Definition ENA_REGS_ACQ_BASE_HI_OFF : Z := 0x24.
Definition ENA_REGS_ACQ_CAPS_OFF : Z := 0x28.
Definition ENA_REGS_AQ_DB_OFF : Z := 0x2C.
Definition ENA_REGS_ACQ_TAIL_OFF : Z := 0x30.
Definition ENA_REGS_AENQ_CAPS_OFF : Z := 0x34.
Definition ENA_REGS_AENQ_BASE_LO_OFF : Z := 0x38.
Definition ENA_REGS_AENQ_BASE_HI_OFF : Z := 0x3C.
Definition ENA_REGS_AENQ_HEAD_DB_OFF : Z := 0x40.
Definition ENA_REGS_INTR_MASK_OFF : Z := 0x4C.
Definition ENA_REGS_DEV_CTL_OFF : Z := 0x54.
Definition ENA_REGS_DEV_STS_OFF : Z := 0x58.
Definition ENA_REGS_AQ_CAPS_AQ_DEPTH_MASK : Z := 0x0000FFFF.
Definition ENA_REGS_AQ_CAPS_AQ_ENTRY_SIZE_SHIFT : Z := 16.
Definition ENA_REGS_ACQ_CAPS_ACQ_DEPTH_MASK : Z := 0x0000FFFF.
Definition ENA_REGS_ACQ_CAPS_ACQ_ENTRY_SIZE_SHIFT : Z := 16.
Definition ENA_REGS_AENQ_CAPS_AENQ_DEPTH_MASK : Z := 0x0000FFFF.
Definition ENA_REGS_AENQ_CAPS_AENQ_ENTRY_SIZE_SHIFT : Z := 16.
Definition ENA_DEV_CTL_DEV_RESET_MASK : Z := 0x00000001.
Definition ENA_DEV_CTL_RESET_REASON_MASK : Z := 0xF0000000.
Definition ENA_DEV_STS_READY_MASK : Z := 0x00000001.
Definition ENA_DEV_STS_RESET_IN_PROG_MASK : Z := 0x00000008.
Definition ENA_DEV_STS_RESET_FIN_MASK : Z := 0x00000010.
Definition ENA_DEV_STS_FATAL_ERROR_MASK : Z := 0x00000020.

(** ** Device and world *)

(** The entries of the admin queues, 64 bytes each. *)
Record admin_mem := mkMem {
  m_aq : list (list Z);
  m_acq : list (list Z);
  m_aenq : list (list Z)
}.

Definition set_m_aq (v : list (list Z)) (m : admin_mem) : admin_mem := mkMem v (m_acq m) (m_aenq m).
Definition set_m_acq (v : list (list Z)) (m : admin_mem) : admin_mem := mkMem (m_aq m) v (m_aenq m).

Class EnaDevice (D : Type) := {
  dev_read : Z -> D -> Z * D;                       (* 32-bit read at an offset of BAR0 *)
  dev_write : Z -> Z -> D -> D;                     (* 32-bit write at an offset of BAR0 *)
  dev_run : admin_mem -> D -> admin_mem * D         (* DMA to the admin queues *)
}.

Definition is_byte (x : Z) : Prop := 0 <= x < 256.
Definition entry_ok (e : list Z) : Prop := length e = 64%nat /\ Forall is_byte e.

(** What the driver relies on: the device stays inside the queues it writes, does
    not write the request queue, and registers are 32 bits wide. *)
Class EnaDeviceOk (D : Type) `{EnaDevice D} : Prop := {
  dev_run_aq m d : m_aq (dev_run m d).1 = m_aq m;
  dev_run_acq m d : Forall entry_ok (m_acq m) ->
    Forall entry_ok (m_acq (dev_run m d).1) /\ length (m_acq (dev_run m d).1) = length (m_acq m);
  dev_run_aenq m d : Forall entry_ok (m_aenq m) ->
    Forall entry_ok (m_aenq (dev_run m d).1) /\ length (m_aenq (dev_run m d).1) = length (m_aenq m);
  dev_read_range off d : 0 <= (dev_read off d).1 < 2 ^ 32
}.

(** ** The driver's state around the adapter

    [struct ena_uk_device] (include/ena_netdev.h) embeds the adapter and the arrays of
    queues.  A queue points to its ring by the address of the ring's heap block; its
    bounce pool is the one of [Netq]. *)
Record bounce_blocks := mkBounceBlk {
  blk_bounce_buf : option Z;
  blk_bounce_ids : option Z;
  blk_bounce_map : option Z
}.

Record rxq_slot := mkRxSlot {
  rxs_ring : option Z;
  rxs_id : Z;
  rxs_q : uk_netdev_rx_queue;
  rxs_blk : bounce_blocks;
  rxs_chain : list Z          (* chain_head .. chain_tail *)
}.

Record txq_slot := mkTxSlot {
  txs_ring : option Z;
  txs_id : Z;
  txs_q : uk_netdev_tx_queue;
  txs_blk : bounce_blocks;
  txs_req_id : Z                    (* bounce_req_id *)
}.

Definition set_rxs_q (v : uk_netdev_rx_queue) (s : rxq_slot) : rxq_slot :=
  mkRxSlot (rxs_ring s) (rxs_id s) v (rxs_blk s) (rxs_chain s).
Definition set_rxs_chain (v : list Z) (s : rxq_slot) : rxq_slot :=
  mkRxSlot (rxs_ring s) (rxs_id s) (rxs_q s) (rxs_blk s) v.
Definition set_txs_q (v : uk_netdev_tx_queue) (s : txq_slot) : txq_slot :=
  mkTxSlot (txs_ring s) (txs_id s) v (txs_blk s) (txs_req_id s).

(** The address of a function on the PCI bus ([struct pci_address] of the kernel). *)
Record pci_address := mkPciAddr { bus : Z; devid : Z; function : Z }.

(** The static state of the MSI-X code of src/ena_plat.c: the armed vectors and the
    place of the table.  [msix_fire] says whether [req.on_fire] is set; the only request
    the driver makes passes [msix_on_fire] and the adapter. *)
Record ena_msix_loc := mkMsixLoc {
  loc_pci_dev : option pci_address;
  msgctl_off : Z;
  msix_count : Z;
  msix_table : Z;
  msix_pba : Z
}.
Record msix_state := mkMsix {
  msix_armed : bool;
  msix_nvec : Z;
  msix_irqs : list Z;
  msix_counts : list Z;
  msix_fire : bool;
  msix_loc : ena_msix_loc
}.

(** With the core that runs, and what the netbuf allocator will answer. *)
Record uk_state := mkUk {
  uk_cpu : Z;
  rx_queues : list rxq_slot;
  tx_queues : list txq_slot;
  s_msix : msix_state;
  uk_netbufs : list (option netbuf)
}.

Definition set_rx_queues (v : list rxq_slot) (u : uk_state) : uk_state :=
  mkUk (uk_cpu u) v (tx_queues u) (s_msix u) (uk_netbufs u).
Definition set_tx_queues (v : list txq_slot) (u : uk_state) : uk_state :=
  mkUk (uk_cpu u) (rx_queues u) v (s_msix u) (uk_netbufs u).
Definition set_s_msix (v : msix_state) (u : uk_state) : uk_state :=
  mkUk (uk_cpu u) (rx_queues u) (tx_queues u) v (uk_netbufs u).
Definition set_uk_netbufs (v : list (option netbuf)) (u : uk_state) : uk_state :=
  mkUk (uk_cpu u) (rx_queues u) (tx_queues u) (s_msix u) v.

(** The state after the [uk_calloc] of the probe. *)
Definition ENA_NETDEV_MAX_QUEUES : Z := 8.
Definition ENA_PLAT_MSIX_MAX_VECTORS : Z := 32.
Definition bounce_zero : bounce_pool := mkBounce false 0 0 fifo_null None.
Definition rxq_zero : rxq_slot := mkRxSlot None 0 (mkRxq bounce_zero 0) (mkBounceBlk None None None) [].
Definition txq_zero : txq_slot := mkTxSlot None 0 (mkTxq bounce_zero false 0) (mkBounceBlk None None None) 0.
Definition msix_zero : msix_state :=
  mkMsix false 0 (replicate (Z.to_nat ENA_PLAT_MSIX_MAX_VECTORS) 0) (replicate (Z.to_nat ENA_PLAT_MSIX_MAX_VECTORS) 0)
    false (mkMsixLoc None 0 0 0 0).
Definition uk_zero : uk_state :=
  mkUk 0 (replicate (Z.to_nat ENA_NETDEV_MAX_QUEUES) rxq_zero) (replicate (Z.to_nat ENA_NETDEV_MAX_QUEUES) txq_zero)
    msix_zero [].

#[export] Instance oracle_netbufs : NetbufAlloc (list (option netbuf)) := fun l =>
  match l with [] => (None, []) | o :: l => (o, l) end.

Record world (D : Type) := mkWorld {
  w_uk : uk_state;
  w_adapter : ena_adapter;
  w_heap : heap;
  w_mem : admin_mem;
  w_dev : D;
  w_log : list event               (* oldest first *)
}.
Arguments mkWorld {D} _ _ _ _ _ _.
Arguments w_uk {D} _.
Arguments w_adapter {D} _.
Arguments w_heap {D} _.
Arguments w_mem {D} _.
Arguments w_dev {D} _.
Arguments w_log {D} _.

Section World.
Context {D : Type}.
Definition set_w_uk (v : uk_state) (w : world D) : world D :=
  mkWorld v (w_adapter w) (w_heap w) (w_mem w) (w_dev w) (w_log w).
Definition set_w_adapter (v : ena_adapter) (w : world D) : world D :=
  mkWorld (w_uk w) v (w_heap w) (w_mem w) (w_dev w) (w_log w).
Definition set_w_heap (v : heap) (w : world D) : world D :=
  mkWorld (w_uk w) (w_adapter w) v (w_mem w) (w_dev w) (w_log w).
Definition set_w_mem (v : admin_mem) (w : world D) : world D :=
  mkWorld (w_uk w) (w_adapter w) (w_heap w) v (w_dev w) (w_log w).
Definition set_w_dev (v : D) (w : world D) : world D :=
  mkWorld (w_uk w) (w_adapter w) (w_heap w) (w_mem w) v (w_log w).
Definition set_w_log (v : list event) (w : world D) : world D :=
  mkWorld (w_uk w) (w_adapter w) (w_heap w) (w_mem w) (w_dev w) v.
End World.

(** ** The control-plane monad *)
Definition M (D A : Type) : Type := world D -> res (A * world D).

#[global] Instance M_ret D : MRet (M D) := fun A a w => Ret (a, w).
#[global] Instance M_bind D : MBind (M D) := fun A B f m w =>
  match m w with
  | Ret (a, w') => f a w'
  | Fault => Fault
  | Hang => Hang
  end.

(** [wpm m Q w]: from [w], [m] returns with a result and a world in [Q]. *)
Definition wpm {D A} (m : M D A) (Q : A -> world D -> Prop) (w : world D) : Prop :=
  wp (m w) (fun '(a, w') => Q a w').

Lemma M_bind_ret {D A B} (m : M D A) (f : A -> M D B) w a w' :
  m w = Ret (a, w') -> (m ≫= f) w = f a w'.
Proof. unfold mbind, M_bind. by intros ->. Qed.

Section Wpm.
Context {D A B : Type}.
Implicit Types (m : M D A) (Q : A -> world D -> Prop).

Lemma wpm_ret (a : A) Q w : Q a w -> wpm (mret a) Q w.
Proof. done. Qed.
Lemma wpm_bind m (f : A -> M D B) (Q : B -> world D -> Prop) w :
  wpm m (fun a => wpm (f a) Q) w -> wpm (m ≫= f) Q w.
Proof. unfold wpm, mbind, M_bind. by destruct (m w) as [[a w'] | |]. Qed.
Lemma wpm_mono m Q Q' w : wpm m Q w -> (forall a w', Q a w' -> Q' a w') -> wpm m Q' w.
Proof. unfold wpm. destruct (m w) as [[a w'] | |]; simpl; auto. Qed.
Lemma wpm_conj m Q Q' w : wpm m Q w -> wpm m Q' w -> wpm m (fun a w' => Q a w' /\ Q' a w') w.
Proof. unfold wpm. destruct (m w) as [[a w'] | |]; simpl; auto. Qed.
Lemma wpm_of_result m Q w a w' : m w = Ret (a, w') -> Q a w' -> wpm m Q w.
Proof. unfold wpm. by intros ->. Qed.
Lemma wpm_result m Q w a w' : m w = Ret (a, w') -> wpm m Q w -> Q a w'.
Proof. unfold wpm. by intros ->. Qed.
End Wpm.

Section Ops.
Context {D : Type} `{EnaDevice D}.

Definition get_ad : M D ena_adapter := fun w => Ret (w_adapter w, w).
Definition put_ad (a : ena_adapter) : M D unit := fun w => Ret (tt, set_w_adapter a w).
Definition mod_ad (f : ena_adapter -> ena_adapter) : M D unit :=
  fun w => Ret (tt, set_w_adapter (f (w_adapter w)) w).
Definition mod_adm (f : admin_state -> admin_state) : M D unit :=
  mod_ad (fun a => set_ad_adm (f (ad_adm a)) a).
Definition get_uk : M D uk_state := fun w => Ret (w_uk w, w).
Definition mod_uk (f : uk_state -> uk_state) : M D unit := fun w => Ret (tt, set_w_uk (f (w_uk w)) w).
Definition emit (es : list event) : M D unit := fun w => Ret (tt, set_w_log (w_log w ++ es) w).
Definition lift {A} (m : res A) : M D A := fun w => a ← m; Ret (a, w).

(** The device acts. *)
Definition tick : M D unit := fun w =>
  let '(m, d) := dev_run (w_mem w) (w_dev w) in Ret (tt, set_w_mem m (set_w_dev d w)).

Definition reg_read32 (off : Z) : M D Z := fun w =>
  match bar0_base (ad_bars (w_adapter w)) with
  | Some _ => let '(v, d) := dev_read off (w_dev w) in Ret (v, set_w_dev d w)
  | None => Fault
  end.
Definition reg_write32 (off v : Z) : M D unit := fun w =>
  match bar0_base (ad_bars (w_adapter w)) with
  | Some b => Ret (tt, set_w_dev (dev_write off v (w_dev w)) (set_w_log (w_log w ++ [EvWrite32 (b + off) v]) w))
  | None => Fault
  end.

Definition calloc : M D (option Z) := fun w =>
  let '(p, h) := heap_alloc (w_heap w) in Ret (p, set_w_heap h w).
Definition free (p : option Z) : M D unit := fun w =>
  h ← heap_free (w_heap w) p; Ret (tt, set_w_heap h w).
Definition dma_alloc : M D (option (Z * Z)) := fun w =>
  let '(p, h) := ena_dma_alloc (w_heap w) in Ret (p, set_w_heap h w).
Definition dma_free (p : option Z) : M D unit := fun w =>
  h ← ena_dma_free (w_heap w) p; Ret (tt, set_w_heap h w).

(** The driver's own accesses to the request queue, and its reads of an entry of
    the completion queue: the device may have written it just before. *)
Definition aq_put (idx : Z) (e : list Z) : M D unit := fun w =>
  if non_null (q_base (aq (ad_adm (w_adapter w)))) then
    l ← aset (Some (m_aq (w_mem w))) idx e;
    Ret (tt, set_w_mem (set_m_aq (default [] l) (w_mem w)) w)
  else Fault.
Definition acq_put (idx : Z) (e : list Z) : M D unit := fun w =>
  if non_null (q_base (acq (ad_adm (w_adapter w)))) then
    l ← aset (Some (m_acq (w_mem w))) idx e;
    Ret (tt, set_w_mem (set_m_acq (default [] l) (w_mem w)) w)
  else Fault.
Definition acq_peek (idx : Z) : M D (list Z) := fun w =>
  if non_null (q_base (acq (ad_adm (w_adapter w)))) then
    e ← aget (Some (m_acq (w_mem w))) idx; Ret (e, w)
  else Fault.
Definition acq_get (idx : Z) : M D (list Z) := tick;; acq_peek idx.
Definition aenq_peek (idx : Z) : M D (list Z) := fun w =>
  if non_null (q_base (aenq (ad_adm (w_adapter w)))) then
    e ← aget (Some (m_aenq (w_mem w))) idx; Ret (e, w)
  else Fault.
Definition aenq_get (idx : Z) : M D (list Z) := tick;; aenq_peek idx.
End Ops.

(** Reduces field accesses and updates, and nothing else. *)
Ltac wsimpl := cbn [
    q_base q_phys q_depth q_idx q_phase aen_keepalives aen_rx_drops aen_tx_drops aenq_enabled_groups
    ad_version controller_version ad_caps impl_id device_version supported_features attr_caps
    phys_addr_width virt_addr_width mac_addr max_mtu max_tx_queues max_rx_queues max_tx_ring_size
    max_rx_ring_size max_header_size max_packet_tx_descs max_packet_rx_descs llq_supported
    llq_enabled max_llq_num max_llq_depth llq_info_header_len llq_info_entry_size rss_supported
    rss_enabled ind_table_size host_ind_table ind_table ind_table_phys hash_key hash_key_phys
    hash_ctrl hash_ctrl_phys bar0_base bar0_size bar2_base bar2_size aq next_command_id admin_lock
    acq aenq aenq_handler aenq_handler_arg host_info_base host_info_phys host_info_data tx_rings rx_rings
    num_tx_rings num_rx_rings tx_rings_blk rx_rings_blk ad_bars ad_state ad_adm recover_active ad_aen link_up ad_ver ad_attr
    ad_lim ad_mtu ad_host ad_io irq_vectors num_irq_vectors llq_info rss_info set_q_base set_q_idx
    set_q_phase set_aen_keepalives set_aen_rx_drops set_aen_tx_drops set_aenq_enabled_groups
    set_rss_supported set_rss_enabled set_ind_table_size set_host_ind_table set_ind_table
    set_ind_table_phys set_hash_key set_hash_key_phys set_hash_ctrl set_hash_ctrl_phys set_aq
    set_next_command_id set_admin_lock set_acq set_aenq set_aenq_handler set_aenq_handler_arg
    set_tx_rings set_rx_rings set_num_tx_rings set_num_rx_rings set_ad_state set_ad_adm
    set_recover_active set_ad_aen set_link_up set_ad_ver set_ad_attr set_ad_lim set_ad_mtu
    set_ad_host set_ad_io set_irq_vectors set_num_irq_vectors set_llq_info set_rss_info m_aq m_acq
    m_aenq set_m_aq set_m_acq w_uk w_adapter w_heap w_mem w_dev w_log set_w_uk set_w_adapter set_w_heap
    set_w_mem set_w_dev set_w_log fst snd non_null].
Ltac wsimpl_all := cbn [
    q_base q_phys q_depth q_idx q_phase aen_keepalives aen_rx_drops aen_tx_drops aenq_enabled_groups
    ad_version controller_version ad_caps impl_id device_version supported_features attr_caps
    phys_addr_width virt_addr_width mac_addr max_mtu max_tx_queues max_rx_queues max_tx_ring_size
    max_rx_ring_size max_header_size max_packet_tx_descs max_packet_rx_descs llq_supported
    llq_enabled max_llq_num max_llq_depth llq_info_header_len llq_info_entry_size rss_supported
    rss_enabled ind_table_size host_ind_table ind_table ind_table_phys hash_key hash_key_phys
    hash_ctrl hash_ctrl_phys bar0_base bar0_size bar2_base bar2_size aq next_command_id admin_lock
    acq aenq aenq_handler aenq_handler_arg host_info_base host_info_phys host_info_data tx_rings rx_rings
    num_tx_rings num_rx_rings tx_rings_blk rx_rings_blk ad_bars ad_state ad_adm recover_active ad_aen link_up ad_ver ad_attr
    ad_lim ad_mtu ad_host ad_io irq_vectors num_irq_vectors llq_info rss_info set_q_base set_q_idx
    set_q_phase set_aen_keepalives set_aen_rx_drops set_aen_tx_drops set_aenq_enabled_groups
    set_rss_supported set_rss_enabled set_ind_table_size set_host_ind_table set_ind_table
    set_ind_table_phys set_hash_key set_hash_key_phys set_hash_ctrl set_hash_ctrl_phys set_aq
    set_next_command_id set_admin_lock set_acq set_aenq set_aenq_handler set_aenq_handler_arg
    set_tx_rings set_rx_rings set_num_tx_rings set_num_rx_rings set_ad_state set_ad_adm
    set_recover_active set_ad_aen set_link_up set_ad_ver set_ad_attr set_ad_lim set_ad_mtu
    set_ad_host set_ad_io set_irq_vectors set_num_irq_vectors set_llq_info set_rss_info m_aq m_acq
    m_aenq set_m_aq set_m_acq w_uk w_adapter w_heap w_mem w_dev w_log set_w_uk set_w_adapter set_w_heap
    set_w_mem set_w_dev set_w_log fst snd non_null] in *.

(** ** Rules for the operations *)
#[export] Hint Resolve wpm_ret : ena.

Section Rules.
Context {D : Type} `{EnaDevice D}.

Lemma wpm_get_ad (Q : ena_adapter -> world D -> Prop) w : Q (w_adapter w) w -> wpm get_ad Q w.
Proof. done. Qed.
Lemma wpm_mod_ad f (Q : unit -> world D -> Prop) w :
  Q tt (set_w_adapter (f (w_adapter w)) w) -> wpm (mod_ad f) Q w.
Proof. done. Qed.
Lemma wpm_mod_adm f (Q : unit -> world D -> Prop) w :
  Q tt (set_w_adapter (set_ad_adm (f (ad_adm (w_adapter w))) (w_adapter w)) w) -> wpm (mod_adm f) Q w.
Proof. done. Qed.
Lemma wpm_lift {A} (m : res A) a (Q : A -> world D -> Prop) w : m = Ret a -> Q a w -> wpm (lift m) Q w.
Proof. by intros ->. Qed.
Lemma wpm_reg_write32 off v b (Q : unit -> world D -> Prop) w :
  bar0_base (ad_bars (w_adapter w)) = Some b ->
  Q tt (set_w_dev (dev_write off v (w_dev w)) (set_w_log (w_log w ++ [EvWrite32 (b + off) v]) w)) ->
  wpm (reg_write32 off v) Q w.
Proof. intros E HQ. unfold wpm, reg_write32. by rewrite E. Qed.
Lemma wpm_reg_read32 off (Q : Z -> world D -> Prop) w :
  is_Some (bar0_base (ad_bars (w_adapter w))) ->
  Q (dev_read off (w_dev w)).1 (set_w_dev (dev_read off (w_dev w)).2 w) -> wpm (reg_read32 off) Q w.
Proof. intros [b E] HQ. unfold wpm, reg_read32. rewrite E. by destruct (dev_read off (w_dev w)). Qed.
Lemma wpm_aq_put idx e (Q : unit -> world D -> Prop) w :
  is_Some (q_base (aq (ad_adm (w_adapter w)))) -> 0 <= idx < Z.of_nat (length (m_aq (w_mem w))) ->
  Q tt (set_w_mem (set_m_aq (<[Z.to_nat idx := e]> (m_aq (w_mem w))) (w_mem w)) w) -> wpm (aq_put idx e) Q w.
Proof. intros [b E] Hi HQ. unfold wpm, aq_put. rewrite E. cbn [non_null]. by rewrite aset_ret by done. Qed.
Lemma wpm_acq_put idx e (Q : unit -> world D -> Prop) w :
  is_Some (q_base (acq (ad_adm (w_adapter w)))) -> 0 <= idx < Z.of_nat (length (m_acq (w_mem w))) ->
  Q tt (set_w_mem (set_m_acq (<[Z.to_nat idx := e]> (m_acq (w_mem w))) (w_mem w)) w) -> wpm (acq_put idx e) Q w.
Proof. intros [b E] Hi HQ. unfold wpm, acq_put. rewrite E. cbn [non_null]. by rewrite aset_ret by done. Qed.
End Rules.

(** ** The queues as the driver needs them *)
Definition queue_ok (q : admin_q) (l : list (list Z)) : Prop :=
  is_Some (q_base q) /\ pow2_depth (q_depth q) /\ Z.of_nat (length l) = q_depth q /\ Forall entry_ok l.

Record wf_admin {D} (w : world D) : Prop := {
  wa_bar : is_Some (bar0_base (ad_bars (w_adapter w)));
  wa_aq : queue_ok (aq (ad_adm (w_adapter w))) (m_aq (w_mem w));
  wa_aqi : index_ok (q_depth (aq (ad_adm (w_adapter w)))) (q_idx (aq (ad_adm (w_adapter w))))
    (q_phase (aq (ad_adm (w_adapter w))));
  wa_acq : queue_ok (acq (ad_adm (w_adapter w))) (m_acq (w_mem w));
  wa_acqi : index_ok (q_depth (acq (ad_adm (w_adapter w)))) (q_idx (acq (ad_adm (w_adapter w))))
    (q_phase (acq (ad_adm (w_adapter w))));
  wa_aenq : queue_ok (aenq (ad_adm (w_adapter w))) (m_aenq (w_mem w));
  wa_aenqi : index_ok (q_depth (aenq (ad_adm (w_adapter w)))) (q_idx (aenq (ad_adm (w_adapter w))))
    (1 - q_phase (aenq (ad_adm (w_adapter w))));
  wa_id : 0 <= next_command_id (ad_adm (w_adapter w)) < 4096
}.

(** The device acted: only the completion and event queues may have changed. *)
Definition ticked {D} (w w' : world D) : Prop :=
  exists m d, w' = set_w_mem m (set_w_dev d w) /\ m_aq m = m_aq (w_mem w).

#[export] Instance ticked_preorder {D} : PreOrder (@ticked D).
Proof.
  split.
  - intros w. exists (w_mem w), (w_dev w). by destruct w.
  - intros w1 w2 w3 (m & d & -> & E) (m' & d' & -> & E'). exists m', d'. by rewrite E', <- E.
Qed.

Section Tick.
Context {D : Type} `{EnaDeviceOk D}.

(** The world after one turn of the device. *)
Definition ran (w : world D) : world D :=
  set_w_mem (dev_run (w_mem w) (w_dev w)).1 (set_w_dev (dev_run (w_mem w) (w_dev w)).2 w).

Lemma wpm_tick (Q : unit -> world D -> Prop) w : Q tt (ran w) -> wpm tick Q w.
Proof. unfold wpm, tick, ran. by destruct (dev_run (w_mem w) (w_dev w)). Qed.

Lemma ran_ticked w : ticked w (ran w).
Proof. eexists _, _. split; [done |]. apply dev_run_aq. Qed.

Lemma ran_wf w : wf_admin w -> wf_admin (ran w).
Proof.
  intros [? [? [? [Hl Ha]]] ? (? & ? & Hl1 & Ha1) ? (? & ? & Hl2 & Ha2) ? ?]. unfold ran.
  pose proof (dev_run_aq (w_mem w) (w_dev w)) as E0.
  destruct (dev_run_acq (w_mem w) (w_dev w) Ha1) as [Hf1 Hn1].
  destruct (dev_run_aenq (w_mem w) (w_dev w) Ha2) as [Hf2 Hn2].
  split; wsimpl; rewrite ?E0; try done; split_and!; try done; congruence.
Qed.

Lemma wpm_acq_get slot w :
  wf_admin w -> 0 <= slot < q_depth (acq (ad_adm (w_adapter w))) ->
  wpm (acq_get slot) (fun e w' => ticked w w' /\ wf_admin w' /\ entry_ok e
    /\ m_acq (w_mem w') !! Z.to_nat slot = Some e /\ w' = ran w) w.
Proof.
  intros Hwf Hs. unfold acq_get. apply wpm_bind, wpm_tick.
  pose proof (ran_ticked w) as Ht. pose proof (ran_wf w Hwf) as Hwf'. set (w' := ran w) in *. destruct (wa_acq _ Hwf') as ((b & Eb) & _ & Hl & Ha).
  assert (q_depth (acq (ad_adm (w_adapter w'))) = q_depth (acq (ad_adm (w_adapter w)))) as Ed
    by done.
  destruct (lookup_in_range (m_acq (w_mem w')) slot) as [e He]; [lia |].
  unfold wpm, acq_peek. rewrite Eb. cbn [non_null]. rewrite (aget_ret _ _ e) by (done || lia). simpl.
  split_and!; try done. by apply (Forall_lookup_1 _ _ _ _ Ha He).
Qed.

Lemma wpm_aenq_get slot w :
  wf_admin w -> 0 <= slot < q_depth (aenq (ad_adm (w_adapter w))) ->
  wpm (aenq_get slot) (fun e w' => ticked w w' /\ wf_admin w' /\ entry_ok e) w.
Proof.
  intros Hwf Hs. unfold aenq_get. apply wpm_bind, wpm_tick.
  pose proof (ran_ticked w) as Ht. pose proof (ran_wf w Hwf) as Hwf'. set (w' := ran w) in *. destruct (wa_aenq _ Hwf') as ((b & Eb) & _ & Hl & Ha).
  assert (q_depth (aenq (ad_adm (w_adapter w'))) = q_depth (aenq (ad_adm (w_adapter w)))) as Ed
    by done.
  destruct (lookup_in_range (m_aenq (w_mem w')) slot) as [e He]; [lia |].
  unfold wpm, aenq_peek. rewrite Eb. cbn [non_null]. rewrite (aget_ret _ _ e) by (done || lia). simpl.
  split_and!; try done. by apply (Forall_lookup_1 _ _ _ _ Ha He).
Qed.
End Tick.

(** ** What an operation does to the state outside the driver *)
Definition dev_keeps {D A} (R : relation D) (m : M D A) : Prop := forall w a w', m w = Ret (a, w') -> R (w_dev w) (w_dev w').

Section DevKeeps.
Context {D : Type} (R : relation D) `{!PreOrder R}.

Lemma dev_keeps_ret {A} (a : A) : dev_keeps R (mret a).
Proof. by intros w a' w' [= _ <-]. Qed.
Lemma dev_keeps_bind {A B} (m : M D A) (f : A -> M D B) : dev_keeps R m -> (forall a, dev_keeps R (f a)) -> dev_keeps R (m ≫= f).
Proof.
  intros Hm Hf w b w' E. unfold mbind, M_bind in E. destruct (m w) as [[a w1] | |] eqn:E1; [| done..].
  etrans; [exact (Hm _ _ _ E1) | exact (Hf _ _ _ _ E)].
Qed.
Lemma dev_keeps_wpm {A} (m : M D A) (Q : A -> world D -> Prop) w :
  dev_keeps R m -> wpm m Q w -> wpm m (fun a w' => Q a w' /\ R (w_dev w) (w_dev w')) w.
Proof. unfold wpm. intros Hk. destruct (m w) as [[a w'] | |] eqn:E; [| done..]. intros HQ. split; [exact HQ | exact (Hk _ _ _ E)]. Qed.

Lemma dev_keeps_get_ad : dev_keeps R (get_ad (D := D)).
Proof. by intros w a w' [= _ <-]. Qed.
Lemma dev_keeps_mod_ad f : dev_keeps R (mod_ad (D := D) f).
Proof. by intros w a w' [= _ <-]. Qed.
Lemma dev_keeps_get_uk : dev_keeps R (get_uk (D := D)).
Proof. by intros w a w' [= _ <-]. Qed.
Lemma dev_keeps_mod_uk f : dev_keeps R (mod_uk (D := D) f).
Proof. by intros w a w' [= _ <-]. Qed.
Lemma dev_keeps_emit es : dev_keeps R (emit (D := D) es).
Proof. by intros w a w' [= _ <-]. Qed.
Lemma dev_keeps_lift {A} (m : res A) : dev_keeps R (lift (D := D) m).
Proof. intros w a w'. unfold lift. destruct m; [| done..]. by intros [= _ <-]. Qed.
Lemma dev_keeps_fault {A} : dev_keeps R (fun _ : world D => Fault : res (A * world D)).
Proof. done. Qed.
Lemma dev_keeps_hang {A} : dev_keeps R (fun _ : world D => Hang : res (A * world D)).
Proof. done. Qed.
Lemma dev_keeps_calloc : dev_keeps R (calloc (D := D)).
Proof. intros w a w'. unfold calloc. destruct (heap_alloc _). by intros [= _ <-]. Qed.
Lemma dev_keeps_dma_alloc : dev_keeps R (dma_alloc (D := D)).
Proof. intros w a w'. unfold dma_alloc. destruct (ena_dma_alloc _). by intros [= _ <-]. Qed.
Lemma dev_keeps_free p : dev_keeps R (free (D := D) p).
Proof. intros w a w'. unfold free. destruct (heap_free _ _); [| done..]. by intros [= _ <-]. Qed.
Lemma dev_keeps_dma_free p : dev_keeps R (dma_free (D := D) p).
Proof. intros w a w'. unfold dma_free. destruct (ena_dma_free _ _); [| done..]. by intros [= _ <-]. Qed.
Lemma dev_keeps_read `{EnaDevice D} off : (forall d, R d (dev_read off d).2) -> dev_keeps R (reg_read32 off).
Proof.
  intros Hr w a w'. unfold reg_read32. destruct (bar0_base _); [| done]. specialize (Hr (w_dev w)).
  destruct (dev_read _ _). by intros [= _ <-].
Qed.
Lemma dev_keeps_write `{EnaDevice D} off v : (forall d, R d (dev_write off v d)) -> dev_keeps R (reg_write32 off v).
Proof. intros Hr w a w'. unfold reg_write32. destruct (bar0_base _); [| done]. by intros [= _ <-]. Qed.
End DevKeeps.

Create HintDb keeps discriminated.
#[export] Hint Resolve dev_keeps_ret dev_keeps_get_ad dev_keeps_mod_ad dev_keeps_get_uk dev_keeps_mod_uk dev_keeps_emit
  dev_keeps_lift dev_keeps_fault dev_keeps_hang dev_keeps_calloc dev_keeps_dma_alloc dev_keeps_free dev_keeps_dma_free : keeps.

(** Follows the structure of an operation. *)
Ltac dev_keeps := intros; repeat first
  [ apply dev_keeps_bind; [typeclasses eauto | | intros ?]
  | solve [eauto 3 with keeps typeclass_instances]
  | case_match ].
