(* ===== verification/Admin.v ===== *)
(** * Admin queues

    src/ena_admin.c: the admin command queue, its completion queue and the event
    queue, and the device reset handshake of src/ena_com.c.

    Commands and completions are 64-byte lists with little-endian fields.  The
    recovery a timed-out command starts ([ena_adapter_reset_and_recover]) issues
    commands itself; it is an argument of the two definitions that call it. *)

From stdpp Require Import base tactics option list list_numbers numbers sets gmap.
From Stdlib Require Import ZArith Lia.
From S2P Require Import Prelude Fifo Mem Desc Netq Ring Adapter.

Definition ENA_ADMIN_AQ_PHASE_MASK : Z := 0x01.
Definition ENA_ADMIN_AQ_COMMON_DESC_CTRL_DATA_INDIRECT_MASK : Z := 0x04.
Definition ENA_ADMIN_ACQ_PHASE_MASK : Z := 0x01.
Definition ENA_ADMIN_AENQ_PHASE_MASK : Z := 0x01.
Definition ENA_ADMIN_COMMAND_ID_MASK : Z := 0x0FFF.
Definition ENA_ADMIN_CREATE_SQ : Z := 1.
Definition ENA_ADMIN_DESTROY_SQ : Z := 2.
Definition ENA_ADMIN_CREATE_CQ : Z := 3.
Definition ENA_ADMIN_DESTROY_CQ : Z := 4.
Definition ENA_ADMIN_GET_FEATURE : Z := 8.
Definition ENA_ADMIN_SET_FEATURE : Z := 9.
Definition ENA_ADMIN_GET_STATS : Z := 11.
Definition ENA_ADMIN_LINK_CHANGE : Z := 0.
Definition ENA_ADMIN_FATAL_ERROR : Z := 1.
Definition ENA_ADMIN_WARNING : Z := 2.
Definition ENA_ADMIN_NOTIFICATION : Z := 3.
Definition ENA_ADMIN_KEEP_ALIVE : Z := 4.

(** ** Wire format *)
Definition byte_at (e : list Z) (off : nat) : Z := nth off e 0.

(** The request entry: payload, then the common descriptor over it. *)
Definition aq_fill (opcode command_id aq_phase : Z) (req : option (list Z)) : res (list Z) :=
  '(entry, flags) ← match req with
    | Some r =>
        if 0 <? Z.of_nat (length r) then
          if 64 <=? Z.of_nat (length r) then
            e ← read_at r 64; mret (e, Z.land (byte_at e 3) (u8 (Z.lnot ENA_ADMIN_AQ_PHASE_MASK)))
          else e ← write_at (replicate 64 0) 4 r; mret (e, 0)
        else mret (replicate 64 0, 0)
    | None => mret (replicate 64 0, 0)
    end;
  entry ← write_at entry 0 (le_bytes 2 command_id);
  entry ← write_at entry 2 [opcode];
  let flags := if 0 <? le_get 4 4 entry
               then Z.lor flags ENA_ADMIN_AQ_COMMON_DESC_CTRL_DATA_INDIRECT_MASK else flags in
  write_at entry 3 [u8 (Z.lor flags (Z.land aq_phase ENA_ADMIN_AQ_PHASE_MASK))].

Definition acq_command (e : list Z) : Z := Z.land (le_get 2 0 e) ENA_ADMIN_COMMAND_ID_MASK.
Definition acq_status (e : list Z) : Z := byte_at e 2.
Definition acq_flags (e : list Z) : Z := byte_at e 3.
Definition acq_response (e : list Z) : list Z := drop 8 e.

Definition aenq_group (e : list Z) : Z := le_get 2 0 e.
Definition aenq_syndrome (e : list Z) : Z := le_get 2 2 e.
Definition aenq_flags (e : list Z) : Z := byte_at e 4.
(** Word [i] of [inline_data_w4]. *)
Definition aenq_word (e : list Z) (i : nat) : Z := le_get 4 (16 + 4 * i) e.

(** ** Command ids: 1 to 4095, zero skipped *)
Definition next_id (next : Z) : Z * Z :=
  let id := if next =? 0 then 1 else next in
  let n := Z.land (u16 (id + 1)) ENA_ADMIN_COMMAND_ID_MASK in
  (id, if n =? 0 then 1 else n).
Arguments next_id : simpl never.

Section Admin.
Context {D : Type} `{EnaDevice D}.

Definition ena_admin_lock_take : M D unit := fun w =>
  if z2b (admin_lock (ad_adm (w_adapter w))) then Hang
  else mod_adm (set_admin_lock 1) w.
Definition ena_admin_lock_drop : M D unit := mod_adm (set_admin_lock 0).

Definition ena_admin_ring_aq_db (idx : Z) : M D unit := reg_write32 ENA_REGS_AQ_DB_OFF idx.

(** Request entry, expected phase, doorbell.  Result: the command id and the
    completion slot to watch. *)
Definition aq_submit (opcode : Z) (req : option (list Z)) : M D (Z * Z) :=
  a ← get_ad;
  let q := aq (ad_adm a) in
  let '(command_id, next) := next_id (next_command_id (ad_adm a)) in
  mod_adm (set_next_command_id next);;
  entry ← lift (aq_fill opcode command_id (q_phase q) req);
  aq_put (Z.land (q_idx q) (u16 (q_depth q - 1))) entry;;
  let cq := acq (ad_adm a) in
  let slot := Z.land (q_idx cq) (u16 (q_depth cq - 1)) in
  (if (command_id =? 1) && (0 <? q_idx cq) then
     (if 0 <? q_depth cq then
        mod_adm (fun s => set_acq (set_q_phase (u8 (Z.lxor 1 (Z.land (q_idx cq / q_depth cq) 1))) (acq s)) s)
      else mret tt);;
     reg_write32 ENA_REGS_ACQ_TAIL_OFF (q_idx cq);;
     acq_put slot (replicate 64 0)
   else mret tt);;
  let '(tail, phase) := ring_advance (q_depth q) (q_idx q) (q_phase q) in
  mod_adm (fun s => set_aq (set_q_phase phase (set_q_idx tail (aq s))) s);;
  ena_admin_ring_aq_db tail;;
  mret (command_id, slot).

(** The bounded wait for the phase of a completion. *)
Fixpoint acq_poll (n : nat) (slot : Z) : M D bool :=
  match n with
  | O => mret false
  | S n =>
      e ← acq_get slot;
      a ← get_ad;
      if Z.land (acq_flags e) ENA_ADMIN_ACQ_PHASE_MASK =? q_phase (acq (ad_adm a)) then mret true
      else acq_poll n slot
  end.

(** Consumption of a completion.  Result: return value, the command id reported,
    the response bytes (each read of the entry may see a new content). *)
Definition acq_complete (command_id slot resp_cap : Z) : M D (Z * option Z * list Z) :=
  a ← get_ad;
  let cq := acq (ad_adm a) in
  let '(head, phase) := ring_advance (q_depth cq) (q_idx cq) (q_phase cq) in
  mod_adm (fun s => set_acq (set_q_phase phase (set_q_idx head (acq s))) s);;
  reg_write32 ENA_REGS_ACQ_TAIL_OFF head;;
  e ← acq_get slot;
  if negb (acq_command e =? command_id) then mret (- EIO, None, [])
  else
    e ← acq_get slot;
    let out := acq_command e in
    e ← acq_get slot;
    let resp := if 0 <? resp_cap then take (Z.to_nat (Z.min 56 resp_cap)) (acq_response e) else [] in
    e ← acq_get slot;
    mret (- acq_status e, Some out, resp).

(** Result as for [acq_complete].  A NULL response pointer is a capacity of 0. *)
Definition ena_admin_exec_locked (opcode : Z) (req : option (list Z)) (resp_cap max_polls : Z)
    : M D (Z * option Z * list Z) :=
  if 64 <? Z.of_nat (length (default [] req)) then mret (- EINVAL, None, [])
  else
    '(command_id, slot) ← aq_submit opcode req;
    found ← acq_poll (Z.to_nat (if max_polls =? 0 then 1 else max_polls)) slot;
    if negb found then
      mod_ad (set_ad_state ENA_STATE_ERROR);; mret (- ETIMEDOUT, None, [])
    else acq_complete command_id slot resp_cap.

(** [recover] stands for [ena_adapter_reset_and_recover]. *)
Definition ena_admin_exec_cmd (recover : M D Z) (opcode : Z) (req : option (list Z)) (resp_cap max_polls : Z)
    : M D (Z * option Z * list Z) :=
  a ← get_ad;
  if negb (non_null (q_base (aq (ad_adm a)))) || negb (non_null (q_base (acq (ad_adm a)))) then
    mret (- EINVAL, None, [])
  else if bool_decide (ad_state a = ENA_STATE_ERROR) then mret (- ENODEV, None, [])
  else
    ena_admin_lock_take;;
    '(ret, out, resp) ← ena_admin_exec_locked opcode req resp_cap max_polls;
    ena_admin_lock_drop;;
    (if ret =? - ETIMEDOUT then recover;; mret tt else mret tt);;
    mret (ret, out, resp).

(** ** Start and stop *)
Definition ena_depth_ok (depth : Z) : bool := (4 <=? depth) && (Z.land depth (depth - 1) =? 0).

Definition ena_admin_fini : M D unit :=
  a ← get_ad;
  dma_free (q_base (aq (ad_adm a)));;
  dma_free (q_base (acq (ad_adm a)));;
  dma_free (q_base (aenq (ad_adm a)));;
  mod_adm (fun s => mkAdmin admin_q_zero 0 (admin_lock s) admin_q_zero
                      admin_q_zero None false);;
  dma_free (host_info_base (ad_host a));;
  mod_ad (set_ad_host (mkHostInfo None 0 []));;
  mod_ad (set_ad_state ENA_STATE_STOPPED).

(** Depth and entry size of a queue, as its CAPS register packs them. *)
Definition queue_caps (shift mask depth : Z) : Z := Z.lor (u32 (Z.shiftl 64 shift)) (Z.land depth mask).

(** The registers that publish the queues, in the order they are written. *)
Definition admin_publish (aq_phys acq_phys aenq_phys aq_depth acq_depth aenq_depth : Z) : list (Z * Z) :=
  [(ENA_REGS_AQ_BASE_LO_OFF, Z.land aq_phys 0xFFFFFFFF);
   (ENA_REGS_AQ_BASE_HI_OFF, Z.land (Z.shiftr aq_phys 32) 0xFFFF);
   (ENA_REGS_AQ_CAPS_OFF,
      queue_caps ENA_REGS_AQ_CAPS_AQ_ENTRY_SIZE_SHIFT ENA_REGS_AQ_CAPS_AQ_DEPTH_MASK aq_depth);
   (ENA_REGS_ACQ_BASE_LO_OFF, Z.land acq_phys 0xFFFFFFFF);
   (ENA_REGS_ACQ_BASE_HI_OFF, u32 (Z.shiftr acq_phys 32));
   (ENA_REGS_ACQ_CAPS_OFF,
      queue_caps ENA_REGS_ACQ_CAPS_ACQ_ENTRY_SIZE_SHIFT ENA_REGS_ACQ_CAPS_ACQ_DEPTH_MASK acq_depth);
   (ENA_REGS_ACQ_TAIL_OFF, 0);
   (ENA_REGS_AENQ_BASE_LO_OFF, Z.land aenq_phys 0xFFFFFFFF);
   (ENA_REGS_AENQ_BASE_HI_OFF, u32 (Z.shiftr aenq_phys 32));
   (ENA_REGS_AENQ_CAPS_OFF,
      queue_caps ENA_REGS_AENQ_CAPS_AENQ_ENTRY_SIZE_SHIFT ENA_REGS_AENQ_CAPS_AENQ_DEPTH_MASK aenq_depth);
   (ENA_REGS_AENQ_HEAD_DB_OFF, aenq_depth)].

Fixpoint reg_writes (l : list (Z * Z)) : M D unit :=
  match l with
  | [] => mret tt
  | (off, v) :: l => reg_write32 off v;; reg_writes l
  end.

Definition zero_entries (depth : Z) : list (list Z) := replicate (Z.to_nat depth) (replicate 64 0).

Definition put_mem (m : admin_mem) : M D unit := fun w => Ret (tt, set_w_mem m w).

(** The allocation of the queues and their publication. *)
Definition admin_setup (aq_depth acq_depth aenq_depth : Z) : M D Z :=
  aq' ← dma_alloc;
  match aq' with
  | None => mret (- ENOMEM)
  | Some (aq_base, aq_phys) =>
      acq' ← dma_alloc;
      match acq' with
      | None => dma_free (Some aq_base);; mret (- ENOMEM)
      | Some (acq_base, acq_phys) =>
          aenq' ← dma_alloc;
          match aenq' with
          | None => dma_free (Some aq_base);; dma_free (Some acq_base);; mret (- ENOMEM)
          | Some (aenq_base, aenq_phys) =>
              put_mem (mkMem (zero_entries aq_depth) (zero_entries acq_depth) (zero_entries aenq_depth));;
              mod_adm (fun s => mkAdmin (mkAdminQ (Some aq_base) aq_phys aq_depth 0 1) 1 (admin_lock s)
                                  (mkAdminQ (Some acq_base) acq_phys acq_depth 0 1)
                                  (mkAdminQ (Some aenq_base) aenq_phys aenq_depth aenq_depth 1)
                                  None false);;
              reg_writes (admin_publish aq_phys acq_phys aenq_phys aq_depth acq_depth aenq_depth);;
              mod_ad (set_ad_state ENA_STATE_ADMIN_READY);;
              mret 0
          end
      end
  end.

Definition ena_admin_init (aq_depth acq_depth aenq_depth : Z) : M D Z :=
  a ← get_ad;
  if negb (non_null (bar0_base (ad_bars a))) then mret (- EINVAL)
  else
    (if non_null (q_base (aq (ad_adm a))) || non_null (q_base (acq (ad_adm a)))
        || non_null (q_base (aenq (ad_adm a))) then ena_admin_fini else mret tt);;
    if negb (ena_depth_ok aq_depth) || negb (ena_depth_ok acq_depth) || negb (ena_depth_ok aenq_depth) then
      mret (- EINVAL)
    else admin_setup aq_depth acq_depth aenq_depth.

(** ** Events *)
Definition ena_admin_aenq_register (handler : option aenq_handler_fn) (arg : bool) : M D Z :=
  match handler with
  | None => mret (- EINVAL)
  | Some f => mod_adm (fun s => set_aenq_handler_arg arg (set_aenq_handler (Some f) s));; mret 0
  end.

(** Word [i] of the entry the handler's pointer leads to; 0 for a NULL pointer.
    The entry is in the queue, so that every read of it may see a new content. *)
Definition entry_word (entry : option (M D (list Z))) (i : nat) : M D Z :=
  match entry with
  | Some rd => e ← rd; mret (aenq_word e i)
  | None => mret 0
  end.

Definition ena_aenq_default_handler (recover : M D Z) (arg : bool) (group syndrome : Z)
    (entry : option (M D (list Z))) : M D Z :=
  if negb arg then mret (- EINVAL)
  else if group =? ENA_ADMIN_FATAL_ERROR then recover
  else if group =? ENA_ADMIN_LINK_CHANGE then
    flags ← entry_word entry 0;
    let up := z2b (Z.land flags 1) in
    a ← get_ad;
    (if negb (bool_decide (up = link_up a)) then mod_ad (set_link_up up) else mret tt);;
    mret 0
  else if group =? ENA_ADMIN_WARNING then mret 0
  else if group =? ENA_ADMIN_NOTIFICATION then mret 0
  else if group =? ENA_ADMIN_KEEP_ALIVE then
    rx_lo ← entry_word entry 0;
    rx_hi ← entry_word entry 1;
    tx_lo ← entry_word entry 2;
    tx_hi ← entry_word entry 3;
    mod_ad (fun a => set_ad_aen (set_aen_tx_drops (Z.lor (Z.shiftl tx_hi 32) tx_lo)
      (set_aen_rx_drops (Z.lor (Z.shiftl rx_hi 32) rx_lo)
        (set_aen_keepalives (u32 (aen_keepalives (ad_aen a) + 1)) (ad_aen a)))) a);;
    mret 0
  else mret 0.

(** The call of the registered handler.  [other f] is the behaviour of a handler
    that is not in the repository. *)
Definition aenq_dispatch (recover : M D Z) (other : Z -> Z -> Z -> option (M D (list Z)) -> M D Z) (idx : Z)
    : M D unit :=
  a ← get_ad;
  match aenq_handler (ad_adm a) with
  | None => mret tt
  | Some f =>
      e1 ← aenq_get idx;
      e2 ← aenq_get idx;
      match f with
      | AenqDefault =>
          ena_aenq_default_handler recover (aenq_handler_arg (ad_adm a)) (aenq_group e1) (aenq_syndrome e2)
            (Some (aenq_get idx));;
          mret tt
      | AenqOther n => other n (aenq_group e1) (aenq_syndrome e2) (Some (aenq_get idx));; mret tt
      end
  end.

Fixpoint aenq_poll_loop (recover : M D Z) (other : Z -> Z -> Z -> option (M D (list Z)) -> M D Z)
    (aenq_mask : Z) (n : nat) (dispatched : Z) : M D Z :=
  match n with
  | O => mret dispatched
  | S n =>
      a ← get_ad;
      let q := aenq (ad_adm a) in
      let idx := Z.land (q_idx q) aenq_mask in
      e ← aenq_get idx;
      if negb (Z.land (aenq_flags e) ENA_ADMIN_AENQ_PHASE_MASK =? q_phase q) then mret dispatched
      else
        let head := u16 (q_idx q + 1) in
        let phase := if Z.land head aenq_mask =? 0 then Z.lxor (q_phase q) 1 else q_phase q in
        mod_adm (fun s => set_aenq (set_q_phase phase (set_q_idx head (aenq s))) s);;
        reg_write32 ENA_REGS_AENQ_HEAD_DB_OFF head;;
        aenq_dispatch recover other idx;;
        aenq_poll_loop recover other aenq_mask n (dispatched + 1)
  end.

Definition ena_admin_aenq_poll (recover : M D Z) (other : Z -> Z -> Z -> option (M D (list Z)) -> M D Z)
    (max_events : Z) : M D Z :=
  a ← get_ad;
  if negb (non_null (q_base (aenq (ad_adm a)))) then mret (- EINVAL)
  else aenq_poll_loop recover other (u16 (q_depth (aenq (ad_adm a)) - 1)) (Z.to_nat max_events) 0.

(** ** Probe and device reset (src/ena_com.c) *)
Definition ENA_BAR0_MIN_SIZE : Z := 0x104.

Definition ena_device_init_scaffold (bar0 : option Z) (bar0_size : Z) : M D Z :=
  if negb (non_null bar0) || (bar0_size <? ENA_BAR0_MIN_SIZE) then mret (- EINVAL)
  else
    put_ad (set_ad_state ENA_STATE_PCI_PROBED (adapter_zero bar0 bar0_size));;
    version ← reg_read32 ENA_REGS_VERSION_OFF;
    mod_ad (fun a => set_ad_ver (mkVer version (controller_version (ad_ver a)) (ad_caps (ad_ver a))) a);;
    cversion ← reg_read32 ENA_REGS_CONTROLLER_VERSION_OFF;
    mod_ad (fun a => set_ad_ver (mkVer (ad_version (ad_ver a)) cversion (ad_caps (ad_ver a))) a);;
    caps ← reg_read32 ENA_REGS_CAPS_OFF;
    mod_ad (fun a => set_ad_ver (mkVer (ad_version (ad_ver a)) (controller_version (ad_ver a)) caps) a);;
    mret 0.

Definition ena_device_check_ready : M D Z :=
  a ← get_ad;
  if negb (non_null (bar0_base (ad_bars a))) then mret (- EINVAL)
  else
    status ← reg_read32 ENA_REGS_DEV_STS_OFF;
    if negb (bit_set status ENA_DEV_STS_READY_MASK) then mret (- EBUSY) else mret 0.

Definition ena_device_reset : M D Z :=
  a ← get_ad;
  if negb (non_null (bar0_base (ad_bars a))) then mret (- EINVAL)
  else
    ctl ← reg_read32 ENA_REGS_DEV_CTL_OFF;
    let ctl := Z.land ctl (u32 (Z.lnot ENA_DEV_CTL_RESET_REASON_MASK)) in
    reg_write32 ENA_REGS_DEV_CTL_OFF (Z.lor ctl ENA_DEV_CTL_DEV_RESET_MASK);;
    mret 0.

Fixpoint wait_reset_loop (n : nat) : M D Z :=
  match n with
  | O => mret (- ETIMEDOUT)
  | S n =>
      status ← reg_read32 ENA_REGS_DEV_STS_OFF;
      if bit_set status ENA_DEV_STS_FATAL_ERROR_MASK then
        mod_ad (set_ad_state ENA_STATE_ERROR);; mret (- EIO)
      else if bit_set status ENA_DEV_STS_RESET_FIN_MASK
              && negb (bit_set status ENA_DEV_STS_RESET_IN_PROG_MASK) then mret 0
      else tick;; wait_reset_loop n
  end.

Definition ena_device_wait_reset_complete (max_polls : Z) : M D Z :=
  a ← get_ad;
  if negb (non_null (bar0_base (ad_bars a))) then mret (- EINVAL)
  else tick;; wait_reset_loop (Z.to_nat (if max_polls =? 0 then 1 else max_polls)).
End Admin.

(** ** The request entry *)
Definition aq_payload (req : option (list Z)) : list Z :=
  match req with
  | None => replicate 60 0
  | Some r => if decide (length r = 64%nat) then drop 4 r else r ++ replicate (60 - length r) 0
  end.

Definition aq_flags (aq_phase : Z) (req : option (list Z)) : Z :=
  let base := match req with
    | Some r => if decide (length r = 64%nat) then Z.land (byte_at r 3) 0xFE else 0
    | None => 0 end in
  let base := if 0 <? le_val (take 4 (aq_payload req)) then Z.lor base 4 else base in
  u8 (Z.lor base (Z.land aq_phase 1)).

Definition aq_entry (opcode command_id aq_phase : Z) (req : option (list Z)) : list Z :=
  le_bytes 2 command_id ++ [opcode; aq_flags aq_phase req] ++ aq_payload req.

(** The requests [ena_admin_exec_locked] can hold: an inline payload, or a whole
    entry.  (A payload of 61 to 63 bytes passes its guard and overruns the entry.) *)
Definition req_ok (req : option (list Z)) : Prop :=
  forall r, req = Some r -> Forall is_byte r /\ ((length r <= 60)%nat \/ length r = 64%nat).

Lemma length_aq_payload req : req_ok req -> length (aq_payload req) = 60%nat.
Proof.
  intros Hr. destruct req as [r |]; simpl; [| done]. destruct (Hr r eq_refl) as [_ Hl].
  case_decide; [rewrite length_drop; lia |]. rewrite length_app, length_replicate. lia.
Qed.

(** The three writes of the common descriptor. *)
Lemma fill_common e0 e1 e2 e3 body opcode command_id flags :
  length body = 60%nat ->
  (entry ← write_at (e0 :: e1 :: e2 :: e3 :: body) 0 (le_bytes 2 command_id);
   entry ← write_at entry 2 [opcode];
   write_at entry 3 [flags entry])
  = Ret (le_bytes 2 command_id ++ opcode
      :: flags (le_bytes 2 command_id ++ opcode :: e3 :: body) :: body).
Proof.
  intros Hl. rewrite write_at_ret by (simpl; lia). cbn [mbind res_bind].
  rewrite write_at_ret by (simpl; lia). cbn [mbind res_bind]. rewrite write_at_ret by (simpl; lia). done.
Qed.

Lemma aq_fill_spec opcode command_id aq_phase req :
  req_ok req -> aq_fill opcode command_id aq_phase req = Ret (aq_entry opcode command_id aq_phase req).
Proof.
  intros Hr. pose proof (length_aq_payload req Hr) as Hl. unfold aq_fill.
  assert (exists e0 e1 e2 e3 fl,
    match req with
    | Some r =>
        if 0 <? Z.of_nat (length r) then
          if 64 <=? Z.of_nat (length r) then
            e ← read_at r 64; mret (e, Z.land (byte_at e 3) (u8 (Z.lnot ENA_ADMIN_AQ_PHASE_MASK)))
          else e ← write_at (replicate 64 0) 4 r; mret (e, 0)
        else mret (replicate 64 0, 0)
    | None => mret (replicate 64 0, 0)
    end = Ret (e0 :: e1 :: e2 :: e3 :: aq_payload req, fl)
    /\ fl = match req with
            | Some r => if decide (length r = 64%nat) then Z.land (byte_at r 3) 0xFE else 0
            | None => 0 end) as (e0 & e1 & e2 & e3 & fl & -> & ->).
  { destruct req as [r |]; [| by exists 0, 0, 0, 0, 0]. destruct (Hr r eq_refl) as [_ Hlen]. simpl in Hl |- *.
    destruct (Z.ltb_spec 0 (Z.of_nat (length r))).
    2: { assert (r = []) as -> by (apply length_zero_iff_nil; lia). by exists 0, 0, 0, 0, 0. }
    destruct (Z.leb_spec 64 (Z.of_nat (length r))).
    - assert (length r = 64%nat) as E by lia. rewrite read_at_ret by lia. cbn [mbind res_bind].
      rewrite firstn_all2 by lia. rewrite decide_True by done.
      destruct r as [| e0 [| e1 [| e2 [| e3 r]]]]; simpl in E; try lia. exists e0, e1, e2, e3, (Z.land e3 0xFE). split; [done |].
      by rewrite decide_True.
    - rewrite decide_False by lia. rewrite write_at_ret by (simpl; lia).
      cbn [mbind res_bind]. exists 0, 0, 0, 0, 0. split; [| by rewrite decide_False by lia]. do 2 f_equal.
      transitivity ([0; 0; 0; 0] ++ list_inserts 0 r (replicate 60 0));
        [exact (list_inserts_app_r r [0; 0; 0; 0] (replicate 60 0) 0) |].
      rewrite (replicate_split 60 (length r)) by lia. rewrite list_inserts_0_r by (by rewrite length_replicate).
      done. }
  cbn [mbind res_bind].
  exact (fill_common e0 e1 e2 e3 (aq_payload req) opcode command_id _ Hl).
Qed.

Lemma testbit_land1 x : Z.land x 1 = b2z (Z.testbit x 0).
Proof.
  change 1 with (Z.ones 1) at 1. rewrite Z.land_ones by lia. change (2 ^ 1) with 2.
  rewrite Zmod_odd, <- Z.bit0_odd. by destruct (Z.testbit x 0).
Qed.

(** What the device reads in a request entry. *)
Lemma aq_entry_fields opcode command_id aq_phase req :
  0 <= command_id < 65536 -> aq_phase = 0 \/ aq_phase = 1 ->
  let e := aq_entry opcode command_id aq_phase req in
  le_get 2 0 e = command_id /\ byte_at e 2 = opcode
  /\ Z.land (byte_at e 3) ENA_ADMIN_AQ_PHASE_MASK = aq_phase /\ drop 4 e = aq_payload req.
Proof.
  intros Hid Hph. cbv zeta. unfold aq_entry. split_and!; [| done | | done].
  - unfold le_get. rewrite drop_0, take_app_length' by done. rewrite le_val_bytes.
    change (256 ^ Z.of_nat 2) with 65536. by apply Z.mod_small.
  - change (byte_at _ 3) with (aq_flags aq_phase req). unfold ENA_ADMIN_AQ_PHASE_MASK.
    rewrite testbit_land1. unfold aq_flags, u8. cbv zeta. rewrite Z.mod_pow2_bits_low, Z.lor_spec by lia.
    set (base := match req with Some _ => _ | None => _ end).
    assert (Z.testbit base 0 = false) as Hb.
    { unfold base. destruct req as [r |]; [| done]. case_decide; [| done].
      rewrite Z.land_spec. by rewrite andb_false_r. }
    assert (Z.testbit (if 0 <? le_val (take 4 (aq_payload req)) then Z.lor base 4 else base) 0 = false) as ->.
    { case_match; [| done]. by rewrite Z.lor_spec, Hb. }
    by destruct Hph as [-> | ->].
Qed.

Lemma le_bytes_byte n x : Forall is_byte (le_bytes n x).
Proof.
  revert x. induction n as [| n IH]; intros x; simpl; [done |]. constructor; [| done].
  unfold is_byte. apply Z.mod_pos_bound. lia.
Qed.

Lemma aq_entry_ok opcode command_id aq_phase req :
  is_byte opcode -> req_ok req -> entry_ok (aq_entry opcode command_id aq_phase req).
Proof.
  intros Ho Hr. split.
  - unfold aq_entry. rewrite !length_app, length_le_bytes, length_aq_payload by done. done.
  - unfold aq_entry. apply Forall_app. split; [apply le_bytes_byte |]. constructor; [done |].
    constructor; [apply u8_range |]. destruct req as [r |]; simpl; [| by repeat constructor].
    destruct (Hr r eq_refl) as [Hb _]. case_decide; [by apply Forall_drop |].
    apply Forall_app. split; [done |]. by apply Forall_replicate.
Qed.

(** ** Command ids *)
Lemma next_id_spec next :
  0 <= next < 4096 ->
  (next_id next).1 = Z.max 1 next
  /\ (next_id next).2 = if decide (Z.max 1 next = 4095) then 1 else Z.max 1 next + 1.
Proof.
  intros Hn. unfold next_id. cbn [fst snd].
  assert ((if next =? 0 then 1 else next) = Z.max 1 next) as -> by (destruct (Z.eqb_spec next 0); lia).
  split; [done |]. change ENA_ADMIN_COMMAND_ID_MASK with (Z.ones 12).
  rewrite u16_id, Z.land_ones by lia. change (2 ^ 12) with 4096. case_decide as E; [by rewrite E |].
  rewrite Z.mod_small by lia. destruct (Z.eqb_spec (Z.max 1 next + 1) 0); lia.
Qed.

(** ** Safety against any device *)

(** What a command leaves alone. *)
Record exec_frame {D} (w w' : world D) : Prop := {
  ef_cpu : w_uk w' = w_uk w;
  ef_heap : w_heap w' = w_heap w;
  ef_ad : w_adapter w' = set_ad_state (ad_state (w_adapter w')) (set_ad_adm (ad_adm (w_adapter w')) (w_adapter w));
  ef_lock : admin_lock (ad_adm (w_adapter w')) = admin_lock (ad_adm (w_adapter w));
  ef_aenq : aenq (ad_adm (w_adapter w')) = aenq (ad_adm (w_adapter w));
  ef_hdl : aenq_handler (ad_adm (w_adapter w')) = aenq_handler (ad_adm (w_adapter w));
  ef_arg : aenq_handler_arg (ad_adm (w_adapter w')) = aenq_handler_arg (ad_adm (w_adapter w));
  ef_aq : exists i p, aq (ad_adm (w_adapter w')) = set_q_phase p (set_q_idx i (aq (ad_adm (w_adapter w))));
  ef_acq : exists i p, acq (ad_adm (w_adapter w')) = set_q_phase p (set_q_idx i (acq (ad_adm (w_adapter w))))
}.

#[export] Instance exec_frame_preorder {D} : PreOrder (@exec_frame D).
Proof.
  split.
  - intros w. split; try done.
    + by destruct (w_adapter w).
    + exists (q_idx (aq (ad_adm (w_adapter w)))), (q_phase (aq (ad_adm (w_adapter w)))).
      by destruct (aq (ad_adm (w_adapter w))).
    + exists (q_idx (acq (ad_adm (w_adapter w)))), (q_phase (acq (ad_adm (w_adapter w)))).
      by destruct (acq (ad_adm (w_adapter w))).
  - intros w1 w2 w3 [] []. split; try congruence.
    + rewrite ef_ad1, ef_ad0. by destruct (w_adapter w1).
    + destruct ef_aq0 as (? & ? & E0), ef_aq1 as (i & p & ->). rewrite E0. by eexists i, p.
    + destruct ef_acq0 as (? & ? & E0), ef_acq1 as (i & p & ->). rewrite E0. by eexists i, p.
Qed.

Lemma ticked_frame {D} (w w' : world D) : ticked w w' -> exec_frame w w'.
Proof. intros (m & d & -> & _). destruct (exec_frame_preorder (D := D)) as [H _]. destruct (H w). by split. Qed.

(** The wrap of the command ids: the entry watched is cleared first. *)
Definition id_wraps {D} (w : world D) : bool :=
  ((next_id (next_command_id (ad_adm (w_adapter w)))).1 =? 1) && (0 <? q_idx (acq (ad_adm (w_adapter w)))).

Definition queue_slot (q : admin_q) : Z := Z.land (q_idx q) (q_depth q - 1).

(** The state after a submission. *)
Record submitted `{EnaDevice D} (w : world D) (opcode : Z) (req : option (list Z)) (id slot : Z) (w' : world D) : Prop := {
  sb_wf : wf_admin w';
  sb_frame : exec_frame w w';
  sb_state : ad_state (w_adapter w') = ad_state (w_adapter w);
  sb_id : (id, next_command_id (ad_adm (w_adapter w'))) = next_id (next_command_id (ad_adm (w_adapter w)));
  sb_slot : slot = queue_slot (acq (ad_adm (w_adapter w)));
  sb_acq : acq (ad_adm (w_adapter w')) = acq (ad_adm (w_adapter w));
  sb_tail : q_idx (aq (ad_adm (w_adapter w'))) = u16 (q_idx (aq (ad_adm (w_adapter w))) + 1);
  sb_aqm : m_aq (w_mem w') = <[Z.to_nat (queue_slot (aq (ad_adm (w_adapter w))))
    := aq_entry opcode id (q_phase (aq (ad_adm (w_adapter w)))) req]> (m_aq (w_mem w));
  sb_acqm : m_acq (w_mem w') = if id_wraps w then <[Z.to_nat slot := replicate 64 0]> (m_acq (w_mem w)) else m_acq (w_mem w);
  sb_aenqm : m_aenq (w_mem w') = m_aenq (w_mem w);
  sb_dev : w_dev w' = dev_write ENA_REGS_AQ_DB_OFF (u16 (q_idx (aq (ad_adm (w_adapter w))) + 1))
    (if id_wraps w then dev_write ENA_REGS_ACQ_TAIL_OFF (q_idx (acq (ad_adm (w_adapter w)))) (w_dev w) else w_dev w);
  sb_log : exists b, bar0_base (ad_bars (w_adapter w)) = Some b /\ w_log w' = w_log w
    ++ (if id_wraps w then [EvWrite32 (b + ENA_REGS_ACQ_TAIL_OFF) (q_idx (acq (ad_adm (w_adapter w))))] else [])
    ++ [EvWrite32 (b + ENA_REGS_AQ_DB_OFF) (u16 (q_idx (aq (ad_adm (w_adapter w))) + 1))]
}.

Lemma phase_reset d i p :
  pow2_depth d -> index_ok d i p -> u8 (Z.lxor 1 (Z.land (i / d) 1)) = p.
Proof.
  intros Hd [Hi ->]. unfold phase_of. rewrite testbit_land1, Zmod_odd, Z.bit0_odd. by destruct (Z.odd (i / d)).
Qed.

Lemma mask_u16 d : pow2_depth d -> u16 (d - 1) = d - 1.
Proof. intros Hd%pow2_depth_bounds. apply u16_id. lia. Qed.

Lemma zero_entry_ok : entry_ok (replicate 64 0).
Proof. split; [done |]. by apply Forall_replicate. Qed.

Section Safety.
Context {D : Type} `{EnaDeviceOk D}.
Implicit Types w : world D.

(** The wrap step: the phase it recomputes is the one the ring has. *)
Lemma wrap_step_spec (c : bool) (slot : Z) w b :
  wf_admin w -> bar0_base (ad_bars (w_adapter w)) = Some b ->
  slot = queue_slot (acq (ad_adm (w_adapter w))) ->
  let cq := acq (ad_adm (w_adapter w)) in
  wpm (if c then
         (if 0 <? q_depth cq then
            mod_adm (fun s => set_acq (set_q_phase (u8 (Z.lxor 1 (Z.land (q_idx cq / q_depth cq) 1))) (acq s)) s)
          else mret tt);;
         reg_write32 ENA_REGS_ACQ_TAIL_OFF (q_idx cq);;
         acq_put slot (replicate 64 0)
       else mret tt)
    (fun _ w' => wf_admin w' /\ w' = if c then
       set_w_mem (set_m_acq (<[Z.to_nat slot := replicate 64 0]> (m_acq (w_mem w))) (w_mem w))
         (set_w_dev (dev_write ENA_REGS_ACQ_TAIL_OFF (q_idx cq) (w_dev w))
           (set_w_log (w_log w ++ [EvWrite32 (b + ENA_REGS_ACQ_TAIL_OFF) (q_idx cq)]) w))
       else w) w.
Proof.
  intros Hwf Hb ->. cbv zeta. destruct c; [| done].
  pose proof (wa_acq _ Hwf) as (Hb2 & Hd2 & Hl2 & Ha2). pose proof (wa_acqi _ Hwf) as Hi2.
  pose proof (slot_range (q_idx (acq (ad_adm (w_adapter w)))) _ Hd2) as Hs.
  destruct (Z.ltb_spec 0 (q_depth (acq (ad_adm (w_adapter w)))));
    [| pose proof (pow2_depth_bounds _ Hd2); lia].
  apply wpm_bind, wpm_mod_adm. apply wpm_bind, (wpm_reg_write32 _ _ b); [done |].
  apply wpm_acq_put; [done | unfold queue_slot; wsimpl; lia |]. rewrite (phase_reset _ _ _ Hd2 Hi2).
  assert (set_w_adapter (set_ad_adm (set_acq (set_q_phase (q_phase (acq (ad_adm (w_adapter w))))
    (acq (ad_adm (w_adapter w)))) (ad_adm (w_adapter w))) (w_adapter w)) w = w) as ->.
  { destruct w as [? [? ? [? ? ? [] ? ? ?] ? ? ? ? ? ? ? ? ? ? ? ? ?] ? ? ? ?]. done. }
  split; [| done]. destruct Hwf. split; try done. wsimpl. split_and!; try done.
  - by rewrite length_insert.
  - apply Forall_insert; [done | apply zero_entry_ok].
Qed.

Lemma aq_submit_spec opcode req w :
  wf_admin w -> is_byte opcode -> req_ok req ->
  wpm (aq_submit opcode req) (fun '(id, slot) w' => submitted w opcode req id slot w') w.
Proof.
  intros Hwf Hop Hreq. pose proof (wa_bar _ Hwf) as [b Hb]. pose proof (wa_aq _ Hwf) as (Hb1 & Hd1 & Hl1 & Ha1).
  pose proof (wa_acq _ Hwf) as (_ & Hd2 & _). destruct (next_id_spec _ (wa_id _ Hwf)) as [Eid Enx].
  pose proof (wa_id _ Hwf) as Hid.
  unfold aq_submit. apply wpm_bind, wpm_get_ad.
  destruct (next_id (next_command_id (ad_adm (w_adapter w)))) as [id nx] eqn:En. simpl in Eid, Enx.
  pose proof (slot_range (q_idx (aq (ad_adm (w_adapter w)))) _ Hd1).
  apply wpm_bind, wpm_mod_adm, wpm_bind. eapply wpm_lift; [by apply aq_fill_spec |]. rewrite !mask_u16 by done.
  apply wpm_bind, wpm_aq_put; [done | wsimpl; lia |]. wsimpl.
  set (e := aq_entry _ _ _ _). set (w1 := set_w_mem _ _).
  assert (wf_admin w1) as Hwf1.
  { destruct Hwf. split; try done; unfold w1; wsimpl; [| case_decide; lia].
    split_and!; [done | done | by rewrite length_insert |]. apply Forall_insert; [done | by apply aq_entry_ok]. }
  apply wpm_bind. eapply wpm_mono; [exact (wrap_step_spec _ _ w1 b Hwf1 Hb eq_refl) |].
  intros _ w2 [Hwf2 Ew2]. pose proof (wa_aqi _ Hwf2) as Hi. 
  destruct (ring_advance _ _ _) as [tail phase] eqn:Ea.
  apply wpm_bind, wpm_mod_adm, wpm_bind, (wpm_reg_write32 _ _ b); [by rewrite Ew2; case_match |].
  apply wpm_ret. injection Ea as <- <-.
  pose proof (ring_advance_ok _ _ _ Hd1 (wa_aqi _ Hwf)) as Hadv. simpl in Hadv.
  assert (id_wraps w = (id =? 1) && (0 <? q_idx (acq (ad_adm (w_adapter w))))) as Ewrap
    by (unfold id_wraps; by rewrite En).
  rewrite <- Ewrap in Ew2.
  assert (w_adapter w2 = w_adapter w1) as Ead by (rewrite Ew2; by destruct (id_wraps w)).
  assert (w_uk w2 = w_uk w /\ w_heap w2 = w_heap w) as [Ecpu Eheap] by (rewrite Ew2; by destruct (id_wraps w)).
  assert (m_aq (w_mem w2) = m_aq (w_mem w1) /\ m_aenq (w_mem w2) = m_aenq (w_mem w)) as [Eaq Eaenq]
    by (rewrite Ew2; by destruct (id_wraps w)).
  split; wsimpl; rewrite ?Ead; try done.
  - destruct Hwf2. rewrite Ead in *. split; done.
  - destruct (exec_frame_preorder (D := D)) as [Hrefl _]. destruct (Hrefl w).
    split; wsimpl; rewrite ?Ead; try done. by do 2 eexists.
  - rewrite Ew2. by destruct (id_wraps w).
  - rewrite Ew2. by destruct (id_wraps w).
  - exists b. split; [done |]. rewrite Ew2. destruct (id_wraps w); wsimpl; by rewrite ?app_nil_l, <- ?app_assoc.
Qed.
End Safety.

(** The bytes a command hands back. *)
Definition resp_len (resp_cap : Z) : Z := if 0 <? resp_cap then Z.min 56 resp_cap else 0.

(** The state after a completion was consumed. *)
Record consumed {D} (w : world D) (resp_cap ret : Z) (out : option Z) (resp : list Z) (w' : world D) : Prop := {
  cs_wf : wf_admin w';
  cs_frame : exec_frame w w';
  cs_state : ad_state (w_adapter w') = ad_state (w_adapter w);
  cs_aq : aq (ad_adm (w_adapter w')) = aq (ad_adm (w_adapter w)) /\ m_aq (w_mem w') = m_aq (w_mem w);
  cs_id : next_command_id (ad_adm (w_adapter w')) = next_command_id (ad_adm (w_adapter w));
  cs_head : q_idx (acq (ad_adm (w_adapter w'))) = u16 (q_idx (acq (ad_adm (w_adapter w))) + 1);
  cs_log : exists b, bar0_base (ad_bars (w_adapter w)) = Some b
    /\ w_log w' = w_log w ++ [EvWrite32 (b + ENA_REGS_ACQ_TAIL_OFF) (u16 (q_idx (acq (ad_adm (w_adapter w))) + 1))];
  cs_ret : ret = - EIO /\ out = None /\ resp = []
    \/ - 255 <= ret <= 0 /\ is_Some out /\ Z.of_nat (length resp) = resp_len resp_cap /\ Forall is_byte resp
}.

Section Exec.
Context {D : Type} `{EnaDeviceOk D}.
Implicit Types w : world D.

Lemma acq_poll_spec n slot w :
  wf_admin w -> 0 <= slot < q_depth (acq (ad_adm (w_adapter w))) ->
  wpm (acq_poll n slot) (fun _ w' => ticked w w' /\ wf_admin w') w.
Proof.
  revert w. induction n as [| n IH]; intros w Hwf Hs; simpl; [by apply wpm_ret |].
  apply wpm_bind. eapply wpm_mono; [by apply wpm_acq_get |]. intros e w1 (Ht & Hwf1 & _ & _).
  apply wpm_bind, wpm_get_ad. case_match; [by apply wpm_ret |].
  eapply wpm_mono; [apply IH; [done | by destruct Ht as (? & ? & -> & _)] |].
  intros f w2 [Ht2 Hwf2]. split; [by etrans | done].
Qed.

Lemma byte_at_range e i : Forall is_byte e -> 0 <= byte_at e i < 256.
Proof.
  intros He. unfold byte_at. destruct (nth_in_or_default i e 0) as [Hin | ->]; [| lia].
  rewrite Forall_forall in He. apply He. by apply list_elem_of_In.
Qed.

Lemma acq_complete_spec id slot resp_cap w :
  wf_admin w -> 0 <= slot < q_depth (acq (ad_adm (w_adapter w))) ->
  wpm (acq_complete id slot resp_cap) (fun '(ret, out, resp) w' => consumed w resp_cap ret out resp w') w.
Proof.
  intros Hwf Hs. pose proof (wa_bar _ Hwf) as [b Hb]. pose proof (wa_acq _ Hwf) as (_ & Hd & _).
  unfold acq_complete. apply wpm_bind, wpm_get_ad.
  pose proof (ring_advance_ok _ _ _ Hd (wa_acqi _ Hwf)) as Hadv.
  destruct (ring_advance _ _ _) as [head phase] eqn:Ea. injection Ea as <- <-. simpl in Hadv.
  apply wpm_bind, wpm_mod_adm, wpm_bind, (wpm_reg_write32 _ _ b); [done |]. set (w1 := set_w_dev _ _).
  assert (wf_admin w1) as Hwf1 by (by destruct Hwf; split).
  assert (forall ret out resp w', ticked w1 w' -> wf_admin w' ->
    (ret = - EIO /\ out = None /\ resp = []
     \/ - 255 <= ret <= 0 /\ is_Some out /\ Z.of_nat (length resp) = resp_len resp_cap /\ Forall is_byte resp) ->
    consumed w resp_cap ret out resp w') as Hdone.
  { intros ret out resp w' (m & d & -> & Em) Hwf' Hret.
    destruct (exec_frame_preorder (D := D)) as [Hrefl _]. destruct (Hrefl w).
    split; try done; [split; try done; by do 2 eexists | by exists b]. }
  apply wpm_bind. eapply wpm_mono; [by apply wpm_acq_get |]. intros e1 w2 (Ht2 & Hwf2 & _ & _).
  destruct (negb (acq_command e1 =? id)); [apply wpm_ret, Hdone; [done | done | by left] |].
  assert (forall w', ticked w1 w' -> q_depth (acq (ad_adm (w_adapter w'))) = q_depth (acq (ad_adm (w_adapter w)))) as Hdep
    by (by intros ? (? & ? & -> & _)).
  apply wpm_bind. eapply wpm_mono; [apply wpm_acq_get; [done | by rewrite Hdep] |]. intros e2 w3 (Ht3 & Hwf3 & _ & _).
  assert (ticked w1 w3) by (by etrans).
  apply wpm_bind. eapply wpm_mono; [apply wpm_acq_get; [done | by rewrite Hdep] |]. intros e3 w4 (Ht4 & Hwf4 & [Hl3 Hb3] & _).
  assert (ticked w1 w4) by (by etrans).
  apply wpm_bind. eapply wpm_mono; [apply wpm_acq_get; [done | by rewrite Hdep] |]. intros e4 w5 (Ht5 & Hwf5 & [_ Hb4] & _).
  apply wpm_ret, Hdone; [by etrans | done |]. right. pose proof (byte_at_range e4 2 Hb4).
  unfold acq_status, resp_len. split_and!; [lia | lia | done | |]; destruct (Z.ltb_spec 0 resp_cap); try done.
  - unfold acq_response. rewrite length_take, length_drop, Hl3. lia.
  - by apply Forall_take, Forall_drop.
Qed.

(** The state after a command. *)
Record executed (w : world D) (opcode : Z) (req : option (list Z)) (resp_cap ret : Z) (out : option Z)
    (resp : list Z) (w' : world D) : Prop := {
  ex_wf : wf_admin w';
  ex_frame : exec_frame w w';
  ex_req : exists id, 1 <= id <= 4095 /\ (id, next_command_id (ad_adm (w_adapter w'))) = next_id (next_command_id (ad_adm (w_adapter w)))
    /\ m_aq (w_mem w') !! Z.to_nat (queue_slot (aq (ad_adm (w_adapter w))))
       = Some (aq_entry opcode id (q_phase (aq (ad_adm (w_adapter w)))) req);
  ex_tail : q_idx (aq (ad_adm (w_adapter w'))) = u16 (q_idx (aq (ad_adm (w_adapter w))) + 1);
  ex_log : exists es, w_log w' = w_log w ++ es /\ freed es = [];
  ex_ret : ret = - ETIMEDOUT /\ out = None /\ resp = [] /\ ad_state (w_adapter w') = ENA_STATE_ERROR
      /\ acq (ad_adm (w_adapter w')) = acq (ad_adm (w_adapter w))
    \/ ad_state (w_adapter w') = ad_state (w_adapter w)
      /\ q_idx (acq (ad_adm (w_adapter w'))) = u16 (q_idx (acq (ad_adm (w_adapter w))) + 1)
      /\ (ret = - EIO /\ out = None /\ resp = []
          \/ - 255 <= ret <= 0 /\ is_Some out /\ Z.of_nat (length resp) = resp_len resp_cap /\ Forall is_byte resp)
}.

Lemma exec_locked_spec opcode req resp_cap max_polls w :
  wf_admin w -> is_byte opcode -> req_ok req ->
  wpm (ena_admin_exec_locked opcode req resp_cap max_polls) (fun '(ret, out, resp) w' =>
    executed w opcode req resp_cap ret out resp w') w.
Proof.
  intros Hwf Hop Hreq. unfold ena_admin_exec_locked.
  destruct (Z.ltb_spec 64 (Z.of_nat (length (default [] req)))).
  { destruct req as [r |]; simpl in *; [| lia]. destruct (Hreq r eq_refl). lia. }
  apply wpm_bind. eapply wpm_mono; [by apply aq_submit_spec |].
  intros [id slot] w1 [Hwf1 Hf1 Hst1 Hid1 -> Hacq1 Htl1 Haqm1 _ _ _ (b & Hb & Hlog1)].
  pose proof (wa_acq _ Hwf) as (_ & Hd2 & _). pose proof (wa_aq _ Hwf) as (_ & Hd & Hl & _).
  pose proof (slot_range (q_idx (acq (ad_adm (w_adapter w)))) _ Hd2) as Hs.
  pose proof (slot_range (q_idx (aq (ad_adm (w_adapter w)))) _ Hd) as Hs1.
  assert (m_aq (w_mem w1) !! Z.to_nat (queue_slot (aq (ad_adm (w_adapter w))))
    = Some (aq_entry opcode id (q_phase (aq (ad_adm (w_adapter w)))) req)) as He.
  { rewrite Haqm1. apply list_lookup_insert_eq. unfold queue_slot. lia. }
  assert (1 <= id <= 4095) as Hrange.
  { destruct (next_id_spec _ (wa_id _ Hwf)) as [E _]. rewrite <- Hid1 in E. simpl in E.
    pose proof (wa_id _ Hwf). lia. }
  apply wpm_bind. eapply wpm_mono; [apply acq_poll_spec; [done | by rewrite Hacq1] |].
  intros found w2 [Ht2 Hwf2]. pose proof (ticked_frame _ _ Ht2) as Hf2.
  destruct Ht2 as (m & d & -> & Em). rewrite <- Em in He. destruct found; cbn [negb].
  - eapply wpm_mono; [apply acq_complete_spec; [done | wsimpl; by rewrite Hacq1] |].
    intros [[ret out] resp] w3 [? ? ? [Eaq3 Em3] Eid3 Eh3 (b' & _ & Hlog3) ?]. wsimpl_all. split; try done.
    + etrans; [done |]. by etrans.
    + exists id. rewrite Eid3, Em3. done.
    + by rewrite Eaq3.
    + rewrite Hlog3, Hlog1, <- !app_assoc. eexists. split; [done |]. by destruct (id_wraps w).
    + right. split_and!; [congruence | by rewrite Eh3, Hacq1 | done].
  - apply wpm_bind, wpm_mod_ad, wpm_ret. split; wsimpl; try done.
    + by destruct Hwf2; split.
    + destruct Hf1 as [? ? Ead]. split; try done. wsimpl. rewrite Ead. by destruct (w_adapter w).
    + by exists id.
    + rewrite Hlog1. eexists. split; [done |]. by destruct (id_wraps w).
    + by left.
Qed.

(** C25: An admin command against any device.  Whatever the device writes to the
    completion queue, and whenever, a command of at most 60 payload bytes or one
    whole entry never touches memory outside the queues and returns within its
    poll budget.  The request entry carries the opcode, a fresh id from 1 to 4095,
    the phase of the queue and the payload.  Either the command times out, and the
    adapter is in the error state, or one completion is consumed and the result is
    -EIO (id mismatch) or minus the device status, with the promised number of
    response bytes.  The queue invariant holds again, the rest of the adapter
    and the heap are untouched, and no netbuf is freed.  A request of more than 64 bytes is refused with
    -EINVAL, changing nothing. *)
Theorem admin_exec_safe opcode req resp_cap max_polls w :
  wf_admin w -> is_byte opcode ->
  req_ok req \/ (64 < length (default [] req))%nat ->
  wpm (ena_admin_exec_locked opcode req resp_cap max_polls) (fun '(ret, out, resp) w' =>
    if decide (64 < length (default [] req))%nat then (ret, out, resp) = (- EINVAL, None, []) /\ w' = w
    else executed w opcode req resp_cap ret out resp w') w.
Proof.
  intros Hwf Hop Hreq. case_decide as Hlen.
  - unfold ena_admin_exec_locked. destruct (Z.ltb_spec 64 (Z.of_nat (length (default [] req)))); [done | lia].
  - destruct Hreq as [Hreq |]; [| lia]. by apply exec_locked_spec.
Qed.
End Exec.
