(* ===== verification/Session.v ===== *)
(** * Admin sessions

    What the admin command path of [Admin] does with a device that answers: the
    laws of such a device ([ResponsiveDevice]), one command of a session, and any
    sequence of commands up to the wrap of the command ids.  The firmware of the
    device is an abstract state machine over request entries; a session refines it. *)

From stdpp Require Import base tactics option list list_numbers numbers sets gmap.
From Stdlib Require Import ZArith Lia.
From S2P Require Import Prelude Fifo Mem Desc Netq Ring Adapter Admin.

(** ** A device that answers

    A completion entry, and a device that answers every command after at most
    [dev_latency] polls.  Its firmware is a state machine: [fw_step s e] is the next
    state and the status and response to the request entry [e].
    [dev_idle aqd acqd n s d]: the device [d] has queues of depths [aqd] and [acqd],
    has answered [n] commands and its firmware is in state [s];
    [dev_busy ... n s k d]: it has seen the doorbell of command [n] and will answer
    after [k] more turns. *)
Definition acq_entry (command status phase : Z) (response : list Z) : list Z :=
  le_bytes 2 command ++ [status; phase] ++ replicate 4 0 ++ response.

Class ResponsiveDevice (D : Type) `{EnaDevice D} := {
  dev_latency : nat;
  fw : Type;
  fw_step : fw -> list Z -> fw * (Z * list Z);
  dev_idle : Z -> Z -> Z -> fw -> D -> Prop;
  dev_busy : Z -> Z -> Z -> fw -> nat -> D -> Prop;
  fw_step_ok s e : is_byte (fw_step s e).2.1 /\ length (fw_step s e).2.2 = 56%nat /\ Forall is_byte (fw_step s e).2.2;
  dev_doorbell aqd acqd n s d : dev_idle aqd acqd n s d ->
    dev_busy aqd acqd n s dev_latency (dev_write ENA_REGS_AQ_DB_OFF (u16 (n + 1)) d);
  dev_wait aqd acqd n s k m d : dev_busy aqd acqd n s (S k) d ->
    m_acq (dev_run m d).1 = m_acq m /\ dev_busy aqd acqd n s k (dev_run m d).2;
  dev_post aqd acqd n s m d e : dev_busy aqd acqd n s 0 d -> m_aq m !! Z.to_nat (Z.land n (aqd - 1)) = Some e ->
    Z.land (byte_at e 3) 1 = phase_of aqd n ->
    m_acq (dev_run m d).1 = <[Z.to_nat (Z.land n (acqd - 1)) :=
       acq_entry (le_get 2 0 e) (fw_step s e).2.1 (phase_of acqd n) (fw_step s e).2.2]> (m_acq m)
    /\ dev_idle aqd acqd (u16 (n + 1)) (fw_step s e).1 (dev_run m d).2;
  dev_idle_run aqd acqd n s m d : dev_idle aqd acqd n s d ->
    m_acq (dev_run m d).1 = m_acq m /\ dev_idle aqd acqd n s (dev_run m d).2;
  dev_idle_tail aqd acqd n s v d : dev_idle aqd acqd n s d -> dev_idle aqd acqd n s (dev_write ENA_REGS_ACQ_TAIL_OFF v d)
}.

(** The firmware state and the answer after a request. *)
Definition fw_next `{ResponsiveDevice D} (s : fw) (e : list Z) : fw := (fw_step s e).1.
Definition fw_answer `{ResponsiveDevice D} (s : fw) (e : list Z) : Z * list Z := (fw_step s e).2.

(** Completions of the previous lap, from command [n] on. *)
Definition acq_stale (d n : Z) (l : list (list Z)) : Prop :=
  forall j, 0 <= j < d -> exists e, l !! Z.to_nat (Z.land (u16 (n + j)) (d - 1)) = Some e
    /\ Z.land (acq_flags e) 1 = 1 - phase_of d (u16 (n + j)).

Lemma acq_entry_fields command status phase response :
  0 <= command < 4096 -> phase = 0 \/ phase = 1 ->
  let e := acq_entry command status phase response in
  acq_command e = command /\ acq_status e = status /\ Z.land (acq_flags e) 1 = phase
  /\ acq_response e = response.
Proof.
  intros Hc Hp. cbv zeta. unfold acq_entry. split_and!; [| done | by destruct Hp as [-> | ->] | done].
  unfold acq_command, le_get. rewrite drop_0, take_app_length' by done. rewrite le_val_bytes.
  change (256 ^ Z.of_nat 2) with 65536. change ENA_ADMIN_COMMAND_ID_MASK with (Z.ones 12).
  rewrite Z.land_ones by lia. change (2 ^ 12) with 4096. rewrite (Z.mod_small command 65536) by lia.
  by apply Z.mod_small.
Qed.

(** The answer to command [n] makes the queue stale from [n + 1] on. *)
Lemma acq_stale_step d n l c s r :
  pow2_depth d -> 0 <= n < 65536 -> Z.of_nat (length l) = d -> acq_stale d n l -> 0 <= c < 4096 ->
  acq_stale d (u16 (n + 1)) (<[Z.to_nat (Z.land n (d - 1)) := acq_entry c s (phase_of d n) r]> l).
Proof.
  intros Hd Hn Hl Hst Hc j Hj. pose proof (slot_range n d Hd).
  assert (u16 (u16 (n + 1) + j) = u16 (n + (j + 1))) as -> by (rewrite u16_add_l; f_equal; lia).
  destruct (decide (j + 1 = d)) as [-> |].
  - destruct (phase_lap d n Hd Hn) as [Hlap Hslot]. eexists. rewrite Hslot, Hlap.
    split; [apply list_lookup_insert_eq; lia |].
    destruct (acq_entry_fields c s (phase_of d n) r) as (_ & _ & -> & _); [done | | lia].
    pose proof (phase_of_range d n). lia.
  - destruct (Hst (j + 1)) as (e & He & Hph); [lia |]. exists e. split; [| done].
    rewrite list_lookup_insert_ne; [done |]. pose proof (slot_range (u16 (n + (j + 1))) d Hd).
    rewrite !pow2_depth_land in * by done. intros E%Z2Nat.inj; [| lia | lia].
    apply (slot_distinct d n (j + 1)); [done | lia | done].
Qed.

Section Session.
Context {D : Type} `{EnaDeviceOk D} `{!ResponsiveDevice D}.
Implicit Types w : world D.

(** [n] commands were answered; the driver and the device agree on it, and the
    firmware is in state [s]. *)
Record in_session (n : Z) (s : fw) (w : world D) : Prop := {
  is_wf : wf_admin w;
  is_aq : q_idx (aq (ad_adm (w_adapter w))) = n;
  is_acq : q_idx (acq (ad_adm (w_adapter w))) = n;
  is_dev : dev_idle (q_depth (aq (ad_adm (w_adapter w)))) (q_depth (acq (ad_adm (w_adapter w)))) n s (w_dev w);
  is_stale : acq_stale (q_depth (acq (ad_adm (w_adapter w)))) n (m_acq (w_mem w))
}.

(** The wait for the answer to command [n]. *)
Lemma acq_poll_answer N k n s e w :
  let aqd := q_depth (aq (ad_adm (w_adapter w))) in
  let acqd := q_depth (acq (ad_adm (w_adapter w))) in
  wf_admin w -> (k < N)%nat -> 0 <= n < 65536 -> dev_busy aqd acqd n s k (w_dev w) ->
  q_phase (acq (ad_adm (w_adapter w))) = phase_of acqd n -> acq_stale acqd n (m_acq (w_mem w)) ->
  m_aq (w_mem w) !! Z.to_nat (Z.land n (aqd - 1)) = Some e -> Z.land (byte_at e 3) 1 = phase_of aqd n ->
  0 <= le_get 2 0 e < 4096 ->
  wpm (acq_poll N (Z.land n (acqd - 1))) (fun found w' => found = true /\ ticked w w' /\ wf_admin w'
    /\ dev_idle aqd acqd (u16 (n + 1)) (fw_next s e) (w_dev w')
    /\ m_acq (w_mem w') = <[Z.to_nat (Z.land n (acqd - 1)) :=
         acq_entry (le_get 2 0 e) (fw_answer s e).1 (phase_of acqd n) (fw_answer s e).2]> (m_acq (w_mem w))) w.
Proof.
  cbv zeta. revert k w. induction N as [| N IH]; intros k w Hwf Hk Hn Hbusy Hph Hst He Hpe Hid; [lia |].
  pose proof (wa_acq _ Hwf) as (_ & Hd & Hl & _). pose proof (slot_range n _ Hd) as Hs. simpl.
  apply wpm_bind. eapply wpm_mono; [apply wpm_acq_get; done |].
  intros e1 w1 (Ht & Hwf1 & _ & He1 & ->). apply wpm_bind, wpm_get_ad.
  change (w_adapter (ran w)) with (w_adapter w). rewrite Hph.
  destruct k as [| k].
  - destruct (dev_post _ _ _ _ (w_mem w) (w_dev w) e Hbusy He Hpe) as [Em Hidle].
    fold (fw_answer s e) in Em. fold (fw_next s e) in Hidle.
    change (m_acq (w_mem (ran w))) with (m_acq (dev_run (w_mem w) (w_dev w)).1) in He1.
    rewrite Em, list_lookup_insert_eq in He1 by lia. injection He1 as <-.
    destruct (acq_entry_fields (le_get 2 0 e) (fw_answer s e).1 (phase_of (q_depth (acq (ad_adm (w_adapter w)))) n)
      (fw_answer s e).2 Hid) as (_ & _ & Hfl & _).
    { pose proof (phase_of_range (q_depth (acq (ad_adm (w_adapter w)))) n). lia. }
    unfold ENA_ADMIN_ACQ_PHASE_MASK. rewrite Hfl, Z.eqb_refl. apply wpm_ret. done.
  - destruct (dev_wait _ _ _ _ _ (w_mem w) (w_dev w) Hbusy) as [Em Hb].
    change (m_acq (w_mem (ran w))) with (m_acq (dev_run (w_mem w) (w_dev w)).1) in He1. rewrite Em in He1.
    destruct (Hst 0) as (e' & He' & Hold); [pose proof (pow2_depth_bounds _ Hd); lia |].
    rewrite Z.add_0_r, u16_id in He', Hold by lia. rewrite He1 in He'. injection He' as <-.
    unfold ENA_ADMIN_ACQ_PHASE_MASK. rewrite Hold.
    destruct (Z.eqb_spec (1 - phase_of (q_depth (acq (ad_adm (w_adapter w)))) n)
      (phase_of (q_depth (acq (ad_adm (w_adapter w)))) n)); [lia |].
    eapply wpm_mono; [apply (IH k (ran w)); try done; [lia | |] |].
    + change (m_acq (w_mem (ran w))) with (m_acq (dev_run (w_mem w) (w_dev w)).1). by rewrite Em.
    + change (m_aq (w_mem (ran w))) with (m_aq (dev_run (w_mem w) (w_dev w)).1). by rewrite dev_run_aq.
    + intros f w2 (-> & Ht2 & ? & ? & E2). split_and!; try done; [by etrans |].
      rewrite E2. change (m_acq (w_mem (ran w))) with (m_acq (dev_run (w_mem w) (w_dev w)).1). by rewrite Em.
Qed.

(** A read of the completion queue while the device is idle. *)
Lemma acq_get_idle slot n s e w :
  wf_admin w -> 0 <= slot < q_depth (acq (ad_adm (w_adapter w))) ->
  dev_idle (q_depth (aq (ad_adm (w_adapter w)))) (q_depth (acq (ad_adm (w_adapter w)))) n s (w_dev w) ->
  m_acq (w_mem w) !! Z.to_nat slot = Some e ->
  wpm (acq_get slot) (fun e' w' => e' = e /\ ticked w w' /\ wf_admin w' /\ m_acq (w_mem w') = m_acq (w_mem w)
    /\ dev_idle (q_depth (aq (ad_adm (w_adapter w')))) (q_depth (acq (ad_adm (w_adapter w')))) n s (w_dev w')) w.
Proof.
  intros Hwf Hs Hidle He. eapply wpm_mono; [by apply wpm_acq_get |].
  intros e' w' (Ht & Hwf' & _ & He' & ->).
  destruct (dev_idle_run _ _ _ _ (w_mem w) (w_dev w) Hidle) as [Em Hi].
  change (m_acq (w_mem (ran w))) with (m_acq (dev_run (w_mem w) (w_dev w)).1) in *. rewrite Em in *.
  split_and!; try done. congruence.
Qed.
(** The consumption of the answer. *)
Lemma acq_complete_answer id slot resp_cap n s e w :
  wf_admin w -> 0 <= slot < q_depth (acq (ad_adm (w_adapter w))) ->
  dev_idle (q_depth (aq (ad_adm (w_adapter w)))) (q_depth (acq (ad_adm (w_adapter w)))) n s (w_dev w) ->
  m_acq (w_mem w) !! Z.to_nat slot = Some e -> acq_command e = id ->
  wpm (acq_complete id slot resp_cap) (fun r w' =>
    r = (- acq_status e, Some id, take (Z.to_nat (resp_len resp_cap)) (acq_response e))
    /\ m_acq (w_mem w') = m_acq (w_mem w)
    /\ dev_idle (q_depth (aq (ad_adm (w_adapter w')))) (q_depth (acq (ad_adm (w_adapter w')))) n s (w_dev w')) w.
Proof.
  intros Hwf Hs Hidle He Hid. pose proof (wa_bar _ Hwf) as [b Hb]. pose proof (wa_acq _ Hwf) as (_ & Hd & _).
  unfold acq_complete. apply wpm_bind, wpm_get_ad.
  pose proof (ring_advance_ok _ _ _ Hd (wa_acqi _ Hwf)) as Hadv.
  destruct (ring_advance _ _ _) as [head phase]. simpl in Hadv.
  apply wpm_bind, wpm_mod_adm, wpm_bind, (wpm_reg_write32 _ _ b); [done |].
  apply (dev_idle_tail _ _ _ _ head) in Hidle. set (w1 := set_w_dev _ _).
  assert (wf_admin w1) as Hwf1 by (by destruct Hwf; split).
  change (q_depth (acq (ad_adm (w_adapter w)))) with (q_depth (acq (ad_adm (w_adapter w1)))) in *.
  apply wpm_bind. eapply wpm_mono; [exact (acq_get_idle slot n s e w1 Hwf1 Hs Hidle He) |].
  intros ? w2 (-> & Ht2 & Hwf2 & Em2 & Hi2). rewrite Hid, Z.eqb_refl. cbn [negb].
  assert (forall w', ticked w1 w' -> q_depth (acq (ad_adm (w_adapter w'))) = q_depth (acq (ad_adm (w_adapter w1)))) as Hdep
    by (by intros ? (? & ? & -> & _)).
  apply wpm_bind. eapply wpm_mono;
    [apply (acq_get_idle slot n s e w2 Hwf2); [by rewrite Hdep | done | by rewrite Em2] |].
  intros ? w3 (-> & Ht3 & Hwf3 & Em3 & Hi3). assert (ticked w1 w3) by (by etrans).
  apply wpm_bind. eapply wpm_mono;
    [apply (acq_get_idle slot n s e w3 Hwf3); [by rewrite Hdep | done | by rewrite Em3, Em2] |].
  intros ? w4 (-> & Ht4 & Hwf4 & Em4 & Hi4). assert (ticked w1 w4) by (by etrans).
  apply wpm_bind. eapply wpm_mono;
    [apply (acq_get_idle slot n s e w4 Hwf4); [by rewrite Hdep | done | by rewrite Em4, Em3, Em2] |].
  intros ? w5 (-> & Ht5 & Hwf5 & Em5 & Hi5). apply wpm_ret. split_and!; [| | done].
  - rewrite Hid. do 2 f_equal. unfold resp_len. by destruct (0 <? resp_cap).
  - by rewrite Em5, Em4, Em3, Em2.
Qed.

(** What a command that was answered returns. *)
Definition answer_of (s : fw) (e : list Z) (id resp_cap : Z) : Z * option Z * list Z :=
  (- (fw_answer s e).1, Some id, take (Z.to_nat (resp_len resp_cap)) (fw_answer s e).2).

(** The state when the answer [a] to command [n] is in the queue. *)
Record answered (n : Z) (s : fw) (id : Z) (e : list Z) (w w' : world D) : Prop := {
  an_wf : wf_admin w';
  an_frame : exec_frame w w';
  an_state : ad_state (w_adapter w') = ad_state (w_adapter w);
  an_id : next_command_id (ad_adm (w_adapter w')) = (next_id (next_command_id (ad_adm (w_adapter w)))).2;
  an_aq : q_idx (aq (ad_adm (w_adapter w'))) = u16 (n + 1)
    /\ q_depth (aq (ad_adm (w_adapter w'))) = q_depth (aq (ad_adm (w_adapter w)));
  an_acq : acq (ad_adm (w_adapter w')) = acq (ad_adm (w_adapter w));
  an_dev : dev_idle (q_depth (aq (ad_adm (w_adapter w)))) (q_depth (acq (ad_adm (w_adapter w)))) (u16 (n + 1)) (fw_next s e) (w_dev w');
  an_mem : m_acq (w_mem w') = <[Z.to_nat (Z.land n (q_depth (acq (ad_adm (w_adapter w))) - 1)) :=
    acq_entry id (fw_answer s e).1 (phase_of (q_depth (acq (ad_adm (w_adapter w)))) n) (fw_answer s e).2]> (m_acq (w_mem w))
}.

Lemma poll_after_submit opcode req id slot N n s w w1 :
  in_session n s w -> id_wraps w = false -> submitted w opcode req id slot w1 -> (dev_latency < N)%nat ->
  let e := aq_entry opcode id (phase_of (q_depth (aq (ad_adm (w_adapter w)))) n) req in
  slot = Z.land n (q_depth (acq (ad_adm (w_adapter w))) - 1) /\ 1 <= id <= 4095 /\
  wpm (acq_poll N slot) (fun found w2 => found = true /\ answered n s id e w w2) w1.
Proof.
  intros [Hwf Eaq Eacq Hidle Hstale] Hnw [Hwf1 Hf1 Hst1 Hid1 -> Hacq1 Htl1 Haqm1 Hacqm1 _ Hdev1 _] Hlat. cbv zeta.
  pose proof (wa_acq _ Hwf) as (_ & Hd2 & Hl2 & _). pose proof (wa_aq _ Hwf) as (_ & Hd & Hl & _).
  pose proof (wa_aqi _ Hwf) as [Hn Hph]. pose proof (wa_acqi _ Hwf) as [_ Hph2].
  rewrite Hnw in Hacqm1, Hdev1. destruct (next_id_spec _ (wa_id _ Hwf)) as [Eid _].
  pose proof (wa_id _ Hwf) as Hidr. unfold queue_slot in *. rewrite Eaq, Eacq, Hph in *.
  pose proof (slot_range n _ Hd2) as Hs. pose proof (slot_range n _ Hd) as Hs1.
  assert (id = Z.max 1 (next_command_id (ad_adm (w_adapter w)))) as -> by (by rewrite <- Eid, <- Hid1).
  set (id := Z.max 1 _) in *. split; [done |]. split; [lia |]. set (e := aq_entry opcode id _ req) in *.
  destruct (aq_entry_fields opcode id (phase_of (q_depth (aq (ad_adm (w_adapter w)))) n) req) as (Fid & _ & Fph & _);
    [lia | pose proof (phase_of_range (q_depth (aq (ad_adm (w_adapter w)))) n); lia |]. fold e in Fid, Fph.
  assert (q_depth (aq (ad_adm (w_adapter w1))) = q_depth (aq (ad_adm (w_adapter w)))) as Ed
    by (destruct (ef_aq _ _ Hf1) as (? & ? & ->); done).
  eapply wpm_mono.
  { rewrite <- Hacq1. apply (acq_poll_answer _ dev_latency n s e w1); rewrite ?Hacq1, ?Ed, ?Fid; try done.
    - rewrite Hdev1. by apply dev_doorbell.
    - by rewrite Hacqm1.
    - rewrite Haqm1. apply list_lookup_insert_eq. lia.
    - lia. }
  intros ? w2 (-> & Ht2 & Hwf2 & Hidle2 & Em2). rewrite Hacq1, Ed, Hacqm1, Fid in *.
  pose proof (ticked_frame _ _ Ht2) as Hf2. split; [done |].
  assert (w_adapter w2 = w_adapter w1) as Ead by (by destruct Ht2 as (? & ? & -> & _)).
  split; rewrite ?Ead; try done; [by etrans | by rewrite <- Hid1].
Qed.

(** One command of a session. *)
Lemma exec_locked_answer opcode req resp_cap max_polls n s w :
  in_session n s w -> id_wraps w = false -> is_byte opcode -> req_ok req -> (dev_latency < Z.to_nat max_polls)%nat ->
  let id := (next_id (next_command_id (ad_adm (w_adapter w)))).1 in
  let e := aq_entry opcode id (phase_of (q_depth (aq (ad_adm (w_adapter w)))) n) req in
  wpm (ena_admin_exec_locked opcode req resp_cap max_polls) (fun r w' =>
    r = answer_of s e id resp_cap /\ in_session (u16 (n + 1)) (fw_next s e) w' /\ exec_frame w w'
    /\ ad_state (w_adapter w') = ad_state (w_adapter w)
    /\ next_command_id (ad_adm (w_adapter w')) = (next_id (next_command_id (ad_adm (w_adapter w)))).2) w.
Proof.
  intros Hin Hnw Hop Hreq Hlat. pose proof Hin as [Hwf _ Eacq _ Hstale]. cbv zeta. unfold ena_admin_exec_locked.
  destruct (Z.ltb_spec 64 (Z.of_nat (length (default [] req)))).
  { destruct req as [r |]; simpl in *; [| lia]. destruct (Hreq r eq_refl). lia. }
  pose proof (wa_acq _ Hwf) as (_ & Hd2 & Hl2 & _). pose proof (slot_range n _ Hd2) as Hs.
  pose proof (wa_acqi _ Hwf) as [Hn _]. rewrite Eacq in Hn.
  apply wpm_bind. eapply wpm_mono; [by apply aq_submit_spec |]. intros [id slot] w1 Hsub.
  assert ((next_id (next_command_id (ad_adm (w_adapter w)))).1 = id) as -> by (by rewrite <- (sb_id _ _ _ _ _ _ Hsub)).
  destruct (poll_after_submit opcode req id slot (Z.to_nat (if max_polls =? 0 then 1 else max_polls)) n s w w1)
    as (-> & Hid & Hpoll); [done.. | destruct (Z.eqb_spec max_polls 0); lia |].
  apply wpm_bind. eapply wpm_mono; [exact Hpoll |].
  intros ? w2 [-> [Hwf2 Hf2 Hst2 Hid2 [Htl2 Ed2] Hacq2 Hidle2 Em2]]. cbn [negb].
  set (e := aq_entry _ _ _ _) in *.
  destruct (acq_entry_fields id (fw_answer s e).1 (phase_of (q_depth (acq (ad_adm (w_adapter w)))) n) (fw_answer s e).2)
    as (Fc & Fs & _ & Fr); [lia | pose proof (phase_of_range (q_depth (acq (ad_adm (w_adapter w)))) n); lia |].
  eapply wpm_mono.
  { apply wpm_conj.
    - apply acq_complete_spec; [done | by rewrite Hacq2].
    - eapply (acq_complete_answer id _ resp_cap (u16 (n + 1)) (fw_next s e)); rewrite ?Hacq2, ?Ed2; try done.
      rewrite Em2. apply list_lookup_insert_eq. lia. }
  intros [[ret out] resp] w3 [[Hwf3 Hf3 Hst3 [Eaq3 _] Eid3 Eh3 _ _] (-> & Em3 & Hidle3)].
  unfold answer_of. rewrite Fs, Fr. split; [done |]. split; [| split_and!; [by etrans | congruence | congruence]].
  assert (q_depth (acq (ad_adm (w_adapter w3))) = q_depth (acq (ad_adm (w_adapter w)))) as Ed3
    by (rewrite <- Hacq2; destruct (ef_acq _ _ Hf3) as (? & ? & ->); done).
  split; try done; [by rewrite Eaq3 | by rewrite Eh3, Hacq2, Eacq |].
  rewrite Em3, Em2, Ed3. apply acq_stale_step; try done. lia.
Qed.

Lemma wpm_lock_take (Q : unit -> world D -> Prop) w :
  admin_lock (ad_adm (w_adapter w)) = 0 ->
  Q tt (set_w_adapter (set_ad_adm (set_admin_lock 1 (ad_adm (w_adapter w))) (w_adapter w)) w) ->
  wpm ena_admin_lock_take Q w.
Proof. intros E HQ. unfold wpm, ena_admin_lock_take. by rewrite E. Qed.

(** The same through [ena_admin_exec_cmd]. *)
Lemma exec_cmd_answer recover opcode req resp_cap max_polls n s w :
  in_session n s w -> id_wraps w = false -> is_byte opcode -> req_ok req -> (dev_latency < Z.to_nat max_polls)%nat ->
  (forall s e, (fw_answer s e).1 <> ETIMEDOUT) -> ad_state (w_adapter w) <> ENA_STATE_ERROR ->
  admin_lock (ad_adm (w_adapter w)) = 0 ->
  let id := (next_id (next_command_id (ad_adm (w_adapter w)))).1 in
  let e := aq_entry opcode id (phase_of (q_depth (aq (ad_adm (w_adapter w)))) n) req in
  wpm (ena_admin_exec_cmd recover opcode req resp_cap max_polls) (fun r w' =>
    r = answer_of s e id resp_cap /\ in_session (u16 (n + 1)) (fw_next s e) w' /\ exec_frame w w'
    /\ ad_state (w_adapter w') = ad_state (w_adapter w)
    /\ next_command_id (ad_adm (w_adapter w')) = (next_id (next_command_id (ad_adm (w_adapter w)))).2
    /\ admin_lock (ad_adm (w_adapter w')) = 0
    /\ exists es, w_log w' = w_log w ++ es /\ freed es = []) w.
Proof.
  intros Hin Hnw Hop Hreq Hlat Hst Hstate Hlock. cbv zeta. unfold ena_admin_exec_cmd. apply wpm_bind, wpm_get_ad.
  destruct (wa_aq _ (is_wf _ _ _ Hin)) as [[b1 ->] _]. destruct (wa_acq _ (is_wf _ _ _ Hin)) as [[b2 ->] _].
  cbn [non_null negb orb]. rewrite bool_decide_false by done. apply wpm_bind, wpm_lock_take; [done |].
  set (w1 := set_w_adapter _ _).
  assert (in_session n s w1) as Hin1 by (destruct Hin as [[]]; by split; [split | ..]).
  apply wpm_bind. eapply wpm_mono; [apply wpm_conj;
    [exact (exec_locked_answer opcode req resp_cap max_polls n s w1 Hin1 Hnw Hop Hreq Hlat)
    | exact (exec_locked_spec opcode req resp_cap max_polls w1 (is_wf _ _ _ Hin1) Hop Hreq)] |].
  intros r w2 [(-> & Hin2 & Hf2 & Hs2 & Hnx2) [_ _ _ _ Hlog _]]. set (e := aq_entry _ _ _ _) in *. unfold answer_of.
  apply wpm_bind, wpm_mod_adm, wpm_bind.
  destruct (Z.eqb_spec (- (fw_answer s e).1) (- ETIMEDOUT)) as [E | _]; [exfalso; apply (Hst s e); lia |].
  apply wpm_ret, wpm_ret. split_and!; try done.
  - destruct Hin2 as [[]]. by split; [split | ..].
  - destruct Hf2 as [? ? Ead ? ? ? ? ? ?]. split; try done. wsimpl. rewrite Ead. unfold w1. by destruct (w_adapter w).
Qed.
End Session.

(** ** Sessions *)
Record admin_cmd := mkCmd { c_opcode : Z; c_req : option (list Z); c_cap : Z }.

Definition cmd_ok (c : admin_cmd) : Prop := is_byte (c_opcode c) /\ req_ok (c_req c).

Section Sessions.
Context {D : Type} `{EnaDeviceOk D} `{!ResponsiveDevice D}.
Implicit Types w : world D.

Fixpoint exec_all (recover : M D Z) (max_polls : Z) (cs : list admin_cmd) : M D (list (Z * option Z * list Z)) :=
  match cs with
  | [] => mret []
  | c :: cs =>
      r ← ena_admin_exec_cmd recover (c_opcode c) (c_req c) (c_cap c) max_polls;
      rs ← exec_all recover max_polls cs;
      mret (r :: rs)
  end.

(** The request entry of command [n] of a session, and what the firmware makes of
    the commands in order: its answers and its final state. *)
Definition session_entry (aqd n : Z) (c : admin_cmd) : list Z :=
  aq_entry (c_opcode c) (n + 1) (phase_of aqd n) (c_req c).
Fixpoint session_answers (aqd n : Z) (s : fw) (cs : list admin_cmd) : list (Z * option Z * list Z) * fw :=
  match cs with
  | [] => ([], s)
  | c :: cs =>
      let e := session_entry aqd n c in
      let '(rs, s') := session_answers aqd (n + 1) (fw_next s e) cs in
      (answer_of s e (n + 1) (c_cap c) :: rs, s')
  end.

(** The device never reports status 110, which the driver takes for a timeout. *)
Definition no_timeout_status : Prop := forall s e, (fw_answer s e).1 <> ETIMEDOUT.

(** C9: A session of commands refines the firmware.  With a device that answers
    each command within its latency, every sequence of up to 4095 commands from
    the start of the command ids runs to its end: the results, in order, are the
    answers of the firmware state machine fed with the request entries, and the
    firmware ends in the state it reaches on them, whatever the queue depths and
    however often the queues wrap; the recovery never runs, the admin lock is
    free between and after the commands, and driver and device agree on the
    queue position at the end. *)
Theorem admin_session_correct recover max_polls cs n s w :
  in_session n s w -> 0 <= n -> next_command_id (ad_adm (w_adapter w)) = n + 1 \/ n = 4095 ->
  n + Z.of_nat (length cs) <= 4095 -> Forall cmd_ok cs -> (dev_latency < Z.to_nat max_polls)%nat ->
  no_timeout_status -> ad_state (w_adapter w) <> ENA_STATE_ERROR -> admin_lock (ad_adm (w_adapter w)) = 0 ->
  wpm (exec_all recover max_polls cs) (fun rs w' =>
    let '(answers, s') := session_answers (q_depth (aq (ad_adm (w_adapter w)))) n s cs in
    rs = answers
    /\ in_session (n + Z.of_nat (length cs)) s' w' /\ admin_lock (ad_adm (w_adapter w')) = 0
    /\ ad_state (w_adapter w') = ad_state (w_adapter w)) w.
Proof.
  intros Hin Hn0 Hnext Hlen Hok Hlat Hst Hstate Hlock.
  revert n s w Hin Hn0 Hnext Hlen Hstate Hlock.
  induction Hok as [| c cs [Hop Hreq] Hok IH]; intros n s w Hin Hn0 Hnext Hlen Hstate Hlock; simpl.
  { apply wpm_ret. split_and!; try done. by rewrite Z.add_0_r. }
  simpl in Hlen. destruct Hnext as [Hnext | ->]; [| lia].
  apply wpm_bind. eapply wpm_mono; [apply (exec_cmd_answer recover _ _ _ _ n s w); try done |].
  { unfold id_wraps. rewrite (is_acq _ _ _ Hin), Hnext.
    destruct (next_id_spec (n + 1)) as [-> _]; [lia |].
    destruct (Z.eqb_spec (Z.max 1 (n + 1)) 1), (Z.ltb_spec 0 n); try done; lia. }
  rewrite Hnext. destruct (next_id_spec (n + 1)) as [-> Enx]; [lia |]. rewrite Z.max_r in Enx |- * by lia.
  intros r w1 (-> & Hin1 & Hf1 & Hst1 & Hnx1 & Hlk1 & _). rewrite u16_id in Hin1 by lia.
  assert (q_depth (aq (ad_adm (w_adapter w1))) = q_depth (aq (ad_adm (w_adapter w)))) as Ed
    by (destruct (ef_aq _ _ Hf1) as (? & ? & ->); done).
  apply wpm_bind. eapply wpm_mono; [apply (IH (n + 1) (fw_next s (session_entry (q_depth (aq (ad_adm (w_adapter w)))) n c))); try done;
    [lia | | lia | by rewrite Hst1] |].
  { rewrite Hnx1, Enx. case_decide; lia. }
  intros rs w2 Hrs. rewrite Ed in Hrs. destruct (session_answers _ (n + 1) _ cs) as [answers s'].
  destruct Hrs as (-> & Hin2 & Hlk2 & Hst2). apply wpm_ret. split_and!; try done; [| congruence].
  by replace (n + Z.of_nat (S (length cs))) with (n + 1 + Z.of_nat (length cs)) by lia.
Qed.
End Sessions.
