(* ===== verification/Exec.v ===== *)
(** * The admin queue as its callers see it

    [ena_admin_exec_cmd] has many callers: queue creation, initialisation, RSS,
    statistics.  They are written against [AdminExec], the bare function, and their
    theorems are proved against [AdminExecOk], what it promises.  Two instances
    discharge the promise with the real [ena_admin_exec_cmd]:

    - [recovery_exec_ok], commands inside a recovery, against any device at all;
    - [session_exec_ok], commands to a device that answers, whose firmware keeps
      track of the queues it created ([QueueFirmware]). *)

From stdpp Require Import base tactics option list list_numbers numbers sets gmap.
From Stdlib Require Import ZArith Lia.
From S2P Require Import Prelude Fifo Mem Desc Netq Ring Adapter Admin Session.

(** Opcode, request, response capacity, poll budget; result, command id, response. *)
Class AdminExec (D : Type) :=
  admin_exec : Z -> option (list Z) -> Z -> Z -> M D (Z * option Z * list Z).

(** The effect of a command on the completion and submission queues the device
    has.  [payload] is the request entry from byte 4 on; queue indices are its, or
    the response's, first 16 bits. *)
Definition queue_effect (opcode : Z) (payload : list Z) (ret : Z) (resp : list Z)
    (qs qs' : gset Z * gset Z) : Prop :=
  if opcode =? ENA_ADMIN_CREATE_CQ then
    if ret =? 0 then (le_get 2 0 resp ∉ qs.1) /\ qs' = ({[le_get 2 0 resp]} ∪ qs.1, qs.2) else qs' = qs
  else if opcode =? ENA_ADMIN_CREATE_SQ then
    if ret =? 0 then (le_get 2 0 resp ∉ qs.2) /\ qs' = (qs.1, {[le_get 2 0 resp]} ∪ qs.2) else qs' = qs
  else if opcode =? ENA_ADMIN_DESTROY_CQ then
    le_get 2 0 payload ∈ qs.1 -> ret = 0 /\ qs' = (qs.1 ∖ {[le_get 2 0 payload]}, qs.2)
  else if opcode =? ENA_ADMIN_DESTROY_SQ then
    le_get 2 0 payload ∈ qs.2 -> ret = 0 /\ qs' = (qs.1, qs.2 ∖ {[le_get 2 0 payload]})
  else qs' = qs.

(** The response holds the index of a created queue. *)
Definition cap_holds_index (opcode cap : Z) : Prop :=
  2 <= cap \/ opcode <> ENA_ADMIN_CREATE_CQ /\ opcode <> ENA_ADMIN_CREATE_SQ.

(** Driver state the admin queue depends on. *)
Definition admin_same {D} (w w' : world D) : Prop :=
  ad_adm (w_adapter w') = ad_adm (w_adapter w) /\ ad_bars (w_adapter w') = ad_bars (w_adapter w)
  /\ recover_active (w_adapter w') = recover_active (w_adapter w)
  /\ (ad_state (w_adapter w) <> ENA_STATE_ERROR -> ad_state (w_adapter w') <> ENA_STATE_ERROR)
  /\ w_mem w' = w_mem w /\ w_dev w' = w_dev w.

(** What a command may change: the admin queues, the driver state, the log; it
    frees no netbuf. *)
Definition exec_calm {D} (w w' : world D) : Prop :=
  exec_frame w w' /\ exists es, w_log w' = w_log w ++ es /\ freed es = [].

#[export] Instance exec_calm_preorder {D} : PreOrder (@exec_calm D).
Proof.
  split.
  - intros w. split; [done |]. exists []. by rewrite app_nil_r.
  - intros w1 w2 w3 [F1 (es1 & E1 & N1)] [F2 (es2 & E2 & N2)]. split; [by etrans |].
    exists (es1 ++ es2). rewrite E2, E1, <- app_assoc. split; [done |]. by rewrite freed_app, N1, N2.
Qed.

(** [ax_ok k qs w]: the next [k] commands are covered; the device has the queues
    [qs], if [ax_tracked] says that these are known. *)
Class AdminExecOk (D : Type) `{AdminExec D} := {
  ax_tracked : bool;
  ax_ok : nat -> gset Z * gset Z -> world D -> Prop;
  ax_less k qs w : ax_ok (S k) qs w -> ax_ok k qs w;
  ax_untracked k qs qs' w : ax_tracked = false -> ax_ok k qs w -> ax_ok k qs' w;
  ax_keep k qs w w' : admin_same w w' -> ax_ok k qs w -> ax_ok k qs w';
  ax_exec k qs opcode req cap polls w :
    ax_ok (S k) qs w -> is_byte opcode -> req_ok req -> 100 <= polls ->
    wpm (admin_exec opcode req cap polls) (fun '(ret, _, resp) w' =>
      exec_calm w w' /\ ret <= 0
      /\ (ret = 0 -> Z.of_nat (length resp) = resp_len cap /\ Forall is_byte resp)
      /\ exists qs', ax_ok k qs' w'
           /\ (ax_tracked = true -> cap_holds_index opcode cap -> queue_effect opcode (aq_payload req) ret resp qs qs')) w
}.

Lemma ax_le `{AdminExecOk D} j k qs w : (j <= k)%nat -> ax_ok k qs w -> ax_ok j qs w.
Proof. induction 1; [done |]. intros Hw%ax_less. auto. Qed.

(** ** Programs between commands

    [moved k qs w1 w]: the world is [w1] but for what commands may change.  The
    driver code between two commands acts on both alike. *)
Record moved `{AdminExecOk D} (k : nat) (qs : gset Z * gset Z) (w1 w : world D) : Prop := {
  mv_ok : ax_ok k qs w;
  mv_calm : exec_calm w1 w
}.

(** An update of the adapter that does not touch what the admin queue depends on. *)
Definition beside_admin (f : ena_adapter -> ena_adapter) : Prop :=
  (forall st adm a, f (set_ad_state st (set_ad_adm adm a)) = set_ad_state st (set_ad_adm adm (f a)))
  /\ forall a, ad_bars (f a) = ad_bars a /\ recover_active (f a) = recover_active a /\ ad_adm (f a) = ad_adm a
       /\ ad_state (f a) = ad_state a.

(** Commands that do not create or destroy queues. *)
Definition feature_op (opcode : Z) : Prop :=
  opcode = ENA_ADMIN_GET_FEATURE \/ opcode = ENA_ADMIN_SET_FEATURE \/ opcode = ENA_ADMIN_GET_STATS.

Section Moved.
Context {D : Type} `{AdminExecOk D}.
Implicit Types w : world D.

Lemma moved_start k qs w : ax_ok k qs w -> moved k qs w w.
Proof. by split. Qed.

Lemma moved_less j k qs w1 w : (j <= k)%nat -> moved k qs w1 w -> moved j qs w1 w.
Proof. intros Hj []. split; [by eapply ax_le | done]. Qed.

Lemma moved_ad k qs w1 w :
  moved k qs w1 w ->
  w_adapter w = set_ad_state (ad_state (w_adapter w)) (set_ad_adm (ad_adm (w_adapter w)) (w_adapter w1)).
Proof. intros [_ [Hf _]]. apply (ef_ad _ _ Hf). Qed.

Lemma moved_heap k qs w1 w : moved k qs w1 w -> w_heap w = w_heap w1.
Proof. intros [_ [Hf _]]. apply (ef_heap _ _ Hf). Qed.

Lemma moved_mod k qs w1 w f :
  moved k qs w1 w -> beside_admin f ->
  moved k qs (set_w_adapter (f (w_adapter w1)) w1) (set_w_adapter (f (w_adapter w)) w).
Proof.
  intros [Hok [[Hc Hh Ea ? ? ? ? ? ?] Hlog]] [Hf Hs]. destruct (Hs (w_adapter w)) as (Eb & Er & Ed & Es).
  destruct (Hs (w_adapter w1)) as (_ & _ & Ed1 & _). split.
  - eapply ax_keep; [| exact Hok]. split_and!; wsimpl; try done. by rewrite Es.
  - split; [| exact Hlog]. split; wsimpl; rewrite ?Ed, ?Ed1, ?Es; try done. by rewrite Ea at 1; rewrite Hf.
Qed.

Lemma wpm_moved_mod k qs w1 w f (Q : unit -> world D -> Prop) :
  moved k qs w1 w -> beside_admin f ->
  (forall w', moved k qs (set_w_adapter (f (w_adapter w1)) w1) w' -> Q tt w') -> wpm (mod_ad f) Q w.
Proof. intros Hm Hf HQ. apply wpm_mod_ad, HQ. by apply moved_mod. Qed.

Lemma moved_set_heap k qs w1 w h : moved k qs w1 w -> moved k qs (set_w_heap h w1) (set_w_heap h w).
Proof.
  intros [Hok [[? ? ? ? ? ? ? ? ?] Hlog]]. split; [| split; [by split | exact Hlog]].
  eapply ax_keep; [| exact Hok]. by split_and!.
Qed.

Lemma wpm_feature k qs w1 w opcode req cap polls (Q : Z * option Z * list Z -> world D -> Prop) :
  moved (S k) qs w1 w -> feature_op opcode -> req_ok req -> 100 <= polls ->
  (forall ret out resp w', moved k qs w1 w' -> ret <= 0 ->
     (ret = 0 -> Z.of_nat (length resp) = resp_len cap /\ Forall is_byte resp) -> Q (ret, out, resp) w') ->
  wpm (admin_exec opcode req cap polls) Q w.
Proof.
  intros [Hok Hcalm] Hop Hreq Hp HQ. eapply wpm_mono; [apply (ax_exec k qs opcode req cap polls w Hok); try done |].
  { destruct Hop as [-> | [-> | ->]]; done. }
  intros [[ret out] resp] w' (Hcalm' & Hret & Hr & qs' & Hok' & He). apply HQ; try done.
  split; [| by etrans]. destruct ax_tracked eqn:Et; [| by eapply ax_untracked].
  specialize (He eq_refl). destruct Hop as [-> | [-> | ->]]; simpl in He; rewrite <- He; try done; by right.
Qed.
End Moved.

(** ** Safety of one command, recovery included *)
Section Cmd.
Context {D : Type} `{EnaDeviceOk D}.
Implicit Types w : world D.

Lemma lock_wf w v :
  wf_admin w -> wf_admin (set_w_adapter (set_ad_adm (set_admin_lock v (ad_adm (w_adapter w))) (w_adapter w)) w).
Proof. intros []. by split. Qed.

(** A command runs to its end; if it times out, what follows is the recovery. *)
Lemma exec_cmd_safe recover opcode req cap polls w (Q : Z * option Z * list Z -> world D -> Prop) :
  wf_admin w -> is_byte opcode -> req_ok req -> admin_lock (ad_adm (w_adapter w)) = 0 ->
  (forall ret out resp w', wf_admin w' -> exec_calm w w' -> ret <= 0 ->
     (ret = 0 -> Z.of_nat (length resp) = resp_len cap /\ Forall is_byte resp) ->
     ret <> - ETIMEDOUT -> Q (ret, out, resp) w') ->
  (forall out resp w', wf_admin w' -> exec_calm w w' ->
     wpm recover (fun _ w'' => Q (- ETIMEDOUT, out, resp) w'') w') ->
  wpm (ena_admin_exec_cmd recover opcode req cap polls) Q w.
Proof.
  intros Hwf Hop Hreq Hlock HQ Hrec. unfold ena_admin_exec_cmd. apply wpm_bind, wpm_get_ad.
  destruct (wa_aq _ Hwf) as [[b1 ->] _]. destruct (wa_acq _ Hwf) as [[b2 ->] _]. cbn [non_null negb orb].
  case_bool_decide.
  { apply wpm_ret, HQ; [done | done | vm_compute; discriminate | intros E; discriminate E | discriminate]. }
  apply wpm_bind, wpm_lock_take; [done |]. set (w1 := set_w_adapter _ _).
  assert (wf_admin w1) as Hwf1 by (by apply lock_wf).
  apply wpm_bind. eapply wpm_mono; [apply (exec_locked_spec opcode req cap polls w1 Hwf1 Hop Hreq) |].
  intros [[ret out] resp] w2 [Hwf2 Hf2 _ _ (es & Hlog & Hfr) Hret].
  apply wpm_bind, wpm_mod_adm. set (w3 := set_w_adapter _ w2).
  assert (wf_admin w3) as Hwf3 by (by apply lock_wf).
  assert (exec_calm w w3) as Hcalm.
  { split; [| by exists es]. destruct Hf2 as [? ? Ead ? ? ? ? ? ?]. split; try done.
    unfold w3. wsimpl. rewrite Ead. unfold w1. by destruct (w_adapter w). }
  destruct (Z.eqb_spec ret (- ETIMEDOUT)) as [-> | Hne].
  - do 2 apply wpm_bind. eapply wpm_mono; [by apply Hrec |]. intros a w4 HQ4. exact HQ4.
  - apply wpm_bind, wpm_ret, wpm_ret.
    destruct Hret as [(-> & _) | (_ & _ & [(-> & -> & ->) | (Hr & _ & Hl & Hb)])]; [done | |].
    + apply HQ; [done | done | vm_compute; discriminate | intros E; discriminate E | done].
    + apply HQ; try done. lia.
Qed.
End Cmd.

(** ** Commands inside a recovery

    While [recover_active] is set the recovery refuses to run again, so that a
    command that times out leaves the driver in the error state and nothing else
    happens.  This holds against any device. *)
Definition refuses_nested {D} (recover : M D Z) : Prop :=
  forall w, recover_active (w_adapter w) <> 0 -> recover w = Ret (- EBUSY, w).

Section Recovery.
Context {D : Type} `{EnaDeviceOk D}.
Context (recover : M D Z) (Hrec : refuses_nested recover).

Definition recovery_ok (w : world D) : Prop :=
  wf_admin w /\ admin_lock (ad_adm (w_adapter w)) = 0 /\ recover_active (w_adapter w) <> 0.

Lemma recovery_ok_calm w w' : recovery_ok w -> wf_admin w' -> exec_calm w w' -> recovery_ok w'.
Proof.
  intros (_ & Hl & Ha) Hwf [[_ _ Ead El _ _ _ _ _] _]. split_and!; [done | congruence |]. by rewrite Ead.
Qed.

Definition recovery_exec : AdminExec D := ena_admin_exec_cmd recover.

#[refine] Instance recovery_exec_ok : @AdminExecOk D recovery_exec := {
  ax_tracked := false;
  ax_ok _ _ w := recovery_ok w
}.
Proof.
  - done.
  - done.
  - intros _ _ w w' (Ea & Eb & Er & _ & Em & _) (Hwf & Hl & Ha). split_and!; [| congruence..].
    destruct Hwf. split; rewrite ?Ea, ?Eb, ?Em; done.
  - intros k qs opcode req cap polls w Hok Hop Hreq _. destruct Hok as (Hwf & Hl & Ha).
    apply exec_cmd_safe; try done.
    + intros ret out resp w' Hwf' Hcalm Hle Hr _. split_and!; try done. exists qs.
      split; [by apply (recovery_ok_calm w) | done].
    + intros out resp w' Hwf' Hcalm. pose proof (recovery_ok_calm w w' (conj Hwf (conj Hl Ha)) Hwf' Hcalm) as Hok'.
      eapply wpm_of_result; [by apply Hrec, Hok' |]. split_and!; [done | vm_compute; discriminate | done |].
      by exists qs.
Defined.
End Recovery.

(** ** Commands to a device that answers *)
Class QueueFirmware (D : Type) `{ResponsiveDevice D} := {
  fw_queues : fw -> gset Z * gset Z;
  fw_queues_step s e : queue_effect (byte_at e 2) (drop 4 e) (- (fw_answer s e).1) (fw_answer s e).2
    (fw_queues s) (fw_queues (fw_next s e))
}.

Lemma le_get_take n k l : (n <= k)%nat -> le_get n 0 (take k l) = le_get n 0 l.
Proof. intros Hk. unfold le_get. rewrite !drop_0, take_take. by rewrite Nat.min_l. Qed.

(** The effect only depends on the first two bytes of the response. *)
Lemma queue_effect_take opcode payload ret cap resp qs qs' :
  cap_holds_index opcode cap ->
  queue_effect opcode payload ret resp qs qs' ->
  queue_effect opcode payload ret (take (Z.to_nat (resp_len cap)) resp) qs qs'.
Proof.
  intros Hcap. unfold queue_effect. destruct (Z.eqb_spec opcode ENA_ADMIN_CREATE_CQ) as [E | _];
    [| destruct (Z.eqb_spec opcode ENA_ADMIN_CREATE_SQ) as [E | _]; [| done]];
    (rewrite le_get_take; [done |]); destruct Hcap as [Hcap | [? ?]]; try done;
    unfold resp_len; destruct (Z.ltb_spec 0 cap); lia.
Qed.

Section Answering.
Context {D : Type} `{EnaDeviceOk D} `{!ResponsiveDevice D} `{!QueueFirmware D}.
Context (recover : M D Z) (Hlat : (dev_latency < 100)%nat) (Hst : no_timeout_status).

(** A session with [k] commands left before the command ids wrap. *)
Definition session_ok (k : nat) (qs : gset Z * gset Z) (w : world D) : Prop :=
  exists n s, in_session n s w /\ fw_queues s = qs /\ 0 <= n
    /\ (next_command_id (ad_adm (w_adapter w)) = n + 1 \/ n = 4095) /\ n + Z.of_nat k <= 4095
    /\ ad_state (w_adapter w) <> ENA_STATE_ERROR /\ admin_lock (ad_adm (w_adapter w)) = 0.

Definition session_exec : AdminExec D := ena_admin_exec_cmd recover.

Lemma session_exec_spec k qs opcode req cap polls w :
  session_ok (S k) qs w -> is_byte opcode -> req_ok req -> 100 <= polls ->
  wpm (session_exec opcode req cap polls) (fun '(ret, _, resp) w' =>
    exec_calm w w' /\ ret <= 0
    /\ (ret = 0 -> Z.of_nat (length resp) = resp_len cap /\ Forall is_byte resp)
    /\ exists qs', session_ok k qs' w'
      /\ (true = true -> cap_holds_index opcode cap -> queue_effect opcode (aq_payload req) ret resp qs qs')) w.
Proof.
  intros (n & s & Hin & <- & Hn & Hnext & Hk & Hstate & Hlock) Hop Hreq Hpolls.
  assert (next_command_id (ad_adm (w_adapter w)) = n + 1) as En by (destruct Hnext; [done | lia]).
  destruct (next_id_spec (n + 1)) as [Eid Enx]; [lia |].
  eapply wpm_mono; [apply (exec_cmd_answer recover opcode req cap polls n s w); try done; [| lia] |].
  { unfold id_wraps. rewrite (is_acq _ _ _ Hin), En, Eid.
    destruct (Z.eqb_spec (Z.max 1 (n + 1)) 1), (Z.ltb_spec 0 n); try done; lia. }
  rewrite En, Eid. intros [[ret out] resp] w' (Er & Hin' & Hf' & Est & Enx' & Hl' & Hlog). rewrite Enx in Enx'.
  set (e := aq_entry _ _ _ _) in *. injection Er as -> -> ->.
  destruct (fw_step_ok s e) as (Hb & Hlen & Hbytes). fold (fw_answer s e) in Hb, Hlen, Hbytes.
  split; [by split |]. split; [unfold is_byte in Hb; lia |]. split.
  { intros _. split; [| by apply Forall_take]. rewrite length_take, Hlen. unfold resp_len. destruct (Z.ltb_spec 0 cap); lia. }
  exists (fw_queues (fw_next s e)). split.
  - exists (n + 1), (fw_next s e). rewrite u16_id in Hin' by lia. split_and!; try done; [lia | | lia | congruence].
    rewrite Enx'. case_decide; lia.
  - intros _ Hcap. apply queue_effect_take; [done |]. pose proof (fw_queues_step s e) as He.
    destruct (aq_entry_fields opcode (Z.max 1 (n + 1)) (phase_of (q_depth (aq (ad_adm (w_adapter w)))) n) req)
      as (_ & Eop & _ & Epay); [lia | pose proof (phase_of_range (q_depth (aq (ad_adm (w_adapter w)))) n); lia |].
    fold e in Eop, Epay. by rewrite Eop, Epay in He.
Qed.

#[refine] Instance session_exec_ok : @AdminExecOk D session_exec := {
  ax_tracked := true;
  ax_ok := session_ok
}.
Proof.
  - intros k qs w (n & s & ? & ? & ? & ? & ? & ?). exists n, s. split_and!; try tauto. lia.
  - done.
  - intros k qs w w' (Ea & Eb & _ & Es & Em & Ed) (n & s & [Hwf ? ? ? ?] & ? & ? & ? & ? & ? & ?).
    exists n, s. rewrite Ea. split_and!; try done; [| by apply Es].
    split; rewrite ?Ea, ?Em, ?Ed; try done. destruct Hwf. split; rewrite ?Ea, ?Eb, ?Em; done.
  - apply session_exec_spec.
Defined.
End Answering.
