(* ===== verification/Device.v ===== *)
(** * An example device

    A concrete instance of the device interfaces ([EnaDevice], [EnaDeviceOk],
    [ResponsiveDevice], [QueueFirmware]) that the examples of the later files run
    against.  It answers a command after [ex_latency] turns, creates and destroys
    queues, reports fixed features, and forgets its queues at a reset. *)

From stdpp Require Import base tactics option list list_numbers numbers sets gmap.
From Stdlib Require Import ZArith Lia.
From S2P Require Import Prelude Fifo Mem Desc Netq Ring Adapter Admin Session Exec.

(** ** Firmware: the queues that exist, and the index the next queue gets *)
Record ex_fw := mkExFw { xf_cqs : gset Z; xf_sqs : gset Z; xf_next : Z }.

Definition pad56 (l : list Z) : list Z := take 56 (l ++ replicate 56 0).

(** Responses to CREATE_CQ and CREATE_SQ. *)
Definition ex_cq_resp (idx : Z) : list Z :=
  le_bytes 2 idx ++ replicate 6 0 ++ le_bytes 4 (0x800 + 4 * idx) ++ le_bytes 4 (0xC00 + 4 * idx).
Definition ex_sq_resp (idx : Z) : list Z :=
  le_bytes 2 idx ++ [0; 0] ++ le_bytes 4 (0x400 + 4 * idx) ++ le_bytes 4 (64 + 1024 * idx) ++ replicate 4 0.

(** The features it reports: attributes (1), queue limits (2), indirection
    table limits (12), event groups (26). *)
Definition ex_feature (id : Z) : list Z :=
  if id =? 1 then le_bytes 4 7 ++ le_bytes 4 2 ++ le_bytes 4 0x04041402 ++ replicate 4 0 ++ le_bytes 4 48 ++ le_bytes 4 48
                  ++ [2; 0x11; 0x22; 0x33; 0x44; 0x55; 0; 0] ++ le_bytes 4 9216
  else if id =? 2 then le_bytes 4 8 ++ le_bytes 4 1000 ++ le_bytes 4 16 ++ le_bytes 4 2048 ++ replicate 8 0
                  ++ le_bytes 4 96 ++ le_bytes 2 16 ++ le_bytes 2 8
  else if id =? 12 then le_bytes 2 2 ++ le_bytes 2 7
  else if id =? 26 then le_bytes 4 0x13
  else [].

Definition ex_fw_step (s : ex_fw) (e : list Z) : ex_fw * (Z * list Z) :=
  let op := byte_at e 2 in
  let idx := u16 (xf_next s) in
  let old := le_get 2 0 (drop 4 e) in
  if op =? ENA_ADMIN_CREATE_CQ then
    if decide (idx ∈ xf_cqs s) then (s, (1, pad56 []))
    else (mkExFw ({[idx]} ∪ xf_cqs s) (xf_sqs s) (xf_next s + 1), (0, pad56 (ex_cq_resp idx)))
  else if op =? ENA_ADMIN_CREATE_SQ then
    if decide (idx ∈ xf_sqs s) then (s, (1, pad56 []))
    else (mkExFw (xf_cqs s) ({[idx]} ∪ xf_sqs s) (xf_next s + 1), (0, pad56 (ex_sq_resp idx)))
  else if op =? ENA_ADMIN_DESTROY_CQ then
    if decide (old ∈ xf_cqs s) then (mkExFw (xf_cqs s ∖ {[old]}) (xf_sqs s) (xf_next s), (0, pad56 []))
    else (s, (1, pad56 []))
  else if op =? ENA_ADMIN_DESTROY_SQ then
    if decide (old ∈ xf_sqs s) then (mkExFw (xf_cqs s) (xf_sqs s ∖ {[old]}) (xf_next s), (0, pad56 []))
    else (s, (1, pad56 []))
  else if op =? ENA_ADMIN_GET_FEATURE then (s, (0, pad56 (ex_feature (byte_at e 17))))
  else (s, (0, pad56 [])).

(** ** The device *)
Record ex_dev := mkExDev { xd_aqd : Z; xd_acqd : Z; xd_next : Z; xd_wait : option nat; xd_fw : ex_fw }.

Definition ex_latency : nat := 3.
Definition ex_fw0 : ex_fw := mkExFw ∅ ∅ 0.

#[export] Instance ex_device : EnaDevice ex_dev := {
  dev_read off d := (if off =? ENA_REGS_DEV_STS_OFF then 0x11 else 0, d);
  dev_write off v d :=
    if off =? ENA_REGS_AQ_DB_OFF then mkExDev (xd_aqd d) (xd_acqd d) (xd_next d) (Some ex_latency) (xd_fw d)
    else if off =? ENA_REGS_AQ_CAPS_OFF then mkExDev (Z.land v 0xFFFF) (xd_acqd d) 0 None (xd_fw d)
    else if off =? ENA_REGS_ACQ_CAPS_OFF then mkExDev (xd_aqd d) (Z.land v 0xFFFF) 0 None (xd_fw d)
    else if off =? ENA_REGS_DEV_CTL_OFF then mkExDev 0 0 0 None ex_fw0
    else d;
  dev_run m d :=
    match xd_wait d with
    | None => (m, d)
    | Some (S k) => (m, mkExDev (xd_aqd d) (xd_acqd d) (xd_next d) (Some k) (xd_fw d))
    | Some O =>
        match m_aq m !! Z.to_nat (Z.land (xd_next d) (xd_aqd d - 1)) with
        | None => (m, d)
        | Some e =>
            let '(s, (status, resp)) := ex_fw_step (xd_fw d) e in
            (set_m_acq (<[Z.to_nat (Z.land (xd_next d) (xd_acqd d - 1)) :=
               acq_entry (le_get 2 0 e) status (phase_of (xd_acqd d) (xd_next d)) resp]> (m_acq m)) m,
             mkExDev (xd_aqd d) (xd_acqd d) (u16 (xd_next d + 1)) None s)
        end
    end
}.

Lemma acq_entry_ok c s p r :
  is_byte s -> is_byte p -> length r = 56%nat -> Forall is_byte r -> entry_ok (acq_entry c s p r).
Proof.
  intros Hs Hp Hl Hr. unfold acq_entry. split.
  - rewrite !length_app, length_le_bytes, length_replicate, Hl. done.
  - apply Forall_app. split; [apply le_bytes_byte |]. do 2 (constructor; [done |]).
    apply Forall_app. split; [by apply Forall_replicate | done].
Qed.

Lemma pad56_ok l : Forall is_byte l -> length (pad56 l) = 56%nat /\ Forall is_byte (pad56 l).
Proof.
  intros Hl. unfold pad56. split; [rewrite length_take, length_app, length_replicate; lia |].
  apply Forall_take, Forall_app. split; [done | by apply Forall_replicate].
Qed.

(** Byte lists written out field by field. *)
Ltac byte_list := repeat first
  [ assumption | apply Forall_app; split | apply le_bytes_byte | by apply Forall_replicate
  | apply Forall_cons; split | apply Forall_nil_2 ];
  try (unfold is_byte in *; first [lia | vm_compute; split; congruence]).

Lemma ex_feature_ok id : Forall is_byte (ex_feature id).
Proof. unfold ex_feature. repeat case_match; byte_list. Qed.

Lemma ex_fw_step_ok s e :
  is_byte (ex_fw_step s e).2.1 /\ length (ex_fw_step s e).2.2 = 56%nat /\ Forall is_byte (ex_fw_step s e).2.2.
Proof.
  assert (forall l, Forall is_byte l -> forall st, is_byte st ->
    is_byte (st, pad56 l).1 /\ length (st, pad56 l).2 = 56%nat /\ Forall is_byte (st, pad56 l).2) as Hp
    by (intros l Hl st Hst; destruct (pad56_ok l Hl); done).
  unfold ex_fw_step. repeat (case_match; simpl fst; simpl snd); apply Hp; try (unfold is_byte; lia);
    try apply ex_feature_ok; unfold ex_cq_resp, ex_sq_resp; byte_list.
Qed.

#[export] Instance ex_device_ok : EnaDeviceOk ex_dev.
Proof.
  split.
  - intros m [a c n [[| k] |] s]; simpl; [| done | done]. destruct (m_aq m !! _); [| done].
    by destruct (ex_fw_step s l) as [? [? ?]].
  - intros m [a c n [[| k] |] s] Ha; simpl; [| done | done]. destruct (m_aq m !! _) as [e |]; [| done].
    pose proof (ex_fw_step_ok s e) as (Hb & Hl & Hr). destruct (ex_fw_step s e) as [s' [status resp]].
    cbn [fst m_acq set_m_acq]. split; [| apply length_insert]. apply Forall_insert; [done |].
    pose proof (phase_of_range c n). apply acq_entry_ok; try done. unfold is_byte. lia.
  - intros m [a c n [[| k] |] s] Ha; simpl; [| done | done]. destruct (m_aq m !! _) as [e |]; [| done].
    by destruct (ex_fw_step s e) as [? [? ?]].
  - intros off d. simpl. case_match; simpl; lia.
Qed.

#[export, refine] Instance ex_device_responsive : ResponsiveDevice ex_dev := {
  dev_latency := ex_latency;
  fw := ex_fw;
  fw_step := ex_fw_step;
  dev_idle aqd acqd n s d := d = mkExDev aqd acqd n None s;
  dev_busy aqd acqd n s k d := d = mkExDev aqd acqd n (Some k) s
}.
Proof.
  - apply ex_fw_step_ok.
  - by intros aqd acqd n s d ->.
  - by intros aqd acqd n s k m d ->.
  - intros aqd acqd n s m d e -> He _. simpl. rewrite He. by destruct (ex_fw_step s e) as [? [? ?]].
  - by intros aqd acqd n s m d ->.
  - by intros aqd acqd n s v d ->.
Defined.

Lemma ex_resp_index idx l : 0 <= idx < 65536 -> le_get 2 0 (pad56 (le_bytes 2 idx ++ l)) = idx.
Proof.
  intros Hi. unfold pad56. rewrite le_get_take by lia. unfold le_get. rewrite drop_0, <- app_assoc.
  rewrite take_app_length' by done. rewrite le_val_bytes. by apply Z.mod_small.
Qed.

#[export, refine] Instance ex_device_queues : QueueFirmware ex_dev := {
  fw_queues s := (xf_cqs s, xf_sqs s)
}.
Proof.
  intros s e. unfold fw_answer, fw_next, queue_effect. cbn [fw_step ex_device_responsive]. unfold ex_fw_step.
  pose proof (u16_range (xf_next s)). cbv zeta. repeat (case_match; cbn [fst snd] in *); try done;
    try (intros ?; done); unfold ex_cq_resp, ex_sq_resp in *; rewrite ?ex_resp_index in * by done; try done.
Defined.

Lemma ex_no_timeout : no_timeout_status (D := ex_dev).
Proof.
  intros s e. unfold fw_answer. cbn [fw_step ex_device_responsive]. unfold ex_fw_step.
  repeat (case_match; cbn [fst snd]); discriminate.
Qed.
