(* ===== verification/Control.v ===== *)
(** * Start, stop, events and reset of the control plane

    Theorems on the rest of [Admin]: [ena_admin_init] and [ena_admin_fini] on the
    heap and the registers, the event queue and its default handler, the device
    reset handshake of src/ena_com.c; then the examples that run the definitions
    against the device of [Device]. *)

From stdpp Require Import base tactics option list list_numbers numbers sets gmap.
From Stdlib Require Import ZArith Lia.
From S2P Require Import Prelude Fifo Mem Desc Netq Ring Adapter Admin Session Exec Device.

(** ** Start and stop *)
Definition blk (p : option Z) : gset Z := match p with Some a => {[a]} | None => ∅ end.

(** The heap blocks of the control plane. *)
Definition admin_blocks (a : ena_adapter) : list Z :=
  omap id [q_base (aq (ad_adm a)); q_base (acq (ad_adm a)); q_base (aenq (ad_adm a)); host_info_base (ad_host a)].

Record admin_owned {D} (w : world D) : Prop := {
  ao_heap : wf_heap (w_heap w);
  ao_nodup : NoDup (admin_blocks (w_adapter w));
  ao_live : list_to_set (admin_blocks (w_adapter w)) ⊆ h_live (w_heap w)
}.

(** The adapter with its queues torn down. *)
Definition admin_cleared (a : ena_adapter) : ena_adapter :=
  set_ad_state ENA_STATE_STOPPED (set_ad_host (mkHostInfo None 0 [])
    (set_ad_adm (mkAdmin admin_q_zero 0 (admin_lock (ad_adm a)) admin_q_zero admin_q_zero None false) a)).

Section StartStop.
Context {D : Type} `{EnaDevice D}.
Implicit Types w : world D.

Lemma wpm_free p w (Q : unit -> world D -> Prop) :
  wf_heap (w_heap w) -> blk p ⊆ h_live (w_heap w) ->
  (forall h, wf_heap h -> h_live h = h_live (w_heap w) ∖ blk p -> Q tt (set_w_heap h w)) ->
  wpm (free p) Q w.
Proof.
  intros Hh Hp HQ. unfold wpm, free. destruct p as [a |]; simpl in *.
  - rewrite decide_True by set_solver. simpl. apply HQ; [| done].
    pose proof (heap_free_spec (w_heap w) a Hh) as Hs. unfold heap_free in Hs.
    rewrite decide_True in Hs by set_solver. apply Hs. set_solver.
  - apply HQ; [done | set_solver].
Qed.

Lemma dma_free_spec p w (Q : unit -> world D -> Prop) :
  wf_heap (w_heap w) -> blk p ⊆ h_live (w_heap w) ->
  (forall h, wf_heap h -> h_live h = h_live (w_heap w) ∖ blk p -> Q tt (set_w_heap h w)) ->
  wpm (dma_free p) Q w.
Proof. apply wpm_free. Qed.

Lemma ena_admin_fini_spec w :
  admin_owned w ->
  wpm ena_admin_fini (fun _ w' => exists h, w' = set_w_heap h (set_w_adapter (admin_cleared (w_adapter w)) w)
    /\ wf_heap h /\ h_live h = h_live (w_heap w) ∖ list_to_set (admin_blocks (w_adapter w))) w.
Proof.
  intros [Hh Hnd Hl]. unfold ena_admin_fini. unfold admin_blocks in *.
  set (p1 := q_base (aq (ad_adm (w_adapter w)))) in *. set (p2 := q_base (acq (ad_adm (w_adapter w)))) in *.
  set (p3 := q_base (aenq (ad_adm (w_adapter w)))) in *. set (p4 := host_info_base (ad_host (w_adapter w))) in *.
  assert (blk p1 ⊆ h_live (w_heap w) /\ blk p2 ⊆ h_live (w_heap w) ∖ blk p1
    /\ blk p3 ⊆ h_live (w_heap w) ∖ blk p1 ∖ blk p2 /\ blk p4 ⊆ h_live (w_heap w) ∖ blk p1 ∖ blk p2 ∖ blk p3
    /\ h_live (w_heap w) ∖ blk p1 ∖ blk p2 ∖ blk p3 ∖ blk p4
       = h_live (w_heap w) ∖ list_to_set (omap id [p1; p2; p3; p4])) as (H1 & H2 & H3 & H4 & H5).
  { clearbody p1 p2 p3 p4. destruct p1, p2, p3, p4; simpl in *; rewrite ?NoDup_cons in Hnd;
      split_and!; set_solver. }
  apply wpm_bind, wpm_get_ad. apply wpm_bind, dma_free_spec; [done.. |]. intros h1 Hh1 E1.
  apply wpm_bind, dma_free_spec; [done | by wsimpl; rewrite E1 |]. intros h2 Hh2 E2. wsimpl_all. rewrite E1 in E2.
  apply wpm_bind, dma_free_spec; [done | by wsimpl; rewrite E2 |]. intros h3 Hh3 E3. wsimpl_all. rewrite E2 in E3.
  apply wpm_bind, wpm_mod_adm. apply wpm_bind, dma_free_spec; [done | by wsimpl; rewrite E3 |].
  intros h4 Hh4 E4. wsimpl_all. rewrite E3 in E4. apply wpm_bind, wpm_mod_ad, wpm_mod_ad.
  exists h4. rewrite E4. split; [by destruct w as [? [] ? ? ? ?] | done].
Qed.

Lemma wpm_dma_alloc w (Q : option (Z * Z) -> world D -> Prop) :
  wf_heap (w_heap w) ->
  (forall h, wf_heap h -> h_live h = h_live (w_heap w) -> Q None (set_w_heap h w)) ->
  (forall a phys h, wf_heap h -> a ∉ h_live (w_heap w) -> h_live h = {[a]} ∪ h_live (w_heap w) ->
     Q (Some (a, phys)) (set_w_heap h w)) ->
  wpm dma_alloc Q w.
Proof.
  intros Hh HN HS. unfold wpm, dma_alloc, ena_dma_alloc.
  destruct (heap_alloc (w_heap w)) as [[a |] h] eqn:E; simpl;
    destruct (heap_alloc_spec _ _ _ Hh E) as (Hh' & _ & Hp); [| by apply HN].
  destruct Hp as (-> & _ & Hnl & El). by apply HS.
Qed.

Lemma wpm_calloc w (Q : option Z -> world D -> Prop) :
  wf_heap (w_heap w) ->
  (forall h, wf_heap h -> h_live h = h_live (w_heap w) -> Q None (set_w_heap h w)) ->
  (forall a h, wf_heap h -> a ∉ h_live (w_heap w) -> h_live h = {[a]} ∪ h_live (w_heap w) -> Q (Some a) (set_w_heap h w)) ->
  wpm calloc Q w.
Proof.
  intros Hh HN HS. unfold wpm, calloc. destruct (heap_alloc (w_heap w)) as [[a |] h] eqn:E; simpl;
    destruct (heap_alloc_spec _ _ _ Hh E) as (Hh' & _ & Hp); [| by apply HN].
  destruct Hp as (-> & _ & Hnl & El). by apply HS.
Qed.

(** A sequence of register writes, as the device sees it and as the log shows it. *)
Definition dev_writes (l : list (Z * Z)) (d : D) : D := fold_left (fun d '(off, v) => dev_write off v d) l d.
Definition write_events (b : Z) (l : list (Z * Z)) : list event := (fun '(off, v) => EvWrite32 (b + off) v) <$> l.

Lemma wpm_reg_writes l b w (Q : unit -> world D -> Prop) :
  bar0_base (ad_bars (w_adapter w)) = Some b ->
  Q tt (set_w_dev (dev_writes l (w_dev w)) (set_w_log (w_log w ++ write_events b l) w)) ->
  wpm (reg_writes l) Q w.
Proof.
  revert w. induction l as [| [off v] l IH]; intros w Hb HQ; simpl.
  - apply wpm_ret. simpl in HQ. rewrite app_nil_r in HQ. by destruct w.
  - apply wpm_bind, (wpm_reg_write32 _ _ b); [done |]. apply IH; [done |]. wsimpl.
    rewrite <- app_assoc. exact HQ.
Qed.

(** A start that succeeded: [live] are the blocks live before it. *)
Record admin_started (live : gset Z) (aqd acqd aenqd : Z) (w w' : world D) : Prop := {
  ar_wf : wf_admin w';
  ar_owned : admin_owned w';
  ar_live : exists a1 a2 a3, NoDup [a1; a2; a3] /\ q_base (aq (ad_adm (w_adapter w'))) = Some a1
    /\ q_base (acq (ad_adm (w_adapter w'))) = Some a2 /\ q_base (aenq (ad_adm (w_adapter w'))) = Some a3
    /\ {[a1; a2; a3]} ## live /\ h_live (w_heap w') = {[a1; a2; a3]} ∪ live;
  ar_state : ad_state (w_adapter w') = ENA_STATE_ADMIN_READY;
  ar_lock : admin_lock (ad_adm (w_adapter w')) = admin_lock (ad_adm (w_adapter w));
  ar_id : next_command_id (ad_adm (w_adapter w')) = 1;
  ar_depth : q_depth (aq (ad_adm (w_adapter w'))) = aqd /\ q_depth (acq (ad_adm (w_adapter w'))) = acqd
    /\ q_depth (aenq (ad_adm (w_adapter w'))) = aenqd;
  ar_idx : q_idx (aq (ad_adm (w_adapter w'))) = 0 /\ q_idx (acq (ad_adm (w_adapter w'))) = 0;
  ar_stale : acq_stale acqd 0 (m_acq (w_mem w'));
  ar_ad : w_uk w' = w_uk w /\ exists b c d, w_adapter w' = set_ad_state ENA_STATE_ADMIN_READY (set_ad_adm
    (mkAdmin b 1 (admin_lock (ad_adm (w_adapter w))) c d None false) (set_ad_host (ad_host (w_adapter w')) (w_adapter w)));
  ar_publish : let pub := admin_publish (q_phys (aq (ad_adm (w_adapter w')))) (q_phys (acq (ad_adm (w_adapter w'))))
      (q_phys (aenq (ad_adm (w_adapter w')))) aqd acqd aenqd in
    w_dev w' = dev_writes pub (w_dev w)
    /\ exists b, bar0_base (ad_bars (w_adapter w)) = Some b /\ w_log w' = w_log w ++ write_events b pub
}.

Lemma zero_entries_ok d : 0 <= d -> Z.of_nat (length (zero_entries d)) = d /\ Forall entry_ok (zero_entries d).
Proof.
  intros. unfold zero_entries. rewrite length_replicate. split; [lia |]. apply Forall_replicate, zero_entry_ok.
Qed.

Lemma zero_entries_stale d : pow2_depth d -> acq_stale d 0 (zero_entries d).
Proof.
  intros Hd j Hj. pose proof (pow2_depth_bounds d Hd). exists (replicate 64 0).
  rewrite Z.add_0_l, u16_id by lia. rewrite pow2_depth_land, Z.mod_small by done.
  split; [apply lookup_replicate; split; [done | lia] |].
  unfold phase_of. by rewrite Z.div_small by done.
Qed.

Lemma queue_fresh_ok base phys d idx phase :
  pow2_depth d -> queue_ok (mkAdminQ (Some base) phys d idx phase) (zero_entries d).
Proof.
  intros Hd. pose proof (pow2_depth_bounds d Hd). destruct (zero_entries_ok d) as [? ?]; [lia |].
  split; [by eexists |]. done.
Qed.

(** No admin queue is allocated. *)
Definition admin_down (a : ena_adapter) : Prop :=
  q_base (aq (ad_adm a)) = None /\ q_base (acq (ad_adm a)) = None /\ q_base (aenq (ad_adm a)) = None.

Lemma undo_1 (a : Z) (L : gset Z) : a ∉ L -> ({[a]} ∪ L) ∖ {[a]} = L.
Proof. set_solver. Qed.
Lemma undo_2 (a b : Z) (L : gset Z) :
  a ∉ L -> b ∉ {[a]} ∪ L -> ({[b]} ∪ ({[a]} ∪ L)) ∖ {[a]} ∖ {[b]} = L.
Proof. set_solver. Qed.
Lemma sub_2 (a b : Z) (L : gset Z) : {[a]} ⊆ ({[b]} ∪ ({[a]} ∪ L) : gset Z).
Proof. set_solver. Qed.
Lemma sub_2' (a b : Z) (L : gset Z) : b ∉ {[a]} ∪ L -> {[b]} ⊆ ({[b]} ∪ ({[a]} ∪ L)) ∖ {[a]}.
Proof. set_solver. Qed.
Lemma fresh_3 (a b c : Z) (L : gset Z) :
  a ∉ L -> b ∉ {[a]} ∪ L -> c ∉ {[b]} ∪ ({[a]} ∪ L) ->
  NoDup [a; b; c] /\ {[a; b; c]} ## L /\ {[c]} ∪ ({[b]} ∪ ({[a]} ∪ L)) = {[a; b; c]} ∪ L.
Proof. intros Ha Hb Hc. split_and!; [| set_solver | set_solver].
  repeat (apply NoDup_cons_2; [set_solver |]). apply NoDup_nil_2. Qed.
Lemma host_fresh_3 (a b c : Z) (p : option Z) (L : gset Z) :
  NoDup [a; b; c] -> {[a; b; c]} ## L -> blk p ⊆ L ->
  NoDup (omap id [Some a; Some b; Some c; p])
  /\ list_to_set (omap id [Some a; Some b; Some c; p]) ⊆ {[a; b; c]} ∪ L.
Proof. intros Hn Hd Hp. split; [| destruct p; simpl in *; set_solver].
  rewrite !NoDup_cons in Hn. destruct p; simpl in *; repeat (apply NoDup_cons_2; [set_solver |]); apply NoDup_nil_2.
Qed.

Lemma admin_setup_spec aqd acqd aenqd b w :
  admin_owned w -> admin_down (w_adapter w) -> bar0_base (ad_bars (w_adapter w)) = Some b ->
  pow2_depth aqd -> pow2_depth acqd -> pow2_depth aenqd ->
  wpm (admin_setup aqd acqd aenqd) (fun ret w' =>
    ret = - ENOMEM /\ h_live (w_heap w') = h_live (w_heap w) /\ wf_heap (w_heap w')
      /\ w_adapter w' = w_adapter w /\ w_log w' = w_log w /\ w_uk w' = w_uk w
    \/ ret = 0 /\ admin_started (h_live (w_heap w)) aqd acqd aenqd w w' /\ ad_host (w_adapter w') = ad_host (w_adapter w)) w.
Proof.
  intros [Hh Hnd Hl] (Hd1 & Hd2 & Hd3) Hb Hp1 Hp2 Hp3. unfold admin_setup.
  apply wpm_bind, wpm_dma_alloc; [done | intros h1 Hh1 E1; apply wpm_ret; by left |].
  intros a1 phys1 h1 Hh1 Hn1 E1. apply wpm_bind, wpm_dma_alloc; [done | |]; wsimpl.
  { intros h2 Hh2 E2. apply wpm_bind, dma_free_spec; [done | wsimpl; rewrite E2, E1; apply union_subseteq_l |].
    intros h3 Hh3 E3. apply wpm_ret. left. wsimpl_all. rewrite E3, E2, E1. by rewrite undo_1. }
  intros a2 phys2 h2 Hh2 Hn2 E2. rewrite E1 in E2, Hn2. apply wpm_bind, wpm_dma_alloc; [done | |]; wsimpl.
  { intros h3 Hh3 E3. apply wpm_bind, dma_free_spec; [done | wsimpl; rewrite E3, E2; apply sub_2 |].
    intros h4 Hh4 E4. wsimpl_all. apply wpm_bind, dma_free_spec; [done | wsimpl; rewrite E4, E3, E2; by apply sub_2' |].
    intros h5 Hh5 E5. wsimpl_all. apply wpm_ret. left. wsimpl. rewrite E5, E4, E3, E2. by rewrite undo_2. }
  intros a3 phys3 h3 Hh3 Hn3 E3. wsimpl_all. rewrite E2 in E3, Hn3.
  destruct (fresh_3 a1 a2 a3 (h_live (w_heap w))) as (Hnd3 & Hdisj & EL); [done.. |]. rewrite EL in E3.
  apply wpm_bind. unfold wpm at 1, put_mem. cbn [wp]. apply wpm_bind, wpm_mod_adm.
  apply wpm_bind, (wpm_reg_writes _ b); [done |]. apply wpm_bind, wpm_mod_ad, wpm_ret. right. split; [done |]. split; [| done].
  pose proof (pow2_depth_bounds _ Hp1). pose proof (pow2_depth_bounds _ Hp2). pose proof (pow2_depth_bounds _ Hp3).
  split; wsimpl; try done.
  - split; wsimpl; try (by apply queue_fresh_ok); try (apply index_ok_0; lia); try done.
    split; [lia |]. unfold phase_of. by rewrite Z.div_same by lia.
  - destruct (host_fresh_3 a1 a2 a3 (host_info_base (ad_host (w_adapter w))) (h_live (w_heap w))) as [? ?]; [done.. | |].
    + unfold admin_blocks in Hl. rewrite Hd1, Hd2, Hd3 in Hl.
      destruct (host_info_base _); simpl in *; [clear - Hl; set_solver | apply empty_subseteq].
    + split; wsimpl; [done | done | by rewrite E3].
  - exists a1, a2, a3. done.
  - by apply zero_entries_stale.
  - split; [done |]. do 3 eexists. by destruct (w_adapter w).
  - split; [done |]. by exists b.
Qed.

(** Are there queues to tear down before a start? *)
Definition admin_up (a : ena_adapter) : bool :=
  non_null (q_base (aq (ad_adm a))) || non_null (q_base (acq (ad_adm a))) || non_null (q_base (aenq (ad_adm a))).

Lemma admin_up_down a : admin_up a = false -> admin_down a.
Proof.
  unfold admin_up, admin_down. by destruct (q_base (aq (ad_adm a))), (q_base (acq (ad_adm a))), (q_base (aenq (ad_adm a))).
Qed.

Lemma depths_ok d1 d2 d3 :
  0 <= d1 < 65536 -> 0 <= d2 < 65536 -> 0 <= d3 < 65536 ->
  negb (ena_depth_ok d1) || negb (ena_depth_ok d2) || negb (ena_depth_ok d3) = false
  <-> pow2_depth d1 /\ pow2_depth d2 /\ pow2_depth d3.
Proof.
  intros H1 H2 H3. rewrite <- (ena_is_power_of_two_spec d1), <- (ena_is_power_of_two_spec d2),
    <- (ena_is_power_of_two_spec d3) by done.
  change ena_depth_ok with ena_is_power_of_two.
  destruct (ena_is_power_of_two d1), (ena_is_power_of_two d2), (ena_is_power_of_two d3); simpl; intuition done.
Qed.

Lemma admin_init_spec aqd acqd aenqd b w :
  admin_owned w -> bar0_base (ad_bars (w_adapter w)) = Some b ->
  0 <= aqd < 65536 -> 0 <= acqd < 65536 -> 0 <= aenqd < 65536 ->
  let a0 := if admin_up (w_adapter w) then admin_cleared (w_adapter w) else w_adapter w in
  let live := if admin_up (w_adapter w) then h_live (w_heap w) ∖ list_to_set (admin_blocks (w_adapter w))
              else h_live (w_heap w) in
  wpm (ena_admin_init aqd acqd aenqd) (fun ret w' => wf_heap (w_heap w') /\ w_uk w' = w_uk w /\
    if decide (pow2_depth aqd /\ pow2_depth acqd /\ pow2_depth aenqd) then
      ret = - ENOMEM /\ h_live (w_heap w') = live /\ w_adapter w' = a0 /\ w_log w' = w_log w
      \/ ret = 0 /\ admin_started live aqd acqd aenqd w w' /\ ad_host (w_adapter w') = ad_host a0
    else ret = - EINVAL /\ h_live (w_heap w') = live /\ w_adapter w' = a0 /\ w_log w' = w_log w) w.
Proof.
  intros Hown Hb H1 H2 H3. cbv zeta. unfold ena_admin_init. apply wpm_bind, wpm_get_ad. rewrite Hb. cbn [non_null negb].
  fold (admin_up (w_adapter w)). apply wpm_bind.
  assert (wpm (if admin_up (w_adapter w) then ena_admin_fini else mret tt) (fun _ w0 => admin_owned w0
    /\ w_adapter w0 = (if admin_up (w_adapter w) then admin_cleared (w_adapter w) else w_adapter w)
    /\ h_live (w_heap w0) = (if admin_up (w_adapter w) then h_live (w_heap w) ∖ list_to_set (admin_blocks (w_adapter w))
         else h_live (w_heap w)) /\ admin_down (w_adapter w0) /\ w_log w0 = w_log w /\ w_dev w0 = w_dev w
    /\ ad_bars (w_adapter w0) = ad_bars (w_adapter w)
    /\ admin_lock (ad_adm (w_adapter w0)) = admin_lock (ad_adm (w_adapter w)) /\ w_uk w0 = w_uk w) w) as Hfini.
  { destruct (admin_up (w_adapter w)) eqn:Eup; [| apply wpm_ret; split_and!; try done; by apply admin_up_down].
    eapply wpm_mono; [by apply ena_admin_fini_spec |]. intros _ w0 (h & -> & Hh & El).
    split_and!; try done. split; wsimpl; [done | apply NoDup_nil_2 | apply empty_subseteq]. }
  eapply wpm_mono; [exact Hfini |]. intros _ w0 (Hown0 & Ea0 & <- & Hdown & Elog & Edev & Ebar & Elk & Ecpu).
  rewrite <- Ea0.
  pose proof (depths_ok aqd acqd aenqd H1 H2 H3) as Hdep. case_decide as Hd.
  - rewrite (proj2 Hdep Hd). destruct Hd as (Hp1 & Hp2 & Hp3).
    eapply wpm_mono; [apply (admin_setup_spec aqd acqd aenqd b w0); try done; by rewrite Ebar |].
    intros ret w' [(-> & ? & ? & ? & ? & ?) | (-> & Hst & Eh)]; [split_and!; [done | congruence | left; split_and!; congruence] |].
    destruct Hst as [? Hown' ? ? ? ? ? ? ? [Ecpu' (q1 & q2 & q3 & Ea')] ?].
    split; [apply Hown' |]. split; [congruence |]. right. split; [done |]. split; [| done]. split; try done; [congruence | |].
    + split; [congruence |]. exists q1, q2, q3. rewrite Ea' at 1. rewrite <- Elk, Ea0.
      by destruct (admin_up (w_adapter w)), (w_adapter w).
    + by rewrite <- Edev, <- Elog, <- Ebar.
  - destruct (negb _ || negb _ || negb _); [apply wpm_ret; split; [apply Hown0 | done] | by destruct Hd; apply Hdep].
Qed.

(** C26: Start of the admin queues.  [ena_admin_init] first releases the queues of
    an earlier start, if any.  It refuses, with -EINVAL, exactly the depths that
    are not powers of two from 4 to 32768.  For every pattern of allocation
    failures it returns -ENOMEM with no block left behind, or 0 with three fresh
    blocks the adapter owns, cleared queues, the indices, phases and command id of
    a new session, and the addresses, depths and entry sizes of these queues
    written to the registers of the device, in order. *)
Theorem admin_init_correct aqd acqd aenqd b w :
  admin_owned w -> bar0_base (ad_bars (w_adapter w)) = Some b ->
  0 <= aqd < 65536 -> 0 <= acqd < 65536 -> 0 <= aenqd < 65536 ->
  let a0 := if admin_up (w_adapter w) then admin_cleared (w_adapter w) else w_adapter w in
  let live := if admin_up (w_adapter w) then h_live (w_heap w) ∖ list_to_set (admin_blocks (w_adapter w))
              else h_live (w_heap w) in
  wpm (ena_admin_init aqd acqd aenqd) (fun ret w' =>
    if decide (pow2_depth aqd /\ pow2_depth acqd /\ pow2_depth aenqd) then
      ret = - ENOMEM /\ h_live (w_heap w') = live /\ w_adapter w' = a0 /\ w_log w' = w_log w
      \/ ret = 0 /\ admin_started live aqd acqd aenqd w w'
    else ret = - EINVAL /\ h_live (w_heap w') = live /\ w_adapter w' = a0 /\ w_log w' = w_log w) w.
Proof.
  intros Hown Hb H1 H2 H3. eapply wpm_mono; [by apply (admin_init_spec aqd acqd aenqd b w) |].
  intros ret w' (_ & _ & Hr). cbv beta in *. case_decide; [| exact Hr]. destruct Hr as [Hr | (? & ? & _)]; [by left | by right].
Qed.
End StartStop.

(** ** Events *)

(** The low and high words of a 64-bit counter. *)
Lemma le_val_app l1 l2 : le_val (l1 ++ l2) = le_val l1 + 256 ^ Z.of_nat (length l1) * le_val l2.
Proof.
  induction l1 as [| x l1 IH]; [by change (256 ^ Z.of_nat 0) with 1; simpl; lia |].
  change (length (x :: l1)) with (S (length l1)). cbn [app le_val]. rewrite IH, Nat2Z.inj_succ, Z.pow_succ_r by lia. lia.
Qed.

Lemma le_val_range l : Forall is_byte l -> 0 <= le_val l < 256 ^ Z.of_nat (length l).
Proof.
  induction 1 as [| x l Hx Hl IH]; [done |]. change (length (x :: l)) with (S (length l)). cbn [le_val].
  rewrite Nat2Z.inj_succ, Z.pow_succ_r by lia. unfold is_byte in Hx. lia.
Qed.

Lemma words_64 e off :
  Forall is_byte e -> (off + 8 <= length e)%nat ->
  Z.lor (Z.shiftl (le_get 4 (off + 4) e) 32) (le_get 4 off e) = le_get 8 off e.
Proof.
  intros He Hl. unfold le_get.
  assert (take 8 (drop off e) = take 4 (drop off e) ++ take 4 (drop (off + 4) e)) as ->.
  { rewrite <- drop_drop, <- (take_drop 4 (take 8 (drop off e))), take_take, skipn_firstn_comm. done. }
  rewrite le_val_app, length_take, length_drop, Nat.min_l by lia. change (256 ^ Z.of_nat 4) with (2 ^ 32).
  set (lo := le_val (take 4 (drop off e))). set (hi := le_val (take 4 (drop (off + 4) e))).
  assert (0 <= lo < 2 ^ 32).
  { pose proof (le_val_range (take 4 (drop off e))) as Hr. rewrite length_take, length_drop, Nat.min_l in Hr by lia.
    apply Hr. by apply Forall_take, Forall_drop. }
  rewrite Z.shiftl_mul_pow2, Z.lor_comm by lia. rewrite <- (Z.add_nocarry_lor lo (hi * 2 ^ 32)); [lia |].
  apply Z.bits_inj'. intros i Hi. rewrite Z.land_spec, Z.bits_0. destruct (Z.lt_ge_cases i 32).
  - rewrite Z.mul_pow2_bits_low by lia. apply andb_false_r.
  - by rewrite (testbit_above lo 32) by lia.
Qed.

Section Events.
Context {D : Type} `{EnaDeviceOk D}.
Implicit Types w : world D.

(** The default event handler.  On an entry the device no longer changes, a
    KEEP_ALIVE event counts one report and stores the two 64-bit drop counters of
    the entry; a LINK_CHANGE event makes the link state the lowest bit of the
    entry's first data word; a FATAL_ERROR event runs the recovery and returns its
    result; every other group changes nothing.  A NULL adapter is refused. *)
Theorem default_handler_correct recover arg group syndrome e w :
  entry_ok e ->
  ena_aenq_default_handler recover arg group syndrome (Some (fun w => Ret (e, w))) w
  = if negb arg then Ret (- EINVAL, w)
    else if group =? ENA_ADMIN_FATAL_ERROR then recover w
    else Ret (0, if group =? ENA_ADMIN_LINK_CHANGE then
                   set_w_adapter (set_link_up (Z.odd (le_get 4 16 e)) (w_adapter w)) w
                 else if group =? ENA_ADMIN_KEEP_ALIVE then
                   set_w_adapter (set_ad_aen (mkAen (u32 (aen_keepalives (ad_aen (w_adapter w)) + 1))
                     (le_get 8 16 e) (le_get 8 24 e) (aenq_enabled_groups (ad_aen (w_adapter w)))) (w_adapter w)) w
                 else w).
Proof.
  intros [Hl Hb]. unfold ena_aenq_default_handler. destruct arg; [| done]. cbn [negb].
  destruct (Z.eqb_spec group ENA_ADMIN_FATAL_ERROR); [done |].
  destruct (Z.eqb_spec group ENA_ADMIN_LINK_CHANGE) as [-> | Hn0].
  { rewrite (M_bind_ret _ _ _ (le_get 4 16 e) w) by done. cbv zeta.
    rewrite (M_bind_ret get_ad _ _ (w_adapter w) w) by done. rewrite testbit_land1, Z.bit0_odd.
    destruct (Z.odd (le_get 4 16 e)); cbn [b2z z2b Z.eqb negb];
      (case_bool_decide as Hlink; cbn [negb]; [rewrite Hlink; by destruct w as [? [] ? ? ? ?] | done]). }
  destruct (Z.eqb_spec group ENA_ADMIN_WARNING) as [-> | Hn1]; [done |].
  destruct (Z.eqb_spec group ENA_ADMIN_NOTIFICATION) as [-> | Hn2]; [done |].
  destruct (Z.eqb_spec group ENA_ADMIN_KEEP_ALIVE); [| done].
  rewrite <- (words_64 e 16), <- (words_64 e 24) by (done || lia). done.
Qed.

(** A step that keeps the queues in order, with an event queue of depth [d]: what
    the poll needs of a handler. *)
Variable d : Z.

Definition keeps {A} (m : M D A) : Prop := forall w, wf_admin w -> q_depth (aenq (ad_adm (w_adapter w))) = d ->
  wpm m (fun _ w' => wf_admin w' /\ q_depth (aenq (ad_adm (w_adapter w'))) = d) w.

Lemma keeps_bind {A B} (m : M D A) (f : A -> M D B) : keeps m -> (forall a, keeps (f a)) -> keeps (m ≫= f).
Proof.
  intros Hm Hf w Hwf Ed. apply wpm_bind. eapply wpm_mono; [by apply Hm |]. intros a w1 [Hwf1 E1]. by apply Hf.
Qed.

Lemma keeps_ret {A} (a : A) : keeps (mret a : M D A).
Proof. intros w Hwf Ed. by apply wpm_ret. Qed.

Lemma keeps_mod_ad f :
  (forall a, ad_adm (f a) = ad_adm a /\ ad_bars (f a) = ad_bars a) -> keeps (mod_ad f : M D unit).
Proof.
  intros Hf w Hwf Ed. apply wpm_mod_ad. destruct (Hf (w_adapter w)) as [Ea Eb].
  split; [| wsimpl; by rewrite Ea]. destruct Hwf. split; wsimpl; by rewrite ?Ea, ?Eb.
Qed.

Lemma keeps_get_ad : keeps (get_ad : M D ena_adapter).
Proof. intros w Hwf Ed. by apply wpm_get_ad. Qed.

Lemma keeps_aenq_get idx : 0 <= idx < d -> keeps (aenq_get idx).
Proof.
  intros Hi w Hwf Ed. eapply wpm_mono; [apply wpm_aenq_get; [done | by rewrite Ed] |].
  intros e w' ((? & ? & -> & _) & Hwf' & _). done.
Qed.

#[local] Hint Resolve keeps_ret keeps_get_ad : ena.

Lemma default_handler_keeps recover arg group syndrome rd :
  keeps recover -> keeps rd -> keeps (ena_aenq_default_handler recover arg group syndrome (Some rd)).
Proof.
  intros Hr Hrd. assert (forall i, keeps (entry_word (Some rd) i)) as Hw.
  { intros i. apply keeps_bind; [done | auto with ena]. }
  unfold ena_aenq_default_handler. destruct (negb arg); [auto with ena |].
  destruct (group =? ENA_ADMIN_FATAL_ERROR); [done |]. destruct (group =? ENA_ADMIN_LINK_CHANGE).
  { apply keeps_bind; [done |]. intros flags. apply keeps_bind; [auto with ena |]. intros a.
    apply keeps_bind; [| auto with ena]. case_match; [by apply keeps_mod_ad | auto with ena]. }
  destruct (group =? ENA_ADMIN_WARNING); [auto with ena |]. destruct (group =? ENA_ADMIN_NOTIFICATION); [auto with ena |].
  destruct (group =? ENA_ADMIN_KEEP_ALIVE); [| auto with ena].
  do 4 (apply keeps_bind; [done | intros ?]). apply keeps_bind; [by apply keeps_mod_ad | auto with ena].
Qed.

Section Poll.
Variables (recover : M D Z) (other : Z -> Z -> Z -> option (M D (list Z)) -> M D Z).
Hypothesis Hrec : keeps recover.
Hypothesis Hother : forall f g s rd, keeps rd -> keeps (other f g s (Some rd)).

Lemma aenq_dispatch_keeps idx : 0 <= idx < d -> keeps (aenq_dispatch recover other idx).
Proof.
  intros Hi. pose proof (keeps_aenq_get idx Hi). apply keeps_bind; [auto with ena |]. intros a.
  destruct (aenq_handler (ad_adm a)) as [[| f] |]; [| | auto with ena];
    do 2 (apply keeps_bind; [done | intros ?]); apply keeps_bind; auto with ena.
  by apply default_handler_keeps.
Qed.

Lemma aenq_advance_keeps w :
  wf_admin w -> q_depth (aenq (ad_adm (w_adapter w))) = d ->
  let q := aenq (ad_adm (w_adapter w)) in
  let head := u16 (q_idx q + 1) in
  wf_admin (set_w_adapter (set_ad_adm (set_aenq (set_q_phase
    (if Z.land head (d - 1) =? 0 then Z.lxor (q_phase q) 1 else q_phase q) (set_q_idx head q))
    (ad_adm (w_adapter w))) (w_adapter w)) w).
Proof.
  intros Hwf Ed. cbv zeta. pose proof (wa_aenq _ Hwf) as (_ & Hd & _). pose proof (wa_aenqi _ Hwf) as Hi.
  pose proof (ring_advance_ok _ _ _ Hd Hi) as Hadv. simpl in Hadv. rewrite Ed in *.
  destruct Hwf. split; try done; wsimpl; rewrite ?Ed; try done.
  destruct Hi as [_ Hp]. pose proof (phase_of_range d (q_idx (aenq (ad_adm (w_adapter w))))).
  assert (q_phase (aenq (ad_adm (w_adapter w))) = 0 \/ q_phase (aenq (ad_adm (w_adapter w))) = 1) as Hc by lia.
  destruct Hc as [Hc | Hc]; rewrite Hc in *; by destruct (Z.land _ _ =? 0).
Qed.

Lemma aenq_poll_loop_spec n dispatched w :
  wf_admin w -> q_depth (aenq (ad_adm (w_adapter w))) = d ->
  wpm (aenq_poll_loop recover other (d - 1) n dispatched) (fun ret w' =>
    wf_admin w' /\ dispatched <= ret <= dispatched + Z.of_nat n) w.
Proof.
  revert dispatched w. induction n as [| n IH]; intros k w Hwf Ed; simpl; [apply wpm_ret; split; [done | lia] |].
  pose proof (wa_aenq _ Hwf) as (_ & Hd & _). rewrite Ed in Hd. pose proof (slot_range (q_idx (aenq (ad_adm (w_adapter w)))) _ Hd).
  apply wpm_bind, wpm_get_ad, wpm_bind. eapply wpm_mono; [apply wpm_aenq_get; [done | by rewrite Ed] |].
  intros e w1 ((m & dv & -> & Em) & Hwf1 & _). case_match; [apply wpm_ret; split; [done | lia] |].
  apply wpm_bind, wpm_mod_adm. destruct (wa_bar _ Hwf) as [b Hb]. apply wpm_bind, (wpm_reg_write32 _ _ b); [done |].
  pose proof (aenq_advance_keeps _ Hwf1 Ed) as Hwf2. cbv zeta in Hwf2. wsimpl_all.
  apply wpm_bind. eapply wpm_mono; [apply aenq_dispatch_keeps; [done | by destruct Hwf2 | done] |].
  intros _ w3 [Hwf3 Ed3]. eapply wpm_mono; [by apply IH |]. intros ret w4 [? ?]. split; [done | lia].
Qed.
End Poll.

End Events.

(** ** Device reset *)
Definition reset_finished (status : Z) : Prop :=
  Z.testbit status 4 = true /\ Z.testbit status 3 = false /\ Z.testbit status 5 = false.

Section Reset.
Context {D : Type} `{EnaDeviceOk D}.
Implicit Types w : world D.

Lemma wpm_tick' (Q : unit -> world D -> Prop) w :
  (forall w', ticked w w' -> Q tt w') -> wpm tick Q w.
Proof. intros HQ. apply wpm_tick, HQ, ran_ticked. Qed.

Lemma wait_reset_loop_spec n w :
  is_Some (bar0_base (ad_bars (w_adapter w))) ->
  wpm (wait_reset_loop n) (fun ret w' => w_log w' = w_log w /\ w_heap w' = w_heap w /\ w_uk w' = w_uk w /\
    (ret = 0 /\ w_adapter w' = w_adapter w
       /\ (exists d : D, reset_finished (dev_read ENA_REGS_DEV_STS_OFF d).1)
     \/ ret = - EIO /\ w_adapter w' = set_ad_state ENA_STATE_ERROR (w_adapter w)
       /\ (exists d : D, Z.testbit (dev_read ENA_REGS_DEV_STS_OFF d).1 5 = true)
     \/ ret = - ETIMEDOUT /\ w_adapter w' = w_adapter w)) w.
Proof.
  revert w. induction n as [| n IH]; intros w Hb; simpl; [apply wpm_ret; tauto |].
  apply wpm_bind, wpm_reg_read32; [done |].
  change ENA_DEV_STS_FATAL_ERROR_MASK with (2 ^ 5). change ENA_DEV_STS_RESET_FIN_MASK with (2 ^ 4).
  change ENA_DEV_STS_RESET_IN_PROG_MASK with (2 ^ 3). rewrite !bit_set_pow2 by lia.
  destruct (Z.testbit _ 5) eqn:E5; [apply wpm_bind, wpm_mod_ad, wpm_ret; wsimpl; eauto 10 |].
  destruct (_ && _) eqn:Ef.
  - apply andb_true_iff in Ef as [E4 E3%negb_true_iff]. apply wpm_ret. split_and!; [done.. |]. left.
    split_and!; try done. by exists (w_dev w).
  - apply wpm_bind, wpm_tick'. intros w' (m & d & -> & _). by apply (IH (set_w_mem m (set_w_dev d (set_w_dev _ w)))).
Qed.

Lemma reset_spec max_polls b w :
  bar0_base (ad_bars (w_adapter w)) = Some b ->
  wpm (ena_device_reset;; ena_device_wait_reset_complete max_polls) (fun ret w' => w_heap w' = w_heap w /\ w_uk w' = w_uk w /\
    (exists v, w_log w' = w_log w ++ [EvWrite32 (b + ENA_REGS_DEV_CTL_OFF) v]
      /\ forall i, 0 <= i -> Z.testbit v i
           = (i =? 0) || Z.testbit (dev_read ENA_REGS_DEV_CTL_OFF (w_dev w)).1 i && (i <? 28))
    /\ (ret = 0 /\ w_adapter w' = w_adapter w
          /\ (exists d : D, reset_finished (dev_read ENA_REGS_DEV_STS_OFF d).1)
        \/ ret = - EIO /\ w_adapter w' = set_ad_state ENA_STATE_ERROR (w_adapter w)
          /\ (exists d : D, Z.testbit (dev_read ENA_REGS_DEV_STS_OFF d).1 5 = true)
        \/ ret = - ETIMEDOUT /\ w_adapter w' = w_adapter w)) w.
Proof.
  intros Hb. apply wpm_bind. unfold ena_device_reset. apply wpm_bind, wpm_get_ad. rewrite Hb. cbn [non_null negb].
  apply wpm_bind, wpm_reg_read32; [by eexists |]. apply wpm_bind, (wpm_reg_write32 _ _ b); [done |]. apply wpm_ret.
  set (ctl := (dev_read ENA_REGS_DEV_CTL_OFF (w_dev w)).1). set (v := Z.lor _ _).
  unfold ena_device_wait_reset_complete. apply wpm_bind, wpm_get_ad. wsimpl. rewrite Hb. cbn [negb].
  apply wpm_bind, wpm_tick'. intros w1 (m & d & -> & _).
  eapply wpm_mono; [apply wait_reset_loop_spec; by eexists |]. intros ret w2 (Hlog & Hh & Hc & Hret). split; [exact Hh |]. split; [exact Hc |]. split; [| exact Hret].
  exists v. split; [exact Hlog |]. intros i Hi. unfold v.
  rewrite Z.lor_spec, Z.land_spec. change (u32 (Z.lnot ENA_DEV_CTL_RESET_REASON_MASK)) with (Z.ones 28).
  rewrite Z.testbit_ones_nonneg by lia. change ENA_DEV_CTL_DEV_RESET_MASK with (2 ^ 0).
  rewrite Z.pow2_bits_eqb by lia. rewrite (Z.eqb_sym 0 i). by rewrite orb_comm.
Qed.

(** Reset handshake.  Requesting a reset writes one register, DEV_CTL: the reset
    bit set, the reset reason cleared (normal reset), every other bit as the device
    reported it.  The bounded wait that follows writes nothing and returns 0 only
    on a status with the finished flag, without the in-progress and fatal flags;
    on a fatal status it returns -EIO and puts the adapter in the error state;
    otherwise it gives up with -ETIMEDOUT. *)
Theorem reset_handshake max_polls b w :
  bar0_base (ad_bars (w_adapter w)) = Some b ->
  wpm (ena_device_reset;; ena_device_wait_reset_complete max_polls) (fun ret w' =>
    (exists v, w_log w' = w_log w ++ [EvWrite32 (b + ENA_REGS_DEV_CTL_OFF) v]
      /\ forall i, 0 <= i -> Z.testbit v i
           = (i =? 0) || Z.testbit (dev_read ENA_REGS_DEV_CTL_OFF (w_dev w)).1 i && (i <? 28))
    /\ (ret = 0 /\ w_adapter w' = w_adapter w
          /\ (exists d : D, reset_finished (dev_read ENA_REGS_DEV_STS_OFF d).1)
        \/ ret = - EIO /\ w_adapter w' = set_ad_state ENA_STATE_ERROR (w_adapter w)
          /\ (exists d : D, Z.testbit (dev_read ENA_REGS_DEV_STS_OFF d).1 5 = true)
        \/ ret = - ETIMEDOUT /\ w_adapter w' = w_adapter w)) w.
Proof. intros Hb. eapply wpm_mono; [by apply (reset_spec max_polls b w) |]. by intros ret w' (_ & _ & Hr). Qed.
End Reset.

(** ** Examples *)
Definition ex_world0 : world ex_dev :=
  mkWorld uk_zero (adapter_zero (Some 0x1000) 0x2000) example_heap (mkMem [] [] []) (mkExDev 0 0 0 None ex_fw0) [].

Definition ex_started : world ex_dev :=
  match admin_setup 4 8 4 ex_world0 with Ret (_, w) => w | _ => ex_world0 end.

Lemma ex_world0_owned : admin_owned ex_world0.
Proof. split; [by split | apply NoDup_nil_2 | apply empty_subseteq]. Qed.

Lemma pow2_depth_8 : pow2_depth 8.
Proof. by exists 3. Qed.

Lemma ex_setup_result : admin_setup 4 8 4 ex_world0 = Ret (0, ex_started).
Proof. vm_compute. reflexivity. Qed.

Lemma ex_started_ok : admin_started ∅ 4 8 4 ex_world0 ex_started.
Proof.
  pose proof (admin_setup_spec 4 8 4 0x1000 ex_world0 ex_world0_owned (conj eq_refl (conj eq_refl eq_refl)) eq_refl
    pow2_depth_4 pow2_depth_8 pow2_depth_4) as Hs.
  apply (wpm_result _ _ _ _ _ ex_setup_result) in Hs.
  destruct Hs as [[Hf _] | (_ & Hs & _)]; [discriminate Hf | exact Hs].
Qed.

Lemma ex_started_session : in_session 0 ex_fw0 ex_started.
Proof.
  destruct ex_started_ok as [Hwf _ _ _ _ _ (E1 & E2 & _) [Ei1 Ei2] Hst _].
  split; [done | done | done | | by rewrite E2]. rewrite E1, E2. by vm_compute.
Qed.

Lemma ex_init_result : ena_admin_init 4 8 4 ex_world0 = Ret (0, ex_started).
Proof. vm_compute. reflexivity. Qed.

Lemma admin_init_correct_witness :
  wpm (ena_admin_init 4 8 4) (fun ret w' => ret = 0 /\ admin_started ∅ 4 8 4 ex_world0 w') ex_world0.
Proof.
  pose proof (admin_init_correct 4 8 4 0x1000 ex_world0 ex_world0_owned eq_refl ltac:(lia) ltac:(lia) ltac:(lia)) as Hi.
  cbv zeta in Hi. apply (wpm_result _ _ _ _ _ ex_init_result) in Hi. cbv beta in Hi. apply (wpm_of_result _ _ _ _ _ ex_init_result).
  rewrite decide_True in Hi by (split_and!; [apply pow2_depth_4 | apply pow2_depth_8 | apply pow2_depth_4]).
  destruct Hi as [[Hf _] | Hi]; [discriminate Hf | exact Hi].
Defined.

Definition ex_cmd : admin_cmd := mkCmd ENA_ADMIN_GET_FEATURE (Some [1; 2; 3]) 4.

Lemma ex_cmd_ok : cmd_ok ex_cmd.
Proof. split; [done |]. intros r [= <-]. split; [by repeat constructor | left; simpl; lia]. Qed.

Lemma admin_exec_safe_witness :
  wpm (ena_admin_exec_locked ENA_ADMIN_GET_FEATURE (Some [1; 2; 3]) 4 10) (fun '(ret, out, resp) w' =>
    executed ex_started ENA_ADMIN_GET_FEATURE (Some [1; 2; 3]) 4 ret out resp w') ex_started.
Proof.
  apply (admin_exec_safe ENA_ADMIN_GET_FEATURE (Some [1; 2; 3]) 4 10 ex_started
    (is_wf _ _ _ ex_started_session)); [done | left; apply ex_cmd_ok].
Defined.

(** Twenty commands through a queue of 4 requests and 8 completions. *)
Lemma admin_session_correct_witness :
  wpm (exec_all (mret 0) 10 (replicate 20 ex_cmd)) (fun rs w' =>
    rs = (session_answers 4 0 (ex_fw0 : @fw ex_dev _ ex_device_responsive) (replicate 20 ex_cmd)).1 /\ in_session 20 ex_fw0 w') ex_started.
Proof.
  eapply wpm_mono.
  - apply (admin_session_correct (D := ex_dev) (mret 0) 10 (replicate 20 ex_cmd) 0 (ex_fw0 : @fw ex_dev _ ex_device_responsive) ex_started
        ex_started_session);
      [lia | left; by vm_compute | by simpl | apply Forall_replicate, ex_cmd_ok | by apply Nat.ltb_lt
      | apply ex_no_timeout | vm_compute; discriminate | by vm_compute].
  - intros rs w' Hrs. change (q_depth (aq (ad_adm (w_adapter ex_started)))) with 4 in Hrs.
    destruct (session_answers 4 0 (ex_fw0 : @fw ex_dev _ ex_device_responsive) (replicate 20 ex_cmd)) as [answers s'] eqn:E. destruct Hrs as (-> & Hin & _).
    split; [done |]. assert (s' = ex_fw0) as -> by (by vm_compute in E; injection E). exact Hin.
Defined.

Lemma default_handler_correct_witness :
  let e := [4; 0; 0; 0; 1; 0; 0; 0] ++ replicate 8 0 ++ [1; 0; 0; 0; 1; 0; 0; 0; 7] ++ replicate 39 0 in
  ena_aenq_default_handler (mret 0) true ENA_ADMIN_KEEP_ALIVE 0 (Some (fun w => Ret (e, w))) ex_started
  = Ret (0, set_w_adapter (set_ad_aen (mkAen 1 0x100000001 7 0) (w_adapter ex_started)) ex_started).
Proof.
  cbv zeta. rewrite (default_handler_correct (mret 0) true ENA_ADMIN_KEEP_ALIVE 0); [by vm_compute |].
  split; [done | repeat constructor; unfold is_byte; lia].
Defined.


Lemma ex_reset_result :
  wpm (ena_device_reset;; ena_device_wait_reset_complete 3) (fun ret w' =>
    ret = 0 /\ w_log w' = w_log ex_started ++ [EvWrite32 0x1054 1]) ex_started.
Proof. vm_compute. split; reflexivity. Qed.

Lemma reset_handshake_witness :
  wpm (ena_device_reset;; ena_device_wait_reset_complete 3) (fun ret w' =>
    ret = 0 /\ w_log w' = w_log ex_started ++ [EvWrite32 0x1054 1]) ex_started.
Proof.
  eapply wpm_mono; [exact (wpm_conj _ _ _ _ (reset_handshake 3 0x1000 ex_started eq_refl) ex_reset_result) |].
  intros ret w' [_ Hr]. exact Hr.
Defined.

(** ** Findings *)

(** A session after its 4095th command: the completion queue of 8 entries expects
    phase 0 next, and the command ids start again at 1. *)
Definition ex_wrap : world ex_dev :=
  mkWorld uk_zero (set_ad_adm (mkAdmin (mkAdminQ (Some 1) 4096 4 4095 0) 1 0 (mkAdminQ (Some 2) 8192 8 4095 0)
                           (mkAdminQ (Some 3) 12288 4 4 1) None false) (w_adapter ex_started))
    (w_heap ex_started)
    (mkMem (zero_entries 4) (replicate 7 (acq_entry 1 0 0 (replicate 56 0)) ++ [acq_entry 1 0 1 (replicate 56 0)])
       (zero_entries 4))
    (mkExDev 4 8 4095 None ex_fw0) [].

Lemma ex_wrap_session : in_session 4095 ex_fw0 ex_wrap.
Proof.
  split; try done.
  - split; try done; try (by apply queue_fresh_ok, pow2_depth_4). split_and!; [done | apply pow2_depth_8 | done |].
    repeat constructor; vm_compute; congruence.
  - intros j Hj. wsimpl_all.
    assert (j = 0 \/ j = 1 \/ j = 2 \/ j = 3 \/ j = 4 \/ j = 5 \/ j = 6 \/ j = 7) as Hc
      by (change (q_depth (acq (ad_adm (w_adapter ex_wrap)))) with 8 in Hj; lia).
    repeat destruct Hc as [-> | Hc]; try subst j; eexists; (split; [vm_compute; reflexivity | by vm_compute]).
Qed.

(** When the command ids wrap, the entry the driver watches is cleared, and a
    cleared entry shows phase 0.  On the laps that expect phase 0 the driver takes
    it at once for the answer: the first command after the wrap fails with -EIO,
    although the device is about to answer it. *)
Lemma id_wrap_spurious_eio :
  wpm (ena_admin_exec_cmd (mret 0) ENA_ADMIN_GET_FEATURE None 4 10) (fun r _ => r = (- EIO, None, [])) ex_wrap.
Proof. by vm_compute. Qed.

(** A request of 61 to 63 bytes passes the size check and overruns its entry. *)
Lemma request_61_overruns :
  ena_admin_exec_locked ENA_ADMIN_SET_FEATURE (Some (replicate 61 0)) 0 1 ex_started = Fault.
Proof. by vm_compute. Qed.
