(* ===== verification/Queue.v ===== *)
(** * Hardware queues of the IO rings

    src/ena_datapath.c, lines 300-695: the admin commands that create and destroy
    the completion and submission queue of a ring, and [ena_ring_create_hw] and
    [ena_ring_destroy_hw].

    The commands go through an [AdminExec] (Exec.v).  A ring is reached through the
    adapter's table, as in C: a command may run the recovery, which changes the
    ring behind the caller's back.  An output pointer is an action that stores
    through it. *)

From stdpp Require Import base tactics option list list_numbers numbers sets gmap.
From Stdlib Require Import ZArith Lia.
From S2P Require Import Prelude Fifo Mem Desc Netq Ring Adapter Admin Session Exec Device Control.

Definition ENA_DATAPATH_MAX_POLLS : Z := 5000.
Definition ENA_ADMIN_SQ_DIRECTION_TX : Z := 1.
Definition ENA_ADMIN_SQ_DIRECTION_RX : Z := 2.
Definition ENA_ADMIN_PLACEMENT_POLICY_HOST : Z := 1.
Definition ENA_ADMIN_PLACEMENT_POLICY_DEV : Z := 3.
Definition ENA_ADMIN_AQ_CREATE_CQ_CMD_INTERRUPT_MODE_ENABLED_MASK : Z := Z.shiftl 1 5.
Definition ENA_ADMIN_MSIX_NONE : Z := 0xFFFFFFFF.

(** ** Wire format *)

(** [struct ena_common_mem_addr]. *)
Definition mem_addr (phys : Z) : list Z :=
  le_bytes 4 (Z.land phys 0xFFFFFFFF) ++ le_bytes 2 (Z.land (Z.shiftr phys 32) 0xFFFF) ++ [0; 0].

Definition create_cq_req (cq_depth cq_phys msix_vector entry_size_words : Z) : list Z :=
  [ENA_ADMIN_AQ_CREATE_CQ_CMD_INTERRUPT_MODE_ENABLED_MASK;
   if entry_size_words =? 0 then 4 else entry_size_words]
  ++ le_bytes 2 cq_depth ++ le_bytes 4 msix_vector ++ mem_addr cq_phys.

Definition create_sq_req (placement sq_depth sq_phys sq_head_wb_phys cq_idx direction : Z) : list Z :=
  let host := placement =? ENA_ADMIN_PLACEMENT_POLICY_HOST in
  [u8 (Z.shiftl (Z.land direction 7) 5); 0; placement; 1]
  ++ le_bytes 2 cq_idx ++ le_bytes 2 sq_depth
  ++ (if host then mem_addr sq_phys else replicate 8 0)
  ++ (if host && negb (sq_head_wb_phys =? 0) then mem_addr sq_head_wb_phys else replicate 8 0)
  ++ replicate 8 0.

(** The 16-bit index, then a reserved field. *)
Definition destroy_req (idx : Z) : list Z := le_bytes 2 idx ++ [0; 0].

(** A doorbell offset outside BAR0 or unaligned. *)
Definition bad_offset (off bar_size : Z) : bool := (bar_size <? off + 4) || negb (Z.land off 3 =? 0).

Section Queue.
Context {D : Type} `{AdminExec D}.

Definition ena_admin_destroy_cq (cq_idx : Z) : M D Z :=
  '(ret, _, _) ← admin_exec ENA_ADMIN_DESTROY_CQ (Some (destroy_req cq_idx)) 0 ENA_DATAPATH_MAX_POLLS;
  mret ret.

Definition ena_admin_destroy_sq (sq_idx : Z) : M D Z :=
  '(ret, _, _) ← admin_exec ENA_ADMIN_DESTROY_SQ (Some (destroy_req sq_idx)) 0 ENA_DATAPATH_MAX_POLLS;
  mret ret.

(** [out cq_idx db_offset unmask_offset] stores the outputs. *)
Definition ena_admin_create_cq (cq_depth cq_phys msix_vector entry_size_words : Z)
    (out : Z -> Z -> Z -> M D unit) : M D Z :=
  '(ret, _, resp) ← admin_exec ENA_ADMIN_CREATE_CQ
     (Some (create_cq_req cq_depth cq_phys msix_vector entry_size_words)) 16 ENA_DATAPATH_MAX_POLLS;
  if z2b ret then mret ret
  else
    let cq_idx := le_get 2 0 resp in
    let cq_db_offset := le_get 4 8 resp in
    let cq_unmask_off := le_get 4 12 resp in
    out cq_idx cq_db_offset cq_unmask_off;;
    a ← get_ad;
    if z2b (bar0_size (ad_bars a)) && z2b cq_db_offset && bad_offset cq_db_offset (bar0_size (ad_bars a)) then
      ena_admin_destroy_cq cq_idx;; mret (- EINVAL)
    else mret 0.

(** [out sq_idx db_offset] stores the first two outputs; the LLQ offsets, locals of
    the caller that start at 0, are part of the result. *)
Definition ena_admin_create_sq_common (placement sq_depth sq_phys sq_head_wb_phys cq_idx direction : Z)
    (out : Z -> Z -> M D unit) : M D (Z * Z * Z) :=
  '(ret, _, resp) ← admin_exec ENA_ADMIN_CREATE_SQ
     (Some (create_sq_req placement sq_depth sq_phys sq_head_wb_phys cq_idx direction)) 16 ENA_DATAPATH_MAX_POLLS;
  if z2b ret then mret (ret, 0, 0)
  else
    let sq_idx := le_get 2 0 resp in
    let sq_doorbell_offset := le_get 4 4 resp in
    let llq_descs_off := le_get 4 8 resp in
    let llq_headers_off := le_get 4 12 resp in
    out sq_idx sq_doorbell_offset;;
    a ← get_ad;
    if z2b (bar0_size (ad_bars a)) && z2b sq_doorbell_offset
       && bad_offset sq_doorbell_offset (bar0_size (ad_bars a)) then
      ena_admin_destroy_sq sq_idx;; mret (- EINVAL, llq_descs_off, llq_headers_off)
    else mret (0, llq_descs_off, llq_headers_off).

Definition ena_admin_create_sq (sq_depth sq_phys sq_head_wb_phys cq_idx direction : Z)
    (out : Z -> Z -> M D unit) : M D Z :=
  '(ret, _, _) ← ena_admin_create_sq_common ENA_ADMIN_PLACEMENT_POLICY_HOST sq_depth sq_phys sq_head_wb_phys
                   cq_idx direction out;
  mret ret.

Definition ena_admin_create_sq_llq (sq_depth cq_idx direction : Z) (out : Z -> Z -> M D unit) : M D (Z * Z * Z) :=
  ena_admin_create_sq_common ENA_ADMIN_PLACEMENT_POLICY_DEV sq_depth 0 0 cq_idx direction out.

(** ** Rings by reference *)

(** [tx] selects the table. *)
Definition rings_of (tx : bool) (io : io_rings) : arr (option ena_ring) := if tx then tx_rings io else rx_rings io.
Definition set_rings_of (tx : bool) (v : arr (option ena_ring)) (io : io_rings) : io_rings :=
  if tx then set_tx_rings v io else set_rx_rings v io.

Definition get_ring (tx : bool) (q : Z) : M D ena_ring := fun w =>
  r ← aget (rings_of tx (ad_io (w_adapter w))) q;
  match r with Some r => Ret (r, w) | None => Fault end.

Definition mod_ring (tx : bool) (q : Z) (f : ena_ring -> ena_ring) : M D unit := fun w =>
  r ← aget (rings_of tx (ad_io (w_adapter w))) q;
  match r with
  | None => Fault
  | Some r =>
      l ← aset (rings_of tx (ad_io (w_adapter w))) q (Some (f r));
      Ret (tt, set_w_adapter (set_ad_io (set_rings_of tx l (ad_io (w_adapter w))) (w_adapter w)) w)
  end.

(** ** Creation *)
Definition store_cq (tx : bool) (q idx db unmask : Z) : M D unit :=
  mod_ring tx q (fun r => set_r_cq (set_cq_unmask_db_offset unmask (set_cq_db_offset db (set_cq_idx idx (r_cq r)))) r).
Definition store_sq (tx : bool) (q idx db : Z) : M D unit :=
  mod_ring tx q (fun r => set_r_sq (set_sq_db_offset db (set_sq_idx idx (r_sq r))) r).

Definition llq_area (a : ena_adapter) (r : ena_ring) : Z :=
  sq_depth (r_sq r) * (if llq_info_entry_size (llq_info a) =? 0 then 128 else llq_info_entry_size (llq_info a)).

(** The doorbell and unmask offsets the device gave for the completion queue. *)
Definition create_hw_cq_regs (tx : bool) (q : Z) : M D Z :=
  a ← get_ad;
  r ← get_ring tx q;
  if z2b (cq_db_offset (r_cq r)) && bad_offset (cq_db_offset (r_cq r)) (bar0_size (ad_bars a)) then
    ena_admin_destroy_cq (cq_idx (r_cq r));; mret (- EINVAL)
  else
    (if z2b (cq_db_offset (r_cq r)) then
       mod_ring tx q (fun r => set_r_cq (set_cq_db ((fun b => b + cq_db_offset (r_cq r)) <$> bar0_base (ad_bars a)) (r_cq r)) r)
     else mret tt);;
    if z2b (cq_unmask_db_offset (r_cq r)) && bad_offset (cq_unmask_db_offset (r_cq r)) (bar0_size (ad_bars a)) then
      ena_admin_destroy_cq (cq_idx (r_cq r));; mret (- EINVAL)
    else mret 0.

(** The submission queue in host memory; the completion queue goes on failure. *)
Definition create_hw_sq_host (tx : bool) (q direction : Z) : M D Z :=
  r ← get_ring tx q;
  ret ← ena_admin_create_sq (sq_depth (r_sq r)) (sq_phys (r_sq r)) (sq_head_wb_phys (r_sq r)) (cq_idx (r_cq r))
          direction (store_sq tx q);
  if z2b ret then
    r ← get_ring tx q; ena_admin_destroy_cq (cq_idx (r_cq r));; mret ret
  else mret 0.

(** Is the ring to be placed in device memory? *)
Definition wants_llq (a : ena_adapter) (r : ena_ring) : bool :=
  (ring_type r =? ENA_RING_TYPE_TX) && llq_enabled (llq_info a) && non_null (bar2_base (ad_bars a))
  && (0 <? bar2_size (ad_bars a))
  && ((max_llq_num (llq_info a) =? 0) || (qid r <? max_llq_num (llq_info a))).

Definition bad_llq_area (a : ena_adapter) (r : ena_ring) (descs headers : Z) : bool :=
  (descs =? 0) || (bar2_size (ad_bars a) <? descs + llq_area a r)
  || (negb (headers =? 0) && (bar2_size (ad_bars a) <? headers + llq_area a r)).

(** The submission queue in device memory, with the fallback to host memory.
    Result: return value, LLQ active, offset of the descriptors. *)
Definition create_hw_sq_llq (tx : bool) (q direction : Z) : M D (Z * bool * Z) :=
  r ← get_ring tx q;
  '(ret, descs, headers) ← ena_admin_create_sq_llq (sq_depth (r_sq r)) (cq_idx (r_cq r)) direction (store_sq tx q);
  a ← get_ad;
  r ← get_ring tx q;
  ret ← (if (ret =? 0) && bad_llq_area a r descs headers then
           ena_admin_destroy_sq (sq_idx (r_sq r));; mret (- EINVAL)
         else mret ret);
  if z2b ret then
    ret ← create_hw_sq_host tx q direction; mret (ret, false, descs)
  else mret (0, true, descs).

(** The doorbell of the submission queue. *)
Definition create_hw_sq_regs (tx : bool) (q : Z) : M D Z :=
  a ← get_ad;
  r ← get_ring tx q;
  if z2b (sq_db_offset (r_sq r)) && bad_offset (sq_db_offset (r_sq r)) (bar0_size (ad_bars a)) then
    ena_admin_destroy_sq (sq_idx (r_sq r));;
    r ← get_ring tx q;
    ena_admin_destroy_cq (cq_idx (r_cq r));;
    mret (- EINVAL)
  else
    (if z2b (sq_db_offset (r_sq r)) then
       mod_ring tx q (fun r => set_r_sq (set_sq_db ((fun b => b + sq_db_offset (r_sq r)) <$> bar0_base (ad_bars a)) (r_sq r)) r)
     else mret tt);;
    mret 0.

Definition create_hw_push_buf (tx : bool) (q llq_descs_off : Z) : M D unit :=
  a ← get_ad;
  mod_ring tx q (fun r => set_r_llq
    (mkLlq true ((fun b => b + llq_descs_off) <$> bar2_base (ad_bars a)) 0 (u32 (llq_area a r))
       (llq_info_header_len (llq_info a))
       (if llq_info_entry_size (llq_info a) =? 0 then 128 else llq_info_entry_size (llq_info a))) r).

Definition ena_ring_create_hw (tx : bool) (q msix_vector : Z) : M D Z :=
  a ← get_ad;
  if negb (non_null (bar0_base (ad_bars a))) then mret (- EINVAL)
  else
    r ← get_ring tx q;
    let direction := if ring_type r =? ENA_RING_TYPE_TX then ENA_ADMIN_SQ_DIRECTION_TX
                     else ENA_ADMIN_SQ_DIRECTION_RX in
    let msix_vec := if negb (msix_vector =? 0) then msix_vector else ENA_ADMIN_MSIX_NONE in
    ret ← ena_admin_create_cq (cq_depth (r_cq r)) (cq_phys (r_cq r)) msix_vec (u8 (cq_elem_size (r_cq r) / 4))
            (store_cq tx q);
    if z2b ret then mret ret
    else
      ret ← create_hw_cq_regs tx q;
      if z2b ret then mret ret
      else
        a ← get_ad;
        r ← get_ring tx q;
        '(ret, llq_active, llq_descs_off) ←
          (if wants_llq a r then create_hw_sq_llq tx q direction
           else ret ← create_hw_sq_host tx q direction; mret (ret, false, 0));
        if z2b ret then mret ret
        else
          ret ← create_hw_sq_regs tx q;
          if z2b ret then mret ret
          else
            (if (llq_active : bool) then create_hw_push_buf tx q llq_descs_off else mret tt);;
            mod_ring tx q (set_hw_valid true);;
            mret 0.

(** ** Destruction *)
Definition ena_ring_destroy_hw (tx : bool) (q : Z) : M D Z :=
  r ← get_ring tx q;
  sq_ret ← ena_admin_destroy_sq (sq_idx (r_sq r));
  r ← get_ring tx q;
  cq_ret ← ena_admin_destroy_cq (cq_idx (r_cq r));
  mod_ring tx q (fun r =>
    set_hw_valid false (set_r_llq (mkLlq false None 0 0 0 0)
      (set_r_cq (set_cq_unmask_db_offset 0 (set_cq_db None (r_cq r)))
        (set_r_sq (set_sq_db None (r_sq r)) r))));;
  mret (if z2b sq_ret then sq_ret else cq_ret).
End Queue.
(** The software part of a ring: what the hardware fields are not. *)
Definition sw (r : ena_ring) : ena_ring :=
  set_hw_valid false (set_r_llq (mkLlq false None 0 0 0 0)
    (set_r_cq (set_cq_unmask_db_offset 0 (set_cq_db None (set_cq_db_offset 0 (set_cq_idx 0 (r_cq r)))))
      (set_r_sq (set_sq_db None (set_sq_db_offset 0 (set_sq_idx 0 (r_sq r)))) r))).

Lemma wf_tx_sw r : wf_tx (sw r) <-> wf_tx r.
Proof. split; intros [[? ? ? ? ? ? ? []] ? ? ?]; (split; [split; try done; by split | ..]; done). Qed.
Lemma wf_rx_sw r : wf_rx (sw r) <-> wf_rx r.
Proof. split; intros [[? ? ? ? ? ? ? []] ?]; (split; [split; try done; by split | ..]; done). Qed.

(** The software part, the validity and the LLQ placement agree. *)
Definition hw_kept (r r' : ena_ring) : Prop :=
  sw r' = sw r /\ hw_valid r' = hw_valid r /\ r_llq r' = r_llq r.

Lemma hw_kept_trans r1 r2 r3 : hw_kept r1 r2 -> hw_kept r2 r3 -> hw_kept r1 r3.
Proof. intros (? & ? & ?) (? & ? & ?). split_and!; congruence. Qed.

(** A doorbell pointer after creation: as it was, or a 4-aligned word of BAR0. *)
Definition db_ok (b size : Z) (old new : option Z) : Prop :=
  new = old \/ exists off, 0 < off /\ off + 4 <= size /\ off mod 4 = 0 /\ new = Some (b + off).

Lemma good_offset off size : bad_offset off size = false -> off + 4 <= size /\ off mod 4 = 0.
Proof.
  unfold bad_offset. intros [H1 H2]%orb_false_iff. apply negb_false_iff in H2.
  destruct (Z.ltb_spec size (off + 4)); [done |]. apply Z.eqb_eq in H2. split; [done |].
  change 3 with (Z.ones 2) in H2. by rewrite Z.land_ones in H2 by lia.
Qed.

Lemma le_get_nonneg n off l : Forall is_byte l -> 0 <= le_get n off l.
Proof.
  intros Hl. unfold le_get. assert (Forall is_byte (take n (drop off l))) as Hf by (by apply Forall_take, Forall_drop).
  induction Hf as [| x k Hx Hk IH]; simpl; [lia |]. unfold is_byte in Hx. lia.
Qed.

Lemma le_get_range n l : Forall is_byte l -> 0 <= le_get n 0 l < 256 ^ Z.of_nat n.
Proof.
  intros Hl. unfold le_get. rewrite drop_0. pose proof (le_val_range (take n l)) as Hv.
  rewrite length_take in Hv. specialize (Hv ltac:(by apply Forall_take)).
  assert (256 ^ Z.of_nat (n `min` length l) <= 256 ^ Z.of_nat n) by (apply Z.pow_le_mono_r; lia). lia.
Qed.

(** ** Creation and destruction against the interface *)
Section Spec.
Context {D : Type} `{AdminExecOk D}.
Variables (tx : bool) (q : Z).
Implicit Types w : world D.

(** From [w0]: ring [q] is now [r], the rest of the adapter but its admin part is
    as it was, no netbuf was freed; [k] commands are left, and the device has the
    completion queues [C] and the submission queues [S]. *)
Record hw_at (k : nat) (w0 w : world D) (r : ena_ring) (C S : gset Z) : Prop := {
  ha_ok : ax_ok k (C, S) w;
  ha_ring : exists l, rings_of tx (ad_io (w_adapter w0)) = Some l /\ 0 <= q < Z.of_nat (length l)
    /\ exec_calm (set_w_adapter (set_ad_io (set_rings_of tx (Some (<[Z.to_nat q := Some r]> l)) (ad_io (w_adapter w0)))
         (w_adapter w0)) w0) w
}.

Lemma hw_at_start k l r w C S :
  ax_ok k (C, S) w -> rings_of tx (ad_io (w_adapter w)) = Some l -> 0 <= q -> l !! Z.to_nat q = Some (Some r) ->
  hw_at k w w r C S.
Proof.
  intros Hi El Hq Hr. split; [done |]. exists l. pose proof (lookup_lt_Some _ _ _ Hr).
  split_and!; [done | lia | lia |]. rewrite list_insert_id by done.
  assert (set_rings_of tx (Some l) (ad_io (w_adapter w)) = ad_io (w_adapter w)) as ->
    by (destruct (ad_io (w_adapter w)), tx; simpl in *; by subst).
  assert (set_w_adapter (set_ad_io (ad_io (w_adapter w)) (w_adapter w)) w = w) as -> by (by destruct w as [? [] ? ? ? ?]).
  done.
Qed.

Lemma hw_at_calm k k' w0 w r C S w' C' S' :
  hw_at k w0 w r C S -> ax_ok k' (C', S') w' -> exec_calm w w' -> hw_at k' w0 w' r C' S'.
Proof. intros [? (l & ? & ? & ?)] ? ?. split; [done |]. exists l. split_and!; try done; [lia | lia | by etrans]. Qed.

Lemma hw_at_less j k w0 w r C S : (j <= k)%nat -> hw_at k w0 w r C S -> hw_at j w0 w r C S.
Proof. intros Hj [? Hr]. split; [by eapply ax_le | done]. Qed.

(** The configuration of the adapter stays. *)
Lemma hw_at_config k w0 w r C S :
  hw_at k w0 w r C S ->
  ad_bars (w_adapter w) = ad_bars (w_adapter w0) /\ llq_info (w_adapter w) = llq_info (w_adapter w0)
  /\ w_heap w = w_heap w0.
Proof. intros [_ (l & _ & _ & [[_ Eh Ea _ _ _ _ _ _] _])]. by rewrite Ea. Qed.

(** With queues that are not tracked, nothing is claimed of them. *)
Lemma hw_at_drop k w0 w r x C S :
  (ax_tracked = true -> x ∉ C) -> hw_at k w0 w r (({[x]} ∪ C) ∖ {[x]}) S -> hw_at k w0 w r C S.
Proof.
  intros Hx [Hok Hr]. split; [| done]. destruct ax_tracked eqn:E; [| by eapply ax_untracked].
  assert (({[x]} ∪ C) ∖ {[x]} = C) as <- by (specialize (Hx eq_refl); set_solver). done.
Qed.
Lemma hw_at_drop_sq k w0 w r x C S :
  (ax_tracked = true -> x ∉ S) -> hw_at k w0 w r C (({[x]} ∪ S) ∖ {[x]}) -> hw_at k w0 w r C S.
Proof.
  intros Hx [Hok Hr]. split; [| done]. destruct ax_tracked eqn:E; [| by eapply ax_untracked].
  assert (({[x]} ∪ S) ∖ {[x]} = S) as <- by (specialize (Hx eq_refl); set_solver). done.
Qed.

Lemma rings_of_set (v : arr (option ena_ring)) io : rings_of tx (set_rings_of tx v io) = v.
Proof. by destruct tx. Qed.

Lemma hw_at_io k w0 w r C S :
  hw_at k w0 w r C S -> exists l, 0 <= q < Z.of_nat (length l) /\ l !! Z.to_nat q = Some (Some r)
    /\ rings_of tx (ad_io (w_adapter w)) = Some l.
Proof.
  intros [_ (l & _ & Hq & [[_ _ Ea _ _ _ _ _ _] _])]. exists (<[Z.to_nat q := Some r]> l).
  rewrite length_insert. split; [done |]. split; [apply list_lookup_insert_eq; lia |]. rewrite Ea. wsimpl. apply rings_of_set.
Qed.

Lemma wpm_get_ring k w0 w r C S (Q : ena_ring -> world D -> Prop) :
  hw_at k w0 w r C S -> Q r w -> wpm (get_ring tx q) Q w.
Proof.
  intros (l & Hq & Hr & E)%hw_at_io HQ. unfold wpm, get_ring. rewrite E.
  by rewrite (aget_ret _ _ (Some r)) by (done || lia).
Qed.

Lemma wpm_mod_ring k w0 w r C S f (Q : unit -> world D -> Prop) :
  hw_at k w0 w r C S -> (forall w', hw_at k w0 w' (f r) C S -> Q tt w') -> wpm (mod_ring tx q f) Q w.
Proof.
  intros Ha HQ. destruct (hw_at_io _ _ _ _ _ _ Ha) as (l' & Hq' & Hr & E).
  destruct Ha as [Hok (l & El & Hq & [[Hc Hh Ea Hlk Hq1 Hq2 Hq3 Hq4 Hq5] Hlog])].
  unfold wpm, mod_ring. rewrite E, (aget_ret _ _ (Some r)) by (done || lia). cbn [mbind res_bind].
  rewrite aset_ret by lia. cbn [mbind res_bind wp].
  assert (l' = <[Z.to_nat q := Some r]> l) as ->.
  { rewrite Ea in E. wsimpl_all. rewrite rings_of_set in E. congruence. }
  rewrite list_insert_insert_eq. apply HQ. split.
  - eapply ax_keep; [| exact Hok]. by split_and!.
  - exists l. split_and!; [done | lia | lia |]. split; [| exact Hlog]. split; try done. wsimpl. rewrite Ea. wsimpl.
    destruct (ad_io (w_adapter w0)); by destruct tx.
Qed.

Lemma exec_at k w0 w r C S opcode req cap polls :
  hw_at (Datatypes.S k) w0 w r C S -> is_byte opcode -> req_ok req -> 100 <= polls -> cap_holds_index opcode cap ->
  wpm (admin_exec opcode req cap polls) (fun '(ret, _, resp) w' =>
    (ret = 0 -> Z.of_nat (length resp) = resp_len cap /\ Forall is_byte resp)
    /\ exists qs, (ax_tracked = true -> queue_effect opcode (aq_payload req) ret resp (C, S) qs)
         /\ hw_at k w0 w' r qs.1 qs.2) w.
Proof.
  intros Ha Hop Hreq Hp Hcap. eapply wpm_mono; [by apply (ax_exec k (C, S)); [apply Ha |..] |].
  intros [[ret out] resp] w' (Hcalm & _ & Hr & qs & Hok & He). split; [done |]. exists qs. split; [by intros; apply He |].
  destruct qs as [C' S']. by eapply hw_at_calm.
Qed.

Lemma hw_at_known k w0 w r qs C S :
  (ax_tracked = true -> qs = (C, S)) -> hw_at k w0 w r qs.1 qs.2 -> hw_at k w0 w r C S.
Proof.
  intros Hq [Hok Hr]. split; [| done]. destruct ax_tracked eqn:E; [| by eapply ax_untracked].
  by rewrite (Hq eq_refl) in Hok.
Qed.

Lemma destroy_req_ok idx : req_ok (Some (destroy_req idx)).
Proof.
  intros r [= <-]. unfold destroy_req. split; [| left; simpl; lia]. apply Forall_app.
  split; [apply le_bytes_byte | by repeat constructor].
Qed.

Lemma destroy_req_index idx : 0 <= idx < 65536 -> le_get 2 0 (aq_payload (Some (destroy_req idx))) = idx.
Proof.
  intros Hi. unfold aq_payload. rewrite decide_False by done. unfold destroy_req, le_get.
  rewrite drop_0, <- app_assoc, take_app_length' by done. rewrite le_val_bytes. by apply Z.mod_small.
Qed.

Lemma destroy_cq_spec k w0 w r C S idx :
  hw_at (Datatypes.S k) w0 w r C S -> 0 <= idx < 65536 -> (ax_tracked = true -> idx ∈ C) ->
  wpm (ena_admin_destroy_cq idx) (fun ret w' => (ax_tracked = true -> ret = 0) /\ hw_at k w0 w' r (C ∖ {[idx]}) S) w.
Proof.
  intros Ha Hi Hin. apply wpm_bind. eapply wpm_mono;
    [by apply (exec_at k w0 w r C S); [| | apply destroy_req_ok | | right] |].
  intros [[ret out] resp] w' (_ & qs & He & Ha'). apply wpm_ret. unfold queue_effect in He.
  rewrite destroy_req_index in He by done. simpl in He.
  split; [intros Ht; by apply He; auto |]. eapply hw_at_known; [| exact Ha']. intros Ht. by apply He; auto.
Qed.

Lemma destroy_sq_spec k w0 w r C S idx :
  hw_at (Datatypes.S k) w0 w r C S -> 0 <= idx < 65536 -> (ax_tracked = true -> idx ∈ S) ->
  wpm (ena_admin_destroy_sq idx) (fun ret w' => (ax_tracked = true -> ret = 0) /\ hw_at k w0 w' r C (S ∖ {[idx]})) w.
Proof.
  intros Ha Hi Hin. apply wpm_bind. eapply wpm_mono;
    [by apply (exec_at k w0 w r C S); [| | apply destroy_req_ok | | right] |].
  intros [[ret out] resp] w' (_ & qs & He & Ha'). apply wpm_ret. unfold queue_effect in He.
  rewrite destroy_req_index in He by done. simpl in He.
  split; [intros Ht; by apply He; auto |]. eapply hw_at_known; [| exact Ha']. intros Ht. by apply He; auto.
Qed.

(** A ring whose creation failed: only queue indices and offsets may differ. *)
Definition hw_failed (k : nat) (w0 w : world D) (r : ena_ring) (C S : gset Z) : Prop :=
  exists r', hw_kept r r' /\ hw_at k w0 w r' C S.

Lemma hw_failed_trans j k w0 w r r1 C S :
  (j <= k)%nat -> hw_kept r r1 -> hw_failed k w0 w r1 C S -> hw_failed j w0 w r C S.
Proof.
  intros Hj Hk (r' & Hk' & Ha). exists r'. split; [by eapply hw_kept_trans | by eapply hw_at_less].
Qed.

Lemma mem_addr_byte phys : Forall is_byte (mem_addr phys).
Proof. unfold mem_addr. byte_list. Qed.

Lemma create_cq_req_ok depth phys msix words : is_byte words -> req_ok (Some (create_cq_req depth phys msix words)).
Proof.
  intros Hw r [= <-]. unfold create_cq_req. split; [| left; simpl; lia].
  constructor; [done |]. constructor; [case_match; done |].
  repeat first [apply le_bytes_byte | apply mem_addr_byte | apply Forall_app; split].
Qed.

Lemma create_sq_req_ok placement depth phys wb cqi dir :
  is_byte placement -> req_ok (Some (create_sq_req placement depth phys wb cqi dir)).
Proof.
  intros Hp r [= <-]. unfold create_sq_req. split.
  - constructor; [apply u8_range |]. do 3 (constructor; [done |]).
    repeat first [apply le_bytes_byte | case_match | apply mem_addr_byte | by apply Forall_replicate | apply Forall_app; split].
  - left. rewrite !length_app. repeat case_match; simpl; lia.
Qed.

Lemma create_cq_spec k w0 w r C S depth phys msix words :
  hw_at (2 + k) w0 w r C S -> is_byte words ->
  wpm (ena_admin_create_cq depth phys msix words (store_cq tx q)) (fun ret w' =>
    if ret =? 0 then exists idx db un, 0 <= idx < 65536 /\ (ax_tracked = true -> idx ∉ C) /\ 0 <= db /\
      hw_at k w0 w' (set_r_cq (set_cq_unmask_db_offset un (set_cq_db_offset db (set_cq_idx idx (r_cq r)))) r) ({[idx]} ∪ C) S
    else hw_failed k w0 w' r C S) w.
Proof.
  intros Ha Hw. unfold ena_admin_create_cq. apply wpm_bind.
  eapply wpm_mono; [by apply (exec_at (1 + k) w0 w r C S); [| | by apply create_cq_req_ok | | left] |].
  intros [[ret out] resp] w1 (Hr & qs & He & Ha1). unfold queue_effect in He. simpl in He.
  unfold z2b. destruct (Z.eqb_spec ret 0) as [-> | Er]; cbn [negb] in *.
  2: { apply wpm_ret. destruct (Z.eqb_spec ret 0); [done |]. exists r. split; [done |].
       apply (hw_at_less _ (1 + k)); [lia |]. by eapply hw_at_known. }
  destruct (Hr eq_refl) as [_ Hb]. set (idx := le_get 2 0 resp) in *.
  assert (0 <= idx < 65536) as Hidx by (by apply (le_get_range 2)).
  assert (hw_at (1 + k) w0 w1 r ({[idx]} ∪ C) S) as Ha1' by (eapply hw_at_known; [| exact Ha1]; by apply He).
  apply wpm_bind. eapply wpm_mod_ring; [exact Ha1' |]. intros w2 Ha2. apply wpm_bind, wpm_get_ad. case_match.
  - apply wpm_bind. eapply wpm_mono; [apply (destroy_cq_spec _ _ _ _ _ _ idx Ha2); [done | set_solver] |].
    intros _ w3 [_ Ha3]. apply wpm_ret. simpl. apply hw_at_drop in Ha3; [| by apply He].
    by refine (ex_intro _ _ (conj _ Ha3)).
  - apply wpm_ret. simpl. exists idx, (le_get 4 8 resp), (le_get 4 12 resp).
    split_and!; [lia | lia | by apply He | by apply le_get_nonneg | by apply (hw_at_less _ (1 + k)); [lia |]].
Qed.

Lemma create_sq_common_spec k w0 w r C S placement depth phys wb cqi dir :
  hw_at (2 + k) w0 w r C S -> is_byte placement ->
  wpm (ena_admin_create_sq_common placement depth phys wb cqi dir (store_sq tx q)) (fun '(ret, descs, headers) w' =>
    if ret =? 0 then exists idx db, 0 <= idx < 65536 /\ (ax_tracked = true -> idx ∉ S) /\ 0 <= db /\ 0 <= descs /\
      hw_at k w0 w' (set_r_sq (set_sq_db_offset db (set_sq_idx idx (r_sq r))) r) C ({[idx]} ∪ S)
    else exists idx db, hw_at k w0 w' (set_r_sq (set_sq_db_offset db (set_sq_idx idx (r_sq r))) r) C S) w.
Proof.
  intros Ha Hp. unfold ena_admin_create_sq_common. apply wpm_bind.
  eapply wpm_mono; [by apply (exec_at (1 + k) w0 w r C S); [| | by apply create_sq_req_ok | | left] |].
  intros [[ret out] resp] w1 (Hr & qs & He & Ha1). unfold queue_effect in He. simpl in He.
  unfold z2b. destruct (Z.eqb_spec ret 0) as [-> | Er]; cbn [negb] in *.
  2: { apply wpm_ret. destruct (Z.eqb_spec ret 0); [done |]. exists (sq_idx (r_sq r)), (sq_db_offset (r_sq r)).
       apply (hw_at_less _ (1 + k)); [lia |]. eapply hw_at_known; [exact He |].
       by destruct r as [? ? ? [] ? ? ? ? ? ? ? ? ? ? ? ?]. }
  destruct (Hr eq_refl) as [_ Hb]. set (idx := le_get 2 0 resp) in *.
  assert (0 <= idx < 65536) as Hidx by (by apply (le_get_range 2)).
  assert (hw_at (1 + k) w0 w1 r C ({[idx]} ∪ S)) as Ha1' by (eapply hw_at_known; [| exact Ha1]; by apply He).
  apply wpm_bind. eapply wpm_mod_ring; [exact Ha1' |]. intros w2 Ha2. apply wpm_bind, wpm_get_ad. case_match.
  - apply wpm_bind. eapply wpm_mono; [apply (destroy_sq_spec _ _ _ _ _ _ idx Ha2); [done | set_solver] |].
    intros _ w3 [_ Ha3]. apply wpm_ret. simpl. apply hw_at_drop_sq in Ha3; [| by apply He]. by do 2 eexists.
  - apply wpm_ret. simpl. exists idx, (le_get 4 4 resp).
    split_and!; [lia | lia | by apply He | by apply le_get_nonneg.. | by apply (hw_at_less _ (1 + k)); [lia |]].
Qed.

Lemma cq_regs_spec k w0 w r C S b :
  hw_at (1 + k) w0 w r ({[cq_idx (r_cq r)]} ∪ C) S -> 0 <= cq_idx (r_cq r) < 65536 ->
  (ax_tracked = true -> cq_idx (r_cq r) ∉ C) -> 0 <= cq_db_offset (r_cq r) ->
  bar0_base (ad_bars (w_adapter w0)) = Some b ->
  wpm (create_hw_cq_regs tx q) (fun ret w' =>
    if ret =? 0 then exists r', hw_kept r r' /\ r_sq r' = r_sq r /\ cq_idx (r_cq r') = cq_idx (r_cq r)
      /\ db_ok b (bar0_size (ad_bars (w_adapter w0))) (cq_db (r_cq r)) (cq_db (r_cq r'))
      /\ hw_at k w0 w' r' ({[cq_idx (r_cq r)]} ∪ C) S
    else hw_failed k w0 w' r C S) w.
Proof.
  intros Ha Hi Hn Hoff Hbar. destruct (hw_at_config _ _ _ _ _ _ Ha) as (Eb & _).
  unfold create_hw_cq_regs. apply wpm_bind, wpm_get_ad. rewrite Eb.
  apply wpm_bind. eapply wpm_get_ring; [exact Ha |].
  assert (forall r1 w1, hw_kept r r1 -> hw_at (1 + k) w0 w1 r1 ({[cq_idx (r_cq r)]} ∪ C) S ->
    wpm (ena_admin_destroy_cq (cq_idx (r_cq r));; mret (- EINVAL)) (fun ret w' =>
      ret = - EINVAL /\ hw_failed k w0 w' r C S) w1) as Hfail.
  { intros r1 w1 Hk Ha1. apply wpm_bind. eapply wpm_mono; [apply (destroy_cq_spec _ _ _ _ _ _ _ Ha1); [done | set_solver] |].
    intros _ w2 [_ Ha2%hw_at_drop]; [| done]. apply wpm_ret. split; [done |]. by exists r1. }
  destruct (z2b (cq_db_offset (r_cq r)) && _) eqn:Ebo.
  { eapply wpm_mono; [by apply (Hfail r) |]. by intros ret w' [-> ?]. }
  apply wpm_bind. eapply (wpm_mono _ (fun _ w1 => exists r1, hw_kept r r1 /\ r_sq r1 = r_sq r
    /\ cq_idx (r_cq r1) = cq_idx (r_cq r)
    /\ db_ok b (bar0_size (ad_bars (w_adapter w0))) (cq_db (r_cq r)) (cq_db (r_cq r1))
    /\ hw_at (1 + k) w0 w1 r1 ({[cq_idx (r_cq r)]} ∪ C) S)).
  - unfold z2b in *. destruct (Z.eqb_spec (cq_db_offset (r_cq r)) 0); cbn [negb andb] in *.
    + apply wpm_ret. exists r. split_and!; try done. by left.
    + eapply wpm_mod_ring; [exact Ha |]. intros w1 Ha1. rewrite Hbar in *. simpl in Ha1.
      refine (ex_intro _ _ (conj _ (conj _ (conj _ (conj _ Ha1))))); try done.
      right. apply good_offset in Ebo as [? ?]. exists (cq_db_offset (r_cq r)). split_and!; [lia | done..].
  - intros _ w1 (r1 & Hk & Hs & Hi1 & Hd & Ha1). case_match.
    + eapply wpm_mono; [by apply (Hfail r1) |]. by intros ret w' [-> ?].
    + apply wpm_ret. exists r1. split_and!; try done. by apply (hw_at_less _ (1 + k)); [lia |].
Qed.

(** What a successful creation of the submission queue gives: a fresh queue
    [sq_idx] next to the completion queue. *)
Definition sq_made (k : nat) (w0 w : world D) (r r' : ena_ring) (C S : gset Z) : Prop :=
  hw_kept r r' /\ r_cq r' = r_cq r /\ sq_db (r_sq r') = sq_db (r_sq r) /\ 0 <= sq_db_offset (r_sq r')
  /\ 0 <= sq_idx (r_sq r') < 65536 /\ (ax_tracked = true -> sq_idx (r_sq r') ∉ S)
  /\ hw_at k w0 w r' C ({[sq_idx (r_sq r')]} ∪ S).

Lemma sq_made_trans k w0 w r r1 r2 C S :
  hw_kept r r1 -> r_cq r1 = r_cq r -> sq_db (r_sq r1) = sq_db (r_sq r) -> sq_made k w0 w r1 r2 C S -> sq_made k w0 w r r2 C S.
Proof. intros Hk Hc Hd (Hk' & Hc' & Hd' & Hrest). split_and!; try tauto; [by eapply hw_kept_trans | congruence..]. Qed.

Lemma sq_host_spec k w0 w r C S dir :
  hw_at (3 + k) w0 w r ({[cq_idx (r_cq r)]} ∪ C) S -> 0 <= cq_idx (r_cq r) < 65536 ->
  (ax_tracked = true -> cq_idx (r_cq r) ∉ C) ->
  wpm (create_hw_sq_host tx q dir) (fun ret w' =>
    if ret =? 0 then exists r', sq_made k w0 w' r r' ({[cq_idx (r_cq r)]} ∪ C) S else hw_failed k w0 w' r C S) w.
Proof.
  intros Ha Hi Hn. unfold create_hw_sq_host. apply wpm_bind. eapply wpm_get_ring; [exact Ha |].
  apply wpm_bind. unfold ena_admin_create_sq. apply wpm_bind.
  eapply wpm_mono; [by apply (create_sq_common_spec (1 + k)) |]. intros [[ret descs] headers] w1 Hret. apply wpm_ret.
  unfold z2b. destruct (ret =? 0) eqn:Er; cbn [negb].
  - apply wpm_ret. destruct Hret as (idx & db & Hix & Hf & Hdb & _ & Ha1%(hw_at_less k)); [| lia]. simpl.
    refine (ex_intro _ _ (conj _ (conj _ (conj _ (conj _ (conj _ (conj _ Ha1))))))); done.
  - destruct Hret as (idx & db & Ha1). apply wpm_bind. eapply wpm_get_ring; [exact Ha1 |]. apply wpm_bind.
    eapply wpm_mono; [eapply (destroy_cq_spec _ _ _ _ _ _ (cq_idx (r_cq r)) Ha1); [done | set_solver] |].
    intros _ w2 [_ Ha2%hw_at_drop]; [| done]. apply wpm_ret. rewrite Er.
    by refine (ex_intro _ _ (conj _ Ha2)).
Qed.

(** The area of the submission queue lies inside BAR2. *)
Definition llq_fits (a : ena_adapter) (r : ena_ring) (off : Z) : Prop :=
  0 < off /\ off + llq_area a r <= bar2_size (ad_bars a).

Lemma llq_area_kept (a a' : ena_adapter) (r r' : ena_ring) :
  llq_info a' = llq_info a -> sq_depth (r_sq r') = sq_depth (r_sq r) -> llq_area a' r' = llq_area a r.
Proof. unfold llq_area. by intros -> ->. Qed.

Lemma hw_kept_depth r r' : hw_kept r r' -> sq_depth (r_sq r') = sq_depth (r_sq r).
Proof. intros (Hs & _). exact (f_equal (fun x => sq_depth (r_sq x)) Hs). Qed.

Lemma bad_llq_area_false a r descs headers :
  bad_llq_area a r descs headers = false -> 0 <= descs -> llq_fits a r descs.
Proof.
  unfold bad_llq_area, llq_fits. intros [[E1 E2]%orb_false_iff _]%orb_false_iff Hd.
  apply Z.eqb_neq in E1. apply Z.ltb_ge in E2. lia.
Qed.

(** The result of [create_hw_sq_llq]. *)
Definition sq_llq_post (k : nat) (w0 w : world D) (r : ena_ring) (C S : gset Z) (x : Z * bool * Z) : Prop :=
  let '(ret, llq, descs) := x in
  if ret =? 0 then
    (exists r', sq_made k w0 w r r' ({[cq_idx (r_cq r)]} ∪ C) S) /\ (llq = true -> llq_fits (w_adapter w0) r descs)
  else hw_failed k w0 w r C S.

(** The fallback to host memory. *)
Lemma sq_fallback_spec k w0 w r C S dir idx db descs :
  hw_at (3 + k) w0 w (set_r_sq (set_sq_db_offset db (set_sq_idx idx (r_sq r))) r) ({[cq_idx (r_cq r)]} ∪ C) S ->
  0 <= cq_idx (r_cq r) < 65536 -> (ax_tracked = true -> cq_idx (r_cq r) ∉ C) ->
  wpm (ret ← create_hw_sq_host tx q dir; mret (ret, false, descs)) (fun x w' => sq_llq_post k w0 w' r C S x) w.
Proof.
  intros Ha Hi Hn. apply wpm_bind. eapply wpm_mono; [exact (sq_host_spec k _ _ _ _ _ dir Ha Hi Hn) |].
  intros ret w' H3. apply wpm_ret. unfold sq_llq_post. cbv beta in H3.
  destruct (ret =? 0); [split; [| done] | by eapply (hw_failed_trans _ k); [| | exact H3]].
  destruct H3 as [r' Hm]. exists r'. by eapply sq_made_trans; [.. | exact Hm].
Qed.

Lemma sq_llq_spec k w0 w r C S dir :
  hw_at (6 + k) w0 w r ({[cq_idx (r_cq r)]} ∪ C) S -> 0 <= cq_idx (r_cq r) < 65536 ->
  (ax_tracked = true -> cq_idx (r_cq r) ∉ C) ->
  wpm (create_hw_sq_llq tx q dir) (fun x w' => sq_llq_post k w0 w' r C S x) w.
Proof.
  intros Ha Hi Hn. unfold create_hw_sq_llq. apply wpm_bind. eapply wpm_get_ring; [exact Ha |].
  apply wpm_bind. unfold ena_admin_create_sq_llq.
  eapply wpm_mono; [by apply (create_sq_common_spec (4 + k)) |]. intros [[ret descs] headers] w1 Hret.
  apply wpm_bind, wpm_get_ad. unfold z2b. destruct (ret =? 0) eqn:Er; cbn [negb andb].
  - destruct Hret as (idx & db & Hix & Hf & Hdb & Hdesc & Ha1). apply wpm_bind. eapply wpm_get_ring; [exact Ha1 |].
    apply wpm_bind. destruct (bad_llq_area _ _ _ _) eqn:Eb.
    + apply wpm_bind. eapply wpm_mono; [eapply (destroy_sq_spec _ _ _ _ _ _ idx Ha1); [done | set_solver] |].
      intros _ w2 [_ Ha2%hw_at_drop_sq]; [| done]. apply wpm_ret. by eapply sq_fallback_spec.
    + apply wpm_ret. rewrite Er. apply wpm_ret. simpl. apply bad_llq_area_false in Eb; [| done]. split.
      * apply (hw_at_less k) in Ha1; [| lia].
        refine (ex_intro _ _ (conj _ (conj _ (conj _ (conj _ (conj _ (conj _ Ha1))))))); done.
      * intros _. unfold llq_fits in *. destruct (hw_at_config _ _ _ _ _ _ Ha1) as (Ebar & El & _). rewrite Ebar in Eb.
        by rewrite (llq_area_kept (w_adapter w0) _ r) in Eb.
  - destruct Hret as (idx & db & Ha1%(hw_at_less (3 + k))); [| lia]. apply wpm_bind. eapply wpm_get_ring; [exact Ha1 |].
    apply wpm_bind, wpm_ret. rewrite Er. by eapply sq_fallback_spec.
Qed.

Lemma sq_regs_spec k w0 w r C S b :
  hw_at (2 + k) w0 w r ({[cq_idx (r_cq r)]} ∪ C) ({[sq_idx (r_sq r)]} ∪ S) ->
  0 <= cq_idx (r_cq r) < 65536 -> (ax_tracked = true -> cq_idx (r_cq r) ∉ C) ->
  0 <= sq_idx (r_sq r) < 65536 -> (ax_tracked = true -> sq_idx (r_sq r) ∉ S) ->
  0 <= sq_db_offset (r_sq r) -> bar0_base (ad_bars (w_adapter w0)) = Some b ->
  wpm (create_hw_sq_regs tx q) (fun ret w' =>
    if ret =? 0 then exists r', hw_kept r r' /\ r_cq r' = r_cq r /\ sq_idx (r_sq r') = sq_idx (r_sq r)
      /\ db_ok b (bar0_size (ad_bars (w_adapter w0))) (sq_db (r_sq r)) (sq_db (r_sq r'))
      /\ hw_at k w0 w' r' ({[cq_idx (r_cq r)]} ∪ C) ({[sq_idx (r_sq r)]} ∪ S)
    else hw_failed k w0 w' r C S) w.
Proof.
  intros Ha Hic Hnc His Hns Hoff Hbar. destruct (hw_at_config _ _ _ _ _ _ Ha) as (Ebar & _).
  unfold create_hw_sq_regs. apply wpm_bind, wpm_get_ad. rewrite Ebar.
  apply wpm_bind. eapply wpm_get_ring; [exact Ha |]. unfold z2b.
  destruct (Z.eqb_spec (sq_db_offset (r_sq r)) 0); cbn [negb andb].
  { apply wpm_bind, wpm_ret, wpm_ret. simpl. exists r. split_and!; try done; [by left |]. by apply (hw_at_less _ (2 + k)); [lia |]. }
  destruct (bad_offset _ _) eqn:Eb.
  - apply wpm_bind. eapply wpm_mono; [eapply (destroy_sq_spec _ _ _ _ _ _ _ Ha); [done | set_solver] |].
    intros _ w1 [_ Ha1%hw_at_drop_sq]; [| done]. apply wpm_bind. eapply wpm_get_ring; [exact Ha1 |].
    apply wpm_bind. eapply wpm_mono; [eapply (destroy_cq_spec _ _ _ _ _ _ _ Ha1); [done | set_solver] |].
    intros _ w2 [_ Ha2%hw_at_drop]; [| done]. apply wpm_ret. simpl. by exists r.
  - apply wpm_bind. eapply wpm_mod_ring; [exact Ha |]. intros w1 Ha1%(hw_at_less k); [| lia]. apply wpm_ret.
    rewrite Hbar in *. simpl in *. refine (ex_intro _ _ (conj _ (conj _ (conj _ (conj _ Ha1))))); try done.
    right. apply good_offset in Eb as [? ?]. exists (sq_db_offset (r_sq r)). split_and!; [lia | done..].
Qed.

(** Where a created ring pushes: host placement (LLQ state as before), or a push
    area inside BAR2 of one entry per descriptor. *)
Definition llq_placed (a : ena_adapter) (r r' : ena_ring) : Prop :=
  r_llq r' = r_llq r
  \/ wants_llq a r = true /\ exists b2 off, bar2_base (ad_bars a) = Some b2 /\ llq_fits a r off
     /\ is_llq (r_llq r') = true /\ push_buf_virt (r_llq r') = Some (b2 + off)
     /\ push_buf_size (r_llq r') = u32 (llq_area a r).

(** A ring the device serves: both queues are fresh, the doorbells are words of BAR0. *)
Record hw_created (k : nat) (w0 w : world D) (r r' : ena_ring) (C S : gset Z) : Prop := {
  hc_sw : sw r' = sw r;
  hc_valid : hw_valid r' = true;
  hc_range : 0 <= cq_idx (r_cq r') < 65536 /\ 0 <= sq_idx (r_sq r') < 65536;
  hc_cq : ax_tracked = true -> cq_idx (r_cq r') ∉ C;
  hc_sq : ax_tracked = true -> sq_idx (r_sq r') ∉ S;
  hc_db : exists b, bar0_base (ad_bars (w_adapter w0)) = Some b
    /\ db_ok b (bar0_size (ad_bars (w_adapter w0))) (cq_db (r_cq r)) (cq_db (r_cq r'))
    /\ db_ok b (bar0_size (ad_bars (w_adapter w0))) (sq_db (r_sq r)) (sq_db (r_sq r'));
  hc_llq : llq_placed (w_adapter w0) r r';
  hc_at : hw_at k w0 w r' ({[cq_idx (r_cq r')]} ∪ C) ({[sq_idx (r_sq r')]} ∪ S)
}.

(** The end of [ena_ring_create_hw], with the submission queue in place. *)
Lemma create_hw_finish k w0 w r r1 C S b (llq : bool) descs :
  hw_kept r r1 -> hw_at k w0 w r1 ({[cq_idx (r_cq r1)]} ∪ C) ({[sq_idx (r_sq r1)]} ∪ S) ->
  0 <= cq_idx (r_cq r1) < 65536 /\ 0 <= sq_idx (r_sq r1) < 65536 ->
  (ax_tracked = true -> cq_idx (r_cq r1) ∉ C) -> (ax_tracked = true -> sq_idx (r_sq r1) ∉ S) ->
  bar0_base (ad_bars (w_adapter w0)) = Some b ->
  db_ok b (bar0_size (ad_bars (w_adapter w0))) (cq_db (r_cq r)) (cq_db (r_cq r1)) ->
  db_ok b (bar0_size (ad_bars (w_adapter w0))) (sq_db (r_sq r)) (sq_db (r_sq r1)) ->
  (llq = true -> wants_llq (w_adapter w0) r = true /\ llq_fits (w_adapter w0) r descs) ->
  wpm ((if llq then create_hw_push_buf tx q descs else mret tt);; mod_ring tx q (set_hw_valid true);; mret 0)
    (fun ret w' => ret = 0 /\ exists r', hw_created k w0 w' r r' C S) w.
Proof.
  intros (Hsw & Hv & Hl) Ha Hix Hnc Hns Hb Hdc Hds Hllq. apply wpm_bind.
  assert (forall w1 r2, hw_at k w0 w1 r2 ({[cq_idx (r_cq r1)]} ∪ C) ({[sq_idx (r_sq r1)]} ∪ S) ->
    sw r2 = sw r1 -> r_cq r2 = r_cq r1 -> r_sq r2 = r_sq r1 -> llq_placed (w_adapter w0) r r2 ->
    wpm (mod_ring tx q (set_hw_valid true);; mret 0) (fun ret w' => ret = 0 /\ exists r', hw_created k w0 w' r r' C S) w1) as Hend.
  { intros w1 r2 Ha2 Es Ec Eq Hp. apply wpm_bind. eapply wpm_mod_ring; [exact Ha2 |]. intros w2 Ha3. apply wpm_ret.
    split; [done |]. eexists (set_hw_valid true r2).
    split; simpl; rewrite ?Ec, ?Eq; try done; [by rewrite <- Hsw, <- Es | by exists b]. }
  destruct (hw_at_config _ _ _ _ _ _ Ha) as (Ebar & El & _). destruct llq.
  - destruct (Hllq eq_refl) as [Hw Hfit]. unfold create_hw_push_buf. apply wpm_bind, wpm_get_ad. rewrite Ebar, El.
    eapply wpm_mod_ring; [exact Ha |]. intros w1 Ha1. eapply Hend; [exact Ha1 | done..|].
    right. split; [done |]. unfold wants_llq in Hw. destruct (bar2_base _) as [b2 |] eqn:Eb2; [| by rewrite !andb_false_r in Hw].
    exists b2, descs. split_and!; try done. simpl. f_equal. apply llq_area_kept; [done |]. by apply hw_kept_depth.
  - apply wpm_ret. eapply Hend; [exact Ha | done..|]. by left.
Qed.

Lemma hw_kept_wants a a' r r' :
  hw_kept r r' -> ad_bars a' = ad_bars a -> llq_info a' = llq_info a -> wants_llq a' r' = wants_llq a r.
Proof.
  intros (Hs & _) Eb El. unfold wants_llq. rewrite Eb, El.
  rewrite (f_equal ring_type Hs : ring_type r' = ring_type r), (f_equal qid Hs : qid r' = qid r). done.
Qed.

(** The choice of the placement. *)
Lemma sq_choice_spec k w0 w r r2 C S dir :
  hw_at (6 + k) w0 w r2 ({[cq_idx (r_cq r2)]} ∪ C) S -> 0 <= cq_idx (r_cq r2) < 65536 ->
  (ax_tracked = true -> cq_idx (r_cq r2) ∉ C) -> hw_kept r r2 ->
  wpm (if wants_llq (w_adapter w0) r then create_hw_sq_llq tx q dir
       else ret ← create_hw_sq_host tx q dir; mret (ret, false, 0))
    (fun '(ret, llq, descs) w' => if ret =? 0 then
      (exists r', sq_made k w0 w' r2 r' ({[cq_idx (r_cq r2)]} ∪ C) S)
      /\ (llq = true -> wants_llq (w_adapter w0) r = true /\ llq_fits (w_adapter w0) r descs)
    else hw_failed k w0 w' r2 C S) w.
Proof.
  intros Ha Hi Hn Hk. destruct (wants_llq _ _) eqn:Ew.
  - eapply wpm_mono; [by apply (sq_llq_spec k w0 w r2) |]. intros [[ret3 llq] descs] w3 H3. unfold sq_llq_post in H3.
    destruct (ret3 =? 0); [| done]. destruct H3 as [H3 H4]. split; [done |]. intros Ht. split; [done |].
    specialize (H4 Ht). unfold llq_fits in *.
    by rewrite (llq_area_kept (w_adapter w0) _ r) in H4 by (done || by apply hw_kept_depth).
  - apply wpm_bind. eapply wpm_mono; [apply (sq_host_spec k w0 w r2 C S dir); [| done..] |].
    { by apply (hw_at_less _ (6 + k)); [lia |]. }
    intros ret3 w3 H3. apply wpm_ret. cbv beta in H3. by destruct (ret3 =? 0).
Qed.

Lemma create_hw_spec k w l r msix_vector C S :
  ax_ok (11 + k) (C, S) w -> rings_of tx (ad_io (w_adapter w)) = Some l -> 0 <= q -> l !! Z.to_nat q = Some (Some r) ->
  wpm (ena_ring_create_hw tx q msix_vector) (fun ret w' =>
    if ret =? 0 then exists r', hw_created k w w' r r' C S else hw_failed k w w' r C S) w.
Proof.
  intros Hi El Hq Hr. pose proof (hw_at_start _ _ _ _ _ _ Hi El Hq Hr) as Ha.
  unfold ena_ring_create_hw. apply wpm_bind, wpm_get_ad. destruct (bar0_base _) as [b |] eqn:Eb; cbn [non_null negb].
  2: { apply wpm_ret. simpl. exists r. split; [done |]. by apply (hw_at_less _ (11 + k)); [lia |]. }
  apply wpm_bind. eapply wpm_get_ring; [exact Ha |]. apply wpm_bind.
  eapply wpm_mono; [apply (create_cq_spec (9 + k) _ _ _ _ _ _ _ _ _ Ha), u8_range |].
  intros ret w1 H1. cbv beta in H1. unfold z2b at 1. destruct (ret =? 0) eqn:E1; cbn [negb].
  2: { apply wpm_ret. rewrite E1. by eapply (hw_failed_trans _ (9 + k)); [lia | | exact H1]. }
  destruct H1 as (idx & db & un & Hix & Hnc & Hdb & Ha1). set (r1 := set_r_cq _ r) in *.
  apply wpm_bind. eapply wpm_mono; [exact (cq_regs_spec (8 + k) _ _ r1 _ _ b Ha1 Hix Hnc Hdb Eb) |].
  intros ret2 w2 H2. cbv beta in H2. unfold z2b at 1. destruct (ret2 =? 0) eqn:E2; cbn [negb].
  2: { apply wpm_ret. rewrite E2. by eapply (hw_failed_trans _ (8 + k)); [lia | | exact H2]. }
  destruct H2 as (r2 & Hk2 & Hs2 & Hc2 & Hd2 & Ha2). rewrite <- Hc2 in Ha2.
  assert (ax_tracked = true -> cq_idx (r_cq r2) ∉ C) as Hnc2 by (by rewrite Hc2).
  assert (0 <= cq_idx (r_cq r2) < 65536) as Hix2 by (by rewrite Hc2).
  assert (hw_kept r r2) as Hk by (by eapply hw_kept_trans; [| exact Hk2]).
  apply wpm_bind, wpm_get_ad. apply wpm_bind. eapply wpm_get_ring; [exact Ha2 |]. apply wpm_bind.
  destruct (hw_at_config _ _ _ _ _ _ Ha2) as (Ebar & Ellq & _).
  rewrite (hw_kept_wants (w_adapter w) _ r) by done.
  eapply wpm_mono; [exact (sq_choice_spec (2 + k) w w2 r r2 C S _ Ha2 Hix2 Hnc2 Hk) |].
  intros [[ret3 llq] descs] w3 H3. cbv beta iota in H3. unfold z2b at 1. destruct (ret3 =? 0) eqn:E3; cbn [negb].
  2: { apply wpm_ret. rewrite E3. by eapply (hw_failed_trans _ (2 + k)); [lia | | exact H3]. }
  destruct H3 as [(r3 & Hk3 & Hc3 & Hd3 & Ho3 & Hix3 & Hns3 & Ha3) Hllq]. rewrite <- Hc3 in Ha3, Hnc2, Hix2.
  apply wpm_bind. eapply wpm_mono; [exact (sq_regs_spec k w w3 r3 C S b Ha3 Hix2 Hnc2 Hix3 Hns3 Ho3 Eb) |].
  intros ret4 w4 H4. cbv beta in H4. unfold z2b at 1. destruct (ret4 =? 0) eqn:E4; cbn [negb].
  2: { apply wpm_ret. rewrite E4. eapply (hw_failed_trans _ k); [lia | | exact H4]. by eapply hw_kept_trans. }
  destruct H4 as (r4 & Hk4 & Hc4 & Hi4 & Hd4 & Ha4). rewrite <- Hc4 in Ha4, Hnc2, Hix2. rewrite <- Hi4 in Ha4, Hns3, Hix3.
  eapply wpm_mono; [eapply (create_hw_finish k w w4 r r4 C S b llq descs); try done |].
  - eapply hw_kept_trans; [exact Hk |]. by eapply hw_kept_trans.
  - rewrite Hc4, Hc3. exact Hd2.
  - rewrite Hd3, Hs2 in Hd4. exact Hd4.
  - by intros ? ? [-> ?].
Qed.

Lemma destroy_hw_spec k w0 w r C S :
  hw_at (2 + k) w0 w r C S -> 0 <= cq_idx (r_cq r) < 65536 /\ 0 <= sq_idx (r_sq r) < 65536 ->
  (ax_tracked = true -> cq_idx (r_cq r) ∈ C) -> (ax_tracked = true -> sq_idx (r_sq r) ∈ S) ->
  wpm (ena_ring_destroy_hw tx q) (fun ret w' => (ax_tracked = true -> ret = 0) /\ exists r', sw r' = sw r
    /\ hw_valid r' = false /\ sq_db (r_sq r') = None /\ cq_db (r_cq r') = None /\ is_llq (r_llq r') = false
    /\ hw_at k w0 w' r' (C ∖ {[cq_idx (r_cq r)]}) (S ∖ {[sq_idx (r_sq r)]})) w.
Proof.
  intros Ha [Hic His] Hc Hs. unfold ena_ring_destroy_hw. apply wpm_bind. eapply wpm_get_ring; [exact Ha |].
  apply wpm_bind. eapply wpm_mono; [exact (destroy_sq_spec _ _ _ _ _ _ _ Ha His Hs) |]. intros sret w1 [Hz1 Ha1].
  apply wpm_bind. eapply wpm_get_ring; [exact Ha1 |].
  apply wpm_bind. eapply wpm_mono; [exact (destroy_cq_spec _ _ _ _ _ _ _ Ha1 Hic Hc) |]. intros cret w2 [Hz2 Ha2].
  apply wpm_bind. eapply wpm_mod_ring; [exact Ha2 |]. intros w3 Ha3. apply wpm_ret. split.
  - intros Ht. rewrite (Hz1 Ht), (Hz2 Ht). done.
  - by refine (ex_intro _ _ (conj _ (conj _ (conj _ (conj _ (conj _ Ha3)))))).
Qed.

(** C13: Creating the hardware queues of a ring, on every branch.  With a device
    whose queues are tracked: on success the device has exactly one new completion
    and one new submission queue, the ring is marked valid and names them, its
    doorbells are unset as before or 4-aligned words inside BAR0, and a ring in
    device memory pushes into an area of one entry per descriptor inside BAR2.  On
    every failure (a refused command, an offset outside the BARs, a refused or
    misplaced LLQ queue followed by a refused fallback) the queues made on the way
    are destroyed again: the device has the queues it had, and the ring its
    validity and placement.  In both cases the software state of the ring and its
    invariant, the other rings, the heap and the rest of the adapter stay, and no
    netbuf is freed.  Against any other device all this holds but the claims on
    the set of queues. *)
Theorem create_hw_correct k w l r msix_vector C S :
  ax_ok (11 + k) (C, S) w -> rings_of tx (ad_io (w_adapter w)) = Some l -> 0 <= q -> l !! Z.to_nat q = Some (Some r) ->
  wpm (ena_ring_create_hw tx q msix_vector) (fun ret w' =>
    (if ret =? 0 then exists r', hw_created k w w' r r' C S else hw_failed k w w' r C S)
    /\ exists r', rings_of tx (ad_io (w_adapter w')) = Some (<[Z.to_nat q := Some r']> l)
         /\ (wf_tx r -> wf_tx r') /\ (wf_rx r -> wf_rx r')) w.
Proof.
  intros Hi El Hq Hr. eapply wpm_mono; [by eapply create_hw_spec |]. intros ret w' Hret. split; [exact Hret |].
  assert (exists r' C' S', sw r' = sw r /\ hw_at k w w' r' C' S') as (r' & C' & S' & Hsw & [_ (l' & El' & _ & [[_ _ Ea _ _ _ _ _ _] _])]).
  { cbv beta in Hret. destruct (ret =? 0); destruct Hret as [r' Hret]; [by do 3 eexists; split; apply Hret |].
    destruct Hret as [[? _] ?]. by do 3 eexists. }
  exists r'. rewrite El in El'. injection El' as <-. rewrite Ea. wsimpl. rewrite rings_of_set. split; [done |].
  split; intros Hwf; [apply wf_tx_sw; rewrite Hsw; by apply wf_tx_sw | apply wf_rx_sw; rewrite Hsw; by apply wf_rx_sw].
Qed.

(** Creating and destroying the queues of a ring is neutral.  After both, the
    device has the queues it had before, the ring is invalid with its doorbells and
    push buffer cleared, and its software state is as it was. *)
Theorem create_destroy_roundtrip k w l r msix_vector C S :
  ax_ok (13 + k) (C, S) w -> rings_of tx (ad_io (w_adapter w)) = Some l -> 0 <= q -> l !! Z.to_nat q = Some (Some r) ->
  ax_tracked = true ->
  wpm (ret ← ena_ring_create_hw tx q msix_vector; if z2b ret then mret ret else ena_ring_destroy_hw tx q)
    (fun ret w' => exists r', sw r' = sw r /\ hw_at k w w' r' C S
       /\ (ret = 0 -> hw_valid r' = false /\ sq_db (r_sq r') = None /\ cq_db (r_cq r') = None
                      /\ is_llq (r_llq r') = false)) w.
Proof.
  intros Hi El Hq Hr Ht. apply wpm_bind. eapply wpm_mono; [exact (create_hw_spec (2 + k) w l r msix_vector C S Hi El Hq Hr) |].
  intros ret w1 H1. cbv beta in H1. unfold z2b. destruct (Z.eqb_spec ret 0) as [-> | Hne]; cbn [negb].
  - destruct H1 as [r1 [Hsw _ Hix Hnc Hns _ _ Ha]]. specialize (Hnc Ht). specialize (Hns Ht).
    eapply wpm_mono; [apply (destroy_hw_spec k _ _ _ _ _ Ha Hix); set_solver |].
    intros ret2 w2 (_ & r2 & Hsw2 & ? & ? & ? & ? & Ha2). exists r2. split; [congruence |]. split; [| done].
    apply (hw_at_drop _ _ _ _ (cq_idx (r_cq r1))); [done |]. apply (hw_at_drop_sq _ _ _ _ (sq_idx (r_sq r1))); done.
  - apply wpm_ret. destruct H1 as (r1 & (Hsw & _) & Ha). exists r1. split; [done |]. split; [| done].
    by apply (hw_at_less _ (2 + k)); [lia |].
Qed.
End Spec.

(** ** Examples: a TX ring on the device of [Device], through the real admin queue *)
Definition ex_ring_world : world ex_dev :=
  set_w_adapter (set_ad_io (mkIo (Some [Some (set_hw_valid false (example_ring ENA_RING_TYPE_TX 4))]) None 1 0 None None)
    (w_adapter ex_started)) ex_started.

#[export] Instance ex_exec : AdminExec ex_dev := session_exec (mret 0).
#[export] Instance ex_exec_ok : AdminExecOk ex_dev := session_exec_ok (mret 0) ltac:(apply Nat.ltb_lt; reflexivity) ex_no_timeout.

Lemma ex_session_ok (w : world ex_dev) :
  w_mem w = w_mem ex_started -> w_dev w = w_dev ex_started -> ad_adm (w_adapter w) = ad_adm (w_adapter ex_started) ->
  ad_bars (w_adapter w) = ad_bars (w_adapter ex_started) -> ad_state (w_adapter w) <> ENA_STATE_ERROR ->
  ax_ok 100 (∅, ∅) w.
Proof.
  intros Em Ed Ea Eb Hs. exists 0, ex_fw0. rewrite Ea.
  split; [| split; [reflexivity | split; [lia | split; [left; vm_compute; reflexivity | split; [lia | split;
    [exact Hs | vm_compute; reflexivity]]]]]].
  destruct ex_started_session as [[] H1 H2 H3 H4]. split; rewrite ?Ea, ?Em, ?Ed;
    [split; rewrite ?Ea, ?Eb, ?Em; assumption | exact H1 | exact H2 | exact H3 | exact H4].
Qed.

Lemma ex_ring_world_ok : ax_ok 100 (∅, ∅) ex_ring_world.
Proof. refine (ex_session_ok ex_ring_world _ _ _ _ _); vm_compute; (reflexivity || discriminate). Qed.

(** It succeeds, with the doorbells at the offsets the device gave. *)
Lemma ex_create_result :
  wpm (ena_ring_create_hw true 0 1) (fun ret w' => ret = 0 /\
    (r ← tx_rings (ad_io (w_adapter w')) ≫= lookup 0%nat; r ≫= fun r => Some (cq_db (r_cq r), sq_db (r_sq r)))
    = Some (Some 0x1800, Some 0x1404)) ex_ring_world.
Proof. vm_compute. split; reflexivity. Qed.

Lemma create_hw_correct_witness :
  wpm (ena_ring_create_hw true 0 1) (fun ret w' => ret = 0 /\ exists r',
    hw_created true 0 89 ex_ring_world w' (set_hw_valid false (example_ring ENA_RING_TYPE_TX 4)) r' ∅ ∅) ex_ring_world.
Proof.
  eapply wpm_mono; [exact (wpm_conj _ _ _ _ (create_hw_correct true 0 89 ex_ring_world _ _ 1 ∅ ∅ ex_ring_world_ok eq_refl
    (Z.le_refl 0) eq_refl) ex_create_result) |].
  intros ret w' [[Hc _] [-> _]]. split; [reflexivity | exact Hc].
Defined.

Lemma create_destroy_roundtrip_witness :
  wpm (ret ← ena_ring_create_hw true 0 1; if z2b ret then mret ret else ena_ring_destroy_hw true 0)
    (fun ret w' => exists r', sw r' = sw (set_hw_valid false (example_ring ENA_RING_TYPE_TX 4))
       /\ hw_at true 0 87 ex_ring_world w' r' ∅ ∅) ex_ring_world.
Proof.
  eapply wpm_mono; [exact (create_destroy_roundtrip true 0 87 ex_ring_world _ _ 1 ∅ ∅ ex_ring_world_ok eq_refl
    (Z.le_refl 0) eq_refl eq_refl) |].
  intros ret w' (r' & Hs & Ha & _). exists r'. exact (conj Hs Ha).
Defined.
