(* ===== verification/Init.v ===== *)
(** * Device initialisation

    src/ena_init.c, the statistics and attribute queries of src/ena_admin.c and
    the LLQ negotiation of src/ena_llq.c: the feature commands of the driver, what
    it derives from the answers, and the bring-up sequence [ena_init_run].

    Requests are the bytes of the C structs; a response is read at the offsets of
    the struct it is cast to. *)

From Stdlib Require Import Ascii String ZArith Lia.
From stdpp Require Import base tactics option list list_numbers numbers sets gmap.
From S2P Require Import Prelude Fifo Mem Desc Netq Ring Adapter Admin Session Exec Device Control Queue.
Open Scope Z_scope.
Open Scope list_scope.

Definition ENA_INIT_MAX_POLLS : Z := 5000.
Definition ENA_ADMIN_DEVICE_ATTRIBUTES : Z := 1.
Definition ENA_ADMIN_MAX_QUEUES_NUM : Z := 2.
Definition ENA_ADMIN_LLQ : Z := 4.
Definition ENA_ADMIN_RSS_HASH_FUNCTION : Z := 10.
Definition ENA_ADMIN_RSS_INDIRECTION_TABLE_CONFIG : Z := 12.
Definition ENA_ADMIN_MTU : Z := 14.
Definition ENA_ADMIN_RSS_HASH_INPUT : Z := 18.
Definition ENA_ADMIN_AENQ_CONFIG : Z := 26.
Definition ENA_ADMIN_HOST_ATTR_CONFIG : Z := 28.
Definition ENA_ADMIN_AENQ_GROUPS_ALL : Z := 0x1F.
Definition ENA_ADMIN_OS_DPDK : Z := 3.
Definition ENA_INIT_ENA_SPEC_VERSION : Z := 2.
Definition ENA_INIT_HOST_INFO_SIZE : Z := 4096.
Definition ENA_INIT_MTU_MIN : Z := 46.
Definition ENA_INIT_MTU_MAX : Z := 0xFFFF.
Definition ENA_ADMIN_FEAT_SELECT_CURRENT : Z := 0x1.
Definition ENA_SPEC_MAX_QUEUES : Z := 256.
Definition ENA_SPEC_MAX_DEPTH : Z := 4096.
Definition ENA_SPEC_MIN_DEPTH : Z := 4.
Definition ENA_ADMIN_GET_STATS_TYPE_BASIC : Z := 0.
Definition ENA_ADMIN_GET_STATS_TYPE_ENI : Z := 2.
Definition ENA_ADMIN_ETH_TRAFFIC : Z := 1.
Definition ENA_ADMIN_GET_STATS_DEVICE_ID_SELF : Z := 0xFFFF.
Definition ENA_LLQ_INLINE_HEADER : Z := 1.
Definition ENA_LLQ_ENTRY_SIZE_128B : Z := 1.

(** ** Requests *)

(** [struct ena_admin_ctrl_buff_info]. *)
Definition ctrl_buff (length phys : Z) : list Z := le_bytes 4 length ++ mem_addr phys.
(** [struct ena_admin_get_set_feature_common_desc]. *)
Definition feat_common (feature_id : Z) : list Z := [ENA_ADMIN_FEAT_SELECT_CURRENT; feature_id; 0; 0].

(** [struct ena_admin_get_feat_inline]. *)
Definition get_feat_req (feature_id : Z) : list Z := ctrl_buff 0 0 ++ feat_common feature_id ++ replicate 44 0.
(** A SET_FEATURE request without control buffer. *)
Definition set_feat_req (feature_id : Z) (payload : list Z) : list Z := ctrl_buff 0 0 ++ feat_common feature_id ++ payload.
(** [struct ena_admin_aq_get_stats_cmd]. *)
Definition get_stats_req (type : Z) : list Z :=
  ctrl_buff 0 0 ++ [type; ENA_ADMIN_ETH_TRAFFIC; 0; 0] ++ le_bytes 2 0
  ++ le_bytes 2 ENA_ADMIN_GET_STATS_DEVICE_ID_SELF ++ replicate 8 0.

(** ** Values derived from answers *)

(** The loop of [clamp_queue_depth]: each turn clears the lowest bit. *)
Fixpoint clear_low_bits (fuel : nat) (d : Z) : Z :=
  match fuel with
  | O => d
  | S fuel => if negb (Z.land d (d - 1) =? 0) then clear_low_bits fuel (Z.land d (d - 1)) else d
  end.

Definition clamp_queue_depth (raw_depth : Z) : Z :=
  let d := if ENA_SPEC_MAX_DEPTH <? raw_depth then ENA_SPEC_MAX_DEPTH else raw_depth in
  let d := if d <? ENA_SPEC_MIN_DEPTH then ENA_SPEC_MIN_DEPTH else d in
  u16 (clear_low_bits 32 d).

Definition clamp_queue_num (raw_num : Z) : Z :=
  if ENA_SPEC_MAX_QUEUES <? raw_num then ENA_SPEC_MAX_QUEUES
  else if raw_num =? 0 then 1 else u16 raw_num.

(** The queue limits from a MAX_QUEUES_NUM response. *)
Definition limits_of_resp (resp : list Z) : queue_limits :=
  let raw_sq_num := le_get 4 0 resp in
  let raw_sq_depth := le_get 4 4 resp in
  let raw_cq_num := le_get 4 8 resp in
  let raw_cq_depth := le_get 4 12 resp in
  let max_tx_q := clamp_queue_num raw_sq_num in
  let max_rx_q := clamp_queue_num raw_sq_num in
  let max_tx_q := if clamp_queue_num raw_cq_num <? max_tx_q then clamp_queue_num raw_cq_num else max_tx_q in
  let max_rx_q := if clamp_queue_num raw_cq_num <? max_rx_q then clamp_queue_num raw_cq_num else max_rx_q in
  let max_tx_depth := clamp_queue_depth raw_sq_depth in
  let max_rx_depth := clamp_queue_depth raw_sq_depth in
  let max_tx_depth := if clamp_queue_depth raw_cq_depth <? max_tx_depth then clamp_queue_depth raw_cq_depth else max_tx_depth in
  let max_rx_depth := if clamp_queue_depth raw_cq_depth <? max_rx_depth then clamp_queue_depth raw_cq_depth else max_rx_depth in
  mkLimits max_tx_q max_rx_q max_tx_depth max_rx_depth (le_get 4 24 resp) (le_get 2 28 resp) (le_get 2 30 resp).

(** The attributes from a DEVICE_ATTRIBUTES response. *)
Definition attr_of_resp (resp : list Z) : device_attr :=
  mkAttr (le_get 4 0 resp) (le_get 4 4 resp) (le_get 4 8 resp) (le_get 4 12 resp) (le_get 4 16 resp)
    (le_get 4 20 resp) (take 6 (drop 24 resp)) (u16 (le_get 4 32 resp)).

(** ** The host information page *)
Definition str_bytes (s : string) : list Z := (fun c => Z.of_N (N_of_ascii c)) <$> list_ascii_of_string s.

(** [dst] is the [cap] bytes at [off] of a buffer. *)
Definition ena_copy_str (buf : list Z) (off cap : Z) (src : list Z) : res (list Z) :=
  let len := Z.of_nat (length src) in
  let len := if cap <=? len then cap - 1 else len in
  buf ← write_at buf off (take (Z.to_nat len) src);
  write_at buf (off + len) [0].

Definition ENA_INIT_PACK_DRIVER_VERSION (major minor sub module : Z) : Z :=
  Z.lor (Z.lor (Z.lor (Z.land major 0xFF) (Z.shiftl (Z.land minor 0xFF) 8)) (Z.shiftl (Z.land sub 0xFF) 16))
    (Z.shiftl (Z.land module 0xFF) 24).

(** The page [ena_init_set_host_info] fills. *)
Definition host_info_page : res (list Z) :=
  buf ← write_at (replicate (Z.to_nat ENA_INIT_HOST_INFO_SIZE) 0) 0 (le_bytes 4 ENA_ADMIN_OS_DPDK);
  buf ← ena_copy_str buf 4 128 (str_bytes "Unikraft"%string);
  buf ← ena_copy_str buf 136 32 (str_bytes "ena-unikraft"%string);
  buf ← write_at buf 172 (le_bytes 4 (ENA_INIT_PACK_DRIVER_VERSION 2 0 0 0));
  buf ← write_at buf 184 (le_bytes 2 ENA_INIT_ENA_SPEC_VERSION);
  write_at buf 188 (le_bytes 2 1).

(** ** LLQ parameters: entry size and header length, or -ENOTSUP *)
Definition ena_llq_select_params (header_location_ctrl_supported entry_size_ctrl_supported : Z) : Z * Z * Z :=
  if Z.land header_location_ctrl_supported ENA_LLQ_INLINE_HEADER =? 0 then (- ENOTSUP, 0, 0)
  else if Z.land entry_size_ctrl_supported ENA_LLQ_ENTRY_SIZE_128B =? 0 then (- ENOTSUP, 0, 0)
  else (0, 128, u16 (128 - 2 * 16)).

Section Init.
Context {D : Type} `{AdminExec D}.

Definition ena_init_exec (opcode : Z) (req : list Z) (resp_cap : Z) : M D (Z * list Z) :=
  '(ret, _, resp) ← admin_exec opcode (Some req) resp_cap ENA_INIT_MAX_POLLS; mret (ret, resp).

Definition ena_init_get_device_attributes : M D Z :=
  '(ret, resp) ← ena_init_exec ENA_ADMIN_GET_FEATURE (get_feat_req ENA_ADMIN_DEVICE_ATTRIBUTES) 56;
  if z2b ret then mret ret
  else mod_ad (set_ad_attr (attr_of_resp resp));; mret 0.

Definition ena_init_get_queue_limits : M D Z :=
  '(ret, resp) ← ena_init_exec ENA_ADMIN_GET_FEATURE (get_feat_req ENA_ADMIN_MAX_QUEUES_NUM) 56;
  if z2b ret then mret ret
  else mod_ad (set_ad_lim (limits_of_resp resp));; mret 0.

Definition ena_init_set_host_info : M D Z :=
  p ← dma_alloc;
  match p with
  | None => mret (- ENOMEM)
  | Some (base, phys) =>
      page ← lift host_info_page;
      '(ret, _) ← ena_init_exec ENA_ADMIN_SET_FEATURE
        (set_feat_req ENA_ADMIN_HOST_ATTR_CONFIG (mem_addr phys ++ replicate 12 0)) 0;
      if z2b ret then dma_free (Some base);; mret ret
      else mod_ad (set_ad_host (mkHostInfo (Some base) phys page));; mret 0
  end.

Definition ena_init_set_mtu (mtu : Z) : M D Z :=
  if (mtu <? ENA_INIT_MTU_MIN) || (ENA_INIT_MTU_MAX <? mtu) then mret (- EINVAL)
  else
    '(ret, _) ← ena_init_exec ENA_ADMIN_SET_FEATURE (set_feat_req ENA_ADMIN_MTU (le_bytes 4 mtu)) 0;
    if z2b ret then mret ret
    else mod_ad (set_ad_mtu mtu);; mret 0.

(** Result: return value and, on success, the bytes in the caller's buffer. *)
Definition ena_init_get_mac_addr : M D (Z * list Z) :=
  ret ← ena_init_get_device_attributes;
  if z2b ret then mret (ret, [])
  else a ← get_ad; mret (0, mac_addr (ad_attr a)).

Definition ena_init_config_llq : M D Z :=
  mod_ad (set_llq_info (mkLlqInfo false false 0 0 0 0));;
  a ← get_ad;
  if negb (non_null (bar2_base (ad_bars a))) || (bar2_size (ad_bars a) =? 0) then mret 0
  else
    '(ret, _) ← ena_init_exec ENA_ADMIN_GET_FEATURE (get_feat_req ENA_ADMIN_LLQ) 32;
    if z2b ret then mret 0 else mret 0.

Definition ena_init_config_aenq : M D Z :=
  a ← get_ad;
  if Z.land (supported_features (ad_attr a)) (Z.shiftl 1 ENA_ADMIN_AENQ_CONFIG) =? 0 then mret 0
  else
    '(ret, resp) ← ena_init_exec ENA_ADMIN_GET_FEATURE (get_feat_req ENA_ADMIN_AENQ_CONFIG) 56;
    if z2b ret then mret 0
    else
      let supported := le_get 4 0 resp in
      let groups := Z.land supported ENA_ADMIN_AENQ_GROUPS_ALL in
      if groups =? 0 then mret 0
      else
        '(ret, _) ← ena_init_exec ENA_ADMIN_SET_FEATURE
          (set_feat_req ENA_ADMIN_AENQ_CONFIG (le_bytes 4 supported ++ le_bytes 4 groups)) 0;
        if z2b ret then mret 0
        else mod_ad (fun a => set_ad_aen (set_aenq_enabled_groups groups (ad_aen a)) a);; mret 0.

Definition ena_init_run (mtu : Z) : M D Z :=
  ret ← ena_init_get_device_attributes;
  if z2b ret then mret ret else
  ret ← ena_init_get_queue_limits;
  if z2b ret then mret ret else
  ret ← ena_init_set_host_info;
  if z2b ret then mret ret else
  ena_init_config_aenq;;
  ret ← ena_init_config_llq;
  if z2b ret then mret ret else
  ret ← ena_init_set_mtu mtu;
  if z2b ret then mret ret else
  '(ret, _) ← ena_init_get_mac_addr;
  if z2b ret then mret ret else
  mod_ad (set_ad_state ENA_STATE_CONFIGURED);;
  mret 0.

(** ** Queries of src/ena_admin.c.  Result: return value and the struct, as bytes. *)
Definition ena_admin_get_device_attr : M D (Z * list Z) :=
  '(ret, _, resp) ← admin_exec ENA_ADMIN_GET_FEATURE (Some (get_feat_req ENA_ADMIN_DEVICE_ATTRIBUTES)) 56 100;
  if z2b ret then mret (ret, []) else mret (0, take 36 resp).

Definition ena_admin_exec_get_stats (type resp_cap : Z) : M D (Z * list Z) :=
  '(ret, _, resp) ← admin_exec ENA_ADMIN_GET_STATS (Some (get_stats_req type)) resp_cap 100; mret (ret, resp).

Definition ena_admin_get_basic_stats : M D (Z * list Z) :=
  '(ret, resp) ← ena_admin_exec_get_stats ENA_ADMIN_GET_STATS_TYPE_BASIC 56;
  if z2b ret then mret (ret, []) else mret (0, take 48 resp).

Definition ena_admin_get_eni_stats : M D (Z * list Z) :=
  '(ret, resp) ← ena_admin_exec_get_stats ENA_ADMIN_GET_STATS_TYPE_ENI 56;
  if z2b ret then mret (ret, []) else mret (0, take 40 resp).

(** ** LLQ negotiation (src/ena_llq.c) *)
Definition ena_llq_negotiate : M D Z :=
  mod_ad (set_llq_info (mkLlqInfo false false 0 0 0 0));;
  a ← get_ad;
  if negb (non_null (bar2_base (ad_bars a))) || (bar2_size (ad_bars a) =? 0) then mret 0
  else
    '(ret, _, resp) ← admin_exec ENA_ADMIN_GET_FEATURE (Some (get_feat_req ENA_ADMIN_LLQ)) 32 100;
    if z2b ret then mret 0
    else
      let '(ret, entry_size, header_len) := ena_llq_select_params (le_get 2 8 resp) (le_get 2 12 resp) in
      if z2b ret then mret 0
      else mod_ad (set_llq_info (mkLlqInfo true true (le_get 4 0 resp) (le_get 4 4 resp) header_len entry_size));; mret 0.
End Init.

(** ** Clamping of depths *)

Lemma land_pred_divide k d : 0 <= k -> (2 ^ k | d) -> (2 ^ (k + 1) | Z.land d (d - 1)).
Proof.
  intros Hk [m ->]. pose proof (Z.pow_pos_nonneg 2 k). pose proof (Z.pow_pos_nonneg 2 (k + 1)).
  apply Z.mod_divide; [lia |]. rewrite <- Z.land_ones by lia. apply Z.bits_inj'. intros i Hi.
  rewrite Z.bits_0, !Z.land_spec, Z.testbit_ones_nonneg by lia.
  destruct (Z.ltb_spec i (k + 1)); [| by rewrite andb_false_r]. rewrite andb_true_r.
  destruct (Z.eq_dec i k) as [-> |]; [| by rewrite Z.mul_pow2_bits_low by lia].
  rewrite !Z.testbit_odd, !Z.shiftr_div_pow2, Z.div_mul by lia.
  assert ((m * 2 ^ k - 1) / 2 ^ k = m - 1) as -> by (symmetry; apply (Z.div_unique _ _ _ (2 ^ k - 1)); lia).
  rewrite Z.odd_sub. by destruct (Z.odd m).
Qed.

Lemma land_pred_log2 d :
  0 < d -> 0 <= Z.land d (d - 1)
    /\ (Z.land d (d - 1) = 0 -> d = 2 ^ Z.log2 d)
    /\ (Z.land d (d - 1) <> 0 -> Z.log2 (Z.land d (d - 1)) = Z.log2 d).
Proof.
  intros Hd. pose proof (Z.log2_spec d Hd) as [Hlo Hhi]. pose proof (Z.log2_nonneg d).
  assert (0 <= Z.land d (d - 1)) as Hr by (apply Z.land_nonneg; lia).
  split; [done |].
  destruct (Z.eq_dec d (2 ^ Z.log2 d)) as [E | Hne].
  - split; [done |]. intros Hnz. exfalso. apply Hnz. rewrite E, Z.land_comm.
    replace (2 ^ Z.log2 d - 1) with (Z.ones (Z.log2 d)) by (rewrite Z.ones_equiv; lia).
    rewrite Z.land_comm, Z.land_ones by done. by apply Z.mod_same, Z.pow_nonzero.
  - assert (Z.log2 (d - 1) = Z.log2 d) as El by (apply Z.log2_unique; lia).
    assert (Z.testbit (Z.land d (d - 1)) (Z.log2 d) = true) as Hb.
    { rewrite Z.land_spec, Z.bit_log2 by lia. rewrite <- El at 1. by rewrite Z.bit_log2 by lia. }
    split; intros Hz; [by rewrite Hz, Z.bits_0 in Hb |].
    apply Z.le_antisymm; [pose proof (Z.log2_land d (d - 1)); lia |].
    apply Z.log2_le_pow2; [lia |]. apply Z.nlt_ge. intros Hlt.
    rewrite Z.bits_above_log2 in Hb; [done | lia |]. apply Z.log2_lt_pow2; lia.
Qed.

(** Each turn clears the lowest bit, so one turn per bit is enough. *)
Lemma clear_low_bits_spec fuel k d :
  0 <= k -> (2 ^ k | d) -> 0 < d < 2 ^ (k + Z.of_nat fuel) -> clear_low_bits fuel d = 2 ^ Z.log2 d.
Proof.
  revert k d. induction fuel as [| fuel IH]; intros k d Hk Hdiv Hd; simpl.
  { rewrite Z.add_0_r in Hd. apply Z.divide_pos_le in Hdiv; lia. }
  destruct (land_pred_log2 d) as (Hr & Hz & Hnz); [lia |].
  destruct (Z.eqb_spec (Z.land d (d - 1)) 0) as [E | E]; cbn [negb]; [by apply Hz |].
  rewrite <- (Hnz E). apply (IH (k + 1)); [lia | by apply land_pred_divide |].
  replace (k + 1 + Z.of_nat fuel) with (k + Z.of_nat (S fuel)) by lia. split; [lia |].
  apply Z.log2_lt_pow2; [lia |]. rewrite (Hnz E). apply Z.log2_lt_pow2; lia.
Qed.

Lemma clear_low_bits_ok d : 0 < d < 2 ^ 32 -> clear_low_bits 32 d = 2 ^ Z.log2 d.
Proof. intros Hd. apply (clear_low_bits_spec 32 0); [lia | apply Z.divide_1_l | done]. Qed.

Lemma clamp_queue_depth_eq raw :
  0 <= raw -> clamp_queue_depth raw = 2 ^ Z.log2 (Z.max 4 (Z.min 4096 raw)).
Proof.
  intros Hr. unfold clamp_queue_depth, ENA_SPEC_MAX_DEPTH, ENA_SPEC_MIN_DEPTH.
  set (c := Z.max 4 (Z.min 4096 raw)).
  assert ((let d := if 4096 <? raw then 4096 else raw in if d <? 4 then 4 else d) = c) as E.
  { cbv zeta. destruct (Z.ltb_spec 4096 raw).
    - simpl. lia.
    - destruct (Z.ltb_spec raw 4); lia. }
  cbv zeta in E. cbv zeta. rewrite E. rewrite clear_low_bits_ok by lia. apply u16_id.
  pose proof (Z.log2_spec c ltac:(lia)). lia.
Qed.

Lemma clamp_queue_depth_pow2 raw :
  0 <= raw -> pow2_depth (clamp_queue_depth raw) /\ clamp_queue_depth raw <= 4096
    /\ (4 <= raw -> clamp_queue_depth raw <= raw).
Proof.
  intros Hr. rewrite clamp_queue_depth_eq by done. set (c := Z.max 4 (Z.min 4096 raw)).
  pose proof (Z.log2_spec c ltac:(lia)). split; [| lia].
  exists (Z.log2 c). split; [| done].
  pose proof (Z.log2_le_mono 4 c ltac:(lia)). pose proof (Z.log2_le_mono c 4096 ltac:(lia)).
  change (Z.log2 4) with 2 in *. change (Z.log2 4096) with 12 in *. lia.
Qed.

(** The rounding loop against its specification.  For every 32-bit count the
    device may report, [clamp_queue_depth] ends within 32 turns with the largest
    power of two that is not above the count clamped to 4 .. 4096. *)
Theorem clamp_queue_depth_largest raw :
  0 <= raw < 2 ^ 32 ->
  let c := Z.max 4 (Z.min 4096 raw) in
  pow2_depth (clamp_queue_depth raw) /\ clamp_queue_depth raw <= c
  /\ forall d, pow2_depth d -> d <= c -> d <= clamp_queue_depth raw.
Proof.
  intros Hr. cbv zeta. split; [apply clamp_queue_depth_pow2; lia |]. rewrite clamp_queue_depth_eq by lia.
  set (c := Z.max 4 (Z.min 4096 raw)). pose proof (Z.log2_spec c ltac:(lia)). split; [lia |].
  intros d (k & Hk & ->) Hle. apply Z.pow_le_mono_r; [lia |]. rewrite <- (Z.log2_pow2 k) by lia. by apply Z.log2_le_mono.
Qed.

Lemma clamp_queue_depth_largest_witness : pow2_depth (clamp_queue_depth 1000) /\ clamp_queue_depth 1000 = 512.
Proof. split; [apply (clamp_queue_depth_largest 1000); lia | vm_compute; reflexivity]. Defined.

Lemma clamp_queue_num_range raw : 0 <= raw -> 1 <= clamp_queue_num raw <= 256 /\ (1 <= raw -> clamp_queue_num raw <= raw).
Proof.
  intros Hr. unfold clamp_queue_num, ENA_SPEC_MAX_QUEUES. destruct (Z.ltb_spec 256 raw); [lia |].
  destruct (Z.eqb_spec raw 0); [lia |]. rewrite u16_id by lia. lia.
Qed.

(** What the rest of the driver relies on. *)
Record limits_ok (l : queue_limits) : Prop := {
  lo_tx_queues : 1 <= max_tx_queues l <= 256;
  lo_rx_queues : 1 <= max_rx_queues l <= 256;
  lo_tx_ring : pow2_depth (max_tx_ring_size l) /\ max_tx_ring_size l <= 4096;
  lo_rx_ring : pow2_depth (max_rx_ring_size l) /\ max_rx_ring_size l <= 4096
}.

Lemma limits_of_resp_ok resp : Forall is_byte resp -> limits_ok (limits_of_resp resp).
Proof.
  intros Hb.
  pose proof (clamp_queue_num_range _ (le_get_nonneg 4 0 resp Hb)). pose proof (clamp_queue_num_range _ (le_get_nonneg 4 8 resp Hb)).
  pose proof (clamp_queue_depth_pow2 _ (le_get_nonneg 4 4 resp Hb)). pose proof (clamp_queue_depth_pow2 _ (le_get_nonneg 4 12 resp Hb)).
  unfold limits_of_resp. split; cbn [max_tx_queues max_rx_queues max_tx_ring_size max_rx_ring_size]; case_match; tauto || lia.
Qed.

(** ** The host information page *)
(** A string longer than its field is cut; the field always ends its string. *)
Lemma ena_copy_str_spec buf off cap src :
  0 <= off -> 0 < cap -> off + cap <= Z.of_nat (length buf) ->
  let len := Z.to_nat (Z.min (cap - 1) (Z.of_nat (length src))) in
  ena_copy_str buf off cap src
  = Ret (take (Z.to_nat off) buf ++ take len src ++ 0 :: drop (Z.to_nat off + len + 1) buf).
Proof.
  intros Ho Hc Hb. cbv zeta. unfold ena_copy_str.
  assert ((if cap <=? Z.of_nat (length src) then cap - 1 else Z.of_nat (length src))
    = Z.min (cap - 1) (Z.of_nat (length src))) as -> by (destruct (Z.leb_spec cap (Z.of_nat (length src))); lia).
  set (z := Z.min (cap - 1) (Z.of_nat (length src))).
  rewrite write_at_ret by (rewrite ?length_take; lia). cbn [mbind res_bind].
  rewrite write_at_ret by (rewrite ?length_inserts; simpl; lia). f_equal.
  replace (Z.to_nat (off + z)) with (Z.to_nat off + Z.to_nat z)%nat by lia.
  set (o := Z.to_nat off). set (n := Z.to_nat z).
  assert (length (take n src) = n) as Hn by (rewrite length_take; lia).
  assert (length (take o buf) = o) as Hlo by (rewrite length_take; lia).
  rewrite list_inserts_split by (rewrite length_inserts; simpl; lia).
  rewrite list_inserts_split by lia. rewrite Hn.
  set (X := take o buf ++ take n src ++ drop (o + n) buf).
  assert (take (o + n) X = take o buf ++ take n src) as ->
    by (unfold X; rewrite app_assoc; apply take_app_length'; rewrite length_app; lia).
  assert (drop (o + n + 1) X = drop (o + n + 1) buf) as E.
  { unfold X. rewrite app_assoc, drop_app_ge by (rewrite length_app; lia). rewrite length_app, Hlo, Hn, drop_drop. f_equal. lia. }
  simpl. rewrite E, <- app_assoc. done.
Qed.

(** The page: every field where the device reads it. *)
Definition host_info_contents : list Z :=
  le_bytes 4 ENA_ADMIN_OS_DPDK ++ str_bytes "Unikraft"%string ++ replicate 124 0
  ++ str_bytes "ena-unikraft"%string ++ replicate 24 0 ++ le_bytes 4 2 ++ replicate 8 0
  ++ le_bytes 2 ENA_INIT_ENA_SPEC_VERSION ++ [0; 0] ++ le_bytes 2 1 ++ replicate 3906 0.

Lemma host_info_page_eq : host_info_page = Ret host_info_contents.
Proof. vm_compute. reflexivity. Qed.

(** ** One step after another *)
Lemma get_feat_req_ok id : is_byte id -> req_ok (Some (get_feat_req id)).
Proof.
  intros Hid r [= <-]. split; [| left; simpl; lia]. unfold get_feat_req, ctrl_buff, mem_addr, feat_common. byte_list.
Qed.

Lemma set_feat_req_ok id payload :
  is_byte id -> Forall is_byte payload -> (length payload <= 44)%nat -> req_ok (Some (set_feat_req id payload)).
Proof.
  intros Hid Hp Hl r [= <-]. split; [| left; simpl; lia]. unfold set_feat_req, ctrl_buff, mem_addr, feat_common. byte_list.
Qed.

Lemma moved_state `{AdminExecOk D} k qs (w1 w : world D) st :
  st <> ENA_STATE_ERROR -> moved k qs w1 w -> moved k qs w1 (set_w_adapter (set_ad_state st (w_adapter w)) w).
Proof.
  intros Hst [Hok [[? ? Ea ? ? ? ? ? ?] Hlog]]. split; [| split; [split; try done | exact Hlog]].
  - eapply ax_keep; [| exact Hok]. by split_and!.
  - wsimpl. rewrite Ea. by destruct (w_adapter w1).
Qed.

Section Steps.
Context {D : Type} `{AdminExecOk D}.
Implicit Types w : world D.

(** The world with another adapter. *)
Definition upd (f : ena_adapter -> ena_adapter) (w : world D) : world D := set_w_adapter (f (w_adapter w)) w.

Lemma wpm_init_exec k qs w1 w opcode req cap (Q : Z * list Z -> world D -> Prop) :
  moved (S k) qs w1 w -> feature_op opcode -> req_ok (Some req) ->
  (forall ret resp w', moved k qs w1 w' -> ret <= 0 ->
     (ret = 0 -> Z.of_nat (length resp) = resp_len cap /\ Forall is_byte resp) -> Q (ret, resp) w') ->
  wpm (ena_init_exec opcode req cap) Q w.
Proof.
  intros Hm Hop Hreq HQ. apply wpm_bind. eapply wpm_feature; [done.. | by vm_compute |].
  intros ret out resp w' Hm' Hret Hr. by apply wpm_ret, HQ.
Qed.

Definition mac_ok (attr : device_attr) : Prop := length (mac_addr attr) = 6%nat /\ Forall is_byte (mac_addr attr).

Lemma get_attr_rule k qs w1 w (Q : Z -> world D -> Prop) :
  moved (S k) qs w1 w ->
  (forall attr w', mac_ok attr -> moved k qs (upd (set_ad_attr attr) w1) w' -> Q 0 w') ->
  (forall ret w', ret < 0 -> moved k qs w1 w' -> Q ret w') ->
  wpm ena_init_get_device_attributes Q w.
Proof.
  intros Hm HQ Hf. apply wpm_bind. eapply wpm_init_exec; [done | by left | by apply get_feat_req_ok |].
  intros ret resp w' Hm' Hret Hr. unfold z2b. destruct (Z.eqb_spec ret 0) as [-> | Hne]; cbn [negb].
  - destruct (Hr eq_refl) as [Hl Hb]. apply wpm_bind. eapply wpm_moved_mod; [exact Hm' | done |].
    intros w2 Hm2. apply wpm_ret, (HQ (attr_of_resp resp)); [| done]. change (resp_len 56) with 56 in Hl.
    split; unfold attr_of_resp; cbn [mac_addr]; [rewrite length_take, length_drop; lia | by apply Forall_take, Forall_drop].
  - apply wpm_ret, Hf; [lia | done].
Qed.

Lemma get_limits_rule k qs w1 w (Q : Z -> world D -> Prop) :
  moved (S k) qs w1 w ->
  (forall lim w', limits_ok lim -> moved k qs (upd (set_ad_lim lim) w1) w' -> Q 0 w') ->
  (forall ret w', ret < 0 -> moved k qs w1 w' -> Q ret w') ->
  wpm ena_init_get_queue_limits Q w.
Proof.
  intros Hm HQ Hf. apply wpm_bind. eapply wpm_init_exec; [done | by left | by apply get_feat_req_ok |].
  intros ret resp w' Hm' Hret Hr. unfold z2b. destruct (Z.eqb_spec ret 0) as [-> | Hne]; cbn [negb].
  - destruct (Hr eq_refl) as [Hl Hb]. apply wpm_bind. eapply wpm_moved_mod; [exact Hm' | done |].
    intros w2 Hm2. apply wpm_ret, (HQ (limits_of_resp resp)); [by apply limits_of_resp_ok | done].
  - apply wpm_ret, Hf; [lia | done].
Qed.

Lemma set_mtu_rule k qs w1 w mtu (Q : Z -> world D -> Prop) :
  moved (S k) qs w1 w ->
  (forall w', ENA_INIT_MTU_MIN <= mtu <= ENA_INIT_MTU_MAX -> moved k qs (upd (set_ad_mtu mtu) w1) w' -> Q 0 w') ->
  (forall ret w', ret < 0 -> moved k qs w1 w' -> Q ret w') ->
  wpm (ena_init_set_mtu mtu) Q w.
Proof.
  intros Hm HQ Hf. unfold ena_init_set_mtu.
  destruct (Z.ltb_spec mtu ENA_INIT_MTU_MIN), (Z.ltb_spec ENA_INIT_MTU_MAX mtu); cbn [orb];
    try (apply wpm_ret, Hf; [done | by apply (moved_less _ (S k)); [lia |]]).
  apply wpm_bind. eapply wpm_init_exec; [done | by right; left | apply set_feat_req_ok; [done | apply le_bytes_byte | simpl; lia] |].
  intros ret resp w' Hm' Hret _. unfold z2b. destruct (Z.eqb_spec ret 0) as [-> | Hne]; cbn [negb].
  - apply wpm_bind. eapply wpm_moved_mod; [exact Hm' | done |]. intros w2 Hm2. by apply wpm_ret, HQ.
  - apply wpm_ret, Hf; [lia | done].
Qed.

(** Events: best effort, 0 in any case; only the enabled groups may change. *)
Lemma config_aenq_rule k qs w1 w (Q : Z -> world D -> Prop) :
  moved (2 + k) qs w1 w ->
  (forall groups w', groups = aenq_enabled_groups (ad_aen (w_adapter w1)) \/ 0 < groups <= ENA_ADMIN_AENQ_GROUPS_ALL ->
     moved k qs (upd (fun a => set_ad_aen (set_aenq_enabled_groups groups (ad_aen a)) a) w1) w' -> Q 0 w') ->
  wpm ena_init_config_aenq Q w.
Proof.
  intros Hm HQ. unfold ena_init_config_aenq.
  assert (forall j w', (k <= j)%nat -> moved j qs w1 w' -> Q 0 w') as Hskip.
  { intros j w' Hj Hm'. apply (HQ (aenq_enabled_groups (ad_aen (w_adapter w1)))); [by left |].
    apply (moved_less _ j); [done |]. destruct w1 as [? [? ? ? ? [] ? ? ? ? ? ? ? ? ? ? ?] ? ? ? ?]. exact Hm'. }
  apply wpm_bind, wpm_get_ad. case_match; [apply wpm_ret; by eapply Hskip; [| exact Hm]; lia |].
  apply wpm_bind. eapply wpm_init_exec; [done | by left | by apply get_feat_req_ok |].
  intros ret resp w' Hm' _ Hr. unfold z2b. destruct (Z.eqb_spec ret 0) as [-> | Hne]; cbn [negb].
  2: { apply wpm_ret. by eapply Hskip; [| exact Hm']; lia. }
  destruct (Hr eq_refl) as [_ Hb]. set (groups := Z.land _ ENA_ADMIN_AENQ_GROUPS_ALL).
  assert (0 <= groups <= ENA_ADMIN_AENQ_GROUPS_ALL) as Hg.
  { unfold groups. change ENA_ADMIN_AENQ_GROUPS_ALL with (Z.ones 5). rewrite Z.land_ones by lia.
    pose proof (Z.mod_pos_bound (le_get 4 0 resp) (2 ^ 5)). change (Z.ones 5) with 31. lia. }
  destruct (Z.eqb_spec groups 0); [apply wpm_ret; by eapply Hskip; [| exact Hm']; lia |].
  apply wpm_bind. eapply wpm_init_exec; [done | by right; left | |].
  { apply set_feat_req_ok; [done | apply Forall_app; split; apply le_bytes_byte | simpl; lia]. }
  intros ret resp' w2 Hm2 _ _. destruct (Z.eqb_spec ret 0) as [-> | Hne]; cbn [negb].
  - apply wpm_bind. eapply wpm_moved_mod; [exact Hm2 | done |]. intros w3 Hm3. apply wpm_ret, (HQ groups); [right; lia | done].
  - apply wpm_ret. by eapply Hskip; [| exact Hm2]; lia.
Qed.

(** LLQ stays off. *)
Lemma config_llq_rule k qs w1 w (Q : Z -> world D -> Prop) :
  moved (S k) qs w1 w ->
  (forall w', moved k qs (upd (set_llq_info (mkLlqInfo false false 0 0 0 0)) w1) w' -> Q 0 w') ->
  wpm ena_init_config_llq Q w.
Proof.
  intros Hm HQ. apply wpm_bind. eapply wpm_moved_mod; [exact Hm | done |]. intros w2 Hm2.
  apply wpm_bind, wpm_get_ad. case_match; [apply wpm_ret, HQ; by apply (moved_less _ (S k)); [lia |] |].
  apply wpm_bind. eapply wpm_init_exec; [done | by left | by apply get_feat_req_ok |].
  intros ret resp w' Hm' _ _. case_match; by apply wpm_ret, HQ.
Qed.

Lemma moved_dma_alloc k qs w1 w (Q : option (Z * Z) -> world D -> Prop) :
  moved k qs w1 w -> wf_heap (w_heap w1) ->
  (forall h w', wf_heap h -> h_live h = h_live (w_heap w1) -> moved k qs (set_w_heap h w1) w' -> Q None w') ->
  (forall a phys h w', wf_heap h -> a ∉ h_live (w_heap w1) -> h_live h = {[a]} ∪ h_live (w_heap w1) ->
     moved k qs (set_w_heap h w1) w' -> Q (Some (a, phys)) w') ->
  wpm dma_alloc Q w.
Proof.
  intros Hm Hh HN HS. rewrite <- (moved_heap _ _ _ _ Hm) in *. apply wpm_dma_alloc; [done | |].
  - intros h Hh' El. apply (HN h); [done.. | by apply moved_set_heap].
  - intros a phys h Hh' Ha El. apply (HS a phys h); [done.. | by apply moved_set_heap].
Qed.

Lemma moved_dma_free k qs w1 w p (Q : unit -> world D -> Prop) :
  moved k qs w1 w -> wf_heap (w_heap w1) -> blk p ⊆ h_live (w_heap w1) ->
  (forall h w', wf_heap h -> h_live h = h_live (w_heap w1) ∖ blk p -> moved k qs (set_w_heap h w1) w' -> Q tt w') ->
  wpm (dma_free p) Q w.
Proof.
  intros Hm Hh Hp HQ. rewrite <- (moved_heap _ _ _ _ Hm) in *. apply dma_free_spec; [done.. |].
  intros h Hh' El. apply (HQ h); [done.. | by apply moved_set_heap].
Qed.

Lemma set_host_info_rule k qs w1 w (Q : Z -> world D -> Prop) :
  moved (S k) qs w1 w -> wf_heap (w_heap w1) ->
  (forall base phys h w', wf_heap h -> base ∉ h_live (w_heap w1) -> h_live h = {[base]} ∪ h_live (w_heap w1) ->
     moved k qs (upd (set_ad_host (mkHostInfo (Some base) phys host_info_contents)) (set_w_heap h w1)) w' -> Q 0 w') ->
  (forall ret h w', ret < 0 -> wf_heap h -> h_live h = h_live (w_heap w1) -> moved k qs (set_w_heap h w1) w' -> Q ret w') ->
  wpm ena_init_set_host_info Q w.
Proof.
  intros Hm Hh HQ Hf. apply wpm_bind. eapply moved_dma_alloc; [exact Hm | done | |].
  - intros h w' Hh' El Hm'. apply wpm_ret, (Hf _ h); [done.. | by apply (moved_less _ (S k)); [lia |]].
  - intros base phys h w' Hh' Hb El Hm'. apply wpm_bind. eapply wpm_lift; [apply host_info_page_eq |].
    apply wpm_bind. eapply wpm_init_exec; [exact Hm' | by right; left | |].
    { apply set_feat_req_ok; [done | unfold mem_addr; byte_list | simpl; lia]. }
    intros ret resp w2 Hm2 Hret _. unfold z2b. destruct (Z.eqb_spec ret 0) as [-> | Hne]; cbn [negb].
    + apply wpm_bind. eapply wpm_moved_mod; [exact Hm2 | done |]. intros w3 Hm3. apply wpm_ret. by apply (HQ base phys h).
    + apply wpm_bind. eapply (moved_dma_free _ _ _ _ (Some base)); [exact Hm2 | done | wsimpl; rewrite El; set_solver |].
      intros h3 w3 Hh3 El3 Hm3. apply wpm_ret. apply (Hf _ h3); [lia | done | | exact Hm3].
      rewrite El3. wsimpl. rewrite El. simpl. by apply undo_1.
Qed.

Lemma get_mac_rule k qs w1 w (Q : Z * list Z -> world D -> Prop) :
  moved (S k) qs w1 w ->
  (forall attr mac w', mac_ok attr -> moved k qs (upd (set_ad_attr attr) w1) w' -> Q (0, mac) w') ->
  (forall ret w', ret < 0 -> moved k qs w1 w' -> Q (ret, []) w') ->
  wpm ena_init_get_mac_addr Q w.
Proof.
  intros Hm HQ Hf. apply wpm_bind. eapply get_attr_rule; [exact Hm | |].
  - intros attr w' Hmac Hm'. cbn [z2b negb Z.eqb]. apply wpm_bind, wpm_get_ad, wpm_ret. by apply (HQ attr).
  - intros ret w' Hr Hm'. unfold z2b. destruct (Z.eqb_spec ret 0); [lia |]. by apply wpm_ret, Hf.
Qed.

(** The world after the steps so far: [w0] with these parts of the adapter and
    this heap. *)
Definition init_world (w0 : world D) (attr : device_attr) (lim : queue_limits) (aen : aen_report) (mtu : Z)
    (host : host_info) (llq : ena_llq_info) (h : heap) : world D :=
  set_w_heap h (upd (fun a => set_ad_attr attr (set_ad_lim lim (set_ad_aen aen (set_ad_mtu mtu
    (set_ad_host host (set_llq_info llq a)))))) w0).

(** The heap holds the page of the host information and is otherwise as before. *)
Definition host_owned (w0 : world D) (host : host_info) (h : heap) : Prop :=
  wf_heap h /\ blk (host_info_base host) ## h_live (w_heap w0)
  /\ h_live h = blk (host_info_base host) ∪ h_live (w_heap w0).

(** What a bring-up that succeeds establishes. *)
Record init_done (mtu : Z) (old : aen_report) (attr : device_attr) (lim : queue_limits) (aen : aen_report) (m : Z)
    (host : host_info) (llq : ena_llq_info) : Prop := {
  in_mac : mac_ok attr;
  in_lim : limits_ok lim;
  in_groups : aen = old \/ exists g, aen = set_aenq_enabled_groups g old /\ 0 < g <= ENA_ADMIN_AENQ_GROUPS_ALL;
  in_mtu : m = mtu /\ ENA_INIT_MTU_MIN <= mtu <= ENA_INIT_MTU_MAX;
  in_host : is_Some (host_info_base host) /\ host_info_data host = host_info_contents;
  in_llq : llq_enabled llq = false
}.

Lemma init_world_start w0 :
  init_world w0 (ad_attr (w_adapter w0)) (ad_lim (w_adapter w0)) (ad_aen (w_adapter w0)) (ad_mtu (w_adapter w0))
    (ad_host (w_adapter w0)) (llq_info (w_adapter w0)) (w_heap w0) = w0.
Proof. by destruct w0 as [? [] ? ? ? ?]. Qed.

(** A step whose error ends the function. *)
Lemma wpm_step m rest w (Q : Z -> world D -> Prop) :
  wpm m (fun ret w' => if ret =? 0 then wpm rest Q w' else Q ret w') w ->
  wpm (ret ← m; if z2b ret then mret ret else rest) Q w.
Proof.
  intros Hm. apply wpm_bind. eapply wpm_mono; [exact Hm |]. intros ret w' Hw. cbv beta in Hw. unfold z2b.
  destruct (ret =? 0); [exact Hw | by apply wpm_ret].
Qed.

Lemma failed (ret : Z) (P Q : Prop) : ret < 0 -> Q -> if ret =? 0 then P else Q.
Proof. intros. destruct (Z.eqb_spec ret 0); [lia | done]. Qed.

Lemma init_run_spec k qs mtu w :
  ax_ok (8 + k) qs w -> wf_heap (w_heap w) -> host_info_base (ad_host (w_adapter w)) = None ->
  wpm (ena_init_run mtu) (fun ret w' => exists attr lim aen m host llq h,
    moved k qs (init_world w attr lim aen m host llq h) w' /\ host_owned w host h
    /\ if ret =? 0 then init_done mtu (ad_aen (w_adapter w)) attr lim aen m host llq
                        /\ ad_state (w_adapter w') = ENA_STATE_CONFIGURED
       else ret < 0) w.
Proof.
  intros Hok Hh Hhost. set (Q := fun ret w' => _).
  assert (forall j attr lim aen m host llq h ret w' P, (k <= j)%nat -> ret < 0 -> host_owned w host h ->
    moved j qs (init_world w attr lim aen m host llq h) w' -> if ret =? 0 then P else Q ret w') as Hfail.
  { intros j attr lim aen m host llq h ret w' P Hj Hret Hown Hm. apply failed; [done |]. exists attr, lim, aen, m, host, llq, h.
    split; [by apply (moved_less _ j) |]. split; [done |]. by apply failed. }
  assert (host_owned w (ad_host (w_adapter w)) (w_heap w)) as Hown0
    by (split; [done | rewrite Hhost; simpl; split; set_solver]).
  pose proof (moved_start _ _ _ Hok) as Hm. rewrite <- (init_world_start w) in Hm at 1.
  generalize dependent (llq_info (w_adapter w)). intros llq0 Hm.
  generalize dependent (ad_attr (w_adapter w)). intros attr0 Hm.
  generalize dependent (ad_lim (w_adapter w)). intros lim0 Hm. generalize dependent (ad_mtu (w_adapter w)). intros mtu0 Hm.
  remember (ad_aen (w_adapter w)) as aen0. remember (ad_host (w_adapter w)) as host0.
  apply wpm_step. apply (get_attr_rule (7 + k) qs _ _ _ Hm); [| intros ret w' Hr Hm'; by refine (Hfail _ _ _ _ _ _ _ _ _ _ _ _ Hr Hown0 Hm'); lia].
  intros attr1 w1 _ Hm1. simpl Z.eqb. cbv iota. change (moved (7 + k) qs (init_world w attr1 lim0 aen0 mtu0 host0 llq0 (w_heap w)) w1) in Hm1.
  apply wpm_step. apply (get_limits_rule (6 + k) qs _ _ _ Hm1); [| intros ret w' Hr Hm'; by refine (Hfail _ _ _ _ _ _ _ _ _ _ _ _ Hr Hown0 Hm'); lia].
  intros lim w2 Hlim Hm2. simpl Z.eqb. cbv iota. change (moved (6 + k) qs (init_world w attr1 lim aen0 mtu0 host0 llq0 (w_heap w)) w2) in Hm2.
  apply wpm_step. apply (set_host_info_rule (5 + k) qs _ _ _ Hm2 Hh).
  2: { intros ret h w' Hr Hh' El Hm'. refine (Hfail _ attr1 lim aen0 mtu0 host0 llq0 h _ _ _ _ Hr _ Hm'); [lia |].
       split; [done |]. rewrite Hhost, El. simpl. split; set_solver. }
  intros base phys h w3 Hh3 Hbase El3 Hm3. simpl Z.eqb. cbv iota.
  assert (exists host, host = mkHostInfo (Some base) phys host_info_contents) as [host Ehost] by eauto.
  rewrite <- Ehost in Hm3. change (moved (5 + k) qs (init_world w attr1 lim aen0 mtu0 host llq0 h) w3) in Hm3.
  assert (host_owned w host h) as Hown by (rewrite Ehost; split; [done |]; cbn [host_info_base blk]; split; [by apply disjoint_singleton_l | exact El3]).
  apply wpm_bind. apply (config_aenq_rule (3 + k) qs _ _ _ Hm3). intros groups w4 Hg Hm4.
  set (aen := set_aenq_enabled_groups groups aen0). change (moved (3 + k) qs (init_world w attr1 lim aen mtu0 host llq0 h) w4) in Hm4.
  apply wpm_step. apply (config_llq_rule (2 + k) qs _ _ _ Hm4). intros w5 Hm5. simpl Z.eqb. cbv iota.
  set (llq := mkLlqInfo false false 0 0 0 0) in Hm5. change (moved (2 + k) qs (init_world w attr1 lim aen mtu0 host llq h) w5) in Hm5.
  apply wpm_step. apply (set_mtu_rule (1 + k) qs _ _ _ _ Hm5); [| intros ret w' Hr Hm'; by refine (Hfail _ _ _ _ _ _ _ _ _ _ _ _ Hr Hown Hm'); lia].
  intros w6 Hmtu Hm6. simpl Z.eqb. cbv iota. change (moved (1 + k) qs (init_world w attr1 lim aen mtu host llq h) w6) in Hm6.
  apply wpm_bind. apply (get_mac_rule k qs _ _ _ Hm6).
  2: { intros ret w' Hr Hm'. unfold z2b. rewrite (proj2 (Z.eqb_neq ret 0)) by lia. apply wpm_ret.
       pose proof (fun Hj => Hfail (k) _ _ _ _ _ _ _ ret w' True Hj Hr Hown Hm') as HQ. rewrite (proj2 (Z.eqb_neq ret 0)) in HQ by lia. by apply HQ. }
  intros attr mac w7 Hmac Hm7. cbn [z2b negb Z.eqb].
  apply wpm_bind, wpm_mod_ad, wpm_ret. exists attr, lim, aen, mtu, host, llq, h.
  split; [by apply moved_state; [| exact Hm7] |]. split; [done |]. simpl. split; [| done]. split; try done.
  - destruct Hg as [Hg | Hg]; [left | right; by exists groups]. unfold aen. rewrite Hg. cbn. by destruct aen0.
  - by rewrite Ehost.
Qed.

End Steps.

Section Llq.
Context {D : Type} `{AdminExecOk D}.

Definition llq_off : ena_llq_info := mkLlqInfo false false 0 0 0 0.

(** LLQ negotiation never fails and leaves one of two states.  Either LLQ is off
    with every parameter zero, which is certain without a push BAR, or it is on with
    inline headers, 128-byte entries and 96 header bytes: an entry holds the two
    16-byte descriptors in front of its header exactly.  Nothing else changes. *)
Theorem llq_negotiate_correct k qs (w : world D) :
  ax_ok (S k) qs w ->
  wpm ena_llq_negotiate (fun ret w' => ret = 0 /\ exists llq, moved k qs (upd (set_llq_info llq) w) w'
    /\ (llq = llq_off
        \/ (llq_enabled llq = true /\ llq_info_entry_size llq = 128 /\ llq_info_header_len llq = llq_info_entry_size llq - 2 * 16
            /\ non_null (bar2_base (ad_bars (w_adapter w))) = true /\ bar2_size (ad_bars (w_adapter w)) <> 0))) w.
Proof.
  intros Hok. set (Q := fun ret w' => _).
  assert (forall j w', (k <= j)%nat -> moved j qs (upd (set_llq_info llq_off) w) w' -> Q 0 w') as Hoff.
  { intros j w' Hj Hm. split; [done |]. exists llq_off. split; [by apply (moved_less _ j) | by left]. }
  apply wpm_bind. eapply wpm_moved_mod; [by apply moved_start | done |]. intros w1 Hm1.
  apply wpm_bind, wpm_get_ad. destruct (negb _ || _) eqn:Eb; [apply wpm_ret; eapply Hoff; [| exact Hm1]; lia |].
  apply wpm_bind. eapply wpm_feature; [exact Hm1 | by left | by apply get_feat_req_ok | done |].
  intros ret out resp w2 Hm2 _ _. destruct (z2b ret); [apply wpm_ret; by eapply Hoff; [| exact Hm2] |].
  unfold ena_llq_select_params. destruct (Z.land _ ENA_LLQ_INLINE_HEADER =? 0); cbn [z2b negb Z.eqb];
    [apply wpm_ret; by eapply Hoff; [| exact Hm2] |].
  destruct (Z.land _ ENA_LLQ_ENTRY_SIZE_128B =? 0); cbn [z2b negb Z.eqb]; [apply wpm_ret; by eapply Hoff; [| exact Hm2] |].
  apply wpm_bind. eapply wpm_moved_mod; [exact Hm2 | done |]. intros w3 Hm3. apply wpm_ret. split; [done |].
  eexists. split; [exact Hm3 |]. right. rewrite (moved_ad _ _ _ _ Hm1) in Eb. apply orb_false_iff in Eb as [Eb1 Eb2].
  split_and!; try done; [by apply negb_false_iff in Eb1 | by apply Z.eqb_neq in Eb2].
Qed.
End Llq.

(** Bounds of the queue limits.  Whatever bytes the device answers, the limits
    the driver stores are 1 .. 256 queues and power-of-two rings of 4 .. 4096
    entries, and never more than the device offers, for its submission and for its
    completion queues, when it offers at least one queue and four entries. *)
Theorem queue_limits_bounds resp :
  Forall is_byte resp ->
  let l := limits_of_resp resp in
  limits_ok l
  /\ (1 <= le_get 4 0 resp -> 1 <= le_get 4 8 resp ->
      max_tx_queues l <= Z.min (le_get 4 0 resp) (le_get 4 8 resp)
      /\ max_rx_queues l <= Z.min (le_get 4 0 resp) (le_get 4 8 resp))
  /\ (4 <= le_get 4 4 resp -> 4 <= le_get 4 12 resp ->
      max_tx_ring_size l <= Z.min (le_get 4 4 resp) (le_get 4 12 resp)
      /\ max_rx_ring_size l <= Z.min (le_get 4 4 resp) (le_get 4 12 resp)).
Proof.
  intros Hb. cbv zeta. split; [by apply limits_of_resp_ok |].
  pose proof (clamp_queue_num_range _ (le_get_nonneg 4 0 resp Hb)). pose proof (clamp_queue_num_range _ (le_get_nonneg 4 8 resp Hb)).
  pose proof (clamp_queue_depth_pow2 _ (le_get_nonneg 4 4 resp Hb)). pose proof (clamp_queue_depth_pow2 _ (le_get_nonneg 4 12 resp Hb)).
  unfold limits_of_resp. cbn [max_tx_queues max_rx_queues max_tx_ring_size max_rx_ring_size].
  split; intros ??; split; case_match; lia.
Qed.

Section Mtu.
Context {D : Type} `{AdminExecOk D}.

(** Setting the MTU.  A value outside 46 .. 65535 is refused with -EINVAL and
    nothing at all happens: no command, no change of any state.  Otherwise one
    command is sent; the cached MTU becomes the new value exactly when it succeeds,
    and on an error everything but the admin queues is as before. *)
Theorem set_mtu_correct k qs mtu (w : world D) :
  ax_ok (S k) qs w ->
  (mtu < ENA_INIT_MTU_MIN \/ ENA_INIT_MTU_MAX < mtu -> ena_init_set_mtu mtu w = Ret (- EINVAL, w))
  /\ wpm (ena_init_set_mtu mtu) (fun ret w' =>
       if ret =? 0 then ENA_INIT_MTU_MIN <= mtu <= ENA_INIT_MTU_MAX /\ moved k qs (upd (set_ad_mtu mtu) w) w'
       else ret < 0 /\ moved k qs w w') w.
Proof.
  intros Hok. split.
  - intros Hr. unfold ena_init_set_mtu. destruct (Z.ltb_spec mtu ENA_INIT_MTU_MIN); [done |].
    destruct (Z.ltb_spec ENA_INIT_MTU_MAX mtu); [done | lia].
  - apply (set_mtu_rule k qs w w); [by apply moved_start | done |]. intros ret w' Hret Hm. by apply failed.
Qed.
End Mtu.

(** ** Examples *)
Lemma queue_limits_bounds_witness :
  Forall is_byte (pad56 (ex_feature 2)) /\ limits_ok (limits_of_resp (pad56 (ex_feature 2))).
Proof. assert (Forall is_byte (pad56 (ex_feature 2))) as Hb by apply pad56_ok, ex_feature_ok. split; [exact Hb |]. exact (proj1 (queue_limits_bounds _ Hb)). Defined.

Lemma ex_started_exec_ok : ax_ok 100 (∅, ∅) ex_started.
Proof. refine (ex_session_ok ex_started _ _ _ _ _); vm_compute; (reflexivity || discriminate). Qed.

Lemma set_mtu_correct_witness :
  ena_init_set_mtu 45 ex_started = Ret (- EINVAL, ex_started).
Proof. refine (proj1 (set_mtu_correct 99 (∅, ∅) 45 ex_started ex_started_exec_ok) _). left. vm_compute. reflexivity. Defined.

(** Bring-up on the example device succeeds. *)
Lemma ex_bring_up_result : wpm (ena_init_run 1500) (fun ret w' => ret = 0) ex_started.
Proof. vm_compute. reflexivity. Qed.


Lemma llq_negotiate_correct_witness :
  wpm ena_llq_negotiate (fun ret w' => ret = 0 /\ llq_enabled (llq_info (w_adapter w')) = false) ex_started.
Proof.
  eapply wpm_mono; [exact (llq_negotiate_correct 99 (∅, ∅) ex_started ex_started_exec_ok) |].
  intros ret w' (-> & llq & Hm & [-> | (_ & _ & _ & Hb & _)]); [| discriminate Hb].
  split; [reflexivity |]. rewrite (moved_ad _ _ _ _ Hm). reflexivity.
Defined.
