(* ===== verification/Rss.v ===== *)
(** * Receive-side scaling

    src/ena_rss.c: the size and the contents of the indirection table, the hash key
    and the hash input, their DMA buffers, and [ena_rss_configure], which puts them
    together.  The build option CONFIG_LIBENA_RSS is on.

    A table of [ena_rss_info] is its heap block and its contents; an entry of
    [ind_table] is its [sq_idx], its reserved half being zero throughout.  The
    read-back may let the device overwrite the table it has just been given; the
    driver only logs what it finds, so that the contents stay those it wrote. *)

From stdpp Require Import base tactics option list list_numbers numbers sets gmap.
From Stdlib Require Import ZArith Lia.
From S2P Require Import Prelude Fifo Mem Desc Netq Ring Adapter Admin Session Exec Device Control Queue Init.
Open Scope Z_scope.
Open Scope list_scope.

Definition ENA_RSS_MAX_POLLS : Z := 5000.
Definition ENA_ADMIN_RSS_KEY_PARTS : Z := 10.
Definition ENA_ADMIN_RSS_IND_TABLE_NUM_ENTRIES : Z := 128.
Definition ENA_ADMIN_TOEPLITZ : Z := 1.
Definition ENA_ADMIN_RSS_TCP4 : Z := 0.
Definition ENA_ADMIN_RSS_UDP4 : Z := 1.
Definition ENA_ADMIN_RSS_IP4 : Z := 4.
Definition ENA_ADMIN_RSS_IP4_FRAG : Z := 6.
Definition ENA_ADMIN_RSS_PROTO_NUM : Z := 16.
Definition ENA_ADMIN_RSS_L3_DA : Z := Z.shiftl 1 2.
Definition ENA_ADMIN_RSS_L3_SA : Z := Z.shiftl 1 3.
Definition ENA_ADMIN_RSS_L4_DP : Z := Z.shiftl 1 4.
Definition ENA_ADMIN_RSS_L4_SP : Z := Z.shiftl 1 5.
Definition ENA_ADMIN_FEATURE_RSS_FLOW_HASH_INPUT_L3_SORT_MASK : Z := 0x02.
Definition ENA_ADMIN_FEATURE_RSS_FLOW_HASH_INPUT_L4_SORT_MASK : Z := 0x04.

Definition default_toeplitz_key : list Z :=
  [0x6d; 0x5a; 0x56; 0xda; 0x25; 0x5b; 0x0e; 0xc2; 0x41; 0x67;
   0x25; 0x3d; 0x43; 0xa3; 0x8f; 0xb0; 0xd0; 0xca; 0x2b; 0xcb;
   0xae; 0x7b; 0x30; 0xb4; 0x77; 0xcb; 0x2d; 0xa3; 0x80; 0x30;
   0xf2; 0x0c; 0x6a; 0x42; 0xb7; 0x3b; 0xbe; 0xac; 0x01; 0xfa].

(** [adapter->supported_features & (1u << id)]. *)
Definition has_feature (a : ena_adapter) (id : Z) : bool :=
  negb (Z.land (supported_features (ad_attr a)) (Z.shiftl 1 id) =? 0).

(** [__builtin_ctz], for a non-zero argument. *)
Definition ctz (v : Z) : Z := Z.log2 (Z.land v (- v)).

(** ** The buffers and requests *)

(** [struct ena_admin_feature_rss_flow_hash_control]. *)
Definition hash_key_buf (key : list Z) : list Z := le_bytes 4 ENA_ADMIN_RSS_KEY_PARTS ++ le_bytes 4 0 ++ key.

(** [struct ena_admin_feature_rss_hash_control] after the stores of
    [ena_rss_set_hash_ctrl]: four arrays of [ENA_ADMIN_RSS_PROTO_NUM] entries of
    four bytes, of which [selected_fields] is the second. *)
Definition tcp_udp_fields : Z :=
  u16 (Z.lor (Z.lor (Z.lor ENA_ADMIN_RSS_L3_SA ENA_ADMIN_RSS_L3_DA) ENA_ADMIN_RSS_L4_SP) ENA_ADMIN_RSS_L4_DP).
Definition ip_fields : Z := u16 (Z.lor ENA_ADMIN_RSS_L3_SA ENA_ADMIN_RSS_L3_DA).
Definition selected_fields_off (proto : Z) : Z := 4 * ENA_ADMIN_RSS_PROTO_NUM + 4 * proto.
Definition hash_ctrl_buf : res (list Z) :=
  buf ← write_at (replicate 256 0) (selected_fields_off ENA_ADMIN_RSS_TCP4) (le_bytes 2 tcp_udp_fields);
  buf ← write_at buf (selected_fields_off ENA_ADMIN_RSS_UDP4) (le_bytes 2 tcp_udp_fields);
  buf ← write_at buf (selected_fields_off ENA_ADMIN_RSS_IP4) (le_bytes 2 ip_fields);
  write_at buf (selected_fields_off ENA_ADMIN_RSS_IP4_FRAG) (le_bytes 2 ip_fields).

Definition rss_limits_req : list Z :=
  ctrl_buff 0 0 ++ feat_common ENA_ADMIN_RSS_INDIRECTION_TABLE_CONFIG ++ replicate 16 0.
Definition hash_key_req (phys : Z) : list Z :=
  ctrl_buff 48 phys ++ feat_common ENA_ADMIN_RSS_HASH_FUNCTION
  ++ le_bytes 4 0 ++ le_bytes 4 (Z.shiftl 1 ENA_ADMIN_TOEPLITZ) ++ le_bytes 4 0.
Definition hash_ctrl_req (phys : Z) : list Z :=
  ctrl_buff 256 phys ++ feat_common ENA_ADMIN_RSS_HASH_INPUT ++ le_bytes 2 0
  ++ le_bytes 2 (Z.lor ENA_ADMIN_FEATURE_RSS_FLOW_HASH_INPUT_L3_SORT_MASK ENA_ADMIN_FEATURE_RSS_FLOW_HASH_INPUT_L4_SORT_MASK).
(** The request of both the SET and the read-back of the table. *)
Definition ind_table_req (size phys : Z) : list Z :=
  ctrl_buff (u32 (size * 4)) phys ++ feat_common ENA_ADMIN_RSS_INDIRECTION_TABLE_CONFIG
  ++ le_bytes 2 0 ++ le_bytes 2 0 ++ le_bytes 2 (u16 (ctz size)) ++ le_bytes 2 0 ++ le_bytes 4 0xFFFFFFFF ++ replicate 4 0.

(** ** Sizing and filling the table *)

(** The loop [while ((1u << requested) < num_queues) requested++]. *)
Fixpoint requested_log2 (fuel : nat) (requested num_queues : Z) : Z :=
  match fuel with
  | O => requested
  | S fuel => if u32 (Z.shiftl 1 requested) <? num_queues then requested_log2 fuel (requested + 1) num_queues else requested
  end.

(** The clamp of the requested log2 size into the range of the device. *)
Definition clamp_log2 (requested min_size max_size : Z) : Z :=
  let clamped := if requested <? min_size then min_size else if max_size <? requested then max_size else requested in
  if 14 <? clamped then 14 else clamped.

(** The table size for a number of queues and a range the device reports. *)
Definition ind_table_size_of (num_queues min_size max_size : Z) : Z :=
  u16 (Z.shiftl 1 (clamp_log2 (requested_log2 32 1 num_queues) min_size max_size)).

(** The submission queue index of an RX queue: of its ring, or its own number. *)
Definition target_sq_idx (rings : arr (option ena_ring)) (target_q : Z) : res Z :=
  if non_null rings then
    r ← aget rings target_q;
    mret (match r with Some r => sq_idx (r_sq r) | None => target_q end)
  else mret target_q.

(** The loop of [ena_rss_set_ind_table], from entry [i] on, [n] entries. *)
Fixpoint fill_ind_table (n : nat) (i num_queues : Z) (rings : arr (option ena_ring)) (host tbl : arr Z)
    : res (arr Z * arr Z) :=
  match n with
  | O => mret (host, tbl)
  | S n =>
      let target_q := u16 (i mod num_queues) in
      sq_idx ← target_sq_idx rings target_q;
      host ← aset host i target_q;
      tbl ← aset tbl i sq_idx;
      fill_ind_table n (i + 1) num_queues rings host tbl
  end.

(** The entries the read-back logs. *)
Definition readback_entries (size : Z) (tbl : arr Z) : res (Z * Z * Z * Z) :=
  let last := if 0 <? size then size - 1 else 0 in
  e0 ← aget tbl 0;
  e1 ← (if 1 <? size then aget tbl 1 else mret 0);
  e2 ← (if 1 <? size then aget tbl (if 0 <? last then last - 1 else 0) else mret 0);
  e3 ← aget tbl last;
  mret (e0, e1, e2, e3).

Section Rss.
Context {D : Type} `{AdminExec D}.

Definition get_rss : M D ena_rss_info := a ← get_ad; mret (rss_info a).
Definition mod_rss (f : ena_rss_info -> ena_rss_info) : M D unit :=
  mod_ad (fun a => set_rss_info (f (rss_info a)) a).

Definition ena_rss_exec (opcode : Z) (req : list Z) (resp_cap : Z) : M D (Z * list Z) :=
  '(ret, _, resp) ← admin_exec opcode (Some req) resp_cap ENA_RSS_MAX_POLLS; mret (ret, resp).

Definition ena_rss_query_ind_table_limits : M D unit :=
  a ← get_ad;
  let num_queues := num_rx_rings (ad_io a) in
  if num_queues <? 2 then mret tt
  else
    '(ret, resp) ← ena_rss_exec ENA_ADMIN_GET_FEATURE rss_limits_req 16;
    if z2b ret then mret tt
    else
      let min_size := le_get 2 0 resp in
      let max_size := le_get 2 2 resp in
      if (min_size =? 0) || (max_size <? min_size) then mret tt
      else mod_rss (set_ind_table_size (ind_table_size_of num_queues min_size max_size)).

Definition ena_rss_fini : M D unit :=
  s ← get_rss;
  (if non_null (host_ind_table s) then
     free (fst <$> host_ind_table s);; mod_rss (set_host_ind_table None) else mret tt);;
  (if non_null (ind_table s) then
     dma_free (fst <$> ind_table s);; mod_rss (fun s => set_ind_table_phys 0 (set_ind_table None s)) else mret tt);;
  (if non_null (hash_key s) then
     dma_free (fst <$> hash_key s);; mod_rss (fun s => set_hash_key_phys 0 (set_hash_key None s)) else mret tt);;
  (if non_null (hash_ctrl s) then
     dma_free (fst <$> hash_ctrl s);; mod_rss (fun s => set_hash_ctrl_phys 0 (set_hash_ctrl None s)) else mret tt);;
  mod_rss (fun s => set_rss_enabled false (set_rss_supported false s)).

Definition ena_rss_init : M D Z :=
  a ← get_ad;
  if negb (has_feature a ENA_ADMIN_RSS_INDIRECTION_TABLE_CONFIG) then mret (- EOPNOTSUPP)
  else if non_null (host_ind_table (rss_info a)) && non_null (ind_table (rss_info a)) then mret 0
  else
    mod_rss (set_ind_table_size ENA_ADMIN_RSS_IND_TABLE_NUM_ENTRIES);;
    ena_rss_query_ind_table_limits;;
    s ← get_rss;
    let zeros := replicate (Z.to_nat (ind_table_size s)) 0 in
    host ← calloc;
    mod_rss (set_host_ind_table ((fun b => (b, zeros)) <$> host));;
    if negb (non_null host) then mret (- ENOMEM)
    else
      tbl ← dma_alloc;
      match tbl with
      | None =>
          mod_rss (set_ind_table None);;
          free host;;
          mod_rss (set_host_ind_table None);;
          mret (- ENOMEM)
      | Some (base, phys) =>
          mod_rss (fun s => set_ind_table_phys phys (set_ind_table (Some (base, zeros)) s));;
          a ← get_ad;
          ret ← (if has_feature a ENA_ADMIN_RSS_HASH_FUNCTION then
                   key ← dma_alloc;
                   match key with
                   | None => mod_rss (set_hash_key None);; ena_rss_fini;; mret (- ENOMEM)
                   | Some (base, phys) =>
                       mod_rss (fun s => set_hash_key_phys phys (set_hash_key (Some (base, replicate 48 0)) s));; mret 0
                   end
                 else mret 0);
          if z2b ret then mret ret
          else
            ret ← (if has_feature a ENA_ADMIN_RSS_HASH_INPUT then
                     ctrl ← dma_alloc;
                     match ctrl with
                     | None => mod_rss (set_hash_ctrl None);; ena_rss_fini;; mret (- ENOMEM)
                     | Some (base, phys) =>
                         mod_rss (fun s => set_hash_ctrl_phys phys (set_hash_ctrl (Some (base, replicate 256 0)) s));; mret 0
                     end
                   else mret 0);
            if z2b ret then mret ret
            else mod_rss (set_rss_supported true);; mret 0
      end.

(** [key] is NULL or a buffer of [key_len] bytes. *)
Definition ena_rss_set_hash_key (key : option (list Z)) : M D Z :=
  s ← get_rss;
  match hash_key s with
  | None => mret (- EINVAL)
  | Some (base, _) =>
      if match key with Some k => negb (Z.of_nat (length k) =? 40) | None => false end then mret (- EINVAL)
      else
        let src_key := default default_toeplitz_key key in
        mod_rss (set_hash_key (Some (base, hash_key_buf src_key)));;
        '(ret, _) ← ena_rss_exec ENA_ADMIN_SET_FEATURE (hash_key_req (hash_key_phys s)) 0;
        if z2b ret then mret ret else mret 0
  end.

Definition ena_rss_set_hash_ctrl : M D Z :=
  s ← get_rss;
  match hash_ctrl s with
  | None => mret (- EINVAL)
  | Some (base, _) =>
      buf ← lift hash_ctrl_buf;
      mod_rss (set_hash_ctrl (Some (base, buf)));;
      '(ret, _) ← ena_rss_exec ENA_ADMIN_SET_FEATURE (hash_ctrl_req (hash_ctrl_phys s)) 0;
      if z2b ret then mret ret else mret 0
  end.

Definition ena_rss_set_ind_table (num_queues : Z) : M D Z :=
  if num_queues =? 0 then mret (- EINVAL)
  else
    a ← get_ad;
    let s := rss_info a in
    match ind_table s, host_ind_table s with
    | Some (tbl_base, tbl), Some (host_base, host) =>
        if ind_table_size s =? 0 then mret (- EINVAL)
        else
          '(host, tbl) ← lift (fill_ind_table (Z.to_nat (ind_table_size s)) 0 num_queues (rx_rings (ad_io a)) (Some host) (Some tbl));
          mod_rss (fun s => set_ind_table (Some (tbl_base, default [] tbl)) (set_host_ind_table (Some (host_base, default [] host)) s));;
          '(ret, _) ← ena_rss_exec ENA_ADMIN_SET_FEATURE (ind_table_req (ind_table_size s) (ind_table_phys s)) 0;
          if z2b ret then mret ret else mret 0
    | _, _ => mret (- EINVAL)
    end.

Definition ena_rss_readback_ind_table : M D unit :=
  s ← get_rss;
  if negb (non_null (ind_table s)) || (ind_table_size s =? 0) then mret tt
  else
    '(ret, _) ← ena_rss_exec ENA_ADMIN_GET_FEATURE (ind_table_req (ind_table_size s) (ind_table_phys s)) 16;
    if z2b ret then mret tt
    else
      s ← get_rss;
      _ ← lift (readback_entries (ind_table_size s) (snd <$> ind_table s));
      mret tt.

Definition ena_rss_configure (num_queues : Z) : M D Z :=
  if num_queues =? 0 then mret (- EINVAL)
  else
    ret ← ena_rss_init;
    if z2b ret then mret ret else
    a ← get_ad;
    ret ← (if has_feature a ENA_ADMIN_RSS_HASH_FUNCTION then ena_rss_set_hash_key None else mret 0);
    if z2b ret then mret ret else
    a ← get_ad;
    ret ← (if has_feature a ENA_ADMIN_RSS_HASH_INPUT then ena_rss_set_hash_ctrl else mret 0);
    if z2b ret then mret ret else
    ret ← ena_rss_set_ind_table num_queues;
    if z2b ret then mret ret else
    ena_rss_readback_ind_table;;
    mod_rss (set_rss_enabled true);;
    mret 0.
End Rss.

(** ** The size of the table *)

Lemma requested_log2_spec fuel r n :
  1 <= r -> r + Z.of_nat fuel = 33 -> n <= 2 ^ 16 -> (r = 1 \/ 2 ^ (r - 1) < n) ->
  let q := requested_log2 fuel r n in r <= q /\ n <= 2 ^ q /\ (q = 1 \/ 2 ^ (q - 1) < n).
Proof.
  revert r. induction fuel as [| fuel IH]; intros r Hr Hf Hn Hlow;
    (assert (r <= 16) as Hr16 by (destruct Hlow as [-> | Hlow]; [lia |];
       assert (2 ^ (r - 1) < 2 ^ 16) as Hlt by lia; apply Z.pow_lt_mono_r_iff in Hlt; lia)); [lia |]. simpl.
  assert (0 < 2 ^ r < 2 ^ 32) by (split; [apply Z.pow_pos_nonneg; lia | apply Z.pow_lt_mono_r; lia]).
  rewrite Z.shiftl_1_l, u32_id by lia. destruct (Z.ltb_spec (2 ^ r) n) as [Hlt | Hge]; [| split; [lia | done]].
  destruct (IH (r + 1)) as (H1 & H2 & H3); [lia | lia | done | |].
  { right. by replace (r + 1 - 1) with r by lia. }
  split; [lia | done].
Qed.

Lemma requested_log2_ok n :
  2 <= n < 65536 -> let q := requested_log2 32 1 n in 1 <= q <= 16 /\ n <= 2 ^ q /\ (q = 1 \/ 2 ^ (q - 1) < n).
Proof.
  intros Hn. destruct (requested_log2_spec 32 1 n) as (H1 & H2 & H3); [lia | lia | lia | by left |].
  split; [| done]. split; [done |]. destruct H3 as [-> |]; [lia |].
  assert (2 ^ (requested_log2 32 1 n - 1) < 2 ^ 16) as Hlt by lia. apply Z.pow_lt_mono_r_iff in Hlt; lia.
Qed.

Lemma ind_table_size_pow2 n lo hi :
  2 <= n < 65536 -> 0 < lo <= hi -> exists j, 1 <= j <= 14 /\ ind_table_size_of n lo hi = 2 ^ j
    /\ j = Z.min 14 (Z.max lo (Z.min hi (requested_log2 32 1 n))).
Proof.
  intros Hn Hlo. destruct (requested_log2_ok n Hn) as ([Hq _] & _). unfold ind_table_size_of.
  set (q := requested_log2 32 1 n) in *.
  assert (clamp_log2 q lo hi = Z.min 14 (Z.max lo (Z.min hi q))) as ->.
  { unfold clamp_log2. destruct (Z.ltb_spec q lo).
    - destruct (Z.ltb_spec 14 lo); lia.
    - destruct (Z.ltb_spec hi q); [destruct (Z.ltb_spec 14 hi) | destruct (Z.ltb_spec 14 q)]; lia. }
  exists (Z.min 14 (Z.max lo (Z.min hi q))). split; [lia |]. split; [| done]. rewrite Z.shiftl_1_l. apply u16_id.
  split; [apply Z.pow_nonneg; lia |]. assert (2 ^ Z.min 14 (Z.max lo (Z.min hi q)) <= 2 ^ 14) by (apply Z.pow_le_mono_r; lia). lia.
Qed.

(** The size of the indirection table, for any number of queues of two or more
    and any range [2^lo, 2^hi] the device reports.  It is a power of two of at most
    2^14 entries; inside the range of the device unless that lies above 2^14; it has an
    entry for every queue whenever the device allows one (and 2^14 does); and it is not
    needlessly large: half of it would be below the range or not cover the queues. *)
Theorem ind_table_size_correct n lo hi :
  2 <= n < 65536 -> 0 < lo <= hi ->
  let size := ind_table_size_of n lo hi in
  (exists j, 1 <= j <= 14 /\ size = 2 ^ j)
  /\ size <= 2 ^ hi /\ (lo <= 14 -> 2 ^ lo <= size)
  /\ (n <= 2 ^ hi -> n <= 2 ^ 14 -> n <= size)
  /\ (size = 2 \/ size <= 2 ^ lo \/ size / 2 < n).
Proof.
  intros Hn Hlo. cbv zeta. destruct (ind_table_size_pow2 n lo hi Hn Hlo) as (j & Hj & -> & Ej).
  destruct (requested_log2_ok n Hn) as (Hq & Hq1 & Hq2). set (q := requested_log2 32 1 n) in *.
  split; [by exists j |]. split; [apply Z.pow_le_mono_r; lia |]. split; [intros; apply Z.pow_le_mono_r; lia |]. split.
  - intros Hhi H14. destruct (Z.le_gt_cases q j) as [Hle | Hgt].
    + assert (2 ^ q <= 2 ^ j) by (apply Z.pow_le_mono_r; lia). lia.
    + destruct (Z.le_gt_cases hi 14); [assert (j = hi) as -> by lia; lia | assert (j = 14) as -> by lia; lia].
  - destruct (Z.eq_dec j 1) as [-> | Hj1]; [by left |]. destruct (Z.le_gt_cases j lo); [right; left; apply Z.pow_le_mono_r; lia |].
    right; right. assert (j <= q) as Hjq by lia. destruct Hq2 as [Hq2 | Hq2]; [lia |].
    assert (2 ^ j = 2 ^ (j - 1) * 2) as -> by (replace j with (Z.succ (j - 1)) at 1 by lia; rewrite Z.pow_succ_r by lia; lia).
    rewrite Z.div_mul by lia. assert (2 ^ (j - 1) <= 2 ^ (q - 1)) by (apply Z.pow_le_mono_r; lia). lia.
Qed.

Lemma ind_table_size_correct_witness : ind_table_size_of 5 2 7 = 8 /\ 5 <= ind_table_size_of 5 2 7.
Proof.
  split; [vm_compute; reflexivity |].
  exact (proj1 (proj2 (proj2 (proj2 (ind_table_size_correct 5 2 7 ltac:(lia) ltac:(lia))))) ltac:(lia) ltac:(lia)).
Defined.

(** ** The contents of the table *)

(** The rings answer for the first [n] queues. *)
Definition rings_cover (n : Z) (rings : arr (option ena_ring)) : Prop :=
  match rings with None => True | Some l => n <= Z.of_nat (length l) end.

(** What [target_sq_idx] computes. *)
Definition sq_idx_of (rings : arr (option ena_ring)) (q : Z) : Z :=
  match rings ≫= lookup (Z.to_nat q) with Some (Some r) => sq_idx (r_sq r) | _ => q end.

Lemma target_sq_idx_eq n rings q : rings_cover n rings -> 0 <= q < n -> target_sq_idx rings q = Ret (sq_idx_of rings q).
Proof.
  intros Hc Hq. unfold target_sq_idx, sq_idx_of. destruct rings as [l |]; [| done]. simpl in Hc. cbn [non_null].
  destruct (lookup_in_range l q) as [x Hx]; [lia |]. rewrite (aget_ret l q x) by (done || lia). simpl. rewrite Hx. by destruct x.
Qed.

(** The table in closed form. *)
Definition spread (n size : Z) : list Z := (fun i => i mod n) <$> seqZ 0 size.

Lemma spread_app n a b : 0 <= a -> 0 <= b -> spread n (a + b) = spread n a ++ ((fun i => i mod n) <$> seqZ a b).
Proof. intros. unfold spread. rewrite seqZ_app, fmap_app by done. by rewrite Z.add_0_l. Qed.

Lemma take_S_insert (k : nat) (x : Z) l : (k < length l)%nat -> take (S k) (<[k := x]> l) = take k l ++ [x].
Proof. intros. rewrite (take_S_r _ _ x) by (by apply list_lookup_insert_eq). by rewrite take_insert_ge. Qed.

Lemma fill_ind_table_eq m n i rings host tbl :
  0 < n < 65536 -> rings_cover n rings -> 0 <= i -> length host = (Z.to_nat i + m)%nat -> length tbl = (Z.to_nat i + m)%nat ->
  take (Z.to_nat i) host = spread n i -> take (Z.to_nat i) tbl = sq_idx_of rings <$> spread n i ->
  fill_ind_table m i n rings (Some host) (Some tbl)
  = Ret (Some (spread n (i + Z.of_nat m)), Some (sq_idx_of rings <$> spread n (i + Z.of_nat m))).
Proof.
  intros Hn Hc. revert i host tbl. induction m as [| m IH]; intros i host tbl Hi L1 L2 E1 E2; cbn [fill_ind_table].
  - rewrite Z.add_0_r, <- E2, <- E1. by rewrite !take_ge by lia.
  - pose proof (Z.mod_pos_bound i n). rewrite u16_id by lia. rewrite (target_sq_idx_eq n) by (done || lia).
    cbn [mbind res_bind]. rewrite aset_ret by lia. cbn [mbind res_bind]. rewrite aset_ret by lia. cbn [mbind res_bind].
    assert (spread n (i + 1) = spread n i ++ [i mod n]) as Es by (by rewrite spread_app by lia).
    replace (i + Z.of_nat (S m)) with (i + 1 + Z.of_nat m) by lia.
    assert (Z.to_nat (i + 1) = S (Z.to_nat i)) as Ei by lia.
    apply IH; rewrite ?length_insert, ?Ei; try lia; rewrite take_S_insert by lia; rewrite ?E1, ?E2, Es; [done |].
    by rewrite fmap_app.
Qed.

Lemma fill_ind_table_ret size n rings host tbl :
  0 < n < 65536 -> 0 <= size -> rings_cover n rings -> Z.of_nat (length host) = size -> Z.of_nat (length tbl) = size ->
  fill_ind_table (Z.to_nat size) 0 n rings (Some host) (Some tbl) = Ret (Some (spread n size), Some (sq_idx_of rings <$> spread n size)).
Proof. intros Hn Hs Hc L1 L2. rewrite (fill_ind_table_eq _ _ _ _ host tbl) by (done || lia). by rewrite Z2Nat.id, Z.add_0_l by lia. Qed.

(** How many of the first [size] entries name queue [q]. *)
Definition share (q : Z) (l : list Z) : Z := Z.of_nat (length (filter (fun t => t = q) l)).

Lemma div_succ n t : 0 < n -> (t + 1) / n = t / n + (if (t + 1) mod n =? 0 then 1 else 0).
Proof.
  intros Hn. pose proof (Z.div_mod t n). pose proof (Z.mod_pos_bound t n Hn).
  destruct (Z.eq_dec (t mod n) (n - 1)) as [E | E].
  - assert (t + 1 = (t / n + 1) * n) as -> by lia. rewrite Z.mod_mul, Z.div_mul by lia. simpl. lia.
  - rewrite <- (Z.mod_unique (t + 1) n (t / n) (t mod n + 1)), <- (Z.div_unique (t + 1) n (t / n) (t mod n + 1)) by lia.
    destruct (Z.eqb_spec (t mod n + 1) 0); lia.
Qed.

Lemma share_spread n q m : 0 <= q < n -> share q (spread n (Z.of_nat m)) = (Z.of_nat m + n - 1 - q) / n.
Proof.
  intros Hq. induction m as [| m IH].
  - rewrite Z.div_small by lia. reflexivity.
  - rewrite Nat2Z.inj_succ, <- Z.add_1_r, spread_app by lia. unfold share in *. rewrite filter_app, length_app, Nat2Z.inj_add, IH.
    replace (Z.of_nat m + 1 + n - 1 - q) with ((Z.of_nat m + n - 1 - q) + 1) by lia. rewrite div_succ by lia. f_equal.
    rewrite (seqZ_cons _ 1), (seqZ_nil _ (Z.pred 1)) by lia. cbn [fmap list_fmap].
    replace (Z.of_nat m + n - 1 - q + 1) with (Z.of_nat m - q + 1 * n) by lia. rewrite Z.mod_add by lia.
    rewrite filter_cons, filter_nil. pose proof (Z.div_mod (Z.of_nat m) n). pose proof (Z.mod_pos_bound (Z.of_nat m) n).
    destruct (decide _) as [E | E], (Z.eqb_spec ((Z.of_nat m - q) mod n) 0) as [E' | E']; try done; exfalso.
    + apply E'. replace (Z.of_nat m - q) with (Z.of_nat m / n * n) by lia. apply Z.mod_mul. lia.
    + apply E. apply Z.mod_divide in E' as [c Ec]; [| lia]. symmetry. apply (Z.mod_unique _ _ c); lia.
Qed.

(** C33: Round robin.  Filling a table of [size] entries for [n] queues writes exactly
    [i mod n] into host entry [i] and the submission queue index of that queue's ring into
    the device entry, for every [i], without touching memory outside the tables.  The
    spread is even: every queue has size/n entries, rounded down or up, so that every
    queue gets traffic as soon as the table has as many entries as there are queues. *)
Theorem ind_table_round_robin n size rings host tbl :
  0 < n < 65536 -> rings_cover n rings -> 0 <= size -> Z.of_nat (length host) = size -> Z.of_nat (length tbl) = size ->
  wp (fill_ind_table (Z.to_nat size) 0 n rings (Some host) (Some tbl)) (fun '(host', tbl') => exists hl,
    host' = Some hl /\ tbl' = Some (sq_idx_of rings <$> hl)
    /\ Z.of_nat (length hl) = size
    /\ (forall i, 0 <= i < size -> hl !! Z.to_nat i = Some (i mod n))
    /\ (forall q, 0 <= q < n -> size / n <= share q hl <= size / n + 1 /\ (n <= size -> 0 < share q hl))).
Proof.
  intros Hn Hc Hs L1 L2. rewrite (fill_ind_table_ret size n) by done. exists (spread n size).
  split_and!; [done.. | unfold spread; rewrite length_fmap, length_seqZ; lia | |].
  - intros i Hi. unfold spread. rewrite list_lookup_fmap, lookup_seqZ_lt by lia. cbn. by rewrite Z2Nat.id by lia.
  - intros q Hq. pose proof (share_spread n q (Z.to_nat size) Hq) as Hsh. rewrite Z2Nat.id in Hsh by lia. rewrite Hsh.
    assert (size / n <= (size + n - 1 - q) / n) by (apply Z.div_le_mono; lia).
    assert ((size + n - 1 - q) / n <= (size + 1 * n) / n) as Hu by (apply Z.div_le_mono; lia).
    rewrite Z.div_add in Hu by lia. split; [lia |]. intros Hle. apply Z.lt_le_trans with (size / n); [| lia].
    apply Z.div_str_pos. lia.
Qed.

Lemma ind_table_round_robin_witness :
  wp (fill_ind_table 8 0 3 None (Some (replicate 8 0)) (Some (replicate 8 0))) (fun '(host', tbl') =>
    host' = Some [0; 1; 2; 0; 1; 2; 0; 1] /\ exists hl, host' = Some hl /\ share 2 hl <= 8 / 3 + 1).
Proof.
  pose proof (ind_table_round_robin 3 8 None (replicate 8 0) (replicate 8 0) ltac:(lia) I ltac:(lia) eq_refl eq_refl) as Hw.
  change (Z.to_nat 8) with 8%nat in Hw.
  assert (fill_ind_table 8 0 3 None (Some (replicate 8 0)) (Some (replicate 8 0))
    = Ret (Some [0; 1; 2; 0; 1; 2; 0; 1], Some [0; 1; 2; 0; 1; 2; 0; 1])) as E by (vm_compute; reflexivity).
  rewrite E in Hw |- *. destruct Hw as (hl & Eh & _ & _ & _ & Hq). split; [reflexivity |]. exists hl. split; [exact Eh |].
  exact (proj2 (proj1 (Hq 2 ltac:(lia)))).
Defined.

(** ** Memory and commands of the component *)
Definition rss_blocks (s : ena_rss_info) : list Z :=
  option_list (fst <$> host_ind_table s) ++ option_list (fst <$> ind_table s)
  ++ option_list (fst <$> hash_key s) ++ option_list (fst <$> hash_ctrl s).

(** Tables come together, with as many entries as the size says. *)
Record wf_rss (s : ena_rss_info) : Prop := {
  wr_pair : non_null (host_ind_table s) = non_null (ind_table s);
  wr_host : forall b l, host_ind_table s = Some (b, l) -> Z.of_nat (length l) = ind_table_size s;
  wr_tbl : forall b l, ind_table s = Some (b, l) -> Z.of_nat (length l) = ind_table_size s;
  wr_size : non_null (ind_table s) = true -> exists j, 1 <= j <= 14 /\ ind_table_size s = 2 ^ j;
  wr_alone : non_null (ind_table s) = false -> hash_key s = None /\ hash_ctrl s = None
}.

(** What a successful configuration for [n] queues leaves: the round-robin tables,
    and the default key and hash input where the device has the feature. *)
Record rss_set (n : Z) (a : ena_adapter) (s : ena_rss_info) : Prop := {
  rc_enabled : rss_enabled s = true;
  rc_host : snd <$> host_ind_table s = Some (spread n (ind_table_size s));
  rc_tbl : snd <$> ind_table s = Some (sq_idx_of (rx_rings (ad_io a)) <$> spread n (ind_table_size s));
  rc_key : has_feature a ENA_ADMIN_RSS_HASH_FUNCTION = true -> snd <$> hash_key s = Some (hash_key_buf default_toeplitz_key);
  rc_ctrl : has_feature a ENA_ADMIN_RSS_HASH_INPUT = true -> exists buf, hash_ctrl_buf = Ret buf /\ snd <$> hash_ctrl s = Some buf
}.

(** The requests are well-formed. *)
Lemma feat_req_ok len phys id payload :
  is_byte id -> Forall is_byte payload -> (length payload <= 44)%nat -> req_ok (Some (ctrl_buff len phys ++ feat_common id ++ payload)).
Proof.
  intros Hid Hp Hl r Er. apply (inj Some) in Er as <-. unfold ctrl_buff. split; [| left; simpl; lia].
  rewrite !Forall_app. split_and!; [apply le_bytes_byte | apply mem_addr_byte | unfold feat_common; byte_list | done].
Qed.

Lemma rss_limits_req_ok : req_ok (Some rss_limits_req).
Proof. apply feat_req_ok; [done | byte_list | simpl; lia]. Qed.
Lemma hash_key_req_ok phys : req_ok (Some (hash_key_req phys)).
Proof. apply feat_req_ok; [done | byte_list | simpl; lia]. Qed.
Lemma hash_ctrl_req_ok phys : req_ok (Some (hash_ctrl_req phys)).
Proof. apply feat_req_ok; [done | byte_list | simpl; lia]. Qed.
Lemma ind_table_req_ok size phys : req_ok (Some (ind_table_req size phys)).
Proof. apply feat_req_ok; [done | byte_list | simpl; lia]. Qed.
#[local] Hint Resolve rss_limits_req_ok hash_key_req_ok hash_ctrl_req_ok ind_table_req_ok : ena.

Section Rules.
Context {D : Type} `{AdminExecOk D}.
Implicit Types w : world D.

(** The world is [w0] but for the RSS state, now [s], and the blocks [ps] allocated
    on top of the heap [h0]. *)
Definition rss_at (k : nat) (qs : gset Z * gset Z) (h0 : heap) (w0 : world D) (s : ena_rss_info) (ps : list Z)
    (w : world D) : Prop :=
  exists h, moved k qs (set_w_heap h (upd (set_rss_info s) w0)) w /\ owned h0 h ps.

Lemma rss_at_less j k qs h0 w0 s ps w : (j <= k)%nat -> rss_at k qs h0 w0 s ps w -> rss_at j qs h0 w0 s ps w.
Proof. intros Hj (h & Hm & Ho). exists h. split; [by apply (moved_less _ k) | done]. Qed.

Lemma rss_at_perm k qs h0 w0 s ps ps' w : ps' ≡ₚ ps -> rss_at k qs h0 w0 s ps w -> rss_at k qs h0 w0 s ps' w.
Proof. intros Hp (h & Hm & Ho). exists h. split; [done |]. by apply (owned_perm _ _ ps). Qed.

Lemma rss_at_ad k qs h0 w0 s ps w (Q : ena_adapter -> world D -> Prop) :
  rss_at k qs h0 w0 s ps w ->
  (forall a, rss_info a = s -> ad_io a = ad_io (w_adapter w0) -> ad_attr a = ad_attr (w_adapter w0) -> Q a w) -> wpm get_ad Q w.
Proof. intros (h & Hm & _) HQ. apply wpm_get_ad. pose proof (moved_ad _ _ _ _ Hm) as ->. by apply HQ. Qed.

Lemma rss_at_get k qs h0 w0 s ps w (Q : ena_rss_info -> world D -> Prop) :
  rss_at k qs h0 w0 s ps w -> Q s w -> wpm get_rss Q w.
Proof. intros Ha HQ. apply wpm_bind. eapply rss_at_ad; [exact Ha |]. intros a <- _ _. by apply wpm_ret. Qed.

Lemma rss_at_mod f k qs h0 w0 s ps w (Q : unit -> world D -> Prop) :
  rss_at k qs h0 w0 s ps w -> (forall w', rss_at k qs h0 w0 (f s) ps w' -> Q tt w') -> wpm (mod_rss f) Q w.
Proof.
  intros (h & Hm & Ho) HQ. eapply wpm_moved_mod; [exact Hm | |].
  - split; [by intros ?? [] |]. intros a. by split_and!.
  - intros w' Hm'. apply HQ. exists h. split; [| done]. exact Hm'.
Qed.

Lemma rss_at_alloc k qs h0 w0 s ps w (Q : option (Z * Z) -> world D -> Prop) :
  rss_at k qs h0 w0 s ps w ->
  (forall w', rss_at k qs h0 w0 s ps w' -> Q None w') ->
  (forall b phys w', rss_at k qs h0 w0 s (b :: ps) w' -> Q (Some (b, phys)) w') -> wpm dma_alloc Q w.
Proof.
  intros (h & Hm & Ho) HN HS. unfold wpm, dma_alloc. rewrite (moved_heap _ _ _ _ Hm). wsimpl.
  destruct (ena_dma_alloc h) as [[[b phys] |] h'] eqn:E; pose proof (owned_dma_alloc _ _ _ _ _ Ho E) as Ho'; cbn.
  - apply HS. exists h'. split; [| exact Ho']. exact (moved_set_heap _ _ _ _ h' Hm).
  - apply HN. exists h'. split; [| exact Ho']. exact (moved_set_heap _ _ _ _ h' Hm).
Qed.

Lemma rss_at_calloc k qs h0 w0 s ps w (Q : option Z -> world D -> Prop) :
  rss_at k qs h0 w0 s ps w ->
  (forall w', rss_at k qs h0 w0 s ps w' -> Q None w') ->
  (forall b w', rss_at k qs h0 w0 s (b :: ps) w' -> Q (Some b) w') -> wpm calloc Q w.
Proof.
  intros Ha HN HS. pose proof (rss_at_alloc k qs h0 w0 s ps w (fun p w' => Q (option_map fst p) w') Ha HN (fun b phys w' => HS b w')) as Hw.
  unfold wpm, dma_alloc, ena_dma_alloc, calloc in *. by destruct (heap_alloc (w_heap w)) as [[] ?].
Qed.

Lemma rss_at_free p k qs h0 w0 s ps ps' w (Q : unit -> world D -> Prop) :
  rss_at k qs h0 w0 s ps w -> ps ≡ₚ p :: ps' -> (forall w', rss_at k qs h0 w0 s ps' w' -> Q tt w') -> wpm (free (Some p)) Q w.
Proof.
  intros (h & Hm & Ho) Hp HQ. unfold wpm, free. rewrite (moved_heap _ _ _ _ Hm). wsimpl.
  pose proof (owned_free _ _ _ _ _ Ho Hp) as Hf. destruct (heap_free h (Some p)) as [h' | |]; [| done..]. cbn in *.
  apply HQ. exists h'. split; [| exact Hf]. exact (moved_set_heap _ _ _ _ h' Hm).
Qed.

Lemma rss_at_exec opcode req cap k qs h0 w0 s ps w (Q : Z * list Z -> world D -> Prop) :
  rss_at (S k) qs h0 w0 s ps w -> feature_op opcode -> req_ok (Some req) ->
  (forall ret resp w', rss_at k qs h0 w0 s ps w' -> ret <= 0 ->
     (ret = 0 -> Z.of_nat (length resp) = resp_len cap /\ Forall is_byte resp) -> Q (ret, resp) w') ->
  wpm (ena_rss_exec opcode req cap) Q w.
Proof.
  intros (h & Hm & Ho) Hop Hreq HQ. apply wpm_bind. eapply wpm_feature; [done.. | by vm_compute |].
  intros ret out resp w' Hm' Hret Hr. apply wpm_ret, HQ; [by exists h | done..].
Qed.

(** ** The operations *)

Lemma release_rule (t : option (Z * list Z)) f k qs h0 w0 s ps w (Q : unit -> world D -> Prop) :
  rss_at k qs h0 w0 s (option_list (fst <$> t) ++ ps) w ->
  (forall w', rss_at k qs h0 w0 (if non_null t then f s else s) ps w' -> Q tt w') ->
  wpm (if non_null t then free (fst <$> t);; mod_rss f else mret tt) Q w.
Proof.
  intros Ha HQ. destruct t as [[b l] |]; cbn [non_null] in *; [| by apply wpm_ret, HQ].
  apply wpm_bind. eapply (rss_at_free b); [exact Ha | cbn; reflexivity |]. intros w1 H1. by eapply rss_at_mod.
Qed.

Lemma rss_fini_rule k qs h0 w0 s w (Q : unit -> world D -> Prop) :
  rss_at k qs h0 w0 s (rss_blocks s) w ->
  (forall s' w', wf_rss s' -> rss_blocks s' = [] -> rss_supported s' = false -> rss_enabled s' = false ->
     rss_at k qs h0 w0 s' [] w' -> Q tt w') ->
  wpm ena_rss_fini Q w.
Proof.
  intros Ha HQ. apply wpm_bind. eapply rss_at_get; [exact Ha |].
  apply wpm_bind. eapply release_rule; [exact Ha |]. intros w1 H1.
  apply wpm_bind. eapply release_rule; [exact H1 |]. intros w2 H2.
  apply wpm_bind. eapply release_rule; [exact H2 |]. intros w3 H3.
  apply wpm_bind. eapply (release_rule (hash_ctrl s)); [rewrite app_nil_r; exact H3 |]. intros w4 H4.
  eapply rss_at_mod; [exact H4 |]. intros w5. destruct s as [sup en size [[] |] [[] |] tphys [[] |] kphys [[] |] cphys];
    intros H5; refine (HQ _ _ _ _ _ _ H5); done || (split; done).
Qed.

Lemma wf_rss_tables hb tb l j s :
  host_ind_table s = Some (hb, l) -> ind_table s = Some (tb, l) -> ind_table_size s = 2 ^ j -> 1 <= j <= 14 ->
  Z.of_nat (length l) = 2 ^ j -> wf_rss s.
Proof.
  intros E1 E2 E3 Hj El. split; rewrite ?E1, ?E2, ?E3; try done; [by intros ?? [= _ <-].. | intros _; by exists j].
Qed.

Lemma rss_query_rule k qs h0 w0 s ps w (Q : unit -> world D -> Prop) :
  rss_at (S k) qs h0 w0 s ps w -> 0 <= num_rx_rings (ad_io (w_adapter w0)) < 65536 -> ind_table_size s = 2 ^ 7 ->
  (forall j w', 1 <= j <= 14 -> rss_at k qs h0 w0 (set_ind_table_size (2 ^ j) s) ps w' -> Q tt w') ->
  wpm ena_rss_query_ind_table_limits Q w.
Proof.
  intros Ha Hn Hs HQ.
  assert (forall j w', (k <= j)%nat -> rss_at j qs h0 w0 s ps w' -> Q tt w') as Hkeep.
  { intros j w' Hj Ha'. apply (HQ 7); [lia |]. rewrite <- Hs. replace (set_ind_table_size _ s) with s by (by destruct s).
    by apply (rss_at_less _ j). }
  apply wpm_bind. eapply rss_at_ad; [exact Ha |]. intros a _ Eio _. rewrite Eio. cbv zeta.
  destruct (Z.ltb_spec (num_rx_rings (ad_io (w_adapter w0))) 2); [apply wpm_ret, (Hkeep (S k)); [lia | done] |].
  apply wpm_bind. eapply rss_at_exec; [exact Ha | by left | auto with ena |].
  intros ret resp w' Ha' _ Hr. unfold z2b. destruct (Z.eqb_spec ret 0) as [-> |]; cbn [negb]; [| by apply wpm_ret, (Hkeep k)].
  destruct (Hr eq_refl) as [_ Hb]. pose proof (le_get_nonneg 2 0 resp Hb).
  destruct (Z.eqb_spec (le_get 2 0 resp) 0); [by apply wpm_ret, (Hkeep k) |].
  destruct (Z.ltb_spec (le_get 2 2 resp) (le_get 2 0 resp)); [by apply wpm_ret, (Hkeep k) |]. cbn [orb].
  destruct (ind_table_size_pow2 (num_rx_rings (ad_io (w_adapter w0))) (le_get 2 0 resp) (le_get 2 2 resp)) as (j & Hj & -> & _); [lia.. |].
  eapply rss_at_mod; [exact Ha' |]. intros w2 Ha2. by apply (HQ j).
Qed.

(** One of the two optional buffers. *)
Lemma rss_buffer_rule (want : bool) (none : ena_rss_info -> ena_rss_info) (some : Z -> Z -> ena_rss_info -> ena_rss_info)
    k qs h0 w0 s w (Q : Z -> world D -> Prop) :
  rss_at k qs h0 w0 s (rss_blocks s) w -> none s = s ->
  (forall b phys, rss_blocks (some b phys s) ≡ₚ b :: rss_blocks s) ->
  (forall s' w', s' = s \/ (exists b phys, s' = some b phys s) -> rss_at k qs h0 w0 s' (rss_blocks s') w' -> Q 0 w') ->
  (forall s' w', wf_rss s' -> rss_at k qs h0 w0 s' (rss_blocks s') w' -> Q (- ENOMEM) w') ->
  wpm (if want then
         p ← dma_alloc;
         match p with
         | None => mod_rss none;; ena_rss_fini;; mret (- ENOMEM)
         | Some (base, phys) => mod_rss (some base phys);; mret 0
         end
       else mret 0) Q w.
Proof.
  intros Ha En Eb HQ Hf. destruct want; [| apply wpm_ret; apply (HQ s); [by left | done]].
  apply wpm_bind. eapply rss_at_alloc; [exact Ha | |].
  - intros w1 Hw1. apply wpm_bind. eapply rss_at_mod; [exact Hw1 |]. rewrite En. intros w2 Hw2.
    apply wpm_bind. eapply rss_fini_rule; [exact Hw2 |]. intros s' w3 Hwf E _ _ Hw3. apply wpm_ret, (Hf s'); [done |]. by rewrite E.
  - intros b phys w1 Hw1. apply wpm_bind. eapply rss_at_mod; [exact Hw1 |]. intros w2 Hw2. apply wpm_ret.
    apply (HQ (some b phys s)); [right; by exists b, phys |]. by eapply rss_at_perm; [apply Eb |].
Qed.

Lemma rss_init_rule k qs h0 w0 s w (Q : Z -> world D -> Prop) :
  rss_at (S k) qs h0 w0 s (rss_blocks s) w -> 0 <= num_rx_rings (ad_io (w_adapter w0)) < 65536 -> wf_rss s ->
  (forall s' w', wf_rss s' -> non_null (ind_table s') = true -> rss_at k qs h0 w0 s' (rss_blocks s') w' -> Q 0 w') ->
  (forall ret s' w', ret < 0 -> wf_rss s' -> rss_at k qs h0 w0 s' (rss_blocks s') w' -> Q ret w') ->
  wpm ena_rss_init Q w.
Proof.
  intros Ha Hn Hwf HQ Hf. apply wpm_bind. eapply rss_at_ad; [exact Ha |]. intros a Es Eio Eat.
  destruct (has_feature a _); cbn [negb]; [| apply wpm_ret, (Hf _ s); [done.. | by apply (rss_at_less _ (S k)); [lia |]]].
  rewrite Es. destruct (non_null (ind_table s)) eqn:Et.
  { rewrite (wr_pair _ Hwf), Et. cbn [andb]. apply wpm_ret, (HQ s); [done.. | by apply (rss_at_less _ (S k)); [lia |]]. }
  rewrite andb_false_r. pose proof (wr_pair _ Hwf) as Eh. rewrite Et in Eh. destruct (wr_alone _ Hwf Et) as [Ek Ec].
  destruct s as [sup en size [] [] tphys key kphys ctrl cphys]; try done. cbn in Ek, Ec. subst key ctrl. clear Hwf Et Eh Es Eio Eat a.
  apply wpm_bind. eapply rss_at_mod; [exact Ha |]. intros w1 Hw1.
  apply wpm_bind. eapply rss_query_rule; [exact Hw1 | done | done |]. intros j w2 Hj Hw2.
  change (rss_at k qs h0 w0 (mkRssInfo sup en (2 ^ j) None None tphys None kphys None cphys) [] w2) in Hw2.
  assert (0 <= 2 ^ j) by (apply Z.pow_nonneg; lia). assert (Z.of_nat (length (replicate (Z.to_nat (2 ^ j)) 0)) = 2 ^ j) as El
    by (rewrite length_replicate; lia).
  apply wpm_bind. eapply rss_at_get; [exact Hw2 |]. cbn [ind_table_size]. cbv zeta.
  generalize dependent (replicate (Z.to_nat (2 ^ j)) 0). intros zeros El.
  apply wpm_bind. eapply rss_at_calloc; [exact Hw2 | |].
  { intros w3 Hw3. apply wpm_bind. eapply rss_at_mod; [exact Hw3 |]. intros w4 Hw4. cbn [non_null negb]. apply wpm_ret.
    refine (Hf _ _ _ _ _ Hw4); [done | by split]. }
  intros hb w3 Hw3. apply wpm_bind. eapply rss_at_mod; [exact Hw3 |]. intros w4 Hw4. cbn [non_null negb]. cbn in Hw4.
  apply wpm_bind. eapply rss_at_alloc; [exact Hw4 | |].
  { intros w5 Hw5. apply wpm_bind. eapply rss_at_mod; [exact Hw5 |]. intros w6 Hw6. apply wpm_bind. eapply rss_at_free; [exact Hw6 | done |].
    intros w7 Hw7. apply wpm_bind. eapply rss_at_mod; [exact Hw7 |]. intros w8 Hw8. apply wpm_ret.
    refine (Hf _ _ _ _ _ Hw8); [done | by split]. }
  intros tb tph w5 Hw5. apply wpm_bind. eapply rss_at_mod; [exact Hw5 |]. intros w6 Hw6. cbn in Hw6.
  apply (rss_at_perm _ _ _ _ _ _ [hb; tb]) in Hw6; [| apply Permutation_swap].
  apply wpm_bind, wpm_get_ad. apply wpm_step.
  apply (rss_buffer_rule _ _ (fun b phys s => set_hash_key_phys phys (set_hash_key (Some (b, replicate 48 0)) s)) _ _ _ _ _ _ _ Hw6);
    [done | intros; apply (Permutation_app_comm [hb; tb] [_]) | | intros s' w' Hwf' H'; by apply failed, (Hf _ s')].
  intros s1 w7 Hs1 Hw7. simpl Z.eqb. cbv iota. apply wpm_step.
  apply (rss_buffer_rule _ _ (fun b phys s => set_hash_ctrl_phys phys (set_hash_ctrl (Some (b, replicate 256 0)) s)) _ _ _ _ _ _ _ Hw7);
    [by destruct Hs1 as [-> | (? & ? & ->)] | | | intros s' w' Hwf' H'; by apply failed, (Hf _ s')].
  { intros b phys. destruct Hs1 as [-> | (kb & ? & ->)]; cbn;
      [apply (Permutation_app_comm [hb; tb] [b]) | apply (Permutation_app_comm [hb; tb; kb] [b])]. }
  intros s2 w8 Hs2 Hw8. simpl Z.eqb. cbv iota. apply wpm_bind. eapply rss_at_mod; [exact Hw8 |]. intros w9 Hw9. apply wpm_ret.
  assert (host_ind_table s2 = Some (hb, zeros) /\ ind_table s2 = Some (tb, zeros) /\ ind_table_size s2 = 2 ^ j) as (E1 & E2 & E3)
    by (destruct Hs1 as [-> | (kb & kph & ->)], Hs2 as [-> | (cb & cph & ->)]; split_and!; reflexivity).
  apply (HQ (set_rss_supported true s2)); [by apply (wf_rss_tables hb tb zeros j) | by cbn; rewrite E2 | exact Hw9].
Qed.

(** The tables are there, and the blocks of the state are all it owns. *)
Definition rss_ready (k : nat) (qs : gset Z * gset Z) (h0 : heap) (w0 : world D) (s : ena_rss_info) (w : world D) : Prop :=
  wf_rss s /\ non_null (ind_table s) = true /\ rss_at k qs h0 w0 s (rss_blocks s) w.

Lemma rss_ready_less j k qs h0 w0 s w : (j <= k)%nat -> rss_ready k qs h0 w0 s w -> rss_ready j qs h0 w0 s w.
Proof. intros Hj (? & ? & ?). split_and!; [done.. |]. by apply (rss_at_less _ k). Qed.

(** Storing into a buffer, then a command on it. *)
Lemma rss_store_rule (f : ena_rss_info -> ena_rss_info) req k qs h0 w0 s w (Q : Z -> world D -> Prop) :
  rss_ready (S k) qs h0 w0 s w -> wf_rss (f s) -> non_null (ind_table (f s)) = true -> rss_blocks (f s) = rss_blocks s ->
  req_ok (Some req) ->
  (forall ret w', ret <= 0 -> rss_ready k qs h0 w0 (f s) w' -> Q ret w') ->
  wpm (mod_rss f;; '(ret, _) ← ena_rss_exec ENA_ADMIN_SET_FEATURE req 0; if z2b ret then mret ret else mret 0) Q w.
Proof.
  intros (_ & _ & Ha) Hwf Hn Eb Hreq HQ. apply wpm_bind. eapply rss_at_mod; [exact Ha |]. intros w1 Ha1.
  apply wpm_bind. eapply rss_at_exec; [exact Ha1 | by right; left | done |]. intros ret resp w2 Ha2 Hret _.
  unfold z2b. destruct (Z.eqb_spec ret 0) as [-> |]; apply wpm_ret, HQ; try done; split_and!; try done; by rewrite Eb.
Qed.

Lemma set_hash_key_rule k qs h0 w0 s w (Q : Z -> world D -> Prop) :
  rss_ready (S k) qs h0 w0 s w ->
  (forall ret s' w', ret < 0 -> rss_ready k qs h0 w0 s' w' -> Q ret w') ->
  (forall b ret w', ret <= 0 -> rss_ready k qs h0 w0 (set_hash_key (Some (b, hash_key_buf default_toeplitz_key)) s) w' -> Q ret w') ->
  wpm (ena_rss_set_hash_key None) Q w.
Proof.
  intros Hr HF HQ. pose proof Hr as ([] & Ht & Ha). apply wpm_bind. eapply rss_at_get; [exact Ha |].
  destruct (hash_key s) as [[b l] |] eqn:E; [| apply wpm_ret, (HF _ s); [done | by apply (rss_ready_less _ (S k)); [lia |]]].
  eapply rss_store_rule; [exact Hr | | done | | auto with ena | by apply HQ].
  - split; try done. cbn. by rewrite Ht.
  - unfold rss_blocks. cbn. by rewrite E.
Qed.

Lemma hash_ctrl_buf_ret : exists buf, hash_ctrl_buf = Ret buf.
Proof. eexists. vm_compute. reflexivity. Qed.

Lemma set_hash_ctrl_rule k qs h0 w0 s w (Q : Z -> world D -> Prop) :
  rss_ready (S k) qs h0 w0 s w ->
  (forall ret s' w', ret < 0 -> rss_ready k qs h0 w0 s' w' -> Q ret w') ->
  (forall b buf ret w', hash_ctrl_buf = Ret buf -> ret <= 0 -> rss_ready k qs h0 w0 (set_hash_ctrl (Some (b, buf)) s) w' -> Q ret w') ->
  wpm ena_rss_set_hash_ctrl Q w.
Proof.
  intros Hr HF HQ. pose proof Hr as ([] & Ht & Ha). apply wpm_bind. eapply rss_at_get; [exact Ha |].
  destruct (hash_ctrl s) as [[b l] |] eqn:E; [| apply wpm_ret, (HF _ s); [done | by apply (rss_ready_less _ (S k)); [lia |]]].
  destruct hash_ctrl_buf_ret as [buf Eb]. apply wpm_bind. eapply wpm_lift; [exact Eb |].
  eapply rss_store_rule; [exact Hr | | done | | auto with ena | intros; by apply (HQ b buf)].
  - split; try done. cbn. by rewrite Ht.
  - unfold rss_blocks. cbn. by rewrite E.
Qed.

Lemma set_ind_table_rule n k qs h0 w0 s w (Q : Z -> world D -> Prop) :
  rss_ready (S k) qs h0 w0 s w -> 0 < n < 65536 -> rings_cover n (rx_rings (ad_io (w_adapter w0))) ->
  (forall hb tb ret w', ret <= 0 ->
     rss_ready k qs h0 w0 (set_ind_table (Some (tb, sq_idx_of (rx_rings (ad_io (w_adapter w0))) <$> spread n (ind_table_size s)))
       (set_host_ind_table (Some (hb, spread n (ind_table_size s))) s)) w' -> Q ret w') ->
  wpm (ena_rss_set_ind_table n) Q w.
Proof.
  intros Hr Hn Hc HQ. pose proof Hr as (Hwf & Ht & Ha). destruct (wr_size _ Hwf Ht) as (j & Hj & Es).
  assert (0 < ind_table_size s) as Hpos by (rewrite Es; apply Z.pow_pos_nonneg; lia).
  unfold ena_rss_set_ind_table. destruct (Z.eqb_spec n 0); [lia |].
  apply wpm_bind. eapply rss_at_ad; [exact Ha |]. intros a Ea Eio _. rewrite Ea, Eio. cbv zeta.
  pose proof (wr_pair _ Hwf) as Ep. destruct (ind_table s) as [[tb tl] |] eqn:E1; [| done].
  destruct (host_ind_table s) as [[hb hl] |] eqn:E2; [| done]. destruct (Z.eqb_spec (ind_table_size s) 0); [lia |].
  apply wpm_bind. eapply wpm_lift; [apply fill_ind_table_ret; [done | lia | done | by eapply wr_host | by eapply wr_tbl] |].
  assert (Z.of_nat (length (spread n (ind_table_size s))) = ind_table_size s) as El by (unfold spread; rewrite length_fmap, length_seqZ; lia).
  eapply rss_store_rule; [exact Hr | | done | | auto with ena | by apply HQ].
  - split; cbn; try done; [by intros ?? [= _ <-] | by intros ?? [= _ <-]; rewrite length_fmap | by exists j].
  - unfold rss_blocks. cbn. by rewrite E1, E2.
Qed.

Lemma readback_entries_ret size l : 0 < size -> Z.of_nat (length l) = size -> wp (readback_entries size (Some l)) (fun _ => True).
Proof.
  intros Hs Hl. unfold readback_entries. cbv zeta. destruct (Z.ltb_spec 0 size); [| lia].
  apply wp_bind, wp_aget; [lia |]. intros e0 _. destruct (Z.ltb_spec 1 size).
  - apply wp_bind, wp_aget; [lia |]. intros e1 _. destruct (Z.ltb_spec 0 (size - 1)); [| lia].
    apply wp_bind, wp_aget; [lia |]. intros e2 _. apply wp_bind, wp_aget; [lia |]. intros e3 _. by apply wp_ret.
  - apply wp_bind, wp_ret, wp_bind, wp_ret. apply wp_bind, wp_aget; [lia |]. intros e3 _. by apply wp_ret.
Qed.

Lemma readback_rule k qs h0 w0 s w (Q : unit -> world D -> Prop) :
  rss_ready (S k) qs h0 w0 s w -> (forall w', rss_ready k qs h0 w0 s w' -> Q tt w') -> wpm ena_rss_readback_ind_table Q w.
Proof.
  intros Hr HQ. pose proof Hr as (Hwf & Ht & Ha). destruct (wr_size _ Hwf Ht) as (j & Hj & Es).
  assert (0 < ind_table_size s) as Hpos by (rewrite Es; apply Z.pow_pos_nonneg; lia).
  apply wpm_bind. eapply rss_at_get; [exact Ha |]. rewrite Ht. cbn [negb orb]. destruct (Z.eqb_spec (ind_table_size s) 0); [lia |].
  apply wpm_bind. eapply rss_at_exec; [exact Ha | by left | auto with ena |]. intros ret resp w2 Ha2 _ _.
  destruct (z2b ret); [apply wpm_ret, HQ; by split_and! |]. apply wpm_bind. eapply rss_at_get; [exact Ha2 |].
  pose proof (wr_tbl _ Hwf) as Hl. destruct (ind_table s) as [[tb tl] |] eqn:Et; [| done].
  pose proof (readback_entries_ret _ tl Hpos (Hl _ _ eq_refl)) as Hrb. cbn [fmap option_fmap option_map snd].
  destruct (readback_entries _ _) as [e | |] eqn:E; [| done..]. apply wpm_bind. eapply wpm_lift; [reflexivity |].
  apply wpm_ret, HQ. split_and!; [done | by rewrite Et | done].
Qed.

Lemma key_step (feat : bool) k qs h0 w0 s w (Q : Z -> world D -> Prop) :
  rss_ready (S k) qs h0 w0 s w ->
  (forall ret s' w', ret < 0 -> rss_ready k qs h0 w0 s' w' -> Q ret w') ->
  (forall s' w', rss_ready k qs h0 w0 s' w' -> (feat = true -> snd <$> hash_key s' = Some (hash_key_buf default_toeplitz_key)) -> Q 0 w') ->
  wpm (if feat then ena_rss_set_hash_key None else mret 0) Q w.
Proof.
  intros Hr HF HQ. destruct feat; [| apply wpm_ret, (HQ s); [by apply (rss_ready_less _ (S k)); [lia |] | done]].
  eapply set_hash_key_rule; [exact Hr | exact HF |]. intros b ret w' Hret Hr'.
  destruct (Z.eq_dec ret 0) as [-> |]; [by eapply HQ | by eapply HF; [lia |]].
Qed.

Lemma ctrl_step (feat : bool) k qs h0 w0 s w (Q : Z -> world D -> Prop) :
  rss_ready (S k) qs h0 w0 s w ->
  (forall ret s' w', ret < 0 -> rss_ready k qs h0 w0 s' w' -> Q ret w') ->
  (forall s' w', rss_ready k qs h0 w0 s' w' -> hash_key s' = hash_key s ->
     (feat = true -> exists buf, hash_ctrl_buf = Ret buf /\ snd <$> hash_ctrl s' = Some buf) -> Q 0 w') ->
  wpm (if feat then ena_rss_set_hash_ctrl else mret 0) Q w.
Proof.
  intros Hr HF HQ. destruct feat; [| apply wpm_ret, (HQ s); [by apply (rss_ready_less _ (S k)); [lia |] | done..]].
  eapply set_hash_ctrl_rule; [exact Hr | exact HF |]. intros b buf ret w' Eb Hret Hr'.
  destruct (Z.eq_dec ret 0) as [-> |]; [eapply HQ; [exact Hr' | done | intros _; by exists buf] | by eapply HF; [lia |]].
Qed.

Lemma rss_configure_spec n k qs h0 w :
  ax_ok (5 + k) qs w -> 0 < n < 65536 -> rings_cover n (rx_rings (ad_io (w_adapter w))) ->
  0 <= num_rx_rings (ad_io (w_adapter w)) < 65536 ->
  wf_rss (rss_info (w_adapter w)) -> owned h0 (w_heap w) (rss_blocks (rss_info (w_adapter w))) ->
  wpm (ena_rss_configure n) (fun ret w' => exists s,
    wf_rss s /\ rss_at k qs h0 w s (rss_blocks s) w'
    /\ if ret =? 0 then rss_set n (w_adapter w) s else ret < 0) w.
Proof.
  intros Hok Hn Hc Hrx Hwf Ho. set (Q := fun ret w' => _).
  assert (forall j ret s w', (k <= j)%nat -> ret < 0 -> wf_rss s -> rss_at j qs h0 w s (rss_blocks s) w' -> Q ret w') as HF.
  { intros j ret s w' Hj Hret Hs Ha. exists s. split; [done |]. split; [by apply (rss_at_less _ j) | by apply failed]. }
  assert (rss_at (5 + k) qs h0 w (rss_info (w_adapter w)) (rss_blocks (rss_info (w_adapter w))) w) as Ha0.
  { exists (w_heap w). split; [| done]. replace (set_w_heap _ _) with w by (by destruct w as [? [] ? ? ? ?]). by apply moved_start. }
  unfold ena_rss_configure. destruct (Z.eqb_spec n 0); [lia |].
  apply wpm_step. apply (rss_init_rule (4 + k) qs h0 w _ _ _ Ha0 Hrx Hwf);
    [| intros ret s' w' Hret Hs' Ha'; apply failed; [done |]; by apply (HF (4 + k)%nat ret s'); [lia |..]].
  intros s1 w1 Hwf1 Ht1 Ha1. simpl Z.eqb. cbv iota. apply wpm_bind. eapply rss_at_ad; [exact Ha1 |]. intros a1 _ _ Ea1.
  apply wpm_step. eapply (key_step _ (3 + k)); [by split_and! | |].
  { intros ret s w' Hret (Hs & _ & Ha). apply failed; [done |]. by apply (HF (3 + k)%nat _ s); [lia |..]. }
  intros s2 w2 Hr2 Hk2. simpl Z.eqb. cbv iota. apply wpm_bind. eapply rss_at_ad; [exact (proj2 (proj2 Hr2)) |]. intros a2 _ _ Ea2.
  apply wpm_step. eapply (ctrl_step _ (2 + k)); [exact Hr2 | |].
  { intros ret s w' Hret (Hs & _ & Ha). apply failed; [done |]. by apply (HF (2 + k)%nat _ s); [lia |..]. }
  intros s3 w3 Hr3 Ek3 Hc3. simpl Z.eqb. cbv iota.
  apply wpm_step. eapply (set_ind_table_rule n (1 + k)); [exact Hr3 | done.. |]. intros hb tb ret w4 Hret Hr4.
  destruct (Z.eqb_spec ret 0) as [-> | Hne]; [| destruct Hr4 as (Hs & _ & Ha); eapply (HF (1 + k)%nat); [lia | lia | exact Hs | exact Ha]].
  apply wpm_bind. eapply readback_rule; [exact Hr4 |]. intros w5 (Hwf5 & _ & Ha5).
  apply wpm_bind. eapply rss_at_mod; [exact Ha5 |]. intros w6 Ha6. apply wpm_ret.
  eexists. split; [| split; [exact Ha6 |]]; [destruct Hwf5; by split |]. simpl. split; try done.
  - cbn. rewrite Ek3. unfold has_feature in *. by rewrite <- Ea1.
  - cbn. unfold has_feature in *. by rewrite <- Ea2.
Qed.


(** Configure, then [ena_rss_fini]: whatever the configuration did and returned, the
    heap ends with the live blocks of [h0], no block of the component remains, and RSS is
    neither supported nor enabled. *)
Theorem rss_configure_fini_roundtrip n k qs h0 w :
  ax_ok (5 + k) qs w -> 0 < n < 65536 -> rings_cover n (rx_rings (ad_io (w_adapter w))) ->
  0 <= num_rx_rings (ad_io (w_adapter w)) < 65536 ->
  wf_rss (rss_info (w_adapter w)) -> owned h0 (w_heap w) (rss_blocks (rss_info (w_adapter w))) ->
  wpm (ena_rss_configure n;; ena_rss_fini) (fun _ w' => exists s,
    rss_at k qs h0 w s [] w' /\ wf_rss s /\ rss_blocks s = [] /\ rss_supported s = false /\ rss_enabled s = false
    /\ h_live (w_heap w') = h_live h0) w.
Proof.
  intros. apply wpm_bind. eapply wpm_mono; [by apply (rss_configure_spec n k qs h0 w) |]. intros ret w1 (s & Hwf & Ha & _).
  eapply rss_fini_rule; [exact Ha |]. intros s' w2 Hwf' Eb Es Ee Ha'. exists s'. split_and!; try done.
  destruct Ha' as (h & Hm & Ho). rewrite (moved_heap _ _ _ _ Hm). exact (proj2 (owned_nil _ _ Ho)).
Qed.
End Rules.

(** ** Examples: two RX queues on the device of [Device] *)
Definition ex_rss_world : world ex_dev :=
  set_w_adapter (set_ad_attr (attr_of_resp (pad56 (ex_feature 1)))
    (set_ad_io (mkIo None (Some [Some (example_ring ENA_RING_TYPE_RX 4); Some (example_ring ENA_RING_TYPE_RX 4)]) 0 2 None None)
      (w_adapter ex_started))) ex_started.

Lemma ex_rss_world_ok : ax_ok 100 (∅, ∅) ex_rss_world.
Proof. refine (ex_session_ok ex_rss_world _ _ _ _ _); vm_compute; (reflexivity || discriminate). Qed.

Lemma ex_rss_wf : wf_rss (rss_info (w_adapter ex_rss_world)).
Proof. vm_compute. by split. Qed.

Lemma ex_rss_owned : owned (w_heap ex_rss_world) (w_heap ex_rss_world) (rss_blocks (rss_info (w_adapter ex_rss_world))).
Proof.
  assert (rss_blocks (rss_info (w_adapter ex_rss_world)) = []) as -> by (vm_compute; reflexivity). apply owned_refl.
  assert (forall a (w : world ex_dev), w_heap (set_w_adapter a w) = w_heap w) as E by reflexivity.
  unfold ex_rss_world. rewrite E. exact (ao_heap _ (ar_owned _ _ _ _ _ _ ex_started_ok)).
Qed.

(** It succeeds, with a table of four entries, the least the device has. *)
Lemma ex_rss_result :
  wpm (ena_rss_configure 2) (fun ret w' => ret = 0 /\ snd <$> host_ind_table (rss_info (w_adapter w')) = Some [0; 1; 0; 1]) ex_rss_world.
Proof. vm_compute. split; reflexivity. Qed.


Lemma rss_configure_fini_roundtrip_witness :
  wpm (ena_rss_configure 2;; ena_rss_fini) (fun _ w' => h_live (w_heap w') = h_live (w_heap ex_rss_world)) ex_rss_world.
Proof.
  eapply wpm_mono; [refine (rss_configure_fini_roundtrip 2 95 (∅, ∅) (w_heap ex_rss_world) ex_rss_world ex_rss_world_ok
    _ _ _ ex_rss_wf ex_rss_owned); vm_compute; repeat split; discriminate |].
  intros u w' (s & _ & _ & _ & _ & _ & Hl). exact Hl.
Defined.
