(* ===== verification/Recover.v ===== *)
(** * Recovery from a device reset

    The two entry points of a recovery, an admin command that times out and a
    FATAL_ERROR event, share [ena_adapter_reset_and_recover] (src/ena_admin.c).
    It resets the device and rebuilds what the reset cleared: the admin queues, the
    queues of every IO ring, the features ([ena_init_reapply_device_features] of
    src/ena_init.c) and the receive buffers of queue 0.

    The recovery issues admin commands, and a command that times out calls the
    recovery.  The definitions of this file take the command as the class argument
    [AdminExec]; [recover] at the end ties the knot by a fuel.  Two levels suffice
    because the flag [recover_active] makes the inner recovery return at once. *)

From stdpp Require Import base tactics option list list_numbers numbers sets gmap.
From Stdlib Require Import ZArith Lia.
From S2P Require Import Prelude Fifo Mem Desc Netq Ring Rx Adapter Admin Session Exec Device Control Queue Init Rss.
Open Scope Z_scope.
Open Scope list_scope.

(** ** The rings of the adapter *)
Section Recover.
Context {D : Type} `{EnaDevice D}.

(** [(adapter->tx_rings) ? adapter->tx_rings[q] : NULL]. *)
Definition ring_at (tx : bool) (q : Z) : M D (option ena_ring) := fun w =>
  let l := rings_of tx (ad_io (w_adapter w)) in
  if non_null l then r ← aget l q; Ret (r, w) else Ret (None, w).

Definition num_rings (tx : bool) (io : io_rings) : Z := if tx then num_tx_rings io else num_rx_rings io.

(** A ring operation of another file, run on a ring of the adapter. *)
Definition on_ring {A} (tx : bool) (q : Z) (f : Z -> ena_ring -> res (A * ena_ring * list event)) : M D A := fun w =>
  r ← aget (rings_of tx (ad_io (w_adapter w))) q;
  match r with
  | None => Fault
  | Some r =>
      '(x, r, es) ← f (uk_cpu (w_uk w)) r;
      l ← aset (rings_of tx (ad_io (w_adapter w))) q (Some r);
      Ret (x, set_w_log (w_log w ++ es)
        (set_w_adapter (set_ad_io (set_rings_of tx l (ad_io (w_adapter w))) (w_adapter w)) w))
  end.

(** [ena_rx_refill(ring, count, ring->refill_netbuf, ring->refill_arg, NULL)]: the argument
    of the callback is the RX queue of the same number. *)
Definition refill_queue (q count : Z) : M D Z := fun w =>
  r ← aget (rx_rings (ad_io (w_adapter w))) q;
  s ← aget (Some (rx_queues (w_uk w))) q;
  match r with
  | None => Fault
  | Some r =>
      '(n, r, rxq, nbs, es) ← ena_rx_refill (uk_cpu (w_uk w)) count r (Some (rxs_q s)) (uk_netbufs (w_uk w));
      l ← aset (rx_rings (ad_io (w_adapter w))) q (Some r);
      qs ← aset (Some (rx_queues (w_uk w))) q (set_rxs_q (default (rxs_q s) rxq) s);
      Ret (n, set_w_log (w_log w ++ es) (set_w_uk (set_uk_netbufs nbs (set_rx_queues (default [] qs) (w_uk w)))
        (set_w_adapter (set_ad_io (set_rx_rings l (ad_io (w_adapter w))) (w_adapter w)) w)))
  end.

Definition reset_locked (cpu : Z) (r : ena_ring) : res (unit * ena_ring * list event) :=
  r ← ena_ring_lock r;
  '(r, es) ← ena_ring_reset_sw_state cpu r;
  mret (tt, ena_ring_unlock r, es).

Fixpoint invalidate_rings (tx : bool) (n : nat) (q : Z) : M D unit :=
  match n with
  | O => mret tt
  | S n =>
      r ← ring_at tx q;
      (if non_null r then on_ring tx q reset_locked else mret tt);;
      invalidate_rings tx n (q + 1)
  end.

Definition ena_adapter_invalidate_io_rings : M D unit :=
  a ← get_ad;
  (if non_null (tx_rings (ad_io a)) then invalidate_rings true (Z.to_nat (num_tx_rings (ad_io a))) 0 else mret tt);;
  a ← get_ad;
  (if non_null (rx_rings (ad_io a)) then invalidate_rings false (Z.to_nat (num_rx_rings (ad_io a))) 0 else mret tt).

(** The first ring from [q] on, [n] of them. *)
Fixpoint has_ring (tx : bool) (n : nat) (q : Z) : M D bool :=
  match n with
  | O => mret false
  | S n => r ← ring_at tx q; if non_null r then mret true else has_ring tx n (q + 1)
  end.

Definition ena_adapter_has_io_rings : M D bool :=
  a ← get_ad;
  b ← has_ring true (Z.to_nat (num_tx_rings (ad_io a))) 0;
  if (b : bool) then mret true else has_ring false (Z.to_nat (num_rx_rings (ad_io a))) 0.

Section Commands.
Context `{AdminExec D}.

(** [if (ret == 0) ret = r;] *)
Definition first_error (ret r : Z) : Z := if ret =? 0 then r else ret.

Definition ena_init_reapply_device_features : M D Z :=
  r ← ena_init_get_device_attributes;
  let ret := if z2b r then first_error 0 r else 0 in
  a ← get_ad;
  ret ← (if z2b (ad_mtu a) then
           r ← ena_init_set_mtu (ad_mtu a); mret (if z2b r then first_error ret r else ret)
         else mret ret);
  a ← get_ad;
  ret ← (if z2b (aenq_enabled_groups (ad_aen a)) then
           r ← ena_init_config_aenq; mret (if z2b r then first_error ret r else ret)
         else mret ret);
  a ← get_ad;
  if 1 <? num_rx_rings (ad_io a) then
    r ← ena_rss_configure (num_rx_rings (ad_io a)); mret (if z2b r then first_error ret r else ret)
  else mret ret.

(** The two loops of [ena_adapter_recover_io_rings]: first error and number of rings
    created.  Only the loop over the RX rings refills, and only queue 0. *)
Fixpoint recreate_rings (tx : bool) (n : nat) (q ret created : Z) : M D (Z * Z) :=
  match n with
  | O => mret (ret, created)
  | S n =>
      r ← ring_at tx q;
      if match r with Some r => hw_valid r | None => true end then recreate_rings tx n (q + 1) ret created
      else
        a ← get_ad;
        let vector := if non_null (irq_vectors a) then u32 (q + 1) else 0 in
        e ← ena_ring_create_hw tx q vector;
        if z2b e then recreate_rings tx n (q + 1) (first_error ret e) created
        else
          r ← get_ring tx q;
          (if negb tx && (q =? 0) && refill_netbuf r then
             refill_queue q (u32 (sq_depth (r_sq r) - 1));; mret tt
           else mret tt);;
          recreate_rings tx n (q + 1) ret (u16 (created + 1))
  end.

Definition ena_adapter_recover_io_rings : M D Z :=
  a ← get_ad;
  '(ret, tx_created) ← recreate_rings true (Z.to_nat (num_tx_rings (ad_io a))) 0 0 0;
  a ← get_ad;
  '(ret, rx_created) ← recreate_rings false (Z.to_nat (num_rx_rings (ad_io a))) 0 ret 0;
  if z2b tx_created || z2b rx_created then
    fret ← ena_init_reapply_device_features;
    mret (if z2b fret then first_error ret fret else ret)
  else mret ret.

(** ** Reset and recovery *)

(** The part under the admin lock. *)
Definition reset_and_reinit (handler : option aenq_handler_fn) (handler_arg : bool) : M D (Z * Z) :=
  ena_device_reset;;
  rret ← ena_device_wait_reset_complete 1000;
  if rret =? 0 then
    a ← get_ad;
    let depth d := if z2b d then d else 32 in
    iret ← ena_admin_init (depth (q_depth (aq (ad_adm a)))) (depth (q_depth (acq (ad_adm a)))) (depth (q_depth (aenq (ad_adm a))));
    (if (iret =? 0) && non_null handler then ena_admin_aenq_register handler handler_arg;; mret tt else mret tt);;
    mret (rret, iret)
  else mret (rret, -1).

Definition ena_adapter_reset_and_recover : M D Z :=
  a ← get_ad;
  if z2b (recover_active a) then mret (- EBUSY)
  else
    mod_ad (set_recover_active 1);;
    let handler := aenq_handler (ad_adm a) in
    let handler_arg := aenq_handler_arg (ad_adm a) in
    mod_ad (set_ad_state ENA_STATE_ERROR);;
    ena_adapter_invalidate_io_rings;;
    ena_admin_lock_take;;
    '(rret, iret) ← reset_and_reinit handler handler_arg;
    ena_admin_lock_drop;;
    if z2b rret || z2b iret then
      mod_ad (set_recover_active 0);;
      mret (if z2b rret then rret else iret)
    else
      b ← ena_adapter_has_io_rings;
      a ← get_ad;
      (if negb b && z2b (aenq_enabled_groups (ad_aen a)) then ena_init_config_aenq;; mret tt else mret tt);;
      rret ← ena_adapter_recover_io_rings;
      mod_ad (set_recover_active 0);;
      mret rret.
End Commands.

(** The recovery whose commands may themselves recover, [n] levels deep. *)
Fixpoint recover (n : nat) : M D Z :=
  match n with
  | O => fun _ => Hang
  | S n => @ena_adapter_reset_and_recover (recovery_exec (recover n))
  end.

(** The admin command and the event handler of the driver. *)
Definition exec_cmd : AdminExec D := ena_admin_exec_cmd (recover 2).
End Recover.

(** ** Invalidating the rings *)

(** A ring the recovery may meet: well-formed, unlocked, releasing what it drops. *)
Definition ring_sound (tx : bool) (r : ena_ring) : Prop :=
  (if tx then wf_tx r else wf_rx r) /\ ring_lock r = 0 /\ drop_releases r = true.

Definition rings_sound (tx : bool) (l : list (option ena_ring)) : Prop :=
  forall i r, l !! i = Some (Some r) -> ring_sound tx r.

(** The netbufs held by a table of rings. *)
Definition held_by (l : list (option ena_ring)) : list Z :=
  l ≫= (fun o => match o with Some r => held (raw_bufs r) | None => [] end).

(** The table with the rings [q] .. [q + n - 1] reset. *)
Fixpoint reset_seg (n q : nat) (l : list (option ena_ring)) : list (option ena_ring) :=
  match n with
  | O => l
  | S n => reset_seg n (S q) (alter (fmap reset_ring) q l)
  end.

Lemma reset_seg_lookup n q l i :
  reset_seg n q l !! i = if decide (q <= i < q + n)%nat then fmap reset_ring <$> l !! i else l !! i.
Proof.
  revert q l. induction n as [| n IH]; intros q l; simpl; [by rewrite decide_False by lia |]. rewrite IH.
  destruct (decide (i = q)) as [-> | Hne].
  - rewrite decide_False, decide_True by lia. apply list_lookup_alter_eq.
  - rewrite list_lookup_alter_ne by done. destruct (decide (S q <= i < S q + n)%nat), (decide (q <= i < q + S n)%nat); lia || done.
Qed.

Lemma length_reset_seg n q l : length (reset_seg n q l) = length l.
Proof. revert q l. induction n as [| n IH]; intros q l; simpl; [done |]. by rewrite IH, length_alter. Qed.

(** Which entries are rings. *)
Lemma reset_seg_shape n q l : non_null <$> reset_seg n q l = non_null <$> l.
Proof.
  apply list_eq. intros i. rewrite !list_lookup_fmap, reset_seg_lookup. case_decide; [| done].
  by destruct (l !! i) as [[] |].
Qed.

Lemma wf_ring_of tx r : (if tx : bool then wf_tx r else wf_rx r) -> wf_ring r.
Proof. destruct tx; [apply wt_ring | by intros []]. Qed.

Lemma ring_sound_reset tx r : ring_sound tx r -> ring_sound tx (reset_ring r) /\ hw_valid (reset_ring r) = false
  /\ held (raw_bufs (reset_ring r)) = [].
Proof.
  intros (Hwf & Hk & Hd). pose proof (wf_ring_of tx r Hwf) as Hr.
  split; [| split; [done | apply ring_pristine_reset, Hr]]. split_and!; [| done | done]. destruct tx; [by apply wf_tx_reset |].
  split; [by apply wf_ring_reset | apply Hwf].
Qed.

Lemma reset_seg_sound tx n q l : rings_sound tx l -> rings_sound tx (reset_seg n q l).
Proof.
  intros Hl i r. rewrite reset_seg_lookup. case_decide; [| apply Hl].
  destruct (l !! i) as [[r0 |] |] eqn:E; simpl; try done. intros [= <-]. by apply ring_sound_reset, (Hl i).
Qed.

Section Rings.
Context {D : Type}.
Implicit Types w : world D.

(** The world with another table of rings. *)
Definition put_rings (tx : bool) (l : list (option ena_ring)) w : world D :=
  upd (fun a => set_ad_io (set_rings_of tx (Some l) (ad_io a)) a) w.

Lemma put_rings_of tx l w : rings_of tx (ad_io (w_adapter (put_rings tx l w))) = Some l.
Proof. apply rings_of_set. Qed.

Lemma put_rings_twice tx l l' es es' w :
  set_w_log (w_log (set_w_log (w_log w ++ es) (put_rings tx l w)) ++ es') (put_rings tx l' (set_w_log (w_log w ++ es) (put_rings tx l w)))
  = set_w_log (w_log w ++ es ++ es') (put_rings tx l' w).
Proof. wsimpl. rewrite app_assoc. destruct w as [? [] ? ? ? ?]. by destruct tx. Qed.

Lemma put_rings_id tx l w : rings_of tx (ad_io (w_adapter w)) = Some l -> set_w_log (w_log w ++ []) (put_rings tx l w) = w.
Proof.
  intros El. rewrite app_nil_r. unfold put_rings, upd.
  assert (set_rings_of tx (Some l) (ad_io (w_adapter w)) = ad_io (w_adapter w)) as ->
    by (destruct (ad_io (w_adapter w)), tx; simpl in *; by subst). by destruct w as [? [] ? ? ? ?].
Qed.

Lemma wpm_ring_at tx q l w (Q : option ena_ring -> world D -> Prop) :
  rings_of tx (ad_io (w_adapter w)) = Some l -> 0 <= q < Z.of_nat (length l) ->
  (forall r, l !! Z.to_nat q = Some r -> Q r w) -> wpm (ring_at tx q) Q w.
Proof.
  intros El Hq HQ. unfold wpm, ring_at. rewrite El. cbn [non_null]. destruct (lookup_in_range l q Hq) as [r Hr].
  rewrite (aget_ret l q r) by (done || lia). by apply HQ.
Qed.

Lemma wpm_on_ring {A} tx q (f : Z -> ena_ring -> res (A * ena_ring * list event)) l r w (Q : A -> world D -> Prop) :
  rings_of tx (ad_io (w_adapter w)) = Some l -> 0 <= q -> l !! Z.to_nat q = Some (Some r) ->
  wp (f (uk_cpu (w_uk w)) r) (fun '(x, r', es) => Q x (set_w_log (w_log w ++ es) (put_rings tx (<[Z.to_nat q := Some r']> l) w))) ->
  wpm (on_ring tx q f) Q w.
Proof.
  intros El Hq Hr Hf. unfold wpm, on_ring. rewrite El, (aget_ret l q (Some r)) by (done || lia). cbn [mbind res_bind].
  destruct (f (uk_cpu (w_uk w)) r) as [[[x r'] es] | |]; [| done..]. cbn [mbind res_bind].
  pose proof (lookup_lt_Some _ _ _ Hr). rewrite aset_ret by lia. exact Hf.
Qed.

Lemma reset_locked_eq tx cpu r : ring_sound tx r -> exists es, reset_locked cpu r = Ret (tt, reset_ring r, es) /\ freed es = held (raw_bufs r).
Proof.
  intros (Hwf & Hk & Hd). pose proof (wf_ring_of tx r Hwf) as Hr. unfold reset_locked, ena_ring_lock. rewrite Hk. cbn [Z.eqb negb].
  cbn [mbind res_bind mret res_ret]. assert (wf_ring (set_ring_lock 1 r)) as Hr1 by (destruct Hr as [? ? ? ? ? ? ? []]; split; try done; by split).
  rewrite ena_ring_reset_sw_state_eq by done. cbn [mbind res_bind]. eexists. split.
  - unfold ena_ring_unlock. destruct r. cbn in Hk. by subst.
  - exact (freed_drops (set_ring_lock 1 r) cpu _ Hd).
Qed.

Lemma invalidate_rings_spec tx n q l w :
  rings_of tx (ad_io (w_adapter w)) = Some l -> 0 <= q -> q + Z.of_nat n <= Z.of_nat (length l) -> rings_sound tx l ->
  wpm (invalidate_rings tx n q) (fun _ w' => exists es,
    w' = set_w_log (w_log w ++ es) (put_rings tx (reset_seg n (Z.to_nat q) l) w)
    /\ freed es = held_by (take n (drop (Z.to_nat q) l))) w.
Proof.
  revert q l w. induction n as [| n IH]; intros q l w El Hq Hn Hl; cbn [invalidate_rings reset_seg].
  { apply wpm_ret. exists []. split; [by rewrite put_rings_id | done]. }
  apply wpm_bind. eapply wpm_ring_at; [done | lia |]. intros o Ho. apply wpm_bind.
  assert (drop (Z.to_nat q) l = o :: drop (S (Z.to_nat q)) l) as Ed by (by apply drop_S).
  assert (Z.to_nat (q + 1) = S (Z.to_nat q)) as Eq by lia. rewrite Ed. cbn [firstn held_by mbind list_bind].
  destruct o as [r |]; cbn [non_null].
  - destruct (reset_locked_eq tx (uk_cpu (w_uk w)) r (Hl _ _ Ho)) as (es & Er & Hes).
    eapply wpm_on_ring; [done.. |]. rewrite Er. cbn [wp].
    assert (alter (fmap reset_ring) (Z.to_nat q) l = <[Z.to_nat q := Some (reset_ring r)]> l) as ->.
    { apply list_eq. intros i. destruct (decide (i = Z.to_nat q)) as [-> | ?].
      - rewrite list_lookup_alter_eq, Ho. symmetry. apply list_lookup_insert_eq. by eapply lookup_lt_Some.
      - by rewrite list_lookup_alter_ne, list_lookup_insert_ne by done. }
    eapply wpm_mono; [apply (IH (q + 1) (<[Z.to_nat q := Some (reset_ring r)]> l)) |].
    + apply put_rings_of.
    + lia.
    + rewrite length_insert. lia.
    + intros i r' Hi. apply list_lookup_insert_Some in Hi as [(<- & [= <-] & _) | [_ Hi]]; [by apply ring_sound_reset, (Hl _ _ Ho) | by apply (Hl i)].
    + intros _ w' (es' & -> & Hes'). rewrite Eq, put_rings_twice. exists (es ++ es'). split; [done |].
      rewrite Eq in Hes'. rewrite freed_app, Hes, Hes'. do 2 f_equal. by rewrite drop_insert_lt by lia.
  - apply wpm_ret. assert (alter (fmap reset_ring) (Z.to_nat q) l = l) as ->.
    { apply list_eq. intros i. destruct (decide (i = Z.to_nat q)) as [-> | ?]; [by rewrite list_lookup_alter_eq, Ho | by rewrite list_lookup_alter_ne]. }
    eapply wpm_mono; [apply (IH (q + 1) l); [done | lia | lia | done] |]. by rewrite Eq.
Qed.
End Rings.

(** The tables of the adapter. *)
Definition rings_ok (tx : bool) (io : io_rings) : Prop :=
  0 <= num_rings tx io < 65536
  /\ forall l, rings_of tx io = Some l -> num_rings tx io <= Z.of_nat (length l) /\ rings_sound tx l.

Definition reset_tab (tx : bool) (io : io_rings) : arr (option ena_ring) :=
  reset_seg (Z.to_nat (num_rings tx io)) 0 <$> rings_of tx io.
Definition reset_io (io : io_rings) : io_rings :=
  mkIo (reset_tab true io) (reset_tab false io) (num_tx_rings io) (num_rx_rings io) (tx_rings_blk io) (rx_rings_blk io).
Definition held_tab (tx : bool) (io : io_rings) : list Z :=
  default [] (held_by ∘ take (Z.to_nat (num_rings tx io)) <$> rings_of tx io).

Section Invalidate.
Context {D : Type}.
Implicit Types w : world D.

(** Every ring is reset, every netbuf it held released. *)
Lemma invalidate_spec w :
  rings_ok true (ad_io (w_adapter w)) -> rings_ok false (ad_io (w_adapter w)) ->
  wpm ena_adapter_invalidate_io_rings (fun _ w' => exists es,
    w' = set_w_log (w_log w ++ es) (upd (set_ad_io (reset_io (ad_io (w_adapter w)))) w)
    /\ freed es = held_tab true (ad_io (w_adapter w)) ++ held_tab false (ad_io (w_adapter w))) w.
Proof.
  intros [Hnt Ht] [Hnr Hr]. unfold reset_io, reset_tab, held_tab. cbn [rings_of num_rings] in *.
  apply wpm_bind, wpm_get_ad, wpm_bind.
  assert (wpm (if non_null (tx_rings (ad_io (w_adapter w))) then invalidate_rings true (Z.to_nat (num_tx_rings (ad_io (w_adapter w)))) 0 else mret tt)
    (fun _ w' => exists es, w' = set_w_log (w_log w ++ es) (upd (fun a => set_ad_io (set_tx_rings
         (reset_seg (Z.to_nat (num_tx_rings (ad_io (w_adapter w)))) 0 <$> tx_rings (ad_io (w_adapter w))) (ad_io a)) a) w)
       /\ freed es = default [] (held_by ∘ take (Z.to_nat (num_tx_rings (ad_io (w_adapter w)))) <$> tx_rings (ad_io (w_adapter w)))) w) as H1.
  { destruct (tx_rings (ad_io (w_adapter w))) as [l |] eqn:El; cbn [non_null].
    - destruct (Ht l eq_refl). eapply wpm_mono; [apply (invalidate_rings_spec true _ 0 l); [done | lia | lia | done] |].
      intros _ w' (es & -> & Hes). exists es. by split.
    - apply wpm_ret. exists []. rewrite app_nil_r. split; [| done]. destruct w as [? [? ? ? ? ? ? ? ? ? ? ? [] ? ? ? ?] ? ? ? ?]. cbn in El. by subst. }
  eapply wpm_mono; [exact H1 |]. intros _ w1 (es1 & -> & Hes1). apply wpm_bind, wpm_get_ad. wsimpl.
  change (rx_rings (ad_io _)) with (rx_rings (ad_io (w_adapter w))). change (num_rx_rings (ad_io _)) with (num_rx_rings (ad_io (w_adapter w))).
  destruct (rx_rings (ad_io (w_adapter w))) as [l |] eqn:El; cbn [non_null].
  - destruct (Hr l eq_refl). set (w1 := set_w_log _ _). eapply wpm_mono; [apply (invalidate_rings_spec false _ 0 l w1); [done | lia | lia | done] |].
    intros _ w' (es & -> & Hes). exists (es1 ++ es). split; [unfold w1; wsimpl; by rewrite app_assoc |].
    rewrite freed_app, Hes1, Hes. done.
  - apply wpm_ret. exists es1. split; [| by rewrite app_nil_r]. destruct w as [? [? ? ? ? ? ? ? ? ? ? ? [] ? ? ? ?] ? ? ? ?]. cbn in El. by subst.
Qed.
End Invalidate.

(** ** The heap *)
Lemma owned_swap h0 h A R qs h' :
  owned h0 h (A ++ R) -> wf_heap h' -> NoDup qs -> list_to_set qs ## h_live h ∖ list_to_set A ->
  h_live h' = list_to_set qs ∪ h_live h ∖ list_to_set A -> owned h0 h' (qs ++ R).
Proof.
  intros [_ Hnd Hnew Hl] Hwf Hq Hdisj Hl'. apply NoDup_app in Hnd as (HA & HAR & HR).
  assert (h_live h ∖ list_to_set A = h_live h0 ∪ list_to_set R) as Es by (rewrite Hl; set_solver). rewrite Es in *. clear Es Hl.
  split; [done | apply NoDup_app; split_and!; [done | set_solver | done] | | rewrite Hl'; set_solver].
  intros p [Hp | Hp]%elem_of_app; [set_solver | apply Hnew; set_solver].
Qed.

Lemma admin_blocks_3 (a : ena_adapter) a1 a2 a3 :
  q_base (aq (ad_adm a)) = Some a1 -> q_base (acq (ad_adm a)) = Some a2 -> q_base (aenq (ad_adm a)) = Some a3 ->
  admin_blocks a = [a1; a2; a3] ++ option_list (host_info_base (ad_host a)).
Proof. intros E1 E2 E3. unfold admin_blocks. rewrite E1, E2, E3. by destruct (host_info_base _). Qed.

Lemma admin_blocks_down (a : ena_adapter) : admin_down a -> admin_blocks a = option_list (host_info_base (ad_host a)).
Proof. intros (E1 & E2 & E3). unfold admin_blocks. rewrite E1, E2, E3. by destruct (host_info_base _). Qed.

(** The blocks of the control plane and of RSS, on top of the heap [h0]. *)
Definition driver_owned {D} (h0 : heap) (w : world D) : Prop :=
  owned h0 (w_heap w) (admin_blocks (w_adapter w) ++ rss_blocks (rss_info (w_adapter w))).

Lemma driver_admin_owned {D} h0 (w : world D) : driver_owned h0 w -> admin_owned w.
Proof.
  intros [Hwf Hnd _ Hl]. apply NoDup_app in Hnd as (? & _ & _). split; [done | done |]. rewrite Hl, list_to_set_app_L. set_solver.
Qed.

Lemma freed_write_events b l : freed (write_events b l) = [].
Proof. unfold freed, write_events. induction l as [| [? ?] l IH]; [done | exact IH]. Qed.

Lemma wpm_seq {D C A B} (m : M D C) (n : M D A) (f : A -> M D B) w (Q : B -> world D -> Prop) :
  wpm (m;; n) (fun a w' => wpm (f a) Q w') w -> wpm (m;; a ← n; f a) Q w.
Proof.
  unfold wpm, mbind, M_bind. destruct (m w) as [[c w'] | |]; [| done..]. by destruct (n w') as [[a w''] | |].
Qed.

(** ** Reset and restart of the admin queues *)
Section Reinit.
Context {D : Type} `{EnaDeviceOk D}.
Implicit Types w : world D.

(** Only the admin part, the driver state and the host page of the adapter differ. *)
Definition admin_changed w w' : Prop :=
  exists st adm host, w_adapter w' = set_ad_state st (set_ad_adm adm (set_ad_host host (w_adapter w)))
    /\ admin_lock adm = admin_lock (ad_adm (w_adapter w)).

Definition log_calm w w' : Prop := exists es, w_log w' = w_log w ++ es /\ freed es = [].

Record reinit_post (h0 : heap) (handler : option aenq_handler_fn) (arg : bool) w (rret iret : Z) w' : Prop := {
  ri_cpu : w_uk w' = w_uk w;
  ri_own : driver_owned h0 w';
  ri_log : log_calm w w';
  ri_ad : admin_changed w w';
  ri_ok : rret = 0 -> iret = 0 -> wf_admin w' /\ ad_state (w_adapter w') = ENA_STATE_ADMIN_READY
    /\ aenq_handler (ad_adm (w_adapter w')) = handler
    /\ (handler <> None -> aenq_handler_arg (ad_adm (w_adapter w')) = arg);
  ri_err : rret = 0 /\ iret <= 0 \/ rret < 0
}.

Lemma admin_init_reinit h0 b d1 d2 d3 w :
  bar0_base (ad_bars (w_adapter w)) = Some b -> driver_owned h0 w ->
  0 <= d1 < 65536 -> 0 <= d2 < 65536 -> 0 <= d3 < 65536 ->
  wpm (ena_admin_init d1 d2 d3) (fun iret w' => reinit_post h0 None false w 0 iret w') w.
Proof.
  intros Hb Hown H1 H2 H3. pose proof (driver_admin_owned _ _ Hown) as Hadm.
  eapply wpm_mono; [by apply (admin_init_spec d1 d2 d3 b w) |]. intros iret w' (Hwf & Ecpu & Hr). cbv beta zeta in Hr.
  set (live := if admin_up (w_adapter w) then _ else _) in Hr. set (a0 := if admin_up (w_adapter w) then _ else _) in Hr.
  assert (exists A, admin_blocks (w_adapter w) ++ rss_blocks (rss_info (w_adapter w))
      = A ++ option_list (host_info_base (ad_host a0)) ++ rss_blocks (rss_info (w_adapter w))
    /\ live = h_live (w_heap w) ∖ list_to_set A /\ admin_blocks a0 = option_list (host_info_base (ad_host a0))) as (A & EA & El & Ea0).
  { unfold a0, live. destruct (admin_up (w_adapter w)) eqn:Eup.
    - exists (admin_blocks (w_adapter w)). done.
    - exists []. pose proof (admin_blocks_down _ (admin_up_down _ Eup)) as E. rewrite E. split_and!; [done | | done].
      simpl. by rewrite difference_empty_L. }
  unfold driver_owned in Hown. rewrite EA in Hown.
  assert (rss_info a0 = rss_info (w_adapter w)) as Ers by (unfold a0; by destruct (admin_up (w_adapter w))).
  assert (h_live (w_heap w') = live -> w_adapter w' = a0 -> w_log w' = w_log w -> iret < 0 ->
    reinit_post h0 None false w 0 iret w') as Hfail.
  { intros Eh Ea Elog Hi. split; [done | | exists []; by rewrite app_nil_r | | lia | left; lia].
    - unfold driver_owned. rewrite Ea, Ea0, Ers. apply (owned_swap _ _ A _ [] _ Hown Hwf); [constructor | set_solver |]. rewrite Eh, El. set_solver.
    - unfold admin_changed. rewrite Ea. unfold a0. destruct (admin_up (w_adapter w)).
      + do 3 eexists. split; [reflexivity | done].
      + exists (ad_state (w_adapter w)), (ad_adm (w_adapter w)), (ad_host (w_adapter w)). split; [by destruct (w_adapter w) | done]. }
  case_decide; [| destruct Hr as (-> & ? & ? & ?); by apply Hfail].
  destruct Hr as [(-> & ? & ? & ?) | (-> & [Hwa _ (a1 & a2 & a3 & Hnd & E1 & E2 & E3 & Hdis & Elive) Hst Hlk _ _ _ _ [_ (b1 & b2 & b3 & Ead)] (_ & b' & _ & Elog)] & Ehost)]; [by apply Hfail |].
  split; [done | | | | | left; lia].
  - unfold driver_owned. rewrite (admin_blocks_3 _ _ _ _ E1 E2 E3), <- app_assoc, Ehost.
    assert (rss_info (w_adapter w') = rss_info (w_adapter w)) as -> by (by rewrite Ead).
    apply (owned_swap _ _ A _ _ _ Hown Hwf Hnd); [rewrite <- El; set_solver |]. rewrite Elive, El. set_solver.
  - eexists. split; [exact Elog | apply freed_write_events].
  - do 3 eexists. split; [exact Ead | done].
  - intros _ _. split_and!; [done | done | by rewrite Ead | done].
Qed.

Lemma reinit_spec h0 b handler arg w :
  bar0_base (ad_bars (w_adapter w)) = Some b -> driver_owned h0 w ->
  0 <= q_depth (aq (ad_adm (w_adapter w))) < 65536 -> 0 <= q_depth (acq (ad_adm (w_adapter w))) < 65536 ->
  0 <= q_depth (aenq (ad_adm (w_adapter w))) < 65536 ->
  wpm (reset_and_reinit handler arg) (fun '(rret, iret) w' => reinit_post h0 handler arg w rret iret w') w.
Proof.
  intros Hb Hown H1 H2 H3. unfold reset_and_reinit. apply wpm_seq. eapply wpm_mono; [exact (reset_spec 1000 b w Hb) |].
  intros rret w1 (Eh & Ec & (v & Elog & _) & Hr).
  assert (log_calm w w1) as Hcalm by (eexists; split; [exact Elog | done]).
  assert (w_adapter w1 = w_adapter w \/ w_adapter w1 = set_ad_state ENA_STATE_ERROR (w_adapter w)) as Ea by tauto.
  assert (driver_owned h0 w1) as Hown1 by (unfold driver_owned in *; rewrite Eh; by destruct Ea as [-> | ->]).
  destruct (Z.eqb_spec rret 0) as [-> | Hne].
  2: { apply wpm_ret. split; [done | done | done | | done | right; destruct Hr as [[? _] | [[-> _] | [-> _]]]; by vm_compute].
       destruct Ea as [Ea | Ea]; unfold admin_changed; rewrite Ea;
         [exists (ad_state (w_adapter w)) | exists ENA_STATE_ERROR]; exists (ad_adm (w_adapter w)), (ad_host (w_adapter w));
         (split; [by destruct (w_adapter w) | done]). }
  clear Ea. assert (w_adapter w1 = w_adapter w) as Ea by (destruct Hr as [(_ & E & _) | [[E _] | [E _]]]; [exact E | discriminate E..]).
  apply wpm_bind, wpm_get_ad. rewrite Ea. cbv zeta. apply wpm_bind.
  assert (forall d, 0 <= d < 65536 -> 0 <= (if z2b d then d else 32) < 65536) as Hd by (intros; case_match; lia).
  eapply wpm_mono; [apply (admin_init_reinit h0 b); [by rewrite Ea | done | by apply Hd..] |].
  intros iret w2 [Hcpu2 Hown2 (es2 & Elog2 & Hes2) (st & adm & host & Ead & Elk) Hok Herr].
  assert (log_calm w w2) as Hcalm2.
  { destruct Hcalm as (es & El & Hes). exists (es ++ es2). by rewrite Elog2, El, app_assoc, freed_app, Hes, Hes2. }
  assert (admin_changed w w2) as Hac by (do 3 eexists; rewrite Ead, Ea; split; [reflexivity | by rewrite Elk, Ea]).
  apply wpm_bind. destruct (Z.eqb_spec iret 0) as [-> | Hni]; cbn [andb].
  - destruct (Hok eq_refl eq_refl) as (Hwa & Hst & Hnone & _). destruct handler as [f |]; cbn [non_null].
    + apply wpm_bind. unfold ena_admin_aenq_register. apply wpm_bind, wpm_mod_adm, wpm_ret, wpm_ret, wpm_ret.
      split; [wsimpl; congruence | exact Hown2 | exact Hcalm2 | | | left; lia].
      * exists st, (set_aenq_handler_arg arg (set_aenq_handler (Some f) adm)), host. wsimpl. rewrite Ead, Ea. split; [done |].
        by rewrite <- Ea, <- Elk.
      * intros _ _. split_and!; try done. destruct Hwa. by split.
    + apply wpm_ret, wpm_ret. split; [congruence | done | done | done | | left; lia]. intros _ _. by split_and!.
  - apply wpm_ret, wpm_ret. split; [congruence | done | done | done | by intros _ ? | left; lia].
Qed.
End Reinit.

(** ** Re-creating the rings *)
Lemma ring_sound_sw tx r r' : sw r' = sw r -> ring_sound tx r -> ring_sound tx r'.
Proof.
  intros Es (Hwf & Hk & Hd). split_and!.
  - destruct tx; [apply wf_tx_sw; rewrite Es; by apply wf_tx_sw | apply wf_rx_sw; rewrite Es; by apply wf_rx_sw].
  - change (ring_lock (sw r') = 0). by rewrite Es.
  - change (drop_releases (sw r') = true). by rewrite Es.
Qed.

Lemma rings_sound_insert tx l i r : rings_sound tx l -> ring_sound tx r -> rings_sound tx (<[i := Some r]> l).
Proof. intros Hl Hr j r' Hj. apply list_lookup_insert_Some in Hj as [(_ & [= <-] & _) | [_ Hj]]; [done | by apply (Hl j)]. Qed.

Lemma shape_insert (l : list (option ena_ring)) i r r' : l !! i = Some (Some r) -> non_null <$> <[i := Some r']> l = non_null <$> l.
Proof. intros Hi. rewrite list_fmap_insert. apply list_insert_id. by rewrite list_lookup_fmap, Hi. Qed.

(** The rings before [q] are live. *)
Definition live_below (q : nat) (l : list (option ena_ring)) : Prop :=
  forall i r, (i < q)%nat -> l !! i = Some (Some r) -> hw_valid r = true.

Lemma live_below_insert q l r : hw_valid r = true -> live_below q l -> live_below (S q) (<[q := Some r]> l).
Proof.
  intros Hr Hl i r' Hi Hj. apply list_lookup_insert_Some in Hj as [(_ & [= <-] & _) | [Hne Hj]]; [done |]. apply (Hl i); [lia | done].
Qed.

Lemma exec_frame_put_rings {D} tx l (w w' : world D) : exec_frame w w' -> exec_frame (put_rings tx l w) (put_rings tx l w').
Proof.
  intros [? ? Ea ? ? ? ? ? ?]. split; try done. unfold put_rings, upd. wsimpl.
  clear - Ea. revert Ea. generalize (w_adapter w'), (w_adapter w). intros a' a Ea. rewrite Ea. by destruct tx.
Qed.

(** *** The queues behind the RX rings

    A refill changes the bounce pool of its queue, and nothing else of it. *)
Record slot_kept (s s' : rxq_slot) : Prop := {
  sk_ring : rxs_ring s' = rxs_ring s;
  sk_id : rxs_id s' = rxs_id s;
  sk_blk : rxs_blk s' = rxs_blk s;
  sk_chain : rxs_chain s' = rxs_chain s;
  sk_ready lost r r' : rxq_ready lost r (rxs_q s) -> sq_depth (r_sq r') = sq_depth (r_sq r) ->
    exists more, rxq_ready (more ++ lost) r' (rxs_q s')
}.

#[export] Instance slot_kept_preorder : PreOrder slot_kept.
Proof.
  split.
  - intros s. split; try done. intros lost r r' [? ? Hd] E. exists []. by split; [| | rewrite E].
  - intros s1 s2 s3 [? ? ? ? H1] [? ? ? ? H2]. split; try congruence. intros lost r r' Hr E.
    destruct (H1 lost r r' Hr E) as [m1 Hr1]. destruct (H2 _ r' r' Hr1 eq_refl) as [m2 Hr2].
    exists (m2 ++ m1). by rewrite <- app_assoc.
Qed.

Record uk_kept (u u' : uk_state) : Prop := {
  uk_same : uk_cpu u' = uk_cpu u /\ tx_queues u' = tx_queues u /\ s_msix u' = s_msix u;
  uk_slots : Forall2 slot_kept (rx_queues u) (rx_queues u')
}.

#[export] Instance uk_kept_preorder : PreOrder uk_kept.
Proof.
  split; [intros u; by split |]. intros u1 u2 u3 [(? & ? & ?) F1] [(? & ? & ?) F2].
  split; [split_and!; congruence | by etrans].
Qed.

(** The queue of RX ring 0 can refill the ring [r]. *)
Definition ready_at (r : ena_ring) (u : uk_state) : Prop :=
  exists s lost, rx_queues u !! 0%nat = Some s /\ rxq_ready lost r (rxs_q s).

Lemma ready_at_kept r r' u u' : uk_kept u u' -> sq_depth (r_sq r') = sq_depth (r_sq r) -> ready_at r u -> ready_at r' u'.
Proof.
  intros [_ Hf] E (s & lost & Hs & Hr). destruct (Forall2_lookup_l _ _ _ _ _ Hf Hs) as (s' & Hs' & Hk).
  destruct (sk_ready _ _ Hk lost r r' Hr E) as [more Hr']. by exists s', (more ++ lost).
Qed.

(** A refill of ring 0. *)
Lemma wpm_refill_queue {D} count l r (w : world D) (Q : Z -> world D -> Prop) :
  rx_rings (ad_io (w_adapter w)) = Some l -> l !! 0%nat = Some (Some r) -> ring_sound false r -> ready_at r (w_uk w) -> 0 <= count ->
  (forall n r' u' es, ring_sound false r' -> hw_valid r' = hw_valid r -> uk_kept (w_uk w) u' ->
     Q n (set_w_log (w_log w ++ es) (set_w_uk u' (put_rings false (<[0%nat := Some r']> l) w)))) ->
  wpm (refill_queue 0 count) Q w.
Proof.
  intros El Hr (Hwf & Hk & Hd) (s & lost & Hs & Hq) Hc HQ. unfold wpm, refill_queue. rewrite El, (aget_ret l 0 (Some r)) by done.
  rewrite (aget_ret _ 0 s) by done. cbn [mbind res_bind]. apply wp_bind.
  eapply wp_mono; [by apply (ena_rx_refill_spec lost) |].
  intros [[[[n r'] rxq'] nbs] es] (q' & -> & _ & [Hwf' Hk' (more & Hq' & _) _ (Hv & Hd' & _ & _ & _ & _ & Hsd) _]).
  pose proof (lookup_lt_Some _ _ _ Hr). pose proof (lookup_lt_Some _ _ _ Hs). rewrite !aset_ret by (simpl; lia). cbn [mbind res_bind default].
  apply HQ; [split_and!; [done | done | congruence] | done |]. split; [done |]. simpl.
  rewrite <- (list_insert_id (rx_queues (w_uk w)) 0 s) at 1 by done. apply Forall2_insert; [done |]. split; try done.
  intros lost0 r0 r1 [Hwf0 Hp0 Hd0] E. exists more. destruct Hq as [Hwfq _ Hdq], Hq' as [Hwfq' Hp' Hdq'].
  split; [| done | cbn [set_rxs_q rxs_q]; lia]. unfold wf_rxq in *. cbn [set_rxs_q rxs_q]. rewrite Hp0 in *. rewrite Hp' in *.
  eapply wf_bounce_perm; [| exact Hwfq']. apply Permutation_app; [done |]. apply Permutation_app; [done |].
  exact (wf_bounce_rest _ _ _ Hwfq Hwf0).
Qed.

Section Live.
Context {D : Type} `{EnaDeviceOk D} (nested : M D Z) (Hnest : refuses_nested nested).
Implicit Types w : world D.
#[local] Instance nested_exec : AdminExec D := recovery_exec nested.
#[local] Instance nested_exec_ok : AdminExecOk D := recovery_exec_ok nested Hnest.

(** From [w0] on: the rings are now [io], the admin queues work, the netbufs [fs] were freed. *)
Record rec_at (w0 : world D) (io : io_rings) (fs : list Z) (w : world D) : Prop := {
  ra_ok : recovery_ok w;
  ra_uk : uk_kept (w_uk w0) (w_uk w);
  ra_frame : exec_frame (set_w_uk (w_uk w) (upd (set_ad_io io) w0)) w;
  ra_log : exists es, w_log w = w_log w0 ++ es /\ freed es = fs
}.

Lemma rec_at_io w0 io fs w : rec_at w0 io fs w -> ad_io (w_adapter w) = io.
Proof. intros [_ _ Hf _]. by rewrite (ef_ad _ _ Hf). Qed.

Lemma rec_at_calm w0 io fs w tx l w' :
  rec_at w0 io fs w -> recovery_ok w' -> exec_calm (put_rings tx l w) w' -> rec_at w0 (set_rings_of tx (Some l) io) fs w'.
Proof.
  intros [_ Hu Hf (es & El & Hes)] Hok [Hf' (es' & El' & Hes')]. pose proof (ef_cpu _ _ Hf') as Eu. split; [done | | |].
  - rewrite Eu. exact Hu.
  - rewrite Eu. etrans; [| exact Hf']. apply (exec_frame_put_rings tx l) in Hf. etrans; [| exact Hf]. by destruct tx.
  - change (w_log (put_rings tx l w)) with (w_log w) in El'. exists (es ++ es').
    by rewrite El', El, app_assoc, freed_app, Hes, Hes', app_nil_r.
Qed.

(** Creating one ring. *)
Lemma create_step tx q l r vector w0 io fs w (Q : Z -> world D -> Prop) :
  rec_at w0 io fs w -> rings_of tx io = Some l -> 0 <= q -> l !! Z.to_nat q = Some (Some r) ->
  (forall e r' w', sw r' = sw r -> (e = 0 -> hw_valid r' = true) -> w_uk w' = w_uk w ->
     rec_at w0 (set_rings_of tx (Some (<[Z.to_nat q := Some r']> l)) io) fs w' -> Q e w') ->
  wpm (ena_ring_create_hw tx q vector) Q w.
Proof.
  intros Ha El Hq Hr HQ. pose proof (rec_at_io _ _ _ _ Ha) as Eio.
  eapply wpm_mono; [apply (create_hw_spec tx q 0 w l r vector ∅ ∅); [apply (ra_ok _ _ _ _ Ha) | by rewrite Eio | done..] |].
  intros e w' He. cbv beta in He.
  assert (exists r' C S, sw r' = sw r /\ (e = 0 -> hw_valid r' = true) /\ hw_at tx q 0 w w' r' C S) as (r' & C & S & Hsw & Hv & [Hok (l' & El' & _ & Hcalm)]).
  { destruct (Z.eqb_spec e 0); destruct He as [r' He]; [destruct He; by do 3 eexists; split_and! |].
    destruct He as [(? & _ & _) ?]. do 3 eexists. split_and!; done. }
  rewrite Eio, El in El'. injection El' as <-. apply (HQ e r'); [done.. | exact (ef_cpu _ _ (proj1 Hcalm)) |]. by eapply rec_at_calm.
Qed.

(** The refill of queue 0. *)
Lemma refill_step l r count w0 io fs w (Q : Z -> world D -> Prop) :
  rec_at w0 io fs w -> rings_of false io = Some l -> l !! 0%nat = Some (Some r) -> ring_sound false r -> ready_at r (w_uk w) -> 0 <= count ->
  (forall n r' fs' w', ring_sound false r' -> hw_valid r' = hw_valid r ->
     rec_at w0 (set_rings_of false (Some (<[0%nat := Some r']> l)) io) (fs ++ fs') w' -> Q n w') ->
  wpm (refill_queue 0 count) Q w.
Proof.
  intros Ha El Hr Hs Hrdy Hc HQ. pose proof (rec_at_io _ _ _ _ Ha) as Eio.
  eapply (wpm_refill_queue _ l r); [by rewrite Eio | done.. |].
  intros n r' u' es Hs' Hv Hu. apply (HQ n r' (freed es)); [done | done |].
  destruct Ha as [Hok Hu0 Hf (es0 & E0 & Hes0)]. split.
  - destruct Hok as (Hwa & ? & ?). split_and!; try done. destruct Hwa. by split.
  - by etrans.
  - destruct (exec_frame_put_rings false (<[0%nat := Some r']> l) _ _ Hf). by split.
  - exists (es0 ++ es). wsimpl. by rewrite E0, app_assoc, freed_app, Hes0.
Qed.

(** After the loop up to ring [q]. *)
Definition recreated (tx : bool) (w0 : world D) (io : io_rings) (fs : list Z) (l : list (option ena_ring)) (q ret : Z)
    (x : Z * Z) (w' : world D) : Prop :=
  exists l' fs', rec_at w0 (set_rings_of tx (Some l') io) (fs ++ fs') w' /\ non_null <$> l' = non_null <$> l /\ rings_sound tx l'
    /\ (x.1 = 0 -> ret = 0 /\ live_below (Z.to_nat q) l').

Lemma recreated_trans tx w0 io fs fs1 l l1 q ret ret1 x w' :
  non_null <$> l1 = non_null <$> l -> (ret1 = 0 -> ret = 0) ->
  recreated tx w0 (set_rings_of tx (Some l1) io) (fs ++ fs1) l1 q ret1 x w' -> recreated tx w0 io fs l q ret x w'.
Proof.
  intros Esh Hret (l' & fs' & Ha & Esh' & Hl & Hv). exists l', (fs1 ++ fs'). rewrite app_assoc.
  split_and!; [| congruence | done | intros Hx; destruct (Hv Hx); auto].
  by replace (set_rings_of tx (Some l') io) with (set_rings_of tx (Some l') (set_rings_of tx (Some l1) io)) by (by destruct tx).
Qed.

Lemma recreate_spec tx n q ret created w0 io fs l w :
  rec_at w0 io fs w -> rings_of tx io = Some l -> 0 <= q -> q + Z.of_nat n <= Z.of_nat (length l) -> rings_sound tx l ->
  (ret = 0 -> live_below (Z.to_nat q) l) ->
  (tx = false -> q = 0 -> forall r, l !! 0%nat = Some (Some r) -> refill_netbuf r = true -> ready_at r (w_uk w)) ->
  wpm (recreate_rings tx n q ret created) (recreated tx w0 io fs l (q + Z.of_nat n) ret) w.
Proof.
  revert q ret created io fs l w. induction n as [| n IH]; intros q ret created io fs l w Ha El Hq Hn Hl Hlive Hrdy; cbn [recreate_rings].
  { apply wpm_ret. exists l, []. rewrite app_nil_r, Z.add_0_r. split; [| split_and!; auto].
    assert (set_rings_of tx (Some l) io = io) as -> by (destruct io, tx; simpl in *; by subst). done. }
  replace (q + Z.of_nat (S n)) with (q + 1 + Z.of_nat n) by lia. assert (Z.to_nat (q + 1) = S (Z.to_nat q)) as Eq by lia.
  pose proof (rec_at_io _ _ _ _ Ha) as Eio. apply wpm_bind. eapply wpm_ring_at; [by rewrite Eio | lia |]. intros o Ho.
  assert ((forall r, o = Some r -> hw_valid r = true) -> ret = 0 -> live_below (Z.to_nat (q + 1)) l) as Hskip.
  { intros Hv Hret i r Hi Hir. rewrite Eq in Hi. destruct (decide (i = Z.to_nat q)) as [-> | ?]; [apply Hv; congruence |].
    apply (Hlive Hret i); [lia | done]. }
  destruct o as [r |]; [destruct (hw_valid r) eqn:Ev |]; try (apply IH; [done | done | lia | lia | done | | lia]; apply Hskip; by intros ? [= <-]).
  clear Hskip. apply wpm_bind, wpm_get_ad. cbv zeta. apply wpm_bind. eapply (create_step _ _ l r); [done.. |].
  intros e r' w1 Hsw Hv' Eu1 Ha1. pose proof (ring_sound_sw tx r r' Hsw (Hl _ _ Ho)) as Hr'.
  set (l1 := <[Z.to_nat q := Some r']> l) in *. assert (rings_sound tx l1) as Hl1 by (by apply rings_sound_insert).
  assert (length l1 = length l) as Elen by (apply length_insert). assert (non_null <$> l1 = non_null <$> l) as Esh by (by eapply shape_insert).
  assert (l1 !! Z.to_nat q = Some (Some r')) as Hq1 by (apply list_lookup_insert_eq; by eapply lookup_lt_Some).
  assert (forall ret' created' fs1 r2 w2, ring_sound tx r2 -> (ret' = 0 -> ret = 0 /\ hw_valid r2 = true) ->
    rec_at w0 (set_rings_of tx (Some (<[Z.to_nat q := Some r2]> l)) io) (fs ++ fs1) w2 ->
    wpm (recreate_rings tx n (q + 1) ret' created') (recreated tx w0 io fs l (q + 1 + Z.of_nat n) ret) w2) as Hgo.
  { intros ret' created' fs1 r2 w2 Hr2 Hv2 Ha2. eapply wpm_mono; [eapply IH; [exact Ha2 | apply rings_of_set | lia | | by apply rings_sound_insert | | lia] |].
    - rewrite length_insert. lia.
    - intros Hret'. destruct (Hv2 Hret'). rewrite Eq. apply live_below_insert; [done | auto].
    - intros x w'. apply recreated_trans; [by eapply shape_insert | intros E; by apply Hv2]. }
  unfold z2b. destruct (Z.eqb_spec e 0) as [-> | He]; cbn [negb].
  2: { apply (Hgo _ _ [] r'); [done | | by rewrite app_nil_r]. intros E. exfalso. unfold first_error in E. destruct (Z.eqb_spec ret 0); lia. }
  apply wpm_bind. unfold wpm at 1, get_ring. rewrite (rec_at_io _ _ _ _ Ha1), rings_of_set, (aget_ret _ _ (Some r')) by (done || lia). cbn [mbind res_bind wp].
  apply wpm_bind. destruct (negb tx && (q =? 0) && refill_netbuf r') eqn:Erf.
  2: { apply wpm_ret. apply (Hgo _ _ [] r'); [done | auto | by rewrite app_nil_r]. }
  apply andb_true_iff in Erf as [[Etx%negb_true_iff Eq0%Z.eqb_eq]%andb_true_iff Erf]. subst tx q.
  apply wpm_bind. eapply (refill_step l1 r'); [exact Ha1 | apply rings_of_set | done | done | | apply u32_range |].
  { apply (ready_at_kept r r' (w_uk w)); [| change (sq_depth (r_sq (sw r')) = sq_depth (r_sq (sw r))); by rewrite Hsw |].
    - rewrite Eu1. done.
    - apply Hrdy; [done.. |]. change (refill_netbuf (sw r) = true). rewrite <- Hsw. exact Erf. }
  intros n2 r2 fs2 w2 Hr2 Hv2 Ha2. do 2 apply wpm_ret. apply (Hgo _ _ fs2 r2); [done | intros ->; rewrite Hv2; auto |].
  by rewrite <- (list_insert_insert_eq l _ (Some r2) (Some r')).
Qed.

(** ** Re-applying the features *)
Lemma moved_any j k qs qs' (w1 w : world D) : moved j qs w1 w -> moved k qs' w1 w.
Proof. intros [Hok Hc]. split; [exact Hok | exact Hc]. Qed.

Lemma moved_then j k qs f h (t wc w' : world D) :
  moved j qs t wc -> beside_admin f -> moved k qs (set_w_heap h (upd f wc)) w' -> moved k qs (set_w_heap h (upd f t)) w'.
Proof.
  intros Hm Hf [Hok Hc]. split; [exact Hok |].
  destruct (moved_set_heap _ _ _ _ h (moved_mod _ _ _ _ f Hm Hf)) as [_ Hc']. by etrans.
Qed.

(** The features of the adapter. *)
Definition features (attr : device_attr) (mtu : Z) (aen : aen_report) (a : ena_adapter) : ena_adapter :=
  set_ad_attr attr (set_ad_mtu mtu (set_ad_aen aen a)).

Definition reapplied (hb : heap) w w' : Prop :=
  exists attr mtu aen s h, moved 0 (∅, ∅) (set_w_heap h (upd (set_rss_info s) (upd (features attr mtu aen) w))) w'
    /\ owned hb h (rss_blocks s) /\ wf_rss s.

Lemma reapplied_plain hb w attr mtu aen w' :
  wf_rss (rss_info (w_adapter w)) -> owned hb (w_heap w) (rss_blocks (rss_info (w_adapter w))) ->
  moved 0 (∅, ∅) (upd (features attr mtu aen) w) w' -> reapplied hb w w'.
Proof.
  intros Hwf Ho Hm. exists attr, mtu, aen, (rss_info (w_adapter w)), (w_heap w). split_and!; [| done..].
  destruct w as [? [] ? ? ? ?]. exact Hm.
Qed.

(** On the way: only features have changed. *)
Definition feat_at w w' : Prop := exists attr mtu aen, moved 0 (∅, ∅) (upd (features attr mtu aen) w) w'.

Lemma feat_at_start w : recovery_ok w -> feat_at w w.
Proof.
  intros Hok. exists (ad_attr (w_adapter w)), (ad_mtu (w_adapter w)), (ad_aen (w_adapter w)).
  replace (upd _ w) with w by (by destruct w as [? [] ? ? ? ?]). apply moved_start. exact Hok.
Qed.

Lemma feat_attr w wi : feat_at w wi -> wpm ena_init_get_device_attributes (fun _ => feat_at w) wi.
Proof.
  intros (attr & mtu & aen & Hm). eapply (get_attr_rule 0); [by apply (moved_any 0 _ _ (∅, ∅) _ _ Hm) | |].
  - intros attr' w' _ Hm'. exists attr', mtu, aen. exact Hm'.
  - intros ret w' _ Hm'. exists attr, mtu, aen. exact Hm'.
Qed.

Lemma feat_mtu m w wi : feat_at w wi -> wpm (ena_init_set_mtu m) (fun _ => feat_at w) wi.
Proof.
  intros (attr & mtu & aen & Hm). eapply (set_mtu_rule 0); [by apply (moved_any 0 _ _ (∅, ∅) _ _ Hm) | |].
  - intros w' _ Hm'. exists attr, m, aen. exact Hm'.
  - intros ret w' _ Hm'. exists attr, mtu, aen. exact Hm'.
Qed.

Lemma feat_aenq w wi : feat_at w wi -> wpm ena_init_config_aenq (fun _ => feat_at w) wi.
Proof.
  intros (attr & mtu & aen & Hm). eapply (config_aenq_rule 0); [by apply (moved_any 0 _ _ (∅, ∅) _ _ Hm) |].
  intros groups w' _ Hm'. exists attr, mtu, (set_aenq_enabled_groups groups aen). exact Hm'.
Qed.

(** One optional step. *)
Lemma feat_step (b : bool) (m : M D Z) (k : Z -> Z) ret w wi :
  (feat_at w wi -> wpm m (fun _ => feat_at w) wi) -> feat_at w wi ->
  wpm (if b then r ← m; mret (k r) else mret ret) (fun _ => feat_at w) wi.
Proof.
  intros Hm Hf. destruct b; [| by apply wpm_ret]. apply wpm_bind. eapply wpm_mono; [by apply Hm |]. intros r w' Hw. by apply wpm_ret.
Qed.

Lemma feat_at_ad w wi : feat_at w wi ->
  ad_io (w_adapter wi) = ad_io (w_adapter w) /\ rss_info (w_adapter wi) = rss_info (w_adapter w) /\ w_heap wi = w_heap w /\ recovery_ok wi.
Proof.
  intros (attr & mtu & aen & Hm). rewrite (moved_ad _ _ _ _ Hm). split_and!; [done | done | apply (moved_heap _ _ _ _ Hm) | apply (mv_ok _ _ _ _ Hm)].
Qed.

Lemma reapply_spec hb w :
  recovery_ok w -> rings_ok false (ad_io (w_adapter w)) ->
  wf_rss (rss_info (w_adapter w)) -> owned hb (w_heap w) (rss_blocks (rss_info (w_adapter w))) ->
  wpm ena_init_reapply_device_features (fun _ w' => reapplied hb w w') w.
Proof.
  intros Hok [Hnum Hrings] Hwf Ho. apply wpm_bind. eapply wpm_mono; [apply feat_attr, feat_at_start, Hok |]. intros r w1 Hf1.
  apply wpm_bind, wpm_get_ad, wpm_bind. eapply wpm_mono; [apply feat_step; [apply feat_mtu | exact Hf1] |]. intros ret2 w2 Hf2.
  apply wpm_bind, wpm_get_ad, wpm_bind. eapply wpm_mono; [apply feat_step; [apply feat_aenq | exact Hf2] |]. intros ret3 w3 Hf3.
  apply wpm_bind, wpm_get_ad. destruct (feat_at_ad _ _ Hf3) as (Eio & Ers & Eh & Hok3). rewrite Eio.
  destruct Hf3 as (attr & mtu & aen & Hm3). destruct (Z.ltb_spec 1 (num_rx_rings (ad_io (w_adapter w)))).
  2: { apply wpm_ret. by eapply reapplied_plain. }
  apply wpm_bind. eapply wpm_mono; [apply (rss_configure_spec _ 0 (∅, ∅) hb) |].
  - exact Hok3.
  - simpl in Hnum. lia.
  - rewrite Eio. unfold rings_cover. destruct (rx_rings (ad_io (w_adapter w))) eqn:El; [| done]. by apply Hrings.
  - rewrite Eio. exact Hnum.
  - by rewrite Ers.
  - by rewrite Eh, Ers.
  - intros r' w4 (s & Hs & (h & Hm4 & Ho4) & _). apply wpm_ret. exists attr, mtu, aen, s, h. split_and!; [| done..].
    refine (moved_then 0 0 _ (set_rss_info s) h _ _ _ Hm3 _ Hm4). done.
Qed.

(** ** All rings *)

(** A table after the recovery: the same rings, sound, and live if the result is 0. *)
Definition tab_live (tx : bool) (io io' : io_rings) (ret : Z) : Prop :=
  match rings_of tx io, rings_of tx io' with
  | None, None => True
  | Some l, Some l' => non_null <$> l' = non_null <$> l /\ rings_sound tx l'
      /\ (ret = 0 -> live_below (Z.to_nat (num_rings tx io)) l')
  | _, _ => False
  end.

Lemma recreate_none tx n q ret created w :
  rings_of tx (ad_io (w_adapter w)) = None -> recreate_rings tx n q ret created w = Ret ((ret, created), w).
Proof.
  intros El. revert q. induction n as [| n IH]; intros q; [done |]. cbn [recreate_rings].
  rewrite (M_bind_ret _ _ _ None w); [apply IH |]. unfold ring_at. by rewrite El.
Qed.

Definition ready_0 (io : io_rings) (u : uk_state) : Prop :=
  forall l r, rx_rings io = Some l -> l !! 0%nat = Some (Some r) -> refill_netbuf r = true -> ready_at r u.

Lemma ready_0_kept io u u' : uk_kept u u' -> ready_0 io u -> ready_0 io u'.
Proof. intros Hu Hr l r El Hl Hn. by apply (ready_at_kept r r u), (Hr l). Qed.

Lemma recreate_tab tx ret created w0 io fs w :
  rec_at w0 io fs w -> rings_ok tx io -> ready_0 io (w_uk w) ->
  wpm (recreate_rings tx (Z.to_nat (num_rings tx io)) 0 ret created) (fun '(ret', _) w' => exists io' fs',
    rec_at w0 io' (fs ++ fs') w' /\ tab_live tx io io' ret' /\ rings_of (negb tx) io' = rings_of (negb tx) io
    /\ num_tx_rings io' = num_tx_rings io /\ num_rx_rings io' = num_rx_rings io /\ (ret' = 0 -> ret = 0)) w.
Proof.
  intros Ha [Hn Hl] Hrdy. destruct (rings_of tx io) as [l |] eqn:El.
  - destruct (Hl l eq_refl) as [Hlen Hs].
    eapply wpm_mono; [apply (recreate_spec tx _ 0 ret created w0 io fs l w Ha El); [lia | lia | done | intros _ i r Hi; simpl in Hi; lia | ] |].
    + intros -> _ r Hr. by apply (Hrdy l).
    + intros [ret' c] w' (l' & fs' & Ha' & Esh & Hs' & Hv). exists (set_rings_of tx (Some l') io), fs'.
      split; [done |]. unfold tab_live. rewrite El, rings_of_set. split; [| by destruct tx; split_and!; try done; intros E; apply Hv].
      split_and!; [done.. |]. intros E. destruct (Hv E) as [_ Hv']. by rewrite Z.add_0_l, Z2Nat.id in Hv' by lia.
  - eapply wpm_of_result; [apply recreate_none; by rewrite (rec_at_io _ _ _ _ Ha) |]. exists io, [].
    rewrite app_nil_r. unfold tab_live. rewrite El. by split_and!.
Qed.

Lemma frame_admin_blocks (w w' : world D) : exec_frame w w' -> admin_blocks (w_adapter w') = admin_blocks (w_adapter w).
Proof.
  intros [_ _ Ea _ Eq _ _ (i1 & p1 & E1) (i2 & p2 & E2)]. unfold admin_blocks. rewrite E1, E2, Eq.
  assert (ad_host (w_adapter w') = ad_host (w_adapter w)) as -> by (by rewrite Ea). done.
Qed.

(** The heap of everything but some blocks. *)
Definition base_heap (h0 : heap) (A : list Z) : heap := mkHeap (h_next h0) (h_live h0 ∪ list_to_set A) (h_oracle h0) (h_phys h0).

Lemma owned_base h0 h A R :
  owned h0 h (A ++ R) <-> (NoDup A /\ forall p, p ∈ A -> p ∉ h_live h0) /\ owned (base_heap h0 A) h R.
Proof.
  split.
  - intros [Hwf Hnd Hnew Hl]. apply NoDup_app in Hnd as (HA & HAR & HR). split; [split; [done | set_solver] |].
    split; [done | done | simpl; set_solver | rewrite Hl; simpl; set_solver].
  - intros [[HA HnA] [Hwf HR Hnew Hl]]. simpl in *. split; [done | apply NoDup_app; split_and!; [done | set_solver | done] | | rewrite Hl; set_solver].
    intros p [Hp | Hp]%elem_of_app; [by apply HnA | set_solver].
Qed.

(** What [ena_adapter_recover_io_rings] leaves. *)
Record io_recovered (h0 : heap) (ret : Z) w w' : Prop := {
  ir_ok : recovery_ok w';
  ir_uk : uk_kept (w_uk w) (w_uk w');
  ir_rings tx : tab_live tx (ad_io (w_adapter w)) (ad_io (w_adapter w')) ret;
  ir_num tx : num_rings tx (ad_io (w_adapter w')) = num_rings tx (ad_io (w_adapter w));
  ir_own : driver_owned h0 w' /\ wf_rss (rss_info (w_adapter w'));
  ir_log : exists es, w_log w' = w_log w ++ es;
  ir_hdl : aenq_handler (ad_adm (w_adapter w')) = aenq_handler (ad_adm (w_adapter w))
    /\ aenq_handler_arg (ad_adm (w_adapter w')) = aenq_handler_arg (ad_adm (w_adapter w));
  ir_active : recover_active (w_adapter w') = recover_active (w_adapter w)
}.

Lemma tab_live_ok tx io io' ret : rings_ok tx io -> num_rings tx io' = num_rings tx io -> tab_live tx io io' ret -> rings_ok tx io'.
Proof.
  intros [Hn Hl] En Ht. unfold rings_ok, tab_live in *. rewrite En. split; [done |]. intros l' El'. rewrite El' in Ht.
  destruct (rings_of tx io) as [l |]; [| done]. destruct Ht as (Esh & Hs & _). destruct (Hl l eq_refl).
  apply (f_equal length) in Esh. rewrite !length_fmap in Esh. split; [lia | done].
Qed.

Lemma io_rec_plain h0 ret w io2 fs w2 :
  rec_at w io2 fs w2 -> (forall tx, tab_live tx (ad_io (w_adapter w)) io2 ret) ->
  (forall tx, num_rings tx io2 = num_rings tx (ad_io (w_adapter w))) ->
  driver_owned h0 w -> wf_rss (rss_info (w_adapter w)) -> io_recovered h0 ret w w2.
Proof.
  intros Ha Hl Hn Hown Hwf. pose proof (rec_at_io _ _ _ _ Ha) as Eio. destruct Ha as [Hok Hu Hf (es & El & _)].
  pose proof (frame_admin_blocks _ _ Hf) as Eb. destruct Hf as [Ec Eh Ea _ _ Ehd Ear _ _].
  assert (rss_info (w_adapter w2) = rss_info (w_adapter w)) as Ers by (by rewrite Ea).
  split; try done; [by rewrite Eio | by rewrite Eio | | by exists es | by rewrite Ea].
  unfold driver_owned. rewrite Eb, Ers, Eh. done.
Qed.

Lemma io_rec_reapplied h0 ret ret' w w2 w' :
  io_recovered h0 ret w w2 -> (ret' = 0 -> ret = 0) ->
  reapplied (base_heap h0 (admin_blocks (w_adapter w2))) w2 w' -> io_recovered h0 ret' w w'.
Proof.
  intros [Hok Ec Hl Hn [Hown Hwf] (es & El) [Eh1 Eh2] Eac] Hret (attr & mtu & aen & s & h & [Hok' [Hf (es' & El' & _)]] & Ho & Hs).
  pose proof (frame_admin_blocks _ _ Hf) as Eb. destruct Hf as [Ec' Eh Ea _ _ Ehd Ear _ _].
  assert (ad_io (w_adapter w') = ad_io (w_adapter w2)) as Eio by (by rewrite Ea).
  assert (rss_info (w_adapter w') = s) as Ers by (by rewrite Ea).
  split; [exact Hok' | rewrite Ec'; exact Ec | | intros tx; by rewrite Eio | | | | by rewrite Ea].
  - intros tx. specialize (Hl tx). unfold tab_live in *. rewrite Eio. destruct (rings_of tx (ad_io (w_adapter w))), (rings_of tx (ad_io (w_adapter w2))); try done.
    destruct Hl as (? & ? & ?). split_and!; auto.
  - rewrite Ers. split; [| done]. unfold driver_owned. rewrite Eb, Ers, Eh. apply owned_base. split; [| exact Ho].
    by apply owned_base in Hown as [? _].
  - exists (es ++ es'). rewrite El'. change (w_log (set_w_heap _ _)) with (w_log w2). by rewrite El, app_assoc.
  - rewrite Ehd, Ear. done.
Qed.

Lemma recover_io_spec h0 w :
  recovery_ok w -> rings_ok true (ad_io (w_adapter w)) -> rings_ok false (ad_io (w_adapter w)) -> ready_0 (ad_io (w_adapter w)) (w_uk w) ->
  driver_owned h0 w -> wf_rss (rss_info (w_adapter w)) ->
  wpm ena_adapter_recover_io_rings (fun ret w' => io_recovered h0 ret w w') w.
Proof.
  intros Hok Ht Hr Hrdy Hown Hwf. set (io := ad_io (w_adapter w)) in *.
  assert (rec_at w io [] w) as Ha0.
  { split; [done | done | | exists []; by rewrite app_nil_r]. replace (set_w_uk _ _) with w by (by destruct w as [? [] ? ? ? ?]). done. }
  apply wpm_bind, wpm_get_ad, wpm_bind. eapply wpm_mono; [apply (recreate_tab true 0 0 w io [] w Ha0 Ht Hrdy) |].
  intros [ret1 c1] w1 (io1 & fs1 & Ha1 & Hl1 & E1 & N1 & N1' & _). simpl in E1.
  assert (rings_ok false io1) as Hr1 by (unfold rings_ok in *; cbn [rings_of num_rings] in *; by rewrite E1, N1').
  assert (ready_0 io1 (w_uk w1)) as Hrdy1 by (apply (ready_0_kept _ _ _ (ra_uk _ _ _ _ Ha1)); unfold ready_0 in *; by rewrite E1).
  apply wpm_bind, wpm_get_ad, wpm_bind. rewrite (rec_at_io _ _ _ _ Ha1).
  eapply wpm_mono; [apply (recreate_tab false ret1 0 w io1 _ w1 Ha1 Hr1 Hrdy1) |].
  intros [ret2 c2] w2 (io2 & fs2 & Ha2 & Hl2 & E2 & N2 & N2' & Hret). simpl in E2.
  assert (forall tx, tab_live tx io io2 ret2) as Hlive.
  { intros [].
    - unfold tab_live in *. cbn [rings_of num_rings] in *. rewrite E2. destruct (tx_rings io), (tx_rings io1); try done.
      destruct Hl1 as (? & ? & ?). split_and!; auto.
    - unfold tab_live in *. cbn [rings_of num_rings] in *. by rewrite E1, N1' in Hl2. }
  assert (forall tx, num_rings tx io2 = num_rings tx io) as Hnum by (intros []; simpl; congruence).
  assert (io_recovered h0 ret2 w w2) as Hir by (by apply (io_rec_plain h0 ret2 w io2 _ w2 Ha2)).
  destruct (z2b c1 || z2b c2); [| by apply wpm_ret].
  pose proof (ir_own _ _ _ _ Hir) as [Hown2 Hwf2]. apply wpm_bind. eapply wpm_mono.
  { apply (reapply_spec (base_heap h0 (admin_blocks (w_adapter w2))) w2); [apply Hir | | done | by apply owned_base in Hown2 as [_ ?]].
    rewrite (rec_at_io _ _ _ _ Ha2). by apply (tab_live_ok false io io2 ret2). }
  intros fret w' Hre. apply wpm_ret. apply (io_rec_reapplied h0 ret2 _ w w2 w' Hir); [| done].
  unfold z2b, first_error. destruct (Z.eqb_spec fret 0), (Z.eqb_spec ret2 0); cbn [negb]; lia.
Qed.

(** ** The whole recovery *)

Lemma has_ring_spec tx n q w :
  rings_ok tx (ad_io (w_adapter w)) -> 0 <= q -> q + Z.of_nat n <= num_rings tx (ad_io (w_adapter w)) ->
  wpm (has_ring tx n q) (fun _ w' => w' = w) w.
Proof.
  intros [Hn Hl]. revert q. induction n as [| n IH]; intros q Hq Hle; cbn [has_ring]; [by apply wpm_ret |].
  apply wpm_bind. assert (wpm (ring_at tx q) (fun _ w' => w' = w) w) as Hr.
  { destruct (rings_of tx (ad_io (w_adapter w))) as [l |] eqn:El.
    - destruct (Hl l eq_refl). by eapply wpm_ring_at; [done | lia |].
    - unfold wpm, ring_at. by rewrite El. }
  eapply wpm_mono; [exact Hr |]. intros r w' ->. destruct (non_null r); [by apply wpm_ret | apply IH; lia].
Qed.

Lemma has_io_rings_spec w :
  rings_ok true (ad_io (w_adapter w)) -> rings_ok false (ad_io (w_adapter w)) -> wpm ena_adapter_has_io_rings (fun _ w' => w' = w) w.
Proof.
  intros Ht Hr. apply wpm_bind, wpm_get_ad, wpm_bind.
  eapply wpm_mono; [apply (has_ring_spec true _ 0 w Ht); [lia |]; destruct Ht as [? _]; simpl in *; lia |].
  intros b w' ->. destruct b; [by apply wpm_ret |]. apply (has_ring_spec false _ 0 w Hr); [lia |]. destruct Hr as [? _]. simpl in *. lia.
Qed.

Lemma rings_ok_reset tx io : rings_ok tx io -> rings_ok tx (reset_io io).
Proof.
  intros [Hn Hl]. assert (num_rings tx (reset_io io) = num_rings tx io) as En by (by destruct tx).
  assert (rings_of tx (reset_io io) = reset_tab tx io) as Er by (by destruct tx). unfold rings_ok. rewrite En, Er. split; [done |].
  unfold reset_tab. intros l' El. destruct (rings_of tx io) as [l |]; [| done]. injection El as <-. destruct (Hl l eq_refl).
  rewrite length_reset_seg. split; [done | by apply reset_seg_sound].
Qed.

Lemma ready_0_reset io u : ready_0 io u -> ready_0 (reset_io io) u.
Proof.
  intros Hr l r El Hl Hn. change (rx_rings (reset_io io)) with (reset_tab false io) in El. unfold reset_tab in El.
  cbn [rings_of] in El. destruct (rx_rings io) as [l0 |] eqn:E0; [| done]. apply (inj Some) in El as <-.
  rewrite reset_seg_lookup in Hl. case_decide; [| by apply (Hr l0)]. destruct (l0 !! 0%nat) as [[r0 |] |] eqn:E1; try done.
  injection Hl as <-. by apply (ready_at_kept r0 _ u), (Hr l0).
Qed.

Lemma tab_live_reset tx io io' ret : tab_live tx (reset_io io) io' ret -> tab_live tx io io' ret.
Proof.
  unfold tab_live. assert (rings_of tx (reset_io io) = reset_tab tx io) as -> by (by destruct tx).
  assert (num_rings tx (reset_io io) = num_rings tx io) as -> by (by destruct tx). unfold reset_tab.
  destruct (rings_of tx io) as [l |], (rings_of tx io'); try done. simpl. by rewrite reset_seg_shape.
Qed.

Lemma feat_at_rest h0 w wi :
  feat_at w wi -> driver_owned h0 w ->
  driver_owned h0 wi /\ (exists es, w_log wi = w_log w ++ es)
  /\ aenq_handler (ad_adm (w_adapter wi)) = aenq_handler (ad_adm (w_adapter w))
  /\ aenq_handler_arg (ad_adm (w_adapter wi)) = aenq_handler_arg (ad_adm (w_adapter w)).
Proof.
  intros (attr & mtu & aen & [_ [Hf (es & El & _)]]) Hown. pose proof (frame_admin_blocks _ _ Hf) as Eb. destruct Hf as [_ Eh Ea _ _ Ehd Ear _ _].
  assert (rss_info (w_adapter wi) = rss_info (w_adapter w)) as Ers by (by rewrite Ea).
  split_and!; [unfold driver_owned; by rewrite Eb, Ers, Eh | by exists es | done | done].
Qed.

(** What a recovery needs: a mapped register window, no lock and no recovery under way,
    queue depths of 16 bits, sound rings, and memory in order; the queue behind RX ring 0
    has a bounce pool for the ring. *)
Record recoverable (h0 : heap) (w : world D) : Prop := {
  rv_bar : exists b, bar0_base (ad_bars (w_adapter w)) = Some b;
  rv_lock : admin_lock (ad_adm (w_adapter w)) = 0;
  rv_active : recover_active (w_adapter w) = 0;
  rv_aq : 0 <= q_depth (aq (ad_adm (w_adapter w))) < 65536;
  rv_acq : 0 <= q_depth (acq (ad_adm (w_adapter w))) < 65536;
  rv_aenq : 0 <= q_depth (aenq (ad_adm (w_adapter w))) < 65536;
  rv_rings tx : rings_ok tx (ad_io (w_adapter w));
  rv_own : driver_owned h0 w;
  rv_rss : wf_rss (rss_info (w_adapter w));
  rv_ready : ready_0 (ad_io (w_adapter w)) (w_uk w)
}.

Record recovered (h0 : heap) (ret : Z) (w w' : world D) : Prop := {
  rd_active : recover_active (w_adapter w') = 0;
  rd_lock : admin_lock (ad_adm (w_adapter w')) = 0;
  rd_own : driver_owned h0 w' /\ wf_rss (rss_info (w_adapter w'));
  rd_uk : uk_kept (w_uk w) (w_uk w');
  rd_rings tx : tab_live tx (ad_io (w_adapter w)) (ad_io (w_adapter w')) ret;
  rd_freed : exists es1 es2, w_log w' = w_log w ++ es1 ++ es2
    /\ freed es1 = held_tab true (ad_io (w_adapter w)) ++ held_tab false (ad_io (w_adapter w));
  rd_admin : wf_admin w' /\ aenq_handler (ad_adm (w_adapter w')) = aenq_handler (ad_adm (w_adapter w))
      /\ (aenq_handler (ad_adm (w_adapter w)) <> None -> aenq_handler_arg (ad_adm (w_adapter w')) = aenq_handler_arg (ad_adm (w_adapter w)))
    \/ ret < 0 /\ ad_io (w_adapter w') = reset_io (ad_io (w_adapter w))
}.

(** The end: the recovery flag is cleared. *)
Lemma recovered_done h0 ret w wm w' es1 :
  io_recovered h0 ret wm w' -> ad_io (w_adapter wm) = reset_io (ad_io (w_adapter w)) ->
  w_uk wm = w_uk w -> (exists es2, w_log wm = w_log w ++ es1 ++ es2) ->
  freed es1 = held_tab true (ad_io (w_adapter w)) ++ held_tab false (ad_io (w_adapter w)) ->
  aenq_handler (ad_adm (w_adapter wm)) = aenq_handler (ad_adm (w_adapter w)) ->
  (aenq_handler (ad_adm (w_adapter w)) <> None -> aenq_handler_arg (ad_adm (w_adapter wm)) = aenq_handler_arg (ad_adm (w_adapter w))) ->
  recovered h0 ret w (upd (set_recover_active 0) w').
Proof.
  intros [(Hwa & Hlk & _) Hu Hl _ Hown (es & El) [Eh1 Eh2] _] Eio Eu (es2 & Elog) Hes Eh Ear.
  split; [done | done | exact Hown | rewrite <- Eu; exact Hu | | |].
  - intros tx. specialize (Hl tx). rewrite Eio in Hl. by apply tab_live_reset.
  - exists es1, (es2 ++ es). split; [| done]. change (w_log (upd _ w')) with (w_log w'). by rewrite El, Elog, !app_assoc.
  - left. split; [destruct Hwa; by split |]. change (ad_adm (w_adapter (upd _ w'))) with (ad_adm (w_adapter w')). rewrite Eh1, Eh2. done.
Qed.

(** A recovery that stops at the reset. *)
Lemma recovered_failed h0 ret w w' es1 :
  ret < 0 -> driver_owned h0 w' -> wf_rss (rss_info (w_adapter w')) -> ad_io (w_adapter w') = reset_io (ad_io (w_adapter w)) ->
  (forall tx, rings_ok tx (ad_io (w_adapter w))) -> admin_lock (ad_adm (w_adapter w')) = 0 ->
  w_uk w' = w_uk w -> (exists es2, w_log w' = w_log w ++ es1 ++ es2) ->
  freed es1 = held_tab true (ad_io (w_adapter w)) ++ held_tab false (ad_io (w_adapter w)) ->
  recovered h0 ret w (upd (set_recover_active 0) w').
Proof.
  intros Hret Hown Hwf Eio Hr Hlk Eu (es2 & Elog) Hes. split; [done | done | by split | change (uk_kept (w_uk w) (w_uk w')); by rewrite Eu | | by exists es1, es2 | by right].
  intros tx. change (ad_io (w_adapter (upd _ w'))) with (ad_io (w_adapter w')). rewrite Eio. apply tab_live_reset.
  destruct (rings_ok_reset tx _ (Hr tx)) as [_ Hl]. unfold tab_live.
  destruct (rings_of tx (reset_io (ad_io (w_adapter w)))) as [l |]; [| done]. destruct (Hl l eq_refl). split_and!; [done.. | lia].
Qed.

Lemma recover_spec h0 w :
  recoverable h0 w -> wpm ena_adapter_reset_and_recover (fun ret w' => recovered h0 ret w w') w.
Proof.
  intros [[b Hb] Hlk Hact H1' H2' H3' Hr Hown Hwf Hrdy]. apply wpm_bind, wpm_get_ad. rewrite Hact. cbn [z2b negb Z.eqb].
  apply wpm_bind, wpm_mod_ad, wpm_bind, wpm_mod_ad, wpm_bind. set (w1 := set_w_adapter _ _).
  eapply wpm_mono; [apply (invalidate_spec w1 (Hr true) (Hr false)) |]. intros _ w2 (es1 & -> & Hes1).
  apply wpm_bind, wpm_lock_take; [exact Hlk |]. set (w3 := set_w_adapter _ _). apply wpm_bind.
  eapply wpm_mono; [apply (reinit_spec h0 b _ _ w3); [exact Hb | exact Hown | exact H1' | exact H2' | exact H3'] |].
  intros [rret iret] w4 [Eu4 Hown4 (es4 & El4 & _) (st & adm & host & Ea4 & Elk4) Hok4 Herr4].
  apply wpm_bind, wpm_mod_adm. set (w5 := set_w_adapter _ w4).
  assert (ad_io (w_adapter w5) = reset_io (ad_io (w_adapter w))) as Eio by (unfold w5; wsimpl; by rewrite Ea4).
  assert (rss_info (w_adapter w5) = rss_info (w_adapter w)) as Ers by (unfold w5; wsimpl; by rewrite Ea4).
  assert (recover_active (w_adapter w5) = 1) as Eac by (unfold w5; wsimpl; by rewrite Ea4).
  assert (w_log w5 = w_log w ++ es1 ++ es4) as El5.
  { change (w_log w5) with (w_log w4). rewrite El4. change (w_log w3) with (w_log w ++ es1). by rewrite app_assoc. }
  destruct (z2b rret || z2b iret) eqn:Ez.
  { apply wpm_bind, wpm_mod_ad, wpm_ret. apply (recovered_failed h0 _ w w5 es1); try done; [| by rewrite Ers | by exists es4].
    unfold z2b in *. destruct (Z.eqb_spec rret 0), (Z.eqb_spec iret 0); cbn in Ez |- *; try done; lia. }
  apply orb_false_iff in Ez as [Ez1%negb_false_iff%Z.eqb_eq Ez2%negb_false_iff%Z.eqb_eq].
  destruct (Hok4 Ez1 Ez2) as (Hwa4 & _ & Hh4 & Harg4).
  assert (recovery_ok w5) as Hok5 by (split_and!; [by apply lock_wf | done | by rewrite Eac]).
  apply wpm_bind. eapply wpm_mono; [apply (has_io_rings_spec w5); rewrite Eio; by apply rings_ok_reset |]. intros bb w' ->.
  apply wpm_bind, wpm_get_ad, wpm_bind.
  assert (wpm (if negb bb && z2b (aenq_enabled_groups (ad_aen (w_adapter w5))) then ena_init_config_aenq;; mret tt else mret tt)
    (fun _ => feat_at w5) w5) as Haen.
  { case_match; [| apply wpm_ret, feat_at_start, Hok5]. apply wpm_bind.
    eapply wpm_mono; [apply feat_aenq, feat_at_start, Hok5 |]. intros r w' Hf. by apply wpm_ret. }
  eapply wpm_mono; [exact Haen |]. intros u w6 Hf6. cbv beta in Hf6. destruct (feat_at_ad _ _ Hf6) as (Eio6 & Ers6 & _ & Hok6).
  destruct (feat_at_rest h0 _ _ Hf6 Hown4) as (Hown6 & (es6 & El6) & Eh6 & Ear6). rewrite Eio in Eio6. rewrite Ers in Ers6.
  assert (w_uk w6 = w_uk w) as Eu6.
  { destruct Hf6 as (attr & mtu & aen & [_ [Hf _]]). rewrite (ef_cpu _ _ Hf). exact Eu4. }
  apply wpm_bind. eapply wpm_mono.
  { apply (recover_io_spec h0 w6 Hok6); rewrite ?Eio6, ?Ers6, ?Eu6; try done; try (by apply rings_ok_reset). by apply ready_0_reset. }
  intros ret w7 Hir. apply wpm_bind, wpm_mod_ad, wpm_ret. apply (recovered_done h0 ret w w6 w7 es1 Hir Eio6 Eu6); [| done | |].
  - exists (es4 ++ es6). by rewrite El6, El5, !app_assoc.
  - rewrite Eh6. exact Hh4.
  - intros Hne. rewrite Ear6. by apply Harg4.
Qed.
End Live.

(** ** The knot *)
Section Knot.
Context {D : Type} `{EnaDeviceOk D}.
Implicit Types w : world D.

(** A recovery under way is not entered again. *)
Lemma recover_refuses n : refuses_nested (recover (D := D) (S n)).
Proof.
  intros w Hw. cbn [recover]. unfold ena_adapter_reset_and_recover. rewrite (M_bind_ret get_ad _ w (w_adapter w) w) by done.
  unfold z2b. by rewrite (proj2 (Z.eqb_neq _ _) Hw).
Qed.

Lemma recover_enough n h0 w : recoverable h0 w -> wpm (recover (2 + n)) (fun ret w' => recovered h0 ret w w') w.
Proof. exact (recover_spec (recover (S n)) (recover_refuses n) h0 w). Qed.

(** C2: Recovery, against any device whatsoever.  However the device answers or fails to
    answer the commands of the recovery, and whatever allocations fail, the recovery ends
    (two levels of recursion are enough, more change nothing).  Then no lock is held and no
    recovery is marked as running; the control plane and RSS own exactly the blocks they
    record; every netbuf the rings held was released, once, before anything else; the same
    rings exist, well-formed and unlocked; and if 0 is returned every one of them is live
    again and the event handler is registered as before.  A recovery that stops at the reset
    returns an error and leaves every ring invalid. *)
Theorem recovery_correct n h0 w :
  recoverable h0 w -> wpm (recover (2 + n)) (fun ret w' => recovered h0 ret w w') w.
Proof. apply recover_enough. Qed.

Lemma recoverable_calm h0 w w' : wf_admin w' -> exec_calm w w' -> recoverable h0 w -> recoverable h0 w'.
Proof.
  intros Hwa [Hf _] [[b Hb] Hlk Hact _ _ _ Hr Hown Hwf Hrdy]. pose proof (frame_admin_blocks _ _ Hf) as Eb.
  destruct Hf as [Eu Eh Ea El _ _ _ _ _].
  assert (forall q mem, queue_ok q mem -> 0 <= q_depth q < 65536) as Hq.
  { intros q mem (_ & Hd & _). pose proof (pow2_depth_bounds _ Hd). lia. }
  assert (ad_io (w_adapter w') = ad_io (w_adapter w)) as Eio by (by rewrite Ea).
  assert (rss_info (w_adapter w') = rss_info (w_adapter w)) as Ers by (by rewrite Ea).
  split; rewrite ?Eio, ?Ers, ?Eu; try done.
  - exists b. by rewrite Ea.
  - congruence.
  - by rewrite Ea.
  - apply (Hq _ _ (wa_aq _ Hwa)).
  - apply (Hq _ _ (wa_acq _ Hwa)).
  - apply (Hq _ _ (wa_aenq _ Hwa)).
  - unfold driver_owned. by rewrite Eb, Ers, Eh.
Qed.

End Knot.

(** ** Examples: a TX and an RX ring on the device of [Device] *)
Definition ex_rx_ring : ena_ring := set_ring_callbacks true true false true (example_ring ENA_RING_TYPE_RX 4).
Definition ex_live_io : io_rings :=
  mkIo (Some [Some (set_hw_valid true example_busy)]) (Some [Some (set_hw_valid true ex_rx_ring)]) 1 1 None None.
(** The first RX queue has a bounce pool, and netbufs 100, 101, ... are to be had. *)
Definition ex_uk : uk_state :=
  set_uk_netbufs ((fun n => Some (mkNetbuf n (n * 0x1000000) 2048)) <$> seqZ 100 8)
    (set_rx_queues [mkRxSlot None 0 example_rxq (mkBounceBlk None None None) []] uk_zero).
Definition ex_live : world ex_dev :=
  set_w_uk ex_uk (set_w_adapter (set_ad_io ex_live_io (w_adapter ex_started)) ex_started).

Lemma ex_busy_wf : wf_tx example_busy.
Proof.
  split; [exact example_busy_wf | done | |].
  - intros id _ (x & Hx & Hne). exists x. split; [exact Hx | exact Hne].
  - split; [by eexists | done | constructor | intros e He; by apply not_elem_of_nil in He].
Qed.

Lemma ex_live_rings tx : rings_ok tx ex_live_io.
Proof.
  destruct tx; (split; [done |]); intros l [= <-]; (split; [done |]); intros [| i] r; [| done | | done]; intros [= <-].
  - split_and!; [| done | done]. exact (proj1 (wf_tx_sw (set_hw_valid true example_busy)) (proj2 (wf_tx_sw example_busy) ex_busy_wf)).
  - split_and!; [| done | done]. destruct example_rx_wf as [[? ? ? ? ? ? ? []] ?]. split; [split; try done; by split | done].
Qed.

(** The blocks of a world do not depend on its rings. *)
Lemma driver_owned_io {D} h0 u io (w : world D) :
  driver_owned h0 (set_w_uk u (set_w_adapter (set_ad_io io (w_adapter w)) w)) <-> driver_owned h0 w.
Proof. done. Qed.

Lemma owned_all h a1 a2 a3 :
  wf_heap h -> NoDup [a1; a2; a3] -> h_live h = {[a1; a2; a3]} ∪ ∅ -> owned example_heap h (([a1; a2; a3] ++ option_list None) ++ []).
Proof. intros Hh Hnd El. split; [done | done | set_solver |]. rewrite El. set_solver. Qed.

Lemma ex_live_owned : driver_owned example_heap ex_live.
Proof.
  apply driver_owned_io. destruct ex_started_ok as [_ Hown (a1 & a2 & a3 & Hnd & E1 & E2 & E3 & _ & El) _ _ _ _ _ _ _ _].
  unfold driver_owned. rewrite (admin_blocks_3 _ a1 a2 a3 E1 E2 E3).
  assert (rss_blocks (rss_info (w_adapter ex_started)) = []) as -> by (vm_compute; reflexivity).
  assert (host_info_base (ad_host (w_adapter ex_started)) = None) as -> by (vm_compute; reflexivity).
  exact (owned_all _ a1 a2 a3 (ao_heap _ Hown) Hnd El).
Qed.

Lemma ex_live_recoverable : recoverable example_heap ex_live.
Proof.
  split; [eexists; vm_compute; reflexivity | vm_compute; reflexivity | vm_compute; reflexivity | vm_compute; split; congruence
    | vm_compute; split; congruence | vm_compute; split; congruence | exact ex_live_rings | exact ex_live_owned | vm_compute; by split |].
  intros l r [= <-] [= <-] _. eexists _, []. split; [reflexivity |]. destruct example_rxq_ready as [? ? ?]. by split.
Qed.

(** The recovery succeeds: both rings live again, netbuf 7 of the TX ring released, three
    buffers posted to the RX ring. *)
Lemma ex_recover_result :
  wpm (recover 2) (fun ret w' => ret = 0 /\ freed (drop (length (w_log ex_live)) (w_log w')) = [7]
    /\ held_tab false (ad_io (w_adapter w')) = [100; 101; 102]) ex_live.
Proof. vm_compute. split_and!; reflexivity. Qed.

Lemma recovery_correct_witness :
  wpm (recover 2) (fun ret w' => ret = 0 /\ forall tx, tab_live tx ex_live_io (ad_io (w_adapter w')) 0) ex_live.
Proof.
  eapply wpm_mono; [exact (wpm_conj _ _ _ _ (recovery_correct 0 example_heap ex_live ex_live_recoverable) ex_recover_result) |].
  intros ret w' [Hr [-> _]]. split; [reflexivity |]. intros tx. exact (rd_rings _ _ _ _ Hr tx).
Defined.

Lemma wf_admin_io {D} u io (w : world D) :
  wf_admin w -> wf_admin (set_w_uk u (set_w_adapter (set_ad_io io (w_adapter w)) w)).
Proof. intros []. by split. Qed.

(** Two polls are not enough for this device: the command times out, and the driver recovers. *)
Lemma ex_timeout_result :
  wpm (exec_cmd ENA_ADMIN_GET_FEATURE (Some (get_feat_req 1)) 4 2) (fun '(ret, _, _) w' => ret = - ETIMEDOUT
    /\ freed (w_log w') = [7]) ex_live.
Proof. vm_compute. split; reflexivity. Qed.


(** A fatal error while no memory is left: the recovery frees the event queue and cannot
    allocate a new one, and the poll that dispatched the event goes on to read the next
    entry through the NULL base. *)
Definition ex_fatal_entry : list Z := le_bytes 2 ENA_ADMIN_FATAL_ERROR ++ [0; 0; 1] ++ replicate 59 0.
Definition ex_fatal : world ex_dev :=
  let w := ex_live in
  let a := w_adapter w in
  mkWorld (w_uk w) (set_ad_adm (set_aenq_handler_arg true (set_aenq_handler (Some AenqDefault) (ad_adm a))) a)
    (mkHeap (h_next (w_heap w)) (h_live (w_heap w)) (fun _ => false) (h_phys (w_heap w)))
    (mkMem (m_aq (w_mem w)) (m_acq (w_mem w)) (<[0%nat := ex_fatal_entry]> (m_aenq (w_mem w)))) (w_dev w) (w_log w).

Lemma fatal_without_memory_faults :
  ena_admin_aenq_poll (recover 2) (fun _ _ _ _ => mret 0) 2 ex_fatal = Fault
  /\ wpm (ena_admin_aenq_poll (recover 2) (fun _ _ _ _ => mret 0) 1) (fun n w' =>
       n = 1 /\ q_base (aenq (ad_adm (w_adapter w'))) = None) ex_fatal.
Proof. vm_compute. split_and!; reflexivity. Qed.

(** The bounce slots do not take part in a reset: slot 0, mapped to request 0 before the
    reset, is neither free nor mapped after the refill that follows it. *)
Definition ex_low_netbufs : NetbufAlloc Z := fun n => (Some (mkNetbuf n 0x8000 2048), n + 1).
Definition ex_bounced_rxq : uk_netdev_rx_queue :=
  mkRxq (mkBounce true 0x80000 4 (mkFifo (Some [0; 1; 2; 3]) 1 0 3) (Some [0; -1; -1; -1])) (-1).
Definition ex_bounced_ring : ena_ring :=
  set_hw_valid true (set_raw_bufs (Some [mkBuf (Some 50) 0x80000 2048 1 0; buf_empty; buf_empty; buf_empty])
    (set_r_pool (mkPool (mkFifo (Some [0; 1; 2; 3]) 1 0 3) (Some [1; 0; 0; 0]) (Some [1; 0; 0; 0])) ex_rx_ring)).

Lemma reset_leaks_bounce_slot :
  wf_bounce [] (rxq_bounce ex_bounced_rxq)
  /\ wp (reset_locked 0 ex_bounced_ring) (fun '(_, r, _) =>
       wp (@ena_rx_refill Z ex_low_netbufs 0 3 (set_hw_valid true r) (Some ex_bounced_rxq) 100) (fun '(n, _, rxq, _, _) => n = 3
         /\ match rxq with
            | Some q => slots_free (rxq_bounce q) = [] /\ slots_mapped (rxq_bounce q) = [1; 2; 3]
            | None => False
            end)).
Proof.
  split; [| vm_compute; split_and!; reflexivity]. split; [split; [exact pow2_depth_4 | by eexists | | |]; vm_compute; done || (split; congruence) | by eexists |].
  change (slots_free _ ++ slots_mapped _ ++ []) with [1; 2; 3; 0]. change (seqZ 0 _) with [0; 1; 2; 3].
  exact (Permutation_app_comm [1; 2; 3] [0]).
Qed.
