(* ===== verification/Netconf.v ===== *)
(** * Configuration of the network device

    The configuration operations of src/ena_netdev.c (Unikraft build): the limits the
    device reports, the tables of rings, and the set-up of a receive or transmit queue
    with its ring and its bounce pool.

    [ena_netdev_rxq_configure] and [ena_netdev_txq_configure] are the same function over
    two types of queues; they are one definition here over the class [NetdevQueue], whose
    two instances hold the lines that differ.  [running] says whether the netdev core has
    the device in state [UK_NETDEV_RUNNING]; the core is not part of the repository. *)

From stdpp Require Import base tactics option list list_numbers numbers sets gmap.
From Stdlib Require Import ZArith Lia.
From S2P Require Import Prelude Fifo Mem Desc Netq Ring Tx Rx Adapter Admin Session Exec Device Control Queue Init Rss Recover.
Open Scope Z_scope.
Open Scope list_scope.

Definition ENA_NETDEV_IOALIGN : Z := 64.
Definition ENA_MIN_RING_DESC : Z := 4.
Definition ENA_DEFAULT_RING_DESC : Z := 256.
Definition ENA_MAX_RING_DESC : Z := 4096.
Definition ENA_DEFAULT_MTU : Z := 1500.

(** ** Descriptor counts *)

(** [__builtin_clz] of a 32-bit value that is not 0. *)
Definition clz32 (v : Z) : Z := 31 - Z.log2 v.

Definition ena_netdev_round_down_pow2 (v : Z) : Z :=
  if v =? 0 then 0 else u32 (Z.shiftl 1 (31 - clz32 v)).

Definition ena_netdev_clamp_desc_count (nb_desc max_ring_size : Z) : Z :=
  let nb := if nb_desc =? 0 then if negb (max_ring_size =? 0) then max_ring_size else ENA_DEFAULT_RING_DESC
            else nb_desc in
  let nb := if negb (max_ring_size =? 0) && (max_ring_size <? nb) then max_ring_size else nb in
  let nb := if ENA_MAX_RING_DESC <? nb then ENA_MAX_RING_DESC else nb in
  let nb := if nb <? ENA_MIN_RING_DESC then ENA_MIN_RING_DESC else nb in
  u16 (ena_netdev_round_down_pow2 nb).

(** ** What the device reports *)
Record uk_netdev_queue_info := mkQueueInfo {
  nb_min : Z;
  nb_max : Z;
  nb_align : Z;
  nb_is_power_of_two : bool
}.

(** [tx] selects [ena_netdev_txq_info_get]. *)
Definition max_ring_size (tx : bool) (l : queue_limits) : Z := if tx then max_tx_ring_size l else max_rx_ring_size l.
Definition ena_netdev_q_info_get (tx : bool) (a : ena_adapter) : uk_netdev_queue_info :=
  let m := max_ring_size tx (ad_lim a) in
  mkQueueInfo 32 (if negb (m =? 0) then m else ENA_DEFAULT_RING_DESC) 1 true.

(** The fields of [struct uk_netdev_info] the driver fills; the feature flags are
    constants of the netdev core. *)
Record uk_netdev_info := mkInfo {
  info_max_rx_queues : Z;
  info_max_tx_queues : Z;
  info_max_mtu : Z;
  info_ioalign : Z
}.
Definition ena_netdev_info_get (a : ena_adapter) : uk_netdev_info :=
  let orelse v d := if negb (v =? 0) then v else d in
  mkInfo (orelse (max_rx_queues (ad_lim a)) 1) (orelse (max_tx_queues (ad_lim a)) 1)
    (orelse (max_mtu (ad_attr a)) ENA_DEFAULT_MTU) ENA_NETDEV_IOALIGN.

Definition ena_netdev_mac_get (a : ena_adapter) : list Z := mac_addr (ad_attr a).
Definition ena_netdev_mtu_get (a : ena_adapter) : Z := if negb (ad_mtu a =? 0) then ad_mtu a else ENA_DEFAULT_MTU.
Definition ena_netdev_link_get (a : ena_adapter) : bool := link_up a.
Definition ena_netdev_link_state_get (a : ena_adapter) : Z := if ena_netdev_link_get a then 1 else 0.

(** ** The two kinds of queues *)
Class NetdevQueue (S : Type) := {
  nq_tx : bool;
  nq_slots : uk_state -> list S;                          (* rx_queues, tx_queues *)
  nq_set_slots : list S -> uk_state -> uk_state;
  nq_pool : S -> bounce_pool;
  nq_blocks : S -> bounce_blocks;
  nq_set_pool : bounce_pool -> bounce_blocks -> S -> S;
  nq_released : S -> S;                                   (* the end of free_*_bounce *)
  nq_attach : option Z -> Z -> S -> S;                    (* ring and queue_id, set with the new ring *)
  nq_callbacks : ena_ring -> ena_ring;
  nq_done : S -> S                                        (* set when the pool is complete *)
}.

#[export] Instance rx_netdev_queue : NetdevQueue rxq_slot := {
  nq_tx := false;
  nq_slots := rx_queues;
  nq_set_slots := set_rx_queues;
  nq_pool s := rxq_bounce (rxs_q s);
  nq_blocks := rxs_blk;
  nq_set_pool b k s := mkRxSlot (rxs_ring s) (rxs_id s) (mkRxq b (pending_slot (rxs_q s))) k (rxs_chain s);
  nq_released s := mkRxSlot (rxs_ring s) (rxs_id s) (mkRxq (rxq_bounce (rxs_q s)) (-1)) (rxs_blk s) [];
  nq_attach r q s := mkRxSlot r q (rxs_q s) (rxs_blk s) (rxs_chain s);
  nq_callbacks := set_ring_callbacks true true false true;
  nq_done s := set_rxs_q (mkRxq (rxq_bounce (rxs_q s)) (-1)) s
}.

#[export] Instance tx_netdev_queue : NetdevQueue txq_slot := {
  nq_tx := true;
  nq_slots := tx_queues;
  nq_set_slots := set_tx_queues;
  nq_pool s := txq_bounce (txs_q s);
  nq_blocks := txs_blk;
  nq_set_pool b k s := mkTxSlot (txs_ring s) (txs_id s) (mkTxq b (bounce_in_use (txs_q s)) (bounce_wait_polls (txs_q s))) k (txs_req_id s);
  nq_released s := mkTxSlot (txs_ring s) (txs_id s) (mkTxq (txq_bounce (txs_q s)) false 0) (txs_blk s) 0;
  nq_attach r q s := mkTxSlot r q (mkTxq (txq_bounce (txs_q s)) false 0) (txs_blk s) 0;
  nq_callbacks := set_ring_callbacks false false true false;
  nq_done s := s
}.

(** ** Rings and tables *)
Section Config.
Context {D : Type} `{EnaDevice D}.

Definition ring_alloc (q ty d : Z) : M D (Z * option ena_ring) := fun w =>
  '(ret, r, h) ← ena_ring_alloc (w_heap w) q ty d d; Ret ((ret, r), set_w_heap h w).
Definition ring_free (r : ena_ring) : M D unit := fun w =>
  h ← ena_ring_free (w_heap w) r; Ret (tt, set_w_heap h w).

(** [if (table) table[q] = ring;] *)
Definition ring_store (tx : bool) (q : Z) (r : option ena_ring) : M D unit := fun w =>
  let l := rings_of tx (ad_io (w_adapter w)) in
  if non_null l then
    l ← aset l q r;
    Ret (tt, set_w_adapter (set_ad_io (set_rings_of tx l (ad_io (w_adapter w))) (w_adapter w)) w)
  else Ret (tt, w).

(** Release the ring of a queue, if there is one. *)
Definition drop_ring (tx : bool) (q : Z) : M D unit :=
  r ← ring_at tx q;
  match r with
  | Some r => ring_free r;; ring_store tx q None
  | None => mret tt
  end.

Definition set_num_rings (tx : bool) (n : Z) (io : io_rings) : io_rings :=
  if tx then set_num_tx_rings n io else set_num_rx_rings n io.
Definition set_table (tx : bool) (v : arr (option ena_ring)) (blk : option Z) (io : io_rings) : io_rings :=
  if tx then mkIo v (rx_rings io) (num_tx_rings io) (num_rx_rings io) blk (rx_rings_blk io)
  else mkIo (tx_rings io) v (num_tx_rings io) (num_rx_rings io) (tx_rings_blk io) blk.

(** A table that exists is kept, whatever its size. *)
Definition alloc_ring_array (tx : bool) (n : Z) : M D Z :=
  a ← get_ad;
  ret ← (if non_null (rings_of tx (ad_io a)) then mret 0
         else
           p ← calloc;
           match p with
           | None => mret (- ENOMEM)
           | Some _ => mod_ad (fun a => set_ad_io (set_table tx (Some (replicate (Z.to_nat n) None)) p (ad_io a)) a);; mret 0
           end);
  if z2b ret then mret ret
  else mod_ad (fun a => set_ad_io (set_num_rings tx n (ad_io a)) a);; mret 0.

Definition ena_netdev_alloc_ring_arrays (nb_rx_queues nb_tx_queues : Z) : M D Z :=
  ret ← alloc_ring_array false nb_rx_queues;
  if z2b ret then mret ret else alloc_ring_array true nb_tx_queues.

(** Number of queues outside what the device and the driver allow. *)
Definition bad_queue_count (n max : Z) : bool :=
  (n =? 0) || (negb (max =? 0) && (max <? n)) || (ENA_NETDEV_MAX_QUEUES <? n).

Definition ena_netdev_configure (running : bool) (conf : option (Z * Z)) : M D Z :=
  match conf with
  | None => mret (- EINVAL)
  | Some (nb_rx, nb_tx) =>
      a ← get_ad;
      if running then mret (- EBUSY)
      else if bad_queue_count nb_rx (max_rx_queues (ad_lim a)) then mret (- EINVAL)
      else if bad_queue_count nb_tx (max_tx_queues (ad_lim a)) then mret (- EINVAL)
      else ena_netdev_alloc_ring_arrays nb_rx nb_tx
  end.

(** ** Queues *)
Section OneQueue.
Context {S : Type} `{NetdevQueue S}.

Definition slot_get (q : Z) : M D S := u ← get_uk; lift (aget (Some (nq_slots u)) q).
Definition slot_mod (q : Z) (f : S -> S) : M D unit :=
  s ← slot_get q; mod_uk (fun u => nq_set_slots (<[Z.to_nat q := f s]> (nq_slots u)) u).

(** The pool with its memory gone. *)
Definition bounce_released (b : bounce_pool) : bounce_pool :=
  mkBounce false (if bounce_buf b then 0 else bounce_phys b) 0 fifo_null None.

(** [ena_netdev_free_rxq_bounce], [ena_netdev_free_txq_bounce]. *)
Definition ena_netdev_free_bounce (q : Z) : M D unit :=
  s ← slot_get q;
  let b := nq_pool s in
  (if bounce_buf b then dma_free (blk_bounce_buf (nq_blocks s)) else mret tt);;
  (if non_null (ff_ids (bounce_free b)) then free (blk_bounce_ids (nq_blocks s)) else mret tt);;
  (if non_null (bounce_map b) then free (blk_bounce_map (nq_blocks s)) else mret tt);;
  slot_mod q (fun s => nq_released (nq_set_pool (bounce_released (nq_pool s)) (mkBounceBlk None None None) s)).

(** The bounce pool of a new ring; a failed allocation releases what it got before. *)
Definition alloc_bounce (q nb : Z) : M D bool :=
  p ← dma_alloc;
  match p with
  | None =>
      slot_mod q (fun s => nq_set_pool (mkBounce false (bounce_phys (nq_pool s)) (nb_desc (nq_pool s)) (bounce_free (nq_pool s)) (bounce_map (nq_pool s)))
                             (nq_blocks s) s);;
      mret false
  | Some (buf, phys) =>
      slot_mod q (fun s => nq_set_pool (mkBounce true phys (nb_desc (nq_pool s)) (bounce_free (nq_pool s)) (bounce_map (nq_pool s)))
                             (mkBounceBlk (Some buf) None None) s);;
      ids ← calloc;
      if negb (non_null ids) then ena_netdev_free_bounce q;; mret false
      else
        slot_mod q (fun s => nq_set_pool (set_bounce_free (mkFifo (Some (replicate (Z.to_nat nb) 0)) 0 0 0) (nq_pool s))
                               (mkBounceBlk (Some buf) ids None) s);;
        m ← calloc;
        if negb (non_null m) then ena_netdev_free_bounce q;; mret false
        else
          slot_mod q (fun s => nq_done (nq_set_pool
            (mkBounce true (bounce_phys (nq_pool s)) (nb_desc (nq_pool s)) (fifo_full nb) (Some (replicate (Z.to_nat nb) (-1))))
            (mkBounceBlk (Some buf) ids m) s));;
          mret true
  end.

(** [ena_netdev_rxq_configure], [ena_netdev_txq_configure]: is a queue returned? *)
Definition ena_netdev_q_configure (running : bool) (q nb_desc : Z) : M D bool :=
  a ← get_ad;
  let num := num_rings nq_tx (ad_io a) in
  if (ENA_NETDEV_MAX_QUEUES <=? q) || (negb (num =? 0) && (num <=? q)) then mret false
  else if running then mret false
  else
    let nb := ena_netdev_clamp_desc_count nb_desc (max_ring_size nq_tx (ad_lim a)) in
    drop_ring nq_tx q;;
    ena_netdev_free_bounce q;;
    '(ret, ring) ← ring_alloc q (if nq_tx then ENA_RING_TYPE_TX else ENA_RING_TYPE_RX) nb;
    if z2b ret then mret false
    else match ring with
    | None => fun _ => Fault
    | Some r =>
        ring_store nq_tx q (Some (nq_callbacks r));;
        slot_mod q (fun s =>
          let s := nq_attach (blk_ring (r_blk r)) q s in
          nq_set_pool (mkBounce (bounce_buf (nq_pool s)) (bounce_phys (nq_pool s)) nb (bounce_free (nq_pool s)) (bounce_map (nq_pool s)))
            (nq_blocks s) s);;
        ok ← alloc_bounce q nb;
        if (ok : bool) then mret true
        else ring_free (nq_callbacks r);; ring_store nq_tx q None;; mret false
    end.
End OneQueue.
End Config.

(** ** Descriptor counts: the theorem *)
Lemma round_down_pow2_spec v :
  0 < v < 65536 -> ena_netdev_round_down_pow2 v = 2 ^ Z.log2 v /\ 2 ^ Z.log2 v <= v < 2 * 2 ^ Z.log2 v.
Proof.
  intros Hv. unfold ena_netdev_round_down_pow2, clz32. rewrite (proj2 (Z.eqb_neq _ _)) by lia.
  replace (31 - (31 - Z.log2 v)) with (Z.log2 v) by lia. pose proof (Z.log2_nonneg v). pose proof (Z.log2_spec v ltac:(lia)).
  rewrite Z.shiftl_mul_pow2, Z.mul_1_l by lia. rewrite <- Z.pow_succ_r by lia. rewrite u32_id by lia. split; [done | lia].
Qed.

(** The largest power of two below [v]. *)
Lemma pow2_below p v : pow2_depth p -> 0 < v -> p <= v -> p <= 2 ^ Z.log2 v.
Proof. intros (k & Hk & ->) Hv Hp. apply Z.pow_le_mono_r; [lia |]. apply Z.log2_le_pow2; lia. Qed.

(** What the request and the limits ask for, before rounding. *)
Definition desc_limit (nb m : Z) : Z := if nb =? 0 then if m =? 0 then ENA_DEFAULT_RING_DESC else m else nb.

Lemma ltb_min a x : (if a <? x then a else x) = Z.min a x.
Proof. destruct (Z.ltb_spec a x); lia. Qed.
Lemma ltb_max a x : (if x <? a then a else x) = Z.max a x.
Proof. destruct (Z.ltb_spec x a); lia. Qed.

Lemma clamp_desc_count_eq nb m :
  0 <= nb < 65536 -> 0 <= m < 65536 ->
  exists v, ena_netdev_clamp_desc_count nb m = 2 ^ Z.log2 v /\ 2 ^ Z.log2 v <= v
    /\ v = Z.max 4 (Z.min 4096 (if m =? 0 then desc_limit nb m else Z.min m (desc_limit nb m))).
Proof.
  intros Hn Hm. unfold ena_netdev_clamp_desc_count.
  assert ((if nb =? 0 then if negb (m =? 0) then m else ENA_DEFAULT_RING_DESC else nb) = desc_limit nb m) as ->
    by (unfold desc_limit; by destruct (m =? 0)).
  rewrite ltb_min, ltb_max. unfold ENA_MAX_RING_DESC, ENA_MIN_RING_DESC.
  assert ((if negb (m =? 0) && (m <? desc_limit nb m) then m else desc_limit nb m)
    = if m =? 0 then desc_limit nb m else Z.min m (desc_limit nb m)) as ->
    by (destruct (m =? 0); cbn [negb andb]; [done | by rewrite ltb_min]).
  set (v := Z.max 4 _). assert (4 <= v <= 4096) by lia.
  destruct (round_down_pow2_spec v) as [-> ?]; [lia |]. exists v. rewrite u16_id by lia. split_and!; [done | lia | done].
Qed.


(** ** Heap blocks of the operations *)

(** Blocks that stay are part of the frame. *)
Lemma owned_frame h0 h ps rest :
  owned h0 h (ps ++ rest) -> exists h1, owned h1 h ps /\ h_live h1 = h_live h0 ∪ list_to_set rest
    /\ forall h' qs, owned h1 h' qs -> owned h0 h' (qs ++ rest).
Proof.
  intros [Hwf Hnd Hnew Hl]. apply NoDup_app in Hnd as (Hp & Hd & Hr).
  exists (mkHeap (h_next h0) (h_live h0 ∪ list_to_set rest) (h_oracle h0) (h_phys h0)). split_and!; [| done |].
  - split; [done | done | | rewrite Hl; cbn [h_live]; set_solver].
    intros p Hpp. cbn [h_live]. specialize (Hnew p ltac:(set_solver)). specialize (Hd p Hpp). set_solver.
  - intros h' qs [Hwf' Hnd' Hnew' Hl']. cbn [h_live] in *. split; [done | | | rewrite Hl'; set_solver].
    + apply NoDup_app. split_and!; [done | | done]. intros p Hpq Hpr. by apply (Hnew' p Hpq); set_solver.
    + intros p [Hpq | Hpr]%elem_of_app; [specialize (Hnew' p Hpq); set_solver | apply Hnew; set_solver].
Qed.

Section HeapRules.
Context {D : Type}.
Implicit Types w : world D.

Lemma wpm_calloc_owned h0 ps w (Q : option Z -> world D -> Prop) :
  owned h0 (w_heap w) ps -> (forall p h, owned h0 h (option_list p ++ ps) -> Q p (set_w_heap h w)) -> wpm calloc Q w.
Proof.
  intros Ho HQ. unfold wpm, calloc. destruct (heap_alloc (w_heap w)) as [p h] eqn:E. by apply HQ, (owned_alloc _ _ _ _ _ Ho).
Qed.

Lemma wpm_dma_alloc_owned h0 ps w (Q : option (Z * Z) -> world D -> Prop) :
  owned h0 (w_heap w) ps -> (forall p h, owned h0 h (option_list (fst <$> p) ++ ps) -> Q p (set_w_heap h w)) ->
  wpm dma_alloc Q w.
Proof.
  intros Ho HQ. unfold wpm, dma_alloc. destruct (ena_dma_alloc (w_heap w)) as [p h] eqn:E. by apply HQ, (owned_dma_alloc _ _ _ _ _ Ho).
Qed.

Lemma wpm_free_owned h0 p ps w (Q : unit -> world D -> Prop) :
  owned h0 (w_heap w) (option_list p ++ ps) -> (forall h, owned h0 h ps -> Q tt (set_w_heap h w)) -> wpm (free p) Q w.
Proof.
  intros Ho HQ. unfold wpm, free. destruct p as [a |]; [| by apply HQ].
  pose proof (owned_free _ _ _ a ps Ho ltac:(done)) as H. destruct (heap_free (w_heap w) (Some a)); [| done..]. by apply HQ.
Qed.

(** A pointer that is not NULL when its block exists. *)
Lemma wpm_free_if_owned h0 (b : bool) p ps w (Q : unit -> world D -> Prop) :
  b = non_null p -> owned h0 (w_heap w) (option_list p ++ ps) ->
  (forall h, owned h0 h ps -> Q tt (set_w_heap h w)) -> wpm (if b then free p else mret tt) Q w.
Proof.
  intros -> Ho HQ. destruct p as [a |]; cbn [non_null]; [by eapply wpm_free_owned |]. apply wpm_ret.
  replace w with (set_w_heap (w_heap w) w) by (by destruct w). by apply HQ.
Qed.

Lemma wpm_ring_free h0 r rest w (Q : unit -> world D -> Prop) :
  blocks_ok r -> owned h0 (w_heap w) (blocks_of (r_blk r) ++ rest) ->
  (forall h, owned h0 h rest -> Q tt (set_w_heap h w)) -> wpm (ring_free r) Q w.
Proof.
  intros Hb Ho HQ. destruct (owned_frame _ _ _ _ Ho) as (h1 & Ho1 & _ & Hback). unfold wpm, ring_free.
  pose proof (ena_ring_free_spec h1 _ r Hb Ho1) as Hf. destruct (ena_ring_free (w_heap w) r) as [h | |]; [| done..].
  destruct Hf as [Hwf Hl]. apply HQ. apply (Hback h []). split; [done | constructor | set_solver | rewrite Hl; set_solver].
Qed.

Lemma wpm_ring_alloc h0 q ty d ps w (Q : Z * option ena_ring -> world D -> Prop) :
  pow2_depth d -> ty = ENA_RING_TYPE_TX \/ ty = ENA_RING_TYPE_RX -> owned h0 (w_heap w) ps ->
  (forall h, owned h0 h ps -> Q (- ENOMEM, None) (set_w_heap h w)) ->
  (forall r h sqp cqp wbp, owned h0 h (blocks_of (r_blk r) ++ ps) -> r = ring_fresh q ty d d sqp cqp wbp (r_blk r) ->
     blocks_ok r -> is_Some (blk_ring (r_blk r)) -> Q (0, Some r) (set_w_heap h w)) ->
  wpm (ring_alloc q ty d) Q w.
Proof.
  intros Hd Hty Ho HN HS. pose proof (pow2_depth_bounds _ Hd). destruct (owned_frame _ _ [] _ Ho) as (h1 & Ho1 & El & Hback).
  assert (owned h1 (w_heap w) []) as [Hwf Elive]%owned_nil by done. unfold wpm, ring_alloc.
  pose proof (ena_ring_alloc_spec (w_heap w) q ty d d Hwf ltac:(lia) ltac:(lia) ltac:(by split_and!)) as Ha.
  destruct (ena_ring_alloc (w_heap w) q ty d d) as [[[err [r |]] h] | |]; [| | done..]; cbn [wp mbind res_bind alloc_post] in *.
  - destruct Ha as (-> & [? ? Hnew Hl] & (sqp & cqp & wbp & Er) & Hb & Hn). apply (HS r h sqp cqp wbp); [| done | done | by apply not_eq_None_Some].
    apply Hback. split; [done | done | by rewrite <- Elive | by rewrite Hl, Elive].
  - destruct Ha as (-> & [Hwf' Hl]%owned_nil). apply HN. apply (Hback h []). split; [done | constructor | set_solver | rewrite Hl; set_solver].
Qed.
End HeapRules.

(** ** What the configuration of a queue promises *)

(** The blocks of a bounce pool, and that the pointers agree with them. *)
Definition bounce_list (k : bounce_blocks) : list Z :=
  option_list (blk_bounce_buf k) ++ option_list (blk_bounce_ids k) ++ option_list (blk_bounce_map k).
Record bounce_blocks_ok (b : bounce_pool) (k : bounce_blocks) : Prop := {
  bbo_buf : bounce_buf b = non_null (blk_bounce_buf k);
  bbo_ids : non_null (ff_ids (bounce_free b)) = non_null (blk_bounce_ids k);
  bbo_map : non_null (bounce_map b) = non_null (blk_bounce_map k)
}.

(** The laws of the two kinds of queues.  [nq_ready r s]: the queue [s] is set up for the
    idle ring [r]. *)
Class NetdevQueueOk (S : Type) `{NetdevQueue S} := {
  nq_ready : ena_ring -> S -> Prop;
  nq_slots_set v u : nq_slots (nq_set_slots v u) = v;
  nq_set_set v v' u : nq_set_slots v (nq_set_slots v' u) = nq_set_slots v u;
  nq_set_same u : nq_set_slots (nq_slots u) u = u;
  nq_pool_set b k s : nq_pool (nq_set_pool b k s) = b;
  nq_blocks_set b k s : nq_blocks (nq_set_pool b k s) = k;
  nq_set_pool_set b k b' k' s : nq_set_pool b k (nq_set_pool b' k' s) = nq_set_pool b k s;
  nq_pool_released s : nq_pool (nq_released s) = nq_pool s;
  nq_blocks_released s : nq_blocks (nq_released s) = nq_blocks s;
  nq_pool_attach r q s : nq_pool (nq_attach r q s) = nq_pool s;
  nq_blocks_attach r q s : nq_blocks (nq_attach r q s) = nq_blocks s;
  nq_pool_done s : nq_pool (nq_done s) = nq_pool s;
  nq_blocks_done s : nq_blocks (nq_done s) = nq_blocks s;
  nq_callbacks_set r : exists d a c f, nq_callbacks r = set_ring_callbacks d a c f r;
  nq_ready_fresh q d sqp cqp wbp r k phys s :
    pow2_depth d -> r = ring_fresh q (if nq_tx then ENA_RING_TYPE_TX else ENA_RING_TYPE_RX) d d sqp cqp wbp (r_blk r) ->
    blocks_ok r ->
    nq_ready (nq_callbacks r) (nq_done (nq_set_pool (bounce_fresh phys d) k (nq_attach (blk_ring (r_blk r)) q (nq_released s))))
}.

(** A queue ready for its first start. *)
Record rx_fresh (r : ena_ring) (s : rxq_slot) : Prop := {
  rxf_wf : wf_rx r;
  rxf_lock : ring_lock r = 0;
  rxf_drop : drop_releases r = true /\ drop_netbuf_arg r = true /\ refill_netbuf r = true;
  rxf_held : held (raw_bufs r) = [];
  rxf_ring : rxs_ring s = blk_ring (r_blk r) /\ rxs_id s = qid r;
  rxf_queue : rxq_ready [] r (rxs_q s);
  rxf_slots : slots_filled [] r (Some (rxs_q s));
  rxf_chain : rxs_chain s = []
}.
Record tx_fresh (r : ena_ring) (s : txq_slot) : Prop := {
  txf_wf : wf_tx r;
  txf_lock : ring_lock r = 0;
  txf_cb : tx_complete_cb r = true;
  txf_held : held (raw_bufs r) = [];
  txf_ring : txs_ring s = blk_ring (r_blk r) /\ txs_id s = qid r;
  txf_pool : wf_bounce [] (txq_bounce (txs_q s)) /\ nb_desc (txq_bounce (txs_q s)) = sq_depth (r_sq r);
  txf_mapped : txq_mapped r (Some (txs_q s));
  txf_idle : bounce_in_use (txs_q s) = false /\ bounce_wait_polls (txs_q s) = 0
}.

Lemma wf_rx_callbacks r d a c f : wf_rx r -> wf_rx (set_ring_callbacks d a c f r).
Proof. intros [[? ? ? ? ? ? ? []] ?]. split; [split; try done; by split | done]. Qed.
Lemma wf_tx_callbacks r d a c f : wf_tx r -> wf_tx (set_ring_callbacks d a c f r).
Proof. intros [[? ? ? ? ? ? ? []] ? ? ?]. split; [split; try done; by split | done..]. Qed.

Lemma held_replicate n : held (Some (replicate n buf_empty)) = [].
Proof. by apply omap_replicate_none. Qed.

#[export] Instance rx_netdev_queue_ok : NetdevQueueOk rxq_slot.
Proof.
  refine {| nq_ready := rx_fresh |}; try (by intros []); try done.
  - intros r. by do 4 eexists.
  - intros q d sqp cqp wbp r k phys s Hd -> Hb. pose proof (pow2_depth_bounds _ Hd). set (blk := r_blk r) in *. clearbody blk.
    split; try done.
    + apply wf_rx_callbacks. split; [| done]. apply ring_fresh_wf; [done | done | by right | done].
    + apply held_replicate.
    + split; [| done | done]. unfold wf_rxq. by apply wf_bounce_fresh.
    + intros q' id x [= <-] _ _ Hx Hx0. apply lookup_replicate in Hx as [-> _]. lia.
Defined.

#[export] Instance tx_netdev_queue_ok : NetdevQueueOk txq_slot.
Proof.
  refine {| nq_ready := tx_fresh |}; try (by intros []); try done.
  - intros r. by do 4 eexists.
  - intros q d sqp cqp wbp r k phys s Hd -> Hb. pose proof (pow2_depth_bounds _ Hd). set (blk := r_blk r) in *. clearbody blk.
    split; try done.
    + apply wf_tx_callbacks. by apply ring_fresh_wf_tx.
    + apply held_replicate.
    + split; [by apply wf_bounce_fresh | done].
    + intros q' i x [= <-] Hx Hx0. apply lookup_replicate in Hx as [-> _]. lia.
Defined.

(** ** Bounce pools *)
Definition no_blocks : bounce_blocks := mkBounceBlk None None None.

Section Slots.
Context {D S : Type} `{NetdevQueueOk S}.
Implicit Types w : world D.

Lemma wpm_slot_get_at q s w (Q : S -> world D -> Prop) :
  0 <= q -> nq_slots (w_uk w) !! Z.to_nat q = Some s -> Q s w -> wpm (slot_get q) Q w.
Proof. intros Hq Hs HQ. unfold slot_get. apply wpm_bind. apply (wpm_lift _ s); [| done]. by apply aget_ret. Qed.

(** The queue after [free_*_bounce]. *)
Definition slot_released (s : S) : S := nq_released (nq_set_pool (bounce_released (nq_pool s)) no_blocks s).

Lemma free_bounce_at h0 rest q s w :
  0 <= q -> nq_slots (w_uk w) !! Z.to_nat q = Some s ->
  bounce_blocks_ok (nq_pool s) (nq_blocks s) -> owned h0 (w_heap w) (bounce_list (nq_blocks s) ++ rest) ->
  wpm (ena_netdev_free_bounce q) (fun _ w' => exists h', owned h0 h' rest /\
    w' = set_w_heap h' (set_w_uk (nq_set_slots (<[Z.to_nat q := slot_released s]> (nq_slots (w_uk w))) (w_uk w)) w)) w.
Proof.
  intros Hq Hs [Eb Ei Em] Ho. unfold ena_netdev_free_bounce. apply wpm_bind, (wpm_slot_get_at q s); [done.. |]. cbv zeta.
  unfold bounce_list in Ho. rewrite <- !app_assoc in Ho.
  apply wpm_bind. eapply (wpm_free_if_owned h0); [exact Eb | exact Ho |]. intros h1 Ho1.
  apply wpm_bind. eapply (wpm_free_if_owned h0); [exact Ei | exact Ho1 |]. intros h2 Ho2.
  apply wpm_bind. eapply (wpm_free_if_owned h0); [exact Em | exact Ho2 |]. intros h3 Ho3.
  unfold slot_mod. apply wpm_bind, (wpm_slot_get_at q s); [done.. |]. by exists h3.
Qed.
End Slots.

(** ** The configuration of a queue *)
Section Configure.
Context {D S : Type} `{EnaDevice D} `{NetdevQueueOk S}.
Variables (q : Z) (l : list (option ena_ring)) (w0 : world D).
Hypothesis table : rings_of nq_tx (ad_io (w_adapter w0)) = Some l.
Hypothesis q_range : 0 <= q < Z.of_nat (length l).
Hypothesis q_slot : (Z.to_nat q < length (nq_slots (w_uk w0)))%nat.

(** [w0] with the heap [h], the ring [ro] and the queue [s] at [q]. *)
Definition cfg (h : heap) (ro : option ena_ring) (s : S) : world D :=
  set_w_heap h (set_w_uk (nq_set_slots (<[Z.to_nat q := s]> (nq_slots (w_uk w0))) (w_uk w0))
    (put_rings nq_tx (<[Z.to_nat q := ro]> l) w0)).

Lemma cfg_start ro s : l !! Z.to_nat q = Some ro -> nq_slots (w_uk w0) !! Z.to_nat q = Some s -> w0 = cfg (w_heap w0) ro s.
Proof.
  intros Hro Hs. unfold cfg. rewrite !list_insert_id by done. rewrite nq_set_same.
  pose proof (put_rings_id nq_tx l w0 table) as E. rewrite app_nil_r in E. destruct w0 as [? [] ? ? ? ?].
  unfold put_rings, upd in *. cbn in *. by injection E as ->.
Qed.

Lemma wpm_slot_get h ro s (Q : S -> world D -> Prop) : Q s (cfg h ro s) -> wpm (slot_get q) Q (cfg h ro s).
Proof.
  apply wpm_slot_get_at; [lia |]. cbn. rewrite nq_slots_set. by apply list_lookup_insert_eq.
Qed.

Lemma cfg_slot f h ro s :
  set_w_uk (nq_set_slots (<[Z.to_nat q := f s]> (nq_slots (w_uk (cfg h ro s)))) (w_uk (cfg h ro s))) (cfg h ro s) = cfg h ro (f s).
Proof. unfold cfg. cbn. by rewrite nq_slots_set, nq_set_set, list_insert_insert_eq. Qed.

Lemma wpm_slot_mod f h ro s (Q : unit -> world D -> Prop) : Q tt (cfg h ro (f s)) -> wpm (slot_mod q f) Q (cfg h ro s).
Proof. intros HQ. unfold slot_mod. apply wpm_bind, wpm_slot_get. unfold wpm, mod_uk, wp. by rewrite cfg_slot. Qed.

Lemma wpm_ring_store ro' h ro s (Q : unit -> world D -> Prop) : Q tt (cfg h ro' s) -> wpm (ring_store nq_tx q ro') Q (cfg h ro s).
Proof.
  intros HQ. unfold wpm, ring_store. assert (rings_of nq_tx (ad_io (w_adapter (cfg h ro s))) = Some (<[Z.to_nat q := ro]> l)) as -> by apply rings_of_set.
  cbn [non_null]. rewrite aset_ret by (rewrite length_insert; lia). cbn [mbind res_bind wp].
  rewrite list_insert_insert_eq. refine (eq_rect _ (fun w => Q tt w) HQ _ _). unfold cfg, put_rings, upd.
  destruct w0 as [? [] ? ? ? ?]. by destruct nq_tx.
Qed.

Lemma wpm_cfg_ring_at h ro s (Q : option ena_ring -> world D -> Prop) : Q ro (cfg h ro s) -> wpm (ring_at nq_tx q) Q (cfg h ro s).
Proof.
  intros HQ. eapply wpm_ring_at; [apply rings_of_set | rewrite length_insert; lia |]. intros r Hr.
  rewrite list_lookup_insert_eq in Hr by lia. by injection Hr as <-.
Qed.

Lemma free_bounce_spec h0 rest h ro s :
  bounce_blocks_ok (nq_pool s) (nq_blocks s) -> owned h0 h (bounce_list (nq_blocks s) ++ rest) ->
  wpm (ena_netdev_free_bounce q) (fun _ w' => exists h', owned h0 h' rest /\ w' = cfg h' ro (slot_released s)) (cfg h ro s).
Proof.
  intros Hb Ho. eapply wpm_mono; [apply (free_bounce_at h0 rest q s); [lia | cbn; rewrite nq_slots_set; by apply list_lookup_insert_eq | done | done] |].
  intros ? w' (h' & Ho' & ->). exists h'. split; [done |]. by rewrite (cfg_slot slot_released).
Qed.

(** A failure leaves a queue without memory. *)
Definition slot_empty (s : S) : Prop := nq_blocks s = no_blocks /\ bounce_blocks_ok (nq_pool s) no_blocks.

Lemma slot_released_empty s : slot_empty (slot_released s).
Proof.
  unfold slot_empty, slot_released. rewrite nq_blocks_released, nq_pool_released, nq_blocks_set, nq_pool_set. by split.
Qed.

(** The pool of the attached queue [s], with [d] slots. *)
Lemma alloc_bounce_spec h0 d rest h ro s :
  slot_empty s -> nb_desc (nq_pool s) = d -> owned h0 h rest ->
  wpm (alloc_bounce q d) (fun ok w' => exists h' s', w' = cfg h' ro s' /\
    if ok : bool then exists phys k, s' = nq_done (nq_set_pool (bounce_fresh phys d) k s)
      /\ bounce_blocks_ok (bounce_fresh phys d) k /\ owned h0 h' (bounce_list k ++ rest)
    else slot_empty s' /\ owned h0 h' rest) (cfg h ro s).
Proof.
  intros [Ek Hok] Ed Ho. pose proof (bbo_ids _ _ Hok) as Hids. pose proof (bbo_map _ _ Hok) as Hmap. unfold alloc_bounce.
  apply wpm_bind. eapply wpm_dma_alloc_owned; [exact Ho |]. intros [[buf phys] |] h1 Ho1; cbn [fmap option_fmap option_map fst option_list] in Ho1.
  2: { apply wpm_bind, (wpm_slot_mod _ h1 ro s), wpm_ret. do 2 eexists. split; [done |]. split; [| done].
       unfold slot_empty. rewrite nq_blocks_set, nq_pool_set, Ek. by split. }
  apply wpm_bind, (wpm_slot_mod _ h1 ro s). set (s1 := nq_set_pool _ _ s).
  apply wpm_bind. eapply wpm_calloc_owned; [exact Ho1 |]. intros [ids |] h2 Ho2; cbn [non_null negb option_list] in *.
  2: { apply wpm_bind. eapply wpm_mono; [apply (free_bounce_spec h0 rest h2 ro s1) |].
       - subst s1. rewrite nq_pool_set, nq_blocks_set. by split.
       - subst s1. by rewrite nq_blocks_set.
       - intros _ w' (h' & Ho' & ->). apply wpm_ret. do 2 eexists. split; [done |]. split; [apply slot_released_empty | done]. }
  apply wpm_bind, (wpm_slot_mod _ h2 ro s1). set (s2 := nq_set_pool _ _ s1).
  apply wpm_bind. eapply wpm_calloc_owned; [exact Ho2 |]. intros [m |] h3 Ho3; cbn [non_null negb option_list] in *.
  2: { apply wpm_bind. eapply wpm_mono; [apply (free_bounce_spec h0 rest h3 ro s2) |].
       - subst s2 s1. rewrite nq_pool_set, nq_blocks_set, nq_pool_set. by split.
       - subst s2. rewrite nq_blocks_set. eapply owned_perm; [| exact Ho3]. cbn. apply Permutation_swap.
       - intros _ w' (h' & Ho' & ->). apply wpm_ret. do 2 eexists. split; [done |]. split; [apply slot_released_empty | done]. }
  apply wpm_bind, (wpm_slot_mod _ h3 ro s2), wpm_ret. do 2 eexists. split; [done |]. exists phys, (mkBounceBlk (Some buf) (Some ids) (Some m)).
  subst s2 s1. rewrite !nq_pool_set, !nq_set_pool_set. cbn [set_bounce_free bounce_phys nb_desc]. rewrite Ed.
  split_and!; [done | by split |]. eapply owned_perm; [| exact Ho3]. cbn. perm_solve.
Qed.

Definition ring_list (ro : option ena_ring) : list Z := match ro with Some r => blocks_of (r_blk r) | None => [] end.

(** The queue has a new ring and a new pool of [d] slots, or neither; [rest] are the other
    blocks of the driver. *)
Definition q_configured (h0 : heap) (rest : list Z) (d : Z) (ok : bool) (w' : world D) : Prop :=
  exists h' ro' s', w' = cfg h' ro' s' /\
  if ok then
    exists r, ro' = Some r /\ qid r = q /\ sq_depth (r_sq r) = d /\ cq_depth (r_cq r) = d /\ nq_ready r s'
      /\ blocks_ok r /\ bounce_blocks_ok (nq_pool s') (nq_blocks s')
      /\ owned h0 h' (blocks_of (r_blk r) ++ bounce_list (nq_blocks s') ++ rest)
  else ro' = None /\ slot_empty s' /\ owned h0 h' rest.

(** The call is refused before it changes anything. *)
Definition q_refused (running : bool) (w : world D) : bool :=
  let num := num_rings nq_tx (ad_io (w_adapter w)) in
  (ENA_NETDEV_MAX_QUEUES <=? q) || (negb (num =? 0) && (num <=? q)) || running.

Lemma drop_ring_spec h0 rest h ro s :
  (forall r, ro = Some r -> blocks_ok r) -> owned h0 h (ring_list ro ++ rest) ->
  wpm (drop_ring nq_tx q) (fun _ w' => exists h', owned h0 h' rest /\ w' = cfg h' None s) (cfg h ro s).
Proof.
  intros Hb Ho. unfold drop_ring. apply wpm_bind, wpm_cfg_ring_at. destruct ro as [r |]; [| apply wpm_ret; by exists h].
  apply wpm_bind. eapply wpm_ring_free; [by apply Hb | exact Ho |]. intros h1 Ho1. apply (wpm_ring_store None h1). by exists h1.
Qed.

Lemma q_configure_spec h0 rest running nb_desc ro s :
  l !! Z.to_nat q = Some ro -> nq_slots (w_uk w0) !! Z.to_nat q = Some s ->
  0 <= nb_desc < 65536 -> 0 <= max_ring_size nq_tx (ad_lim (w_adapter w0)) < 65536 ->
  (forall r, ro = Some r -> blocks_ok r) -> bounce_blocks_ok (nq_pool s) (nq_blocks s) ->
  owned h0 (w_heap w0) (ring_list ro ++ bounce_list (nq_blocks s) ++ rest) ->
  wpm (ena_netdev_q_configure running q nb_desc) (fun ok w' =>
    if q_refused running w0 then ok = false /\ w' = w0
    else q_configured h0 rest (ena_netdev_clamp_desc_count nb_desc (max_ring_size nq_tx (ad_lim (w_adapter w0)))) ok w') w0.
Proof.
  intros Hro Hs Hn Hm Hb Hbb Ho. set (d := ena_netdev_clamp_desc_count _ _).
  assert (pow2_depth d) as Hd.
  { destruct (clamp_desc_count_eq nb_desc _ Hn Hm) as (v & Ev & Hle & Ev'). unfold d. rewrite Ev. exists (Z.log2 v). split; [| done].
    split; [apply Z.log2_le_pow2; lia | apply Z.lt_succ_r, Z.log2_lt_pow2; lia]. }
  unfold ena_netdev_q_configure, q_refused. apply wpm_bind, wpm_get_ad. cbv zeta. fold d.
  destruct (_ || _); cbn [orb]; [by apply wpm_ret |]. destruct running; [by apply wpm_ret |].
  rewrite (cfg_start ro s Hro Hs) at 1. apply wpm_bind.
  eapply wpm_mono; [by apply (drop_ring_spec h0 (bounce_list (nq_blocks s) ++ rest)) |]. intros _ w1 (h1 & Ho1 & ->).
  apply wpm_bind. eapply wpm_mono; [by apply (free_bounce_spec h0 rest) |]. intros _ w2 (h2 & Ho2 & ->).
  apply wpm_bind. eapply wpm_ring_alloc; [exact Hd | destruct nq_tx; auto | exact Ho2 | |].
  { intros h3 Ho3. apply wpm_ret. exists h3, None, (slot_released s). split_and!; [done | done | apply slot_released_empty | done]. }
  intros r h3 sqp cqp wbp Ho3 Er Hbr _. cbn [z2b Z.eqb negb]. 
  assert (qid (nq_callbacks r) = q /\ sq_depth (r_sq (nq_callbacks r)) = d /\ cq_depth (r_cq (nq_callbacks r)) = d
    /\ r_blk (nq_callbacks r) = r_blk r /\ blocks_ok (nq_callbacks r)) as (Eq & Esq & Ecq & Ebk & Hbk).
  { destruct (nq_callbacks_set r) as (? & ? & ? & ? & ->). split_and!; [by rewrite Er.. | done | destruct Hbr; by split]. }
  apply wpm_bind, (wpm_ring_store _ h3), wpm_bind, (wpm_slot_mod _ h3). cbv zeta. set (s1 := nq_set_pool _ _ _).
  apply wpm_bind. eapply wpm_mono; [apply (alloc_bounce_spec h0 d (blocks_of (r_blk r) ++ rest)) |].
  - unfold slot_empty, s1. destruct (slot_released_empty s) as [Ek [? ? ?]].
    rewrite nq_blocks_set, nq_pool_set, nq_blocks_attach, nq_pool_attach. split; [done |]. by split.
  - unfold s1. by rewrite nq_pool_set.
  - exact Ho3.
  - intros ok w4 (h4 & s4 & -> & Hok). destruct ok.
    + apply wpm_ret. destruct Hok as (phys & k & -> & Hbk' & Ho4). eexists h4, _, _. split; [done |]. exists (nq_callbacks r).
      rewrite nq_pool_done, nq_blocks_done, nq_pool_set, nq_blocks_set, Ebk.
      split_and!; try done; [| eapply owned_perm; [| exact Ho4]; apply Permutation_app_swap_app].
      unfold s1. rewrite nq_set_pool_set. by eapply nq_ready_fresh.
    + destruct Hok as [Hemp Ho4]. apply wpm_bind. eapply wpm_ring_free; [exact Hbk | rewrite Ebk; exact Ho4 |].
      intros h5 Ho5. apply wpm_bind, (wpm_ring_store _ h5), wpm_ret. exists h5, None, s4. by split_and!.
Qed.
End Configure.

(** ** The tables of rings *)
Definition table_blk (tx : bool) (io : io_rings) : option Z := if tx then tx_rings_blk io else rx_rings_blk io.

Section Tables.
Context {D : Type} `{EnaDevice D}.
Implicit Types w : world D.

(** A table that was NULL has [n] empty entries and a block of its own; one that was there
    is kept, even when it is shorter. *)
Definition io_with_table (tx : bool) (n : Z) (p : option Z) (io : io_rings) : io_rings :=
  set_num_rings tx n (if non_null (rings_of tx io) then io else set_table tx (Some (replicate (Z.to_nat n) None)) p io).

Lemma alloc_ring_array_spec h0 ps tx n w :
  owned h0 (w_heap w) ps ->
  wpm (alloc_ring_array tx n) (fun ret w' => exists h p, owned h0 h (option_list p ++ ps) /\
    (if non_null (rings_of tx (ad_io (w_adapter w))) then p = None /\ ret = 0 else ret = if non_null p then 0 else - ENOMEM) /\
    w' = set_w_heap h (if ret =? 0 then upd (fun a => set_ad_io (io_with_table tx n p (ad_io a)) a) w else w)) w.
Proof.
  intros Ho. unfold alloc_ring_array. apply wpm_bind, wpm_get_ad. apply wpm_bind. unfold io_with_table.
  destruct (non_null (rings_of tx (ad_io (w_adapter w)))) eqn:E.
  - apply wpm_ret. cbn [z2b Z.eqb negb]. apply wpm_bind, wpm_mod_ad, wpm_ret. exists (w_heap w), None. split_and!; try done.
    cbn. unfold upd. by rewrite E.
  - apply wpm_bind. eapply wpm_calloc_owned; [exact Ho |]. intros [p |] h1 Ho1.
    + apply wpm_bind, wpm_mod_ad, wpm_ret. cbn [z2b Z.eqb negb]. apply wpm_bind, wpm_mod_ad, wpm_ret.
      exists h1, (Some p). split_and!; [done | done |]. cbn [Z.eqb]. unfold upd. wsimpl. rewrite E. by destruct w as [? [] ? ? ? ?].
    + apply wpm_ret. apply wpm_ret. by exists h1, None.
Qed.

(** What [ena_netdev_configure] answers, and the tables it leaves. *)
Definition conf_refusal (running : bool) (nb_rx nb_tx : Z) (a : ena_adapter) : option Z :=
  if running then Some (- EBUSY)
  else if bad_queue_count nb_rx (max_rx_queues (ad_lim a)) || bad_queue_count nb_tx (max_tx_queues (ad_lim a)) then Some (- EINVAL)
  else None.

(** Both tables exist with the numbers asked for, or an allocation failed; every new block
    is the block of a table. *)
Lemma configure_spec h0 ps running nb_rx nb_tx w :
  owned h0 (w_heap w) ps ->
  wpm (ena_netdev_configure running (Some (nb_rx, nb_tx))) (fun ret w' =>
    match conf_refusal running nb_rx nb_tx (w_adapter w) with
    | Some e => ret = e /\ w' = w
    | None => exists h p q, owned h0 h (option_list p ++ option_list q ++ ps) /\
        (ret = 0 /\ (non_null (rx_rings (ad_io (w_adapter w))) || non_null q = true)
           /\ (non_null (tx_rings (ad_io (w_adapter w))) || non_null p = true)
           /\ w' = set_w_heap h (upd (fun a => set_ad_io (io_with_table true nb_tx p (io_with_table false nb_rx q (ad_io a))) a) w)
         \/ ret = - ENOMEM /\ p = None /\ (q = None /\ w' = set_w_heap h w
             \/ w' = set_w_heap h (upd (fun a => set_ad_io (io_with_table false nb_rx q (ad_io a)) a) w)))
    end) w.
Proof.
  intros Ho. unfold ena_netdev_configure, conf_refusal. apply wpm_bind, wpm_get_ad.
  destruct running; [by apply wpm_ret |]. destruct (bad_queue_count nb_rx _); [by apply wpm_ret |].
  destruct (bad_queue_count nb_tx _); [by apply wpm_ret |]. cbn [orb]. unfold ena_netdev_alloc_ring_arrays.
  apply wpm_bind. eapply wpm_mono; [by apply (alloc_ring_array_spec h0 ps) |]. intros ret w1 (h1 & q & Ho1 & Hret & ->).
  assert (ret = 0 /\ non_null (rx_rings (ad_io (w_adapter w))) || non_null q = true \/ ret = - ENOMEM /\ q = None) as Hc.
  { cbn [rings_of] in Hret. destruct (non_null (rx_rings (ad_io (w_adapter w)))); [naive_solver |]. destruct q; naive_solver. }
  destruct Hc as [[-> Hq] | [-> ->]].
  2: { apply wpm_ret. exists h1, None, None. split; [done |]. right. split_and!; [done.. |]. by left. }
  cbn [Z.eqb z2b negb]. eapply wpm_mono; [apply (alloc_ring_array_spec h0 (option_list q ++ ps)); exact Ho1 |].
  intros ret w2 (h2 & p & Ho2 & Hret2 & ->). exists h2, p, q. split; [done |].
  assert (rings_of true (ad_io (w_adapter (set_w_heap h1 (upd (fun a => set_ad_io (io_with_table false nb_rx q (ad_io a)) a) w))))
    = tx_rings (ad_io (w_adapter w))) as E by (unfold io_with_table; wsimpl; cbn; by destruct (rx_rings _)).
  rewrite E in Hret2. destruct (non_null (tx_rings (ad_io (w_adapter w)))).
  - destruct Hret2 as [-> ->]. left. by split_and!.
  - subst ret. destruct p as [p |]; [left; by split_and! | right]. split_and!; [done.. |]. by right.
Qed.
End Tables.

(** ** The queue set-up: the theorem *)

(** C14: Setting up a receive or a transmit queue is all or nothing, for every pattern of
    allocation failures.  A call that is refused (queue number out of range, device running)
    changes nothing.  Otherwise the old ring and the old bounce pool are released, and
    either the queue has a well-formed, empty ring of the clamped depth, its callbacks
    and a bounce pool with every slot free, or it has no ring and no pool; the blocks
    of the driver are exactly those of the result.  Nothing else in the driver changes. *)
Theorem q_configure_all_or_nothing {D S : Type} `{EnaDevice D} `{NetdevQueueOk S} h0 rest running q nb_desc l ro s (w : world D) :
  rings_of nq_tx (ad_io (w_adapter w)) = Some l -> 0 <= q -> l !! Z.to_nat q = Some ro ->
  nq_slots (w_uk w) !! Z.to_nat q = Some s ->
  0 <= nb_desc < 65536 -> 0 <= max_ring_size nq_tx (ad_lim (w_adapter w)) < 65536 ->
  (forall r, ro = Some r -> blocks_ok r) -> bounce_blocks_ok (nq_pool s) (nq_blocks s) ->
  owned h0 (w_heap w) (ring_list ro ++ bounce_list (nq_blocks s) ++ rest) ->
  wpm (ena_netdev_q_configure running q nb_desc) (fun ok w' =>
    if q_refused q running w then ok = false /\ w' = w
    else q_configured q l w h0 rest (ena_netdev_clamp_desc_count nb_desc (max_ring_size nq_tx (ad_lim (w_adapter w)))) ok w') w.
Proof.
  intros El Hq Hro Hs Hn Hm Hb Hbb Ho. pose proof (lookup_lt_Some _ _ _ Hro). pose proof (lookup_lt_Some _ _ _ Hs).
  eapply q_configure_spec; [done | lia | done..].
Qed.

(** A device with room for one pair of queues; the allocator works. *)
Definition ex_conf : world ex_dev :=
  set_w_uk uk_zero (upd (fun a => set_ad_io (mkIo (Some [None]) (Some [None]) 1 1 None None) a) ex_world0).

Lemma ex_conf_ready :
  owned (w_heap ex_conf) (w_heap ex_conf) (ring_list None ++ bounce_list (rxs_blk rxq_zero) ++ []).
Proof. apply owned_refl, ex_world0_owned. Qed.

(** A request for 500 descriptors gives a ring of 256. *)
Lemma q_configure_witness :
  wpm (ena_netdev_q_configure (S := rxq_slot) false 0 500) (fun ok w' =>
    q_configured (S := rxq_slot) 0 [None] ex_conf (w_heap ex_conf) [] 256 ok w') ex_conf.
Proof.
  pose proof (q_configure_all_or_nothing (S := rxq_slot) (w_heap ex_conf) [] false 0 500 [None] None rxq_zero ex_conf
    eq_refl ltac:(lia) eq_refl eq_refl ltac:(lia) ltac:(by vm_compute) ltac:(done) ltac:(by split) ex_conf_ready) as Hc.
  exact Hc.
Defined.

