(* ===== verification/Plat.v ===== *)
(** * MSI-X vectors of the platform

    The MSI-X part of src/ena_plat.c in the build with CONFIG_LIBENA_MSIX: the walk over
    the PCI capability list, [ena_plat_msix_probe], [ena_plat_msix_arm] and
    [ena_plat_msix_disarm].  The PCI configuration space and the interrupt controller of
    the kernel are classes over the state outside the driver; what the code relies on
    of them are the classes [PciConfigOk] and [IntCtlrOk].

    The configuration lock [s_plat_cfg_lock] is taken and released inside one access and
    has no part in a sequential model. *)

From stdpp Require Import base tactics option list list_numbers numbers sets gmap.
From Stdlib Require Import ZArith Lia.
From S2P Require Import Prelude Fifo Mem Desc Netq Ring Adapter.

(** ** The world outside *)

(** Configuration registers, by the word written to the address port. *)
Class PciConfig (D : Type) := {
  cfg_read : Z -> D -> Z * D;
  cfg_write : Z -> Z -> D -> D
}.

(** Documented behaviour: registers have 32 bits, and a read has no effect on them. *)
Class PciConfigOk (D : Type) `{PciConfig D} := {
  cfg_val : Z -> D -> Z;
  cfg_read_val r d : (cfg_read r d).1 = cfg_val r d;
  cfg_read_keeps r r' d : cfg_val r' (cfg_read r d).2 = cfg_val r' d;
  cfg_val_range r d : 0 <= cfg_val r d < 2 ^ 32
}.

(** [uk_intctlr_msix_alloc]: result, interrupt, message address and data. *)
Class IntCtlr (D : Type) := {
  msix_alloc : Z -> D -> Z * Z * Z * Z * D;
  msix_free : Z -> D -> D;
  irq_register : Z -> Z -> D -> Z * D;       (* interrupt, vector of the context *)
  irq_unregister : Z -> D -> D
}.

(** Documented behaviour: which interrupts are allocated, and which have a handler. *)
Class IntCtlrOk (D : Type) `{IntCtlr D} `{PciConfig D} := {
  ic_irqs : D -> gset Z;
  ic_handlers : D -> gset Z;
  msix_alloc_ok lcpu d ret irq a v d' : msix_alloc lcpu d = (ret, irq, a, v, d') ->
    ret <= 0 /\ ic_handlers d' = ic_handlers d /\
    (if ret =? 0 then (irq ∉ ic_irqs d) /\ (irq ∉ ic_handlers d) /\ ic_irqs d' = {[irq]} ∪ ic_irqs d else ic_irqs d' = ic_irqs d);
  msix_free_ok irq d : ic_irqs (msix_free irq d) = ic_irqs d ∖ {[irq]} /\ ic_handlers (msix_free irq d) = ic_handlers d;
  irq_register_ok irq v d ret d' : irq_register irq v d = (ret, d') ->
    ret <= 0 /\ ic_irqs d' = ic_irqs d /\ ic_handlers d' = (if ret =? 0 then {[irq]} else ∅) ∪ ic_handlers d;
  irq_unregister_ok irq d : ic_irqs (irq_unregister irq d) = ic_irqs d /\ ic_handlers (irq_unregister irq d) = ic_handlers d ∖ {[irq]};
  cfg_read_ic r d : ic_irqs (cfg_read r d).2 = ic_irqs d /\ ic_handlers (cfg_read r d).2 = ic_handlers d;
  cfg_write_ic r v d : ic_irqs (cfg_write r v d) = ic_irqs d /\ ic_handlers (cfg_write r v d) = ic_handlers d
}.

(** ** The code *)
Definition ENA_PLAT_PCI_CAP_ID_MSIX : Z := 0x11.

(** [config_addr] of the accessors: they address a dword. *)
Definition config_addr (addr : pci_address) (reg : Z) : Z :=
  Z.lor (Z.lor (Z.lor (Z.lor (Z.shiftl 1 31) (Z.shiftl (bus addr) 16)) (Z.shiftl (devid addr) 11))
    (Z.shiftl (function addr) 8)) (Z.land reg 0xFC).

(** [struct ena_msix_req]. *)
Record ena_msix_req := mkMsixReq {
  req_pci_dev : option pci_address;
  req_nvec : Z;
  req_lcpu : list Z;
  req_on_fire : bool
}.

Section Plat.
Context {D : Type} `{PciConfig D} `{IntCtlr D}.

Definition plat_pci_cfg_read (addr : pci_address) (reg : Z) : M D Z := fun w =>
  let '(v, d) := cfg_read (config_addr addr reg) (w_dev w) in Ret (v, set_w_dev d w).
Definition plat_pci_cfg_write (addr : pci_address) (reg v : Z) : M D unit := fun w =>
  Ret (tt, set_w_dev (cfg_write (config_addr addr reg) v (w_dev w)) w).

(** The loop over the capability list that the probe and the search share: the MSI-X
    capability and its header, if there is one. *)
Fixpoint cap_walk (addr : pci_address) (fuel : nat) (cap : Z) : M D (option (Z * Z)) :=
  match fuel with
  | O => fun _ => Hang
  | S fuel =>
      if cap =? 0 then mret None
      else
        dw ← plat_pci_cfg_read addr cap;
        if Z.land dw 0xFF =? ENA_PLAT_PCI_CAP_ID_MSIX then mret (Some (cap, dw))
        else cap_walk addr fuel (Z.land (Z.shiftr dw 8) 0xFF)
  end.

(** A list without a cycle has at most 256 entries. *)
Definition find_msix_cap (addr : pci_address) : M D (option (Z * Z)) :=
  cap ← plat_pci_cfg_read addr 0x34;
  cap_walk addr 257 (Z.land cap 0xFC).

(** The reads of the dump; what it prints is not modelled. *)
Fixpoint msix_cfg_dump (addr : pci_address) (n : nat) (off : Z) : M D unit :=
  match n with
  | O => mret tt
  | S n =>
      plat_pci_cfg_read addr off;; plat_pci_cfg_read addr (off + 4);; plat_pci_cfg_read addr (off + 8);;
      plat_pci_cfg_read addr (off + 12);;
      msix_cfg_dump addr n (off + 16)
  end.

(** Result: return value and number of vectors ([num_vectors] is not NULL). *)
Definition ena_plat_msix_probe (pci_dev : option pci_address) : M D (Z * Z) :=
  match pci_dev with
  | None => mret (0, 0)
  | Some addr =>
      c ← find_msix_cap addr;
      match c with
      | Some (_, dw) => mret (0, Z.land (Z.land (Z.shiftr dw 16) 0xFFFF) 0x7FF + 1)
      | None => msix_cfg_dump addr 64 0;; mret (0, 0)
      end
  end.

Definition msix_find (addr : pci_address) : M D (Z * ena_msix_loc) :=
  c ← find_msix_cap addr;
  match c with
  | None => mret (- ENODEV, mkMsixLoc (Some addr) 0 0 0 0)
  | Some (cap, dw) =>
      table_off ← plat_pci_cfg_read addr (cap + 4);
      pba_off ← plat_pci_cfg_read addr (cap + 8);
      let off := cap + 2 in
      let count := Z.land (Z.land (Z.shiftr dw 16) 0xFFFF) 0x7FF + 1 in
      let bar_reg := 0x10 + 4 * Z.land table_off 7 in
      lo ← plat_pci_cfg_read addr bar_reg;
      let bar_lo := Z.land lo 0xFFFFFFF0 in
      lo ← plat_pci_cfg_read addr bar_reg;
      bar_base ← (if Z.land lo 0x06 =? 0x04 then
                    hi ← plat_pci_cfg_read addr (bar_reg + 4); mret (Z.lor bar_lo (Z.shiftl hi 32))
                  else mret bar_lo);
      if bar_base =? 0 then mret (- ENODEV, mkMsixLoc (Some addr) off count 0 0)
      else mret (0, mkMsixLoc (Some addr) off count (u64 (bar_base + Z.land table_off 0xFFFFFFF8))
                      (u64 (bar_base + Z.land pba_off 0xFFFFFFF8)))
  end.

Definition get_msix : M D msix_state := u ← get_uk; mret (s_msix u).
Definition mod_msix (f : msix_state -> msix_state) : M D unit := mod_uk (fun u => set_s_msix (f (s_msix u)) u).

Definition set_msix_armed (b : bool) (n : Z) (m : msix_state) : msix_state :=
  mkMsix b n (msix_irqs m) (msix_counts m) (msix_fire m) (msix_loc m).
Definition set_msix_irqs (v : list Z) (m : msix_state) : msix_state :=
  mkMsix (msix_armed m) (msix_nvec m) v (msix_counts m) (msix_fire m) (msix_loc m).
Definition set_msix_counts (v : list Z) (m : msix_state) : msix_state :=
  mkMsix (msix_armed m) (msix_nvec m) (msix_irqs m) v (msix_fire m) (msix_loc m).
Definition set_msix_fire (v : bool) (m : msix_state) : msix_state :=
  mkMsix (msix_armed m) (msix_nvec m) (msix_irqs m) (msix_counts m) v (msix_loc m).
Definition set_msix_loc (v : ena_msix_loc) (m : msix_state) : msix_state :=
  mkMsix (msix_armed m) (msix_nvec m) (msix_irqs m) (msix_counts m) (msix_fire m) v.

Definition k_msix_alloc (lcpu : Z) : M D (Z * Z * Z * Z) := fun w =>
  let '(ret, irq, a, v, d) := msix_alloc lcpu (w_dev w) in Ret ((ret, irq, a, v), set_w_dev d w).
Definition k_irq_register (irq v : Z) : M D Z := fun w =>
  let '(ret, d) := irq_register irq v (w_dev w) in Ret (ret, set_w_dev d w).
Definition k_dev (f : D -> D) : M D unit := fun w => Ret (tt, set_w_dev (f (w_dev w)) w).

Definition get_irq (i : Z) : M D Z := m ← get_msix; lift (aget (Some (msix_irqs m)) i).
Definition put_irq (i irq : Z) : M D unit :=
  m ← get_msix;
  l ← lift (aset (Some (msix_irqs m)) i irq);
  mod_msix (set_msix_irqs (default [] l)).

(** The four words of table entry [i]. *)
Definition msix_entry_writes (table i addr data : Z) : list event :=
  [EvWrite32 (table + 16 * i) (Z.land addr 0xFFFFFFFF); EvWrite32 (table + 16 * i + 4) (u32 (Z.shiftr addr 32));
   EvWrite32 (table + 16 * i + 8) data; EvWrite32 (table + 16 * i + 12) 0].

(** The allocation loop from vector [i], [n] of them: [None], or the error and the
    vector it happened at. *)
Fixpoint arm_vectors (n : nat) (i table : Z) (lcpu : list Z) : M D (option (Z * Z)) :=
  match n with
  | O => mret None
  | S n =>
      c ← lift (aget (Some lcpu) i);
      '(ret, irq, addr, data) ← k_msix_alloc c;
      put_irq i irq;;
      if z2b ret then mret (Some (ret, i))
      else
        emit (msix_entry_writes table i addr data);;
        ret ← k_irq_register irq i;
        if z2b ret then
          k_dev (msix_free irq);; mret (Some (ret, i))
        else arm_vectors n (i + 1) table lcpu
  end.

(** Release the vectors below [n], the last one first. *)
Fixpoint release_down (n : nat) : M D unit :=
  match n with
  | O => mret tt
  | S n =>
      irq ← get_irq (Z.of_nat n);
      k_dev (irq_unregister irq);; k_dev (msix_free irq);;
      release_down n
  end.

(** Release the vectors from [i], the first one first. *)
Fixpoint release_up (n : nat) (i : Z) : M D unit :=
  match n with
  | O => mret tt
  | S n =>
      irq ← get_irq i;
      k_dev (irq_unregister irq);; k_dev (msix_free irq);;
      release_up n (i + 1)
  end.

(** Enable MSI-X (bit 15) and clear the function mask (bit 14); disable it. *)
Definition msgctl_enable (c : Z) : Z := Z.lor (Z.land c 0xFFFFBFFF) 0x8000.
Definition msgctl_disable (c : Z) : Z := Z.land c 0xFFFF7FFF.

(** The message control word is the high half of the dword at the capability. *)
Definition update_msgctl (f : Z -> Z) : M D unit :=
  m ← get_msix;
  match loc_pci_dev (msix_loc m) with
  | None => fun _ => Fault
  | Some addr =>
      let base := Z.land (msgctl_off (msix_loc m)) 0xFFFFFFFC in
      dw ← plat_pci_cfg_read addr base;
      plat_pci_cfg_write addr base
        (Z.lor (Z.land dw 0xFFFF) (u32 (Z.shiftl (f (Z.land (Z.shiftr dw 16) 0xFFFF)) 16)))
  end.

Definition ena_plat_msix_arm (req : ena_msix_req) : M D Z :=
  match req_pci_dev req with
  | None => mret (- EINVAL)
  | Some addr =>
      m ← get_msix;
      if msix_armed m then mret (- EBUSY)
      else
        '(ret, loc) ← msix_find addr;
        mod_msix (set_msix_loc loc);;
        if z2b ret then mret ret
        else
          let nvec := i32 (req_nvec req) in
          let nvec := if i32 (msix_count loc) <? nvec then i32 (msix_count loc) else nvec in
          let nvec := if ENA_PLAT_MSIX_MAX_VECTORS <? nvec then ENA_PLAT_MSIX_MAX_VECTORS else nvec in
          if nvec <=? 0 then mret (- ENODEV)
          else
            mod_msix (set_msix_fire (req_on_fire req));;
            e ← arm_vectors (Z.to_nat nvec) 0 (msix_table loc) (req_lcpu req);
            match e with
            | Some (ret, i) => release_down (Z.to_nat i);; mret ret
            | None =>
                update_msgctl msgctl_enable;;
                mod_msix (set_msix_armed true nvec);;
                mret 0
            end
  end.

Definition ena_plat_msix_disarm : M D unit :=
  m ← get_msix;
  if negb (msix_armed m) then mret tt
  else
    release_up (Z.to_nat (msix_nvec m)) 0;;
    update_msgctl msgctl_disable;;
    mod_msix (set_msix_armed false 0).

Definition ena_plat_msix_vector_count (vector : Z) : M D Z :=
  if ENA_PLAT_MSIX_MAX_VECTORS <=? vector then mret 0
  else m ← get_msix; lift (aget (Some (msix_counts m)) vector).

Definition ena_plat_msix_count_get : M D Z :=
  m ← get_msix; mret (fold_left (fun t c => u32 (t + c)) (take (Z.to_nat (msix_nvec m)) (msix_counts m)) 0).

Definition ena_plat_msix_state : M D Z :=
  m ← get_msix; mret (if msix_armed m then msix_nvec m else 0).
End Plat.

(** ** Configuration reads *)

(** A walk over the values of the registers: [None] when the fuel runs out. *)
Fixpoint walk_caps (val : Z -> Z) (fuel : nat) (cap : Z) : option (option (Z * Z)) :=
  match fuel with
  | O => None
  | S fuel =>
      if cap =? 0 then Some None
      else if Z.land (val cap) 0xFF =? ENA_PLAT_PCI_CAP_ID_MSIX then Some (Some (cap, val cap))
      else walk_caps val fuel (Z.land (Z.shiftr (val cap) 8) 0xFF)
  end.

(** *** The walk needs no more than 257 steps *)
Section Walk.
Variable val : Z -> Z.

Definition next_cap (c : Z) : Z := Z.land (Z.shiftr (val c) 8) 0xFF.
Definition stops (c : Z) : option (option (Z * Z)) :=
  if c =? 0 then Some None
  else if Z.land (val c) 0xFF =? ENA_PLAT_PCI_CAP_ID_MSIX then Some (Some (c, val c)) else None.

Lemma walk_iter fuel cap r :
  walk_caps val fuel cap = Some r <->
  exists n, (n < fuel)%nat /\ (forall m, (m < n)%nat -> stops (Nat.iter m next_cap cap) = None)
    /\ stops (Nat.iter n next_cap cap) = Some r.
Proof.
  revert cap. induction fuel as [| fuel IH]; intros cap.
  { split; [done |]. intros (n & ? & _). lia. }
  assert (walk_caps val (S fuel) cap = match stops cap with Some r => Some r | None => walk_caps val fuel (next_cap cap) end)
    as -> by (unfold stops; cbn [walk_caps]; repeat case_match; done).
  destruct (stops cap) as [r' |] eqn:Es.
  - split; [intros [= ->]; exists 0%nat; split_and!; [lia | lia | done] |].
    intros (n & _ & Hn & En). destruct n as [| n]; [by simpl in En; congruence |].
    specialize (Hn 0%nat). simpl in Hn. rewrite Hn in Es by lia. done.
  - rewrite IH. split; intros (n & Hf & Hn & En).
    + exists (S n). split_and!; [lia | | by rewrite Nat.iter_succ_r].
      intros [| m] Hm; [done |]. rewrite Nat.iter_succ_r. apply Hn. lia.
    + destruct n as [| n]; [by simpl in En; congruence |]. rewrite Nat.iter_succ_r in En.
      exists n. split_and!; [lia | | done]. intros m Hm. rewrite <- Nat.iter_succ_r. apply Hn. lia.
Qed.

Lemma iter_shift (m m' k : nat) cap : Nat.iter m next_cap cap = Nat.iter m' next_cap cap ->
  Nat.iter (k + m) next_cap cap = Nat.iter (k + m') next_cap cap.
Proof. intros E. by rewrite !Nat.iter_add, E. Qed.

Lemma next_cap_range c : 0 <= next_cap c < 256.
Proof. unfold next_cap. change 0xFF with (2 ^ 8 - 1). rewrite land_pred_pow2 by lia. apply Z.mod_pos_bound. lia. Qed.

(** A list that ends at all ends within 257 steps: the walk gives up only where the
    loop of the code runs for ever. *)
Lemma walk_fuel_enough fuel cap r : 0 <= cap < 256 ->
  walk_caps val fuel cap = Some r -> walk_caps val 257 cap = Some r.
Proof.
  intros Hc. rewrite !walk_iter. intros (n & _ & Hn & En). exists n. split_and!; [| done..].
  set (l := (fun k => Nat.iter k next_cap cap) <$> seq 0 n).
  assert (NoDup l) as Hl.
  { apply NoDup_fmap_2_strong; [| apply NoDup_seq]. intros i j Hi Hj E.
    apply elem_of_seq in Hi, Hj. destruct (Nat.lt_trichotomy i j) as [Hij | [| Hij]]; [exfalso | done | exfalso].
    - apply (iter_shift _ _ (n - j)) in E. rewrite Nat.sub_add in E by lia. rewrite <- E, Hn in En by lia. done.
    - symmetry in E. apply (iter_shift _ _ (n - i)) in E. rewrite Nat.sub_add in E by lia.
      rewrite <- E, Hn in En by lia. done. }
  assert (forall k, 0 <= Nat.iter k next_cap cap < 256) as Hr.
  { intros [| k]; [done |]. rewrite Nat.iter_succ. apply next_cap_range. }
  assert (l ⊆+ seqZ 0 256) as Hsub.
  { apply NoDup_submseteq; [done |]. intros x. unfold l. rewrite list_elem_of_fmap. intros (k & -> & _).
    apply elem_of_seqZ. specialize (Hr k). lia. }
  apply submseteq_length in Hsub. unfold l in Hsub. rewrite length_fmap, length_seq, length_seqZ in Hsub. lia.
Qed.
End Walk.

Lemma walk_caps_ext val val' fuel cap : (forall c, val c = val' c) -> walk_caps val fuel cap = walk_caps val' fuel cap.
Proof. intros E. revert cap. induction fuel as [| fuel IH]; intros cap; simpl; [done |]. by rewrite !E, IH. Qed.

Lemma walk_caps_some val fuel cap c dw : walk_caps val fuel cap = Some (Some (c, dw)) -> dw = val c.
Proof. revert cap. induction fuel as [| fuel IH]; intros cap; simpl; [done |]. repeat case_match; naive_solver. Qed.

Section PlatProofs.
Context {D : Type} `{PciConfig D} `{IntCtlr D} `{!PciConfigOk D} `{!IntCtlrOk D}.
Implicit Types (w : world D) (d : D).

Definition pci_regs (addr : pci_address) (d : D) (r : Z) : Z := cfg_val (config_addr addr r) d.

(** Neither a register nor the interrupt controller changed. *)
Definition same_regs (d d' : D) : Prop :=
  (forall r, cfg_val r d' = cfg_val r d) /\ ic_irqs d' = ic_irqs d /\ ic_handlers d' = ic_handlers d.

#[export] Instance same_regs_preorder : PreOrder same_regs.
Proof.
  split; [done |]. intros d1 d2 d3 (E1 & E2 & E3) (F1 & F2 & F3). unfold same_regs.
  rewrite F2, F3. split; [intros r; by rewrite F1 | done].
Qed.

Lemma same_regs_regs addr d d' r : same_regs d d' -> pci_regs addr d' r = pci_regs addr d r.
Proof. intros (E & _). apply E. Qed.

Lemma cfg_read_ret addr r w : exists d, same_regs (w_dev w) d
  /\ plat_pci_cfg_read addr r w = Ret (pci_regs addr (w_dev w) r, set_w_dev d w).
Proof.
  unfold plat_pci_cfg_read, pci_regs. pose proof (cfg_read_val (config_addr addr r) (w_dev w)) as E.
  pose proof (fun r' => cfg_read_keeps (config_addr addr r) r' (w_dev w)) as E'.
  pose proof (cfg_read_ic (config_addr addr r) (w_dev w)) as [E1 E2].
  destruct (cfg_read _ _) as [v d]; cbn [fst snd] in *. subst v. by exists d.
Qed.

Lemma wpm_cfg_read addr r (Q : Z -> world D -> Prop) w :
  (forall d, same_regs (w_dev w) d -> Q (pci_regs addr (w_dev w) r) (set_w_dev d w)) ->
  wpm (plat_pci_cfg_read addr r) Q w.
Proof. intros HQ. destruct (cfg_read_ret addr r w) as (d & Hd & E). unfold wpm. rewrite E. by apply HQ. Qed.

(** The walk reads and does nothing else: it gives what [walk_caps] gives, or does not
    end when that does not. *)
Lemma cap_walk_spec addr fuel cap w :
  match walk_caps (pci_regs addr (w_dev w)) fuel cap with
  | None => cap_walk addr fuel cap w = Hang
  | Some r => wpm (cap_walk addr fuel cap) (fun r' w' => r' = r /\ exists d, same_regs (w_dev w) d /\ w' = set_w_dev d w) w
  end.
Proof.
  revert cap w. induction fuel as [| fuel IH]; intros cap w; cbn [walk_caps cap_walk]; [done |].
  destruct (cap =? 0) eqn:Ec.
  { apply wpm_ret. split; [done |]. exists (w_dev w). split; [done |]. by destruct w. }
  destruct (cfg_read_ret addr cap w) as (d & Hd & Er).
  set (v := pci_regs addr (w_dev w) cap) in *.
  destruct (Z.land v 0xFF =? ENA_PLAT_PCI_CAP_ID_MSIX) eqn:Ei.
  - unfold wpm. rewrite (M_bind_ret _ _ _ _ _ Er), Ei. apply wp_ret. by eauto.
  - specialize (IH (Z.land (Z.shiftr v 8) 0xFF) (set_w_dev d w)). cbn [w_dev set_w_dev] in IH.
    rewrite (walk_caps_ext _ (pci_regs addr (w_dev w))) in IH by (intros; by apply same_regs_regs).
    destruct (walk_caps _ fuel _) as [r |].
    + unfold wpm. rewrite (M_bind_ret _ _ _ _ _ Er), Ei. refine (wpm_mono _ _ _ _ IH _).
      intros r' w' [-> (d' & Hd' & ->)]. split; [done |]. exists d'. split; [by transitivity d | done].
    + by rewrite (M_bind_ret _ _ _ _ _ Er), Ei.
Qed.

Lemma find_msix_cap_spec addr w r :
  walk_caps (pci_regs addr (w_dev w)) 257 (Z.land (pci_regs addr (w_dev w) 0x34) 0xFC) = Some r ->
  wpm (find_msix_cap addr) (fun r' w' => r' = r /\ exists d, same_regs (w_dev w) d /\ w' = set_w_dev d w) w.
Proof.
  intros Hr. unfold find_msix_cap. apply wpm_bind, wpm_cfg_read. intros d Hd.
  pose proof (cap_walk_spec addr 257 (Z.land (pci_regs addr (w_dev w) 0x34) 0xFC) (set_w_dev d w)) as Hw.
  cbn [w_dev set_w_dev] in Hw.
  rewrite (walk_caps_ext _ (pci_regs addr (w_dev w))), Hr in Hw by (intros; by apply same_regs_regs).
  refine (wpm_mono _ _ _ _ Hw _). intros r' w' [-> (d' & Hd' & ->)]. split; [done |]. exists d'.
  split; [by transitivity d | done].
Qed.

(** The base address a memory BAR holds. *)
Definition bar_value (val : Z -> Z) (reg : Z) : Z :=
  let lo := Z.land (val reg) 0xFFFFFFF0 in
  if Z.land (val reg) 0x06 =? 0x04 then Z.lor lo (Z.shiftl (val (reg + 4)) 32) else lo.

(** What the capability at [cap] describes. *)
Definition msix_decode (addr : pci_address) (val : Z -> Z) (cap : Z) : Z * ena_msix_loc :=
  let table := val (cap + 4) in
  let base := bar_value val (0x10 + 4 * Z.land table 7) in
  let at_ off := u64 (base + Z.land off 0xFFFFFFF8) in
  let count := field (val cap) 16 11 + 1 in
  if base =? 0 then (- ENODEV, mkMsixLoc (Some addr) (cap + 2) count 0 0)
  else (0, mkMsixLoc (Some addr) (cap + 2) count (at_ table) (at_ (val (cap + 8)))).

Lemma msgctl_count dw : Z.land (Z.land (Z.shiftr dw 16) 0xFFFF) 0x7FF = field dw 16 11.
Proof. unfold field. by rewrite <- Z.land_assoc. Qed.

Lemma msix_find_spec addr w r :
  walk_caps (pci_regs addr (w_dev w)) 257 (Z.land (pci_regs addr (w_dev w) 0x34) 0xFC) = Some r ->
  wpm (msix_find addr) (fun x w' =>
    x = match r with
        | None => (- ENODEV, mkMsixLoc (Some addr) 0 0 0 0)
        | Some (cap, _) => msix_decode addr (pci_regs addr (w_dev w)) cap
        end
    /\ exists d, same_regs (w_dev w) d /\ w' = set_w_dev d w) w.
Proof.
  intros Hr. unfold msix_find. apply wpm_bind. refine (wpm_mono _ _ _ _ (find_msix_cap_spec addr w r Hr) _).
  intros ? ? [-> (d & Hd & ->)]. destruct r as [[cap dw] |]; [| apply wpm_ret; eauto].
  apply walk_caps_some in Hr as ->.
  assert (forall d', same_regs d d' -> same_regs (w_dev w) d') as Ht by (intros; by transitivity d).
  unfold msix_decode, bar_value. rewrite msgctl_count.
  apply wpm_bind, wpm_cfg_read. intros d1 Hd1. apply wpm_bind, wpm_cfg_read. intros d2 Hd2.
  apply wpm_bind, wpm_cfg_read. intros d3 Hd3. apply wpm_bind, wpm_cfg_read. intros d4 Hd4.
  wsimpl_all. pose proof (Ht d1 Hd1) as H1'. assert (same_regs (w_dev w) d2) as H2' by (by transitivity d1).
  assert (same_regs (w_dev w) d3) as H3' by (by transitivity d2).
  assert (same_regs (w_dev w) d4) as H4' by (by transitivity d3).
  rewrite (same_regs_regs addr _ d _ Hd), (same_regs_regs addr _ d1 _ H1'), !(same_regs_regs addr _ d2 _ H2'),
    !(same_regs_regs addr _ d3 _ H3').
  set (t := pci_regs addr (w_dev w) (cap + 4)). set (lo := pci_regs addr (w_dev w) (16 + 4 * Z.land t 7)).
  apply wpm_bind. destruct (Z.land lo 6 =? 4).
  - apply wpm_bind, wpm_cfg_read. intros d5 Hd5. apply wpm_ret. wsimpl_all.
    rewrite (same_regs_regs addr _ d4 _ H4'). case_match; apply wpm_ret; (split; [done |]); exists d5;
      (split; [by transitivity d4 | done]).
  - apply wpm_ret. case_match; apply wpm_ret; (split; [done |]); by exists d4.
Qed.

(** ** Holding interrupts *)

(** Besides what [d0] had, the controller has exactly the interrupts [l] allocated, each
    with its handler. *)
Record irqs_held (d0 : D) (l : list Z) (d : D) : Prop := {
  hd_nodup : NoDup l;
  hd_fresh : list_to_set l ## ic_irqs d0 ∪ ic_handlers d0;
  hd_irqs : ic_irqs d = list_to_set l ∪ ic_irqs d0;
  hd_handlers : ic_handlers d = list_to_set l ∪ ic_handlers d0
}.

Lemma irqs_held_nil d0 : irqs_held d0 [] d0.
Proof. split; [apply NoDup_nil_2 | set_solver..]. Qed.
Lemma irqs_held_nil_inv d0 d : irqs_held d0 [] d -> ic_irqs d = ic_irqs d0 /\ ic_handlers d = ic_handlers d0.
Proof. intros [_ _ E1 E2]. set_solver. Qed.
Lemma irqs_held_same d0 l d d' : same_regs d d' -> irqs_held d0 l d -> irqs_held d0 l d'.
Proof. intros (_ & E1 & E2) [? ? ? ?]. split; [done | done | congruence..]. Qed.

Lemma irqs_held_remove d0 l1 x l2 d : irqs_held d0 (l1 ++ x :: l2) d -> irqs_held d0 (l1 ++ l2) (msix_free x (irq_unregister x d)).
Proof.
  intros [Hn Hf Hi Hh]. destruct (msix_free_ok x (irq_unregister x d)) as [E1 E2].
  destruct (irq_unregister_ok x d) as [E3 E4]. rewrite <- Permutation_middle in Hn. apply NoDup_cons in Hn as [Hx Hn].
  assert ((x ∉ l1) /\ (x ∉ l2)) as [? ?] by set_solver.
  assert (forall S : gset Z, x ∉ S -> (list_to_set (l1 ++ x :: l2) ∪ S) ∖ {[x]} = list_to_set (l1 ++ l2) ∪ S) as Es.
  { intros S HS. rewrite !list_to_set_app_L, list_to_set_cons. apply set_eq. intros z.
    rewrite !elem_of_difference, !elem_of_union, elem_of_singleton, !elem_of_list_to_set.
    destruct (decide (z = x)) as [-> |]; naive_solver. }
  split; [done | set_solver | by rewrite E1, E3, Hi, Es by set_solver | by rewrite E2, E4, Hh, Es by set_solver].
Qed.

Lemma irqs_held_add d0 l irq d : irqs_held d0 l d -> irq ∉ ic_irqs d -> irq ∉ ic_handlers d ->
  forall d', ic_irqs d' = {[irq]} ∪ ic_irqs d -> ic_handlers d' = {[irq]} ∪ ic_handlers d -> irqs_held d0 (l ++ [irq]) d'.
Proof.
  intros [Hn Hf Hi Hh] Hi' Hh' d' E1 E2. rewrite Hi in Hi'. rewrite Hh in Hh'. split.
  - apply NoDup_app. split_and!; [done | set_solver | apply NoDup_singleton].
  - set_solver.
  - rewrite E1, Hi. set_solver.
  - rewrite E2, Hh. set_solver.
Qed.

(** Only the MSI-X state, the device and the log may have changed. *)
Definition msix_only (w w' : world D) : Prop :=
  exists m d es, w' = set_w_uk (set_s_msix m (w_uk w)) (set_w_dev d (set_w_log (w_log w ++ es) w))
    /\ freed es = [] /\ msix_counts m = msix_counts (s_msix (w_uk w)) /\ length (msix_irqs m) = length (msix_irqs (s_msix (w_uk w))).

#[export] Instance msix_only_preorder : PreOrder msix_only.
Proof.
  split.
  - intros w. exists (s_msix (w_uk w)), (w_dev w), []. rewrite app_nil_r. by destruct w as [[] ? ? ? ? ?].
  - intros w1 w2 w3 (m & d & es & -> & E0 & E1 & E2) (m' & d' & es' & -> & E0' & E1' & E2'). wsimpl_all.
    exists m', d', (es ++ es'). rewrite app_assoc, freed_app, E0, E0'. simpl in *. split_and!; [done | done | congruence..].
Qed.

Lemma msix_only_dev w d : msix_only w (set_w_dev d w).
Proof. exists (s_msix (w_uk w)), d, []. rewrite app_nil_r. by destruct w as [[] ? ? ? ? ?]. Qed.
Lemma msix_only_log w es : freed es = [] -> msix_only w (set_w_log (w_log w ++ es) w).
Proof. exists (s_msix (w_uk w)), (w_dev w), es. by destruct w as [[] ? ? ? ? ?]. Qed.
Lemma msix_only_msix w m : msix_counts m = msix_counts (s_msix (w_uk w)) ->
  length (msix_irqs m) = length (msix_irqs (s_msix (w_uk w))) -> msix_only w (set_w_uk (set_s_msix m (w_uk w)) w).
Proof. exists m, (w_dev w), []. rewrite app_nil_r. by destruct w as [[] ? ? ? ? ?]. Qed.

Lemma wpm_get_msix (Q : msix_state -> world D -> Prop) w : Q (s_msix (w_uk w)) w -> wpm get_msix Q w.
Proof. done. Qed.
Lemma wpm_mod_msix f (Q : unit -> world D -> Prop) w :
  Q tt (set_w_uk (set_s_msix (f (s_msix (w_uk w))) (w_uk w)) w) -> wpm (mod_msix f) Q w.
Proof. done. Qed.
Lemma wpm_k_dev f (Q : unit -> world D -> Prop) w : Q tt (set_w_dev (f (w_dev w)) w) -> wpm (k_dev f) Q w.
Proof. done. Qed.
Lemma wpm_emit es (Q : unit -> world D -> Prop) w : Q tt (set_w_log (w_log w ++ es) w) -> wpm (emit es) Q w.
Proof. done. Qed.

Lemma wpm_get_irq i irq (Q : Z -> world D -> Prop) w : 0 <= i ->
  msix_irqs (s_msix (w_uk w)) !! Z.to_nat i = Some irq -> Q irq w -> wpm (get_irq i) Q w.
Proof. intros ? E HQ. unfold get_irq. apply wpm_bind, wpm_get_msix, (wpm_lift _ irq); [by apply aget_ret | done]. Qed.

Definition irqs_of (w : world D) : list Z := msix_irqs (s_msix (w_uk w)).

(** The flags and the location did not change. *)
Definition msix_same (w w' : world D) : Prop :=
  let m := s_msix (w_uk w) in let m' := s_msix (w_uk w') in
  msix_armed m' = msix_armed m /\ msix_nvec m' = msix_nvec m /\ msix_fire m' = msix_fire m /\ msix_loc m' = msix_loc m.

#[export] Instance msix_same_preorder : PreOrder msix_same.
Proof. unfold msix_same. split; [done |]. intros w1 w2 w3 (-> & -> & -> & ->) ?. naive_solver congruence. Qed.

Lemma wpm_put_irq i irq (Q : unit -> world D -> Prop) w : 0 <= i < Z.of_nat (length (irqs_of w)) ->
  (forall w', msix_only w w' -> w_dev w' = w_dev w -> w_log w' = w_log w -> irqs_of w' = <[Z.to_nat i := irq]> (irqs_of w) ->
    msix_same w w' -> Q tt w') -> wpm (put_irq i irq) Q w.
Proof.
  intros Hi HQ. unfold put_irq. apply wpm_bind, wpm_get_msix, wpm_bind.
  eapply wpm_lift; [by apply aset_ret |]. apply wpm_mod_msix. apply HQ; try done.
  apply msix_only_msix; [done |]. simpl. by rewrite length_insert.
Qed.

(** The stores that program the table from entry [i]. *)
Fixpoint table_writes (table i : Z) (msgs : list (Z * Z)) : list event :=
  match msgs with
  | [] => []
  | (a, v) :: msgs => msix_entry_writes table i a v ++ table_writes table (i + 1) msgs
  end.

Lemma irqs_held_msix_alloc d0 l lcpu d ret irq a v d' : irqs_held d0 l d -> msix_alloc lcpu d = (ret, irq, a, v, d') ->
  ret <= 0 /\ (ret <> 0 -> irqs_held d0 l d')
  /\ (ret = 0 -> forall r vec d'', irq_register irq vec d' = (r, d'') ->
        r <= 0 /\ (r <> 0 -> irqs_held d0 l (msix_free irq d'')) /\ (r = 0 -> irqs_held d0 (l ++ [irq]) d'')).
Proof.
  intros Hh E. pose proof (msix_alloc_ok _ _ _ _ _ _ _ E) as (Hr & Eh & Ei). split_and!; [done | |].
  - intros Hne. rewrite (proj2 (Z.eqb_neq _ _) Hne) in Ei. destruct Hh. split; [done | done | congruence..].
  - intros -> r vec d'' E'. destruct Ei as (Hf & Hf' & Ei). pose proof (irq_register_ok _ _ _ _ _ E') as (Hr' & Ei' & Eh').
    split_and!; [done | |]; intros Hz.
    + rewrite (proj2 (Z.eqb_neq _ _) Hz) in Eh'. destruct (msix_free_ok irq d'') as [F1 F2].
      destruct Hh as [? ? Hi1 Hh1]. split; [done | done | |]; [rewrite F1, Ei', Ei | rewrite F2, Eh']; set_solver.
    + subst r. apply (irqs_held_add d0 l irq d Hh Hf Hf'); [congruence | by rewrite Eh', Eh].
Qed.

Lemma arm_vectors_spec d0 table lcpu n i w :
  (i + n <= length lcpu)%nat -> (i + n <= length (irqs_of w))%nat -> irqs_held d0 (take i (irqs_of w)) (w_dev w) ->
  wpm (arm_vectors n (Z.of_nat i) table lcpu) (fun e w' => msix_only w w' /\ msix_same w w' /\
    match e with
    | None => irqs_held d0 (take (i + n) (irqs_of w')) (w_dev w')
        /\ exists msgs, length msgs = n /\ w_log w' = w_log w ++ table_writes table (Z.of_nat i) msgs
    | Some (r, j) => r < 0 /\ 0 <= j < Z.of_nat (i + n) /\ irqs_held d0 (take (Z.to_nat j) (irqs_of w')) (w_dev w')
    end) w.
Proof.
  revert i w. induction n as [| n IH]; intros i w Hl Hi Hh.
  { apply wpm_ret. split_and!; [done | done | by rewrite Nat.add_0_r | exists []; by rewrite app_nil_r]. }
  cbn [arm_vectors]. destruct (lookup_in_range lcpu (Z.of_nat i)) as [c Ec]; [lia |].
  apply wpm_bind, (wpm_lift _ c); [by apply aget_ret; [lia |] |]. apply wpm_bind.
  unfold wpm at 1, k_msix_alloc. destruct (msix_alloc c (w_dev w)) as [[[[ret irq] a] v] d1] eqn:Ea.
  cbn [wp]. destruct (irqs_held_msix_alloc _ _ _ _ _ _ _ _ _ Hh Ea) as (Hr & Hfail & Hok).
  assert (msix_only w (set_w_dev d1 w)) as Hd1 by apply msix_only_dev.
  apply wpm_bind, wpm_put_irq; [unfold irqs_of in *; wsimpl; lia |].
  intros w2 Ho2 Ed2 El2 Ei2 Hs2. wsimpl_all. rewrite Nat2Z.id in Ei2.
  assert (irqs_of w2 = <[i:=irq]> (irqs_of w)) as Ei2' by exact Ei2. clear Ei2.
  assert (take i (irqs_of w2) = take i (irqs_of w)) as Et by (rewrite Ei2'; by apply take_insert_ge).
  assert (msix_only w w2) as Hw2 by (by transitivity (set_w_dev d1 w)).
  assert (msix_same w w2) as Hs2' by exact Hs2.
  destruct (z2b ret) eqn:Ez; unfold z2b in Ez.
  { apply wpm_ret. split_and!; [done | done | lia.. |]. rewrite Nat2Z.id, Et, Ed2. apply Hfail. lia. }
  destruct (irq_register irq (Z.of_nat i) d1) as [r d2] eqn:Eg.
  destruct (Hok ltac:(lia) _ _ _ Eg) as (Hr' & Hfail' & Hok').
  apply wpm_bind, wpm_emit, wpm_bind. unfold wpm at 1, k_irq_register. wsimpl. rewrite Ed2, Eg. cbn [wp].
  set (es := msix_entry_writes table (Z.of_nat i) a v). set (w3 := set_w_dev d2 (set_w_log (w_log w2 ++ es) w2)).
  assert (msix_only w2 w3) as Ho3 by (transitivity (set_w_log (w_log w2 ++ es) w2); [by apply msix_only_log | apply msix_only_dev]).
  destruct (z2b r) eqn:Ezr; unfold z2b in Ezr.
  { apply wpm_bind, wpm_k_dev, wpm_ret. split_and!; [| done | lia.. |].
    - transitivity w2; [done |]. transitivity w3; [done |]. apply msix_only_dev.
    - rewrite Nat2Z.id. change (irqs_of _) with (irqs_of w2). rewrite Et. apply Hfail'. lia. }
  replace (Z.of_nat i + 1) with (Z.of_nat (S i)) by lia.
  assert (irqs_of w3 = irqs_of w2) as Ei3 by done.
  refine (wpm_mono _ _ _ _ (IH (S i) w3 _ _ _) _); [lia | rewrite Ei3, Ei2', length_insert; lia | |].
  { rewrite Ei3, (take_S_r _ _ irq) by (rewrite Ei2'; apply list_lookup_insert_eq; lia). rewrite Et. apply Hok'. lia. }
  intros e w4 (Ho4 & Hs4 & He). split_and!; [by transitivity w2; [| transitivity w3] | by transitivity w3 |].
  destruct e as [[r' j] |].
  - replace (i + S n)%nat with (S i + n)%nat by lia. done.
  - replace (i + S n)%nat with (S i + n)%nat by lia. destruct He as (Hh4 & msgs & Hm & El4). split; [done |].
    exists ((a, v) :: msgs). split; [by simpl; rewrite Hm |]. rewrite El4. unfold w3. wsimpl. rewrite El2.
    cbn [table_writes]. by rewrite <- app_assoc, Nat2Z.inj_succ.
Qed.

Lemma msix_same_dev w d : msix_same w (set_w_dev d w).
Proof. done. Qed.

Lemma release_down_spec d0 n w : (n <= length (irqs_of w))%nat -> irqs_held d0 (take n (irqs_of w)) (w_dev w) ->
  wpm (release_down n) (fun _ w' => msix_only w w' /\ msix_same w w' /\ irqs_held d0 [] (w_dev w')) w.
Proof.
  revert w. induction n as [| n IH]; intros w Hl Hh; cbn [release_down]; [by apply wpm_ret |].
  destruct (lookup_lt_is_Some_2 (irqs_of w) n) as [irq E]; [lia |].
  apply wpm_bind, (wpm_get_irq _ irq); [lia | by rewrite Nat2Z.id |].
  apply wpm_bind, wpm_k_dev, wpm_bind, wpm_k_dev. wsimpl.
  set (d := msix_free irq (irq_unregister irq (w_dev w))).
  refine (wpm_mono _ _ _ _ (IH (set_w_dev d w) _ _) _); [unfold irqs_of in *; wsimpl; lia | |].
  - rewrite (take_S_r _ _ irq) in Hh by done. apply irqs_held_remove in Hh. by rewrite app_nil_r in Hh.
  - intros _ w' (Ho & Hs & ?). split_and!; [transitivity (set_w_dev d w); [apply msix_only_dev | done] | | done].
    by transitivity (set_w_dev d w).
Qed.

Lemma release_up_spec d0 n i w : (i + n <= length (irqs_of w))%nat ->
  irqs_held d0 (take n (drop i (irqs_of w))) (w_dev w) ->
  wpm (release_up n (Z.of_nat i)) (fun _ w' => msix_only w w' /\ msix_same w w' /\ irqs_held d0 [] (w_dev w')) w.
Proof.
  revert i w. induction n as [| n IH]; intros i w Hl Hh; cbn [release_up]; [by apply wpm_ret |].
  destruct (lookup_lt_is_Some_2 (irqs_of w) i) as [irq E]; [lia |].
  apply wpm_bind, (wpm_get_irq _ irq); [lia | by rewrite Nat2Z.id |].
  apply wpm_bind, wpm_k_dev, wpm_bind, wpm_k_dev. wsimpl.
  set (d := msix_free irq (irq_unregister irq (w_dev w))).
  replace (Z.of_nat i + 1) with (Z.of_nat (S i)) by lia.
  refine (wpm_mono _ _ _ _ (IH (S i) (set_w_dev d w) _ _) _); [unfold irqs_of in *; wsimpl; lia | |].
  - rewrite (drop_S _ irq) in Hh by done. apply (irqs_held_remove d0 []) in Hh. done.
  - intros _ w' (Ho & Hs & ?). split_and!; [transitivity (set_w_dev d w); [apply msix_only_dev | done] | | done].
    by transitivity (set_w_dev d w).
Qed.

(** The control word was written back with the enable bit (31) at [on]; when it turns on,
    the function mask (30) is cleared.  Nothing else of it changes. *)
Definition msgctl_set (on : bool) (loc : ena_msix_loc) (d : D) : Prop :=
  exists addr d1 v, loc_pci_dev loc = Some addr /\
    let base := Z.land (msgctl_off loc) 0xFFFFFFFC in
    d = cfg_write (config_addr addr base) v d1 /\
    forall k, 0 <= k < 32 ->
      Z.testbit v k = if k =? 31 then on else if on && (k =? 30) then false else Z.testbit (pci_regs addr d1 base) k.

Lemma msgctl_bits (on : bool) dw k : 0 <= k < 32 ->
  Z.testbit (Z.lor (Z.land dw 0xFFFF)
      (u32 (Z.shiftl ((if on then msgctl_enable else msgctl_disable) (Z.land (Z.shiftr dw 16) 0xFFFF)) 16))) k
  = if k =? 31 then on else if on && (k =? 30) then false else Z.testbit dw k.
Proof.
  unfold u32, msgctl_enable, msgctl_disable. intros Hk.
  destruct on; enum_bits k Hk; repeat bit_step; bit_ground;
    rewrite ?andb_true_r, ?andb_false_r, ?orb_false_r, ?orb_true_r, ?orb_false_l, ?andb_true_l; done.
Qed.

Lemma irqs_held_cfg_write d0 l r v d : irqs_held d0 l d -> irqs_held d0 l (cfg_write r v d).
Proof. destruct (cfg_write_ic r v d) as [E1 E2]. intros []. split; [done | done | congruence..]. Qed.

Lemma update_msgctl_spec d0 l (on : bool) w :
  is_Some (loc_pci_dev (msix_loc (s_msix (w_uk w)))) -> irqs_held d0 l (w_dev w) ->
  wpm (update_msgctl (if on then msgctl_enable else msgctl_disable)) (fun _ w' => exists d, w' = set_w_dev d w /\ irqs_held d0 l d
    /\ msgctl_set on (msix_loc (s_msix (w_uk w))) d) w.
Proof.
  intros [addr Ea] Hh. unfold update_msgctl. apply wpm_bind, wpm_get_msix. rewrite Ea.
  apply wpm_bind, wpm_cfg_read. intros d1 Hd1. unfold wpm, plat_pci_cfg_write. wsimpl.
  eexists. split_and!; [done | by apply irqs_held_cfg_write, (irqs_held_same _ _ _ _ Hd1) |].
  eexists addr, d1, _. split; [done |]. cbn zeta. split; [reflexivity |]. intros k Hk. rewrite (same_regs_regs addr (w_dev w) d1) by done.
  by apply msgctl_bits.
Qed.

(** ** Arming and disarming *)
Definition caps_end (addr : pci_address) (d : D) : Prop :=
  is_Some (walk_caps (pci_regs addr d) 257 (Z.land (pci_regs addr d 0x34) 0xFC)).

(** [nvec] vectors are armed: their interrupts are held, their table entries written, and
    the capability is on. *)
Record msix_armed_by (req : ena_msix_req) (w w' : world D) : Prop := {
  mb_armed : msix_armed (s_msix (w_uk w')) = true;
  mb_nvec : 0 < msix_nvec (s_msix (w_uk w')) <= ENA_PLAT_MSIX_MAX_VECTORS
    /\ msix_nvec (s_msix (w_uk w')) <= req_nvec req /\ msix_nvec (s_msix (w_uk w')) <= msix_count (msix_loc (s_msix (w_uk w')));
  mb_fire : msix_fire (s_msix (w_uk w')) = req_on_fire req;
  mb_loc : is_Some (req_pci_dev req) /\ loc_pci_dev (msix_loc (s_msix (w_uk w'))) = req_pci_dev req;
  mb_held : irqs_held (w_dev w) (take (Z.to_nat (msix_nvec (s_msix (w_uk w')))) (irqs_of w')) (w_dev w');
  mb_table : exists msgs, Z.of_nat (length msgs) = msix_nvec (s_msix (w_uk w'))
    /\ w_log w' = w_log w ++ table_writes (msix_table (msix_loc (s_msix (w_uk w')))) 0 msgs;
  mb_ctl : msgctl_set true (msix_loc (s_msix (w_uk w'))) (w_dev w')
}.

Lemma msix_decode_range addr val cap ret loc : msix_decode addr val cap = (ret, loc) ->
  ret <= 0 /\ loc_pci_dev loc = Some addr /\ 1 <= msix_count loc <= 2048.
Proof.
  unfold msix_decode, ENODEV. pose proof (field_bound (val cap) 16 11 ltac:(lia)).
  case_match; intros [= <- <-]; simpl; split_and!; done || lia.
Qed.

(** Allocation of the vectors, and the switch of the capability when all are there. *)
Lemma arm_commit_spec d0 lcpu n w : 0 < n <= ENA_PLAT_MSIX_MAX_VECTORS ->
  length lcpu = Z.to_nat ENA_PLAT_MSIX_MAX_VECTORS -> length (irqs_of w) = Z.to_nat ENA_PLAT_MSIX_MAX_VECTORS ->
  let m := s_msix (w_uk w) in is_Some (loc_pci_dev (msix_loc m)) -> irqs_held d0 [] (w_dev w) ->
  wpm (e ← arm_vectors (Z.to_nat n) 0 (msix_table (msix_loc m)) lcpu;
       match e with
       | Some (ret, i) => release_down (Z.to_nat i);; mret ret
       | None => update_msgctl msgctl_enable;; mod_msix (set_msix_armed true n);; mret 0
       end) (fun ret w' => let m' := s_msix (w_uk w') in
    msix_only w w' /\ msix_loc m' = msix_loc m /\ msix_fire m' = msix_fire m /\
    (ret = 0 /\ msix_armed m' = true /\ msix_nvec m' = n /\ irqs_held d0 (take (Z.to_nat n) (irqs_of w')) (w_dev w')
      /\ (exists msgs, Z.of_nat (length msgs) = n /\ w_log w' = w_log w ++ table_writes (msix_table (msix_loc m')) 0 msgs)
      /\ msgctl_set true (msix_loc m') (w_dev w')
     \/ ret < 0 /\ msix_armed m' = msix_armed m /\ msix_nvec m' = msix_nvec m /\ irqs_held d0 [] (w_dev w'))) w.
Proof.
  cbn zeta. unfold ENA_PLAT_MSIX_MAX_VECTORS. intros Hn Hlc Hli Hloc Hh0.
  apply wpm_bind. refine (wpm_mono _ _ _ _ (arm_vectors_spec d0 (msix_table (msix_loc (s_msix (w_uk w)))) lcpu (Z.to_nat n) 0 w
    _ _ _) _); [lia | lia | done |].
  intros e w1 (Ho & (S1 & S2 & S3 & S4) & He).
  assert (length (irqs_of w1) = 32%nat) as Hl1 by (destruct Ho as (? & ? & ? & -> & _ & _ & El1); unfold irqs_of in *; simpl; lia).
  destruct e as [[r' j] |].
  - destruct He as (Hr' & Hj & Hh). apply wpm_bind.
    refine (wpm_mono _ _ _ _ (release_down_spec d0 (Z.to_nat j) w1 _ Hh) _); [lia |].
    intros _ w2 (Ho2 & (T1 & T2 & T3 & T4) & Hh2). apply wpm_ret. rewrite T1, T2, T3, T4, S1, S2, S3, S4.
    split_and!; [by transitivity w1 | done | done |]. by right.
  - destruct He as (Hh & msgs & Hm & El). apply wpm_bind.
    refine (wpm_mono _ _ _ _ (update_msgctl_spec _ _ true w1 _ Hh) _); [by rewrite S4 |].
    intros _ w2 (d2 & -> & Hh2 & Hc). apply wpm_bind, wpm_mod_msix, wpm_ret. simpl. rewrite S4 in *.
    split_and!; [| done | done |].
    + transitivity w1; [done |]. transitivity (set_w_dev d2 w1); [apply msix_only_dev | by apply (msix_only_msix (set_w_dev d2 w1))].
    + left. split_and!; try done. exists msgs. split; [lia | done].
Qed.

Lemma msix_arm_spec req w :
  (forall addr, req_pci_dev req = Some addr -> caps_end addr (w_dev w)) -> 0 <= req_nvec req < 2 ^ 31 ->
  length (req_lcpu req) = Z.to_nat ENA_PLAT_MSIX_MAX_VECTORS -> length (irqs_of w) = Z.to_nat ENA_PLAT_MSIX_MAX_VECTORS ->
  wpm (ena_plat_msix_arm req) (fun ret w' => msix_only w w' /\
    (ret = 0 /\ msix_armed (s_msix (w_uk w)) = false /\ msix_armed_by req w w'
     \/ ret < 0 /\ irqs_held (w_dev w) [] (w_dev w') /\ msix_armed (s_msix (w_uk w')) = msix_armed (s_msix (w_uk w))
        /\ msix_nvec (s_msix (w_uk w')) = msix_nvec (s_msix (w_uk w)))) w.
Proof.
  intros Hcaps Hnv Hlc Hli. unfold ena_plat_msix_arm. pose proof (irqs_held_nil (w_dev w)) as Hn0.
  destruct (req_pci_dev req) as [addr |] eqn:Ep; [| apply wpm_ret; split; [done |]; right; done].
  apply wpm_bind, wpm_get_msix. destruct (msix_armed (s_msix (w_uk w))) eqn:Ea.
  { apply wpm_ret. split; [done |]. right. done. }
  destruct (Hcaps _ eq_refl) as [r Hr]. apply wpm_bind. refine (wpm_mono _ _ _ _ (msix_find_spec addr w r Hr) _).
  intros [ret loc] w1 (El & d1 & Hd1 & ->).
  assert (ret <= 0 /\ loc_pci_dev loc = Some addr /\ 0 <= msix_count loc <= 2048) as (Hret & Hloc & Hcnt).
  { destruct r as [[cap dw] |]; [symmetry in El; apply msix_decode_range in El as (? & ? & ?); split_and!; done || lia |].
    injection El as -> ->. unfold ENODEV. simpl. split_and!; done || lia. }
  clear El. apply wpm_bind, wpm_mod_msix. wsimpl.
  set (w2 := set_w_uk _ (set_w_dev d1 w)).
  assert (msix_only w w2) as Ho2 by (transitivity (set_w_dev d1 w); [apply msix_only_dev | by apply (msix_only_msix (set_w_dev d1 w))]).
  assert (irqs_held (w_dev w) [] (w_dev w2)) as Hn2 by by apply (irqs_held_same _ _ _ _ Hd1).
  destruct (z2b ret) eqn:Ez; unfold z2b in Ez.
  { apply wpm_ret. split; [done |]. right. split_and!; [lia | done | exact Ea | done]. }
  cbn zeta. rewrite !i32_id by lia. set (n1 := if msix_count loc <? req_nvec req then _ else _).
  set (n := if ENA_PLAT_MSIX_MAX_VECTORS <? n1 then _ else n1).
  assert (n <= ENA_PLAT_MSIX_MAX_VECTORS /\ n <= req_nvec req /\ n <= msix_count loc) as Hn.
  { unfold n, n1, ENA_PLAT_MSIX_MAX_VECTORS in *. repeat case_match; lia. }
  clearbody n. clear n1.
  destruct (Z.leb_spec n 0); [apply wpm_ret; split; [done |]; right; split_and!; [done | done | exact Ea | done] |].
  apply wpm_bind, wpm_mod_msix. wsimpl. set (w3 := set_w_uk _ w2).
  assert (msix_only w w3) as Ho3 by (transitivity w2; [done | by apply (msix_only_msix w2)]).
  refine (wpm_mono _ _ _ _ (arm_commit_spec (w_dev w) (req_lcpu req) n w3 _ _ _ _ _) _);
    [unfold ENA_PLAT_MSIX_MAX_VECTORS in *; lia | done | done | simpl; rewrite Hloc; done | done |].
  intros r' w' (Ho & Hl & Hf & [(-> & E1 & E2 & Hh & Ht & Hc) | (Hr' & E1 & E2 & Hh)]); (split; [by transitivity w3 |]).
  - left. split_and!; [done | done |]. split; rewrite ?E2, ?Hl; simpl; try done; [unfold ENA_PLAT_MSIX_MAX_VECTORS in *; split_and!; lia | by rewrite Hloc, Ep; eauto | by destruct Ht as (msgs & ? & ?); rewrite Hl in *; exists msgs | by rewrite Hl in Hc].
  - right. by rewrite E1, E2.
Qed.

Lemma msix_disarm_spec d0 w : let n := Z.to_nat (msix_nvec (s_msix (w_uk w))) in
  msix_armed (s_msix (w_uk w)) = true -> (n <= length (irqs_of w))%nat ->
  is_Some (loc_pci_dev (msix_loc (s_msix (w_uk w)))) -> irqs_held d0 (take n (irqs_of w)) (w_dev w) ->
  wpm ena_plat_msix_disarm (fun _ w' => msix_only w w' /\ msix_armed (s_msix (w_uk w')) = false
    /\ msix_nvec (s_msix (w_uk w')) = 0 /\ irqs_held d0 [] (w_dev w')
    /\ msgctl_set false (msix_loc (s_msix (w_uk w'))) (w_dev w')) w.
Proof.
  cbn zeta. intros Ea Hn Hl Hh. unfold ena_plat_msix_disarm. apply wpm_bind, wpm_get_msix. rewrite Ea. cbn [negb].
  apply wpm_bind. refine (wpm_mono _ _ _ _ (release_up_spec d0 _ 0 w _ _) _); [done | by rewrite drop_0 |].
  intros _ w1 (Ho & (_ & _ & _ & S4) & Hh1). apply wpm_bind.
  refine (wpm_mono _ _ _ _ (update_msgctl_spec d0 [] false w1 _ Hh1) _); [by rewrite S4 |].
  intros _ w2 (d2 & -> & Hh2 & Hc). apply wpm_mod_msix. split_and!; [| done..].
  transitivity w1; [done |]. transitivity (set_w_dev d2 w1); [apply msix_only_dev |].
  by apply (msix_only_msix (set_w_dev d2 w1)).
Qed.

Lemma msix_cfg_dump_spec addr n off w :
  wpm (msix_cfg_dump addr n off) (fun _ w' => exists d, same_regs (w_dev w) d /\ w' = set_w_dev d w) w.
Proof.
  revert off w. induction n as [| n IH]; intros off w; cbn [msix_cfg_dump].
  - apply wpm_ret. exists (w_dev w). split; [done |]. by destruct w.
  - apply wpm_bind, wpm_cfg_read; intros d1 Hd1. apply wpm_bind, wpm_cfg_read; intros d2 Hd2.
    apply wpm_bind, wpm_cfg_read; intros d3 Hd3. apply wpm_bind, wpm_cfg_read; intros d4 Hd4. wsimpl_all.
    refine (wpm_mono _ _ _ _ (IH _ _) _). intros _ w' (d & Hd & ->). exists d. split; [| done].
    transitivity d4; [| done]. transitivity d3; [| done]. transitivity d2; [| done]. by transitivity d1.
Qed.

Lemma probe_cap_spec addr w r :
  walk_caps (pci_regs addr (w_dev w)) 257 (Z.land (pci_regs addr (w_dev w) 0x34) 0xFC) = Some r ->
  wpm (ena_plat_msix_probe (Some addr)) (fun '(ret, n) w' => ret = 0
    /\ n = match r with Some (cap, _) => field (pci_regs addr (w_dev w) cap) 16 11 + 1 | None => 0 end
    /\ exists d, same_regs (w_dev w) d /\ w' = set_w_dev d w) w.
Proof.
  intros Hr. unfold ena_plat_msix_probe. apply wpm_bind.
  refine (wpm_mono _ _ _ _ (find_msix_cap_spec addr w r Hr) _). intros ? ? [-> (d & Hd & ->)].
  destruct r as [[cap dw] |].
  - apply wpm_ret. apply walk_caps_some in Hr as ->. rewrite msgctl_count. by eauto.
  - apply wpm_bind. refine (wpm_mono _ _ _ _ (msix_cfg_dump_spec addr 64 0 _) _). intros _ w' (d' & Hd' & ->).
    apply wpm_ret. split_and!; [done | done |]. exists d'. split; [by transitivity d | done].
Qed.

Lemma probe_spec pci_dev w : (forall addr, pci_dev = Some addr -> caps_end addr (w_dev w)) ->
  wpm (ena_plat_msix_probe pci_dev) (fun '(ret, n) w' => ret = 0 /\ (0 <= n /\ (n <> 0 -> is_Some pci_dev))
    /\ exists d, same_regs (w_dev w) d /\ w' = set_w_dev d w) w.
Proof.
  intros Hc. destruct pci_dev as [addr |].
  - destruct (Hc _ eq_refl) as [r Hr]. refine (wpm_mono _ _ _ _ (probe_cap_spec addr w r Hr) _).
    intros [ret n] w' (-> & -> & Hd). split_and!; [done | | by eauto | done].
    destruct r as [[cap dw] |]; [| done]. pose proof (field_bound (pci_regs addr (w_dev w) cap) 16 11 ltac:(lia)). lia.
  - apply wpm_ret. split_and!; [done | done | done |]. exists (w_dev w). split; [done |]. by destruct w.
Qed.

(** C35: The probe follows the capability list of the function.  When the list ends, after
    any number of entries, the probe returns the number of vectors of the MSI-X
    capability on it, or 0 when there is none, and has changed no register.  When the
    list runs in a cycle without that capability, the probe does not return. *)
Theorem msix_probe_correct addr w :
  let val := pci_regs addr (w_dev w) in
  let first := Z.land (val 0x34) 0xFC in
  (forall fuel r, walk_caps val fuel first = Some r ->
     wpm (ena_plat_msix_probe (Some addr)) (fun '(ret, n) w' => ret = 0
       /\ n = match r with Some (cap, _) => field (val cap) 16 11 + 1 | None => 0 end
       /\ exists d, same_regs (w_dev w) d /\ w' = set_w_dev d w) w)
  /\ ((forall fuel, walk_caps val fuel first = None) -> ena_plat_msix_probe (Some addr) w = Hang).
Proof.
  cbn zeta. set (first := Z.land _ 0xFC). assert (0 <= first < 256) as Hf.
  { unfold first.
    change 0xFC with (Z.land 0xFC (2 ^ 8 - 1)). rewrite Z.land_assoc, land_pred_pow2 by lia. apply Z.mod_pos_bound. lia. }
  split.
  - intros fuel r Hr. apply walk_fuel_enough in Hr; [| done]. by apply probe_cap_spec.
  - intros Hn. destruct (cfg_read_ret addr 0x34 w) as (d & Hd & Er).
    pose proof (cap_walk_spec addr 257 first (set_w_dev d w)) as Hw. cbn [w_dev set_w_dev] in Hw.
    rewrite (walk_caps_ext _ (pci_regs addr (w_dev w))), Hn in Hw by (intros; by apply same_regs_regs).
    assert (find_msix_cap addr w = Hang) as E by (unfold find_msix_cap; by rewrite (M_bind_ret _ _ _ _ _ Er)).
    unfold ena_plat_msix_probe, mbind, M_bind. by rewrite E.
Qed.

(** C28: After a probe that armed the MSI-X vectors, disarming gives everything back: the
    interrupts the kernel has allocated and the handlers it has registered are the ones
    from before, no vector is armed, and the capability is switched off.  An arm that
    fails on any branch leaves the interrupt controller as it was too. *)
Theorem msix_arm_disarm req w :
  (forall addr, req_pci_dev req = Some addr -> caps_end addr (w_dev w)) -> 0 <= req_nvec req < 2 ^ 31 ->
  length (req_lcpu req) = Z.to_nat ENA_PLAT_MSIX_MAX_VECTORS ->
  length (msix_irqs (s_msix (w_uk w))) = Z.to_nat ENA_PLAT_MSIX_MAX_VECTORS -> msix_armed (s_msix (w_uk w)) = false ->
  wpm (ret ← ena_plat_msix_arm req; n ← ena_plat_msix_state; ena_plat_msix_disarm;; mret (ret, n))
    (fun '(ret, n) w' => ic_irqs (w_dev w') = ic_irqs (w_dev w) /\ ic_handlers (w_dev w') = ic_handlers (w_dev w)
      /\ msix_armed (s_msix (w_uk w')) = false
      /\ (ret = 0 /\ 0 < n <= req_nvec req /\ msgctl_set false (msix_loc (s_msix (w_uk w'))) (w_dev w')
          \/ ret < 0 /\ n = 0)) w.
Proof.
  intros Hcaps Hnv Hlc Hli Ea. apply wpm_bind. refine (wpm_mono _ _ _ _ (msix_arm_spec req w Hcaps Hnv Hlc Hli) _).
  intros ret w1 (Ho & [(-> & _ & [Ha Hn _ Hl Hh _ _]) | (Hr & Hh & Ea1 & _)]); unfold ena_plat_msix_state;
    apply wpm_bind, wpm_bind, wpm_get_msix, wpm_ret, wpm_bind.
  - rewrite Ha. refine (wpm_mono _ _ _ _ (msix_disarm_spec (w_dev w) w1 Ha _ _ Hh) _).
    + destruct Ho as (? & ? & ? & -> & _ & _ & El). unfold irqs_of, ENA_PLAT_MSIX_MAX_VECTORS in *. simpl in *. lia.
    + by destruct Hl as [? ->].
    + intros _ w2 (_ & Ea2 & _ & Hh2 & Hc). apply wpm_ret. apply irqs_held_nil_inv in Hh2 as [-> ->].
      split_and!; [done | done | done |]. left. split_and!; [done | lia.. | done].
  - rewrite Ea1, Ea. unfold ena_plat_msix_disarm. apply wpm_bind, wpm_get_msix. rewrite Ea1, Ea. cbn [negb].
    do 2 apply wpm_ret. apply irqs_held_nil_inv in Hh as [-> ->]. split_and!; [done | done | by rewrite Ea1 |]. by right.
Qed.
End PlatProofs.

(** ** A kernel for the examples

    Configuration registers with the bits that can be written, and an interrupt
    controller with a number of vectors it can still give. *)
Record kernel (D : Type) := mkKernel {
  k_dev_state : D;
  k_cfg : gmap Z Z;
  k_mask : gmap Z Z;
  k_irqs : gset Z;
  k_handlers : gset Z;
  k_budget : nat
}.
Arguments mkKernel {D} _ _ _ _ _ _.
Arguments k_dev_state {D} _.
Arguments k_cfg {D} _.
Arguments k_mask {D} _.
Arguments k_irqs {D} _.
Arguments k_handlers {D} _.
Arguments k_budget {D} _.

Section Kernel.
Context {D : Type}.
Definition k_val (r : Z) (d : kernel D) : Z := u32 (default 0 (k_cfg d !! r)).
Definition k_merge (m old v : Z) : Z := Z.lor (Z.land v m) (Z.ldiff old m).

#[export] Instance kernel_config : PciConfig (kernel D) := {|
  cfg_read r d := (k_val r d, d);
  cfg_write r v d := mkKernel (k_dev_state d) (<[r := k_merge (default 0 (k_mask d !! r)) (k_val r d) v]> (k_cfg d))
    (k_mask d) (k_irqs d) (k_handlers d) (k_budget d)
|}.
#[export] Instance kernel_config_ok : PciConfigOk (kernel D).
Proof. refine {| cfg_val := k_val |}; [done | done |]. intros. apply u32_range. Defined.

#[export] Instance kernel_intctlr : IntCtlr (kernel D) := {|
  msix_alloc lcpu d :=
    match k_budget d with
    | O => (- ENOSPC, 0, 0, 0, d)
    | S n => let irq := fresh (k_irqs d ∪ k_handlers d) in
        (0, irq, 0xFEE00000 + Z.shiftl lcpu 12, irq, mkKernel (k_dev_state d) (k_cfg d) (k_mask d) ({[irq]} ∪ k_irqs d) (k_handlers d) n)
    end;
  msix_free irq d := mkKernel (k_dev_state d) (k_cfg d) (k_mask d) (k_irqs d ∖ {[irq]}) (k_handlers d) (S (k_budget d));
  irq_register irq _ d := (0, mkKernel (k_dev_state d) (k_cfg d) (k_mask d) (k_irqs d) ({[irq]} ∪ k_handlers d) (k_budget d));
  irq_unregister irq d := mkKernel (k_dev_state d) (k_cfg d) (k_mask d) (k_irqs d) (k_handlers d ∖ {[irq]}) (k_budget d)
|}.
#[export] Instance kernel_intctlr_ok : IntCtlrOk (kernel D).
Proof.
  refine {| ic_irqs := k_irqs; ic_handlers := k_handlers |}; try done.
  - intros lcpu d ret irq a v d'. simpl. destruct (k_budget d) as [| n].
    + intros [= <- <- <- <- <-]. done.
    + intros [= <- <- <- <- <-]. simpl. pose proof (is_fresh (k_irqs d ∪ k_handlers d)).
      split_and!; [done | done | set_solver.. | done].
  - intros irq v d ret d'. simpl. intros [= <- <-]. done.
Defined.
End Kernel.

(** A function with a power-management capability at 0x40 and an MSI-X capability with 9
    vectors at 0x70, its table at offset 0x2000 of the 64-bit BAR at 0x10. *)
Definition ex_addr : pci_address := mkPciAddr 0 5 0.
Definition ex_cfg : gmap Z Z := list_to_map ((fun '(r, v) => (config_addr ex_addr r, v)) <$>
  [(0x10, 0xFEBF0004); (0x14, 0); (0x34, 0x40); (0x40, 0x00037001); (0x70, 0x00080011); (0x74, 0x2000); (0x78, 0x3000)]).
Definition ex_kernel {D} (d : D) : kernel D := mkKernel d ex_cfg {[config_addr ex_addr 0x70 := 0xC0000000]} {[33]} {[33]} 16.
Definition ex_plat : world (kernel unit) :=
  mkWorld uk_zero (adapter_zero None 0) (mkHeap 4096 ∅ (fun _ => true) id) (mkMem [] [] []) (ex_kernel ()) [].
Definition ex_req : ena_msix_req := mkMsixReq (Some ex_addr) 9 (replicate 32 0) true.

Lemma msix_arm_disarm_witness :
  wpm (ret ← ena_plat_msix_arm ex_req; n ← ena_plat_msix_state; ena_plat_msix_disarm;; mret (ret, n))
    (fun '(ret, n) w' => ic_irqs (w_dev w') = ic_irqs (w_dev ex_plat) /\ ic_handlers (w_dev w') = ic_handlers (w_dev ex_plat)
      /\ msix_armed (s_msix (w_uk w')) = false
      /\ (ret = 0 /\ 0 < n <= req_nvec ex_req /\ msgctl_set false (msix_loc (s_msix (w_uk w'))) (w_dev w')
          \/ ret < 0 /\ n = 0)) ex_plat.
Proof.
  apply (msix_arm_disarm ex_req ex_plat); [| by vm_compute | reflexivity | reflexivity | reflexivity].
  intros addr [= <-]. vm_compute. eauto.
Defined.

(** The same run: 9 vectors, released again; with one free vector only, an error and no
    vector kept. *)
Example ex_arm : match ena_plat_msix_arm ex_req ex_plat with
  | Ret (ret, w) => (ret, msix_nvec (s_msix (w_uk w)), msix_table (msix_loc (s_msix (w_uk w))), size (k_irqs (w_dev w)),
                     length (w_log w), k_val (config_addr ex_addr 0x70) (w_dev w))
  | _ => (1, 0, 0, 0%nat, 0%nat, 0) end = (0, 9, 0xFEBF2000, 10%nat, 36%nat, 0x80080011).
Proof. vm_compute. reflexivity. Qed.
