(* ===== verification/Intr.v ===== *)
(** * Interrupt vectors

    src/ena_intr.c in the build with CONFIG_LIBENA_MSIX: the vector table of the adapter,
    the masking of vectors at the device, [ena_intr_setup] over the MSI-X code of [Plat],
    and the handler [msix_on_fire] that the platform calls on an interrupt. *)

From stdpp Require Import base tactics option list list_numbers numbers sets gmap.
From Stdlib Require Import ZArith Lia.
From S2P Require Import Prelude Fifo Mem Desc Netq Ring Adapter Admin Session Exec Device Control Queue Plat.

Definition ENA_MAX_MSIX_VECTORS : Z := 32.
Definition ENA_ETH_IO_INTR_REG_INTR_UNMASK_MASK : Z := Z.shiftl 1 30.

Definition set_masked (b : bool) (v : ena_irq_vector) : ena_irq_vector :=
  mkVector (vector_id v) (queue_id v) (is_admin v) b (moderation_interval_usec v) (intr_count v).
Definition set_moderation (u : Z) (v : ena_irq_vector) : ena_irq_vector :=
  mkVector (vector_id v) (queue_id v) (is_admin v) (masked v) u (intr_count v).
Definition set_intr_count (n : Z) (v : ena_irq_vector) : ena_irq_vector :=
  mkVector (vector_id v) (queue_id v) (is_admin v) (masked v) (moderation_interval_usec v) n.

(** The device registers do not touch the configuration space or the interrupt
    controller. *)
Class DeviceApart (D : Type) `{EnaDevice D} `{PciConfig D} `{IntCtlr D} `{!PciConfigOk D} `{!IntCtlrOk D} : Prop := {
  apart_write off v d : same_regs d (dev_write off v d);
  apart_read off d : same_regs d (dev_read off d).2;
  apart_run m d : same_regs d (dev_run m d).2
}.

Section Intr.
Context {D : Type} `{EnaDevice D} `{PciConfig D} `{IntCtlr D}.

(** [adapter->irq_vectors[i]]. *)
Definition get_vector (i : Z) : M D ena_irq_vector :=
  a ← get_ad; lift (aget (snd <$> irq_vectors a) i).
Definition mod_vector (i : Z) (f : ena_irq_vector -> ena_irq_vector) : M D unit :=
  a ← get_ad;
  match irq_vectors a with
  | None => fun _ => Fault
  | Some (b, vs) =>
      v ← lift (aget (Some vs) i);
      l ← lift (aset (Some vs) i (f v));
      mod_ad (set_irq_vectors (Some (b, default [] l)))
  end.

(** The entries that the loop of [ena_intr_msix_init] fills in. *)
Definition io_vector (i : Z) : ena_irq_vector := mkVector i (u16 (i - 1)) false true 20 0.
Definition init_vectors (n : Z) : list ena_irq_vector :=
  mkVector 0 0 true true 0 0 :: (io_vector <$> seqZ 1 (n - 1)).

Definition ena_intr_msix_init (num_vectors : Z) : M D Z :=
  if (num_vectors =? 0) || (ENA_MAX_MSIX_VECTORS <? num_vectors) then mret (- EINVAL)
  else
    p ← calloc;
    match p with
    | None => mod_ad (set_irq_vectors None);; mret (- ENOMEM)
    | Some b =>
        mod_ad (set_irq_vectors (Some (b, init_vectors num_vectors)));;
        mod_ad (set_num_irq_vectors num_vectors);;
        mret 0
    end.

Definition bad_vector (a : ena_adapter) (i : Z) : bool := negb (non_null (irq_vectors a)) || (num_irq_vectors a <=? i).

Definition ena_intr_mask_vector (i : Z) : M D Z :=
  a ← get_ad;
  if bad_vector a i then mret (- EINVAL)
  else
    mod_vector i (set_masked true);;
    (if non_null (bar0_base (ad_bars a)) && (i =? 0) then reg_write32 ENA_REGS_INTR_MASK_OFF 1 else mret tt);;
    mret 0.

(** The unmask register of a queue, if its ring is there and the device reported one. *)
Definition unmask_queue (tx : bool) (qid n : Z) : M D unit :=
  a ← get_ad;
  if non_null (rings_of tx (ad_io a)) && (qid <? n) then
    r ← lift (aget (rings_of tx (ad_io a)) qid);
    match r with
    | Some r =>
        if z2b (cq_unmask_db_offset (r_cq r)) then
          reg_write32 (cq_unmask_db_offset (r_cq r)) ENA_ETH_IO_INTR_REG_INTR_UNMASK_MASK
        else mret tt
    | None => mret tt
    end
  else mret tt.

Definition queue_count (tx : bool) (a : ena_adapter) : Z :=
  if tx then (if z2b (num_tx_rings (ad_io a)) then num_tx_rings (ad_io a) else max_tx_queues (ad_lim a))
  else (if z2b (num_rx_rings (ad_io a)) then num_rx_rings (ad_io a) else max_rx_queues (ad_lim a)).

Definition ena_intr_unmask_vector (i : Z) : M D Z :=
  a ← get_ad;
  if bad_vector a i then mret (- EINVAL)
  else
    mod_vector i (set_masked false);;
    if negb (non_null (bar0_base (ad_bars a))) then mret 0
    else if i =? 0 then reg_write32 ENA_REGS_INTR_MASK_OFF 0;; mret 0
    else
      v ← get_vector i;
      unmask_queue false (queue_id v) (queue_count false a);;
      unmask_queue true (queue_id v) (queue_count true a);;
      mret 0.

Fixpoint each_vector (f : Z -> M D Z) (n : nat) (i : Z) : M D unit :=
  match n with
  | O => mret tt
  | S n => f i;; each_vector f n (i + 1)
  end.

Definition ena_intr_mask_all : M D unit :=
  a ← get_ad;
  if negb (non_null (irq_vectors a)) then mret tt
  else each_vector ena_intr_mask_vector (Z.to_nat (num_irq_vectors a)) 0.
Definition ena_intr_unmask_all : M D unit :=
  a ← get_ad;
  if negb (non_null (irq_vectors a)) then mret tt
  else each_vector ena_intr_unmask_vector (Z.to_nat (num_irq_vectors a)) 0.

Definition ena_intr_set_coalesce (i usecs : Z) : M D Z :=
  a ← get_ad;
  if bad_vector a i then mret (- EINVAL) else mod_vector i (set_moderation usecs);; mret 0.

Definition ena_intr_msix_fini : M D unit :=
  a ← get_ad;
  if negb (non_null (irq_vectors a)) then mret tt
  else
    ena_plat_msix_disarm;;
    ena_intr_mask_all;;
    a ← get_ad;
    free (fst <$> irq_vectors a);;
    mod_ad (set_irq_vectors None);;
    mod_ad (set_num_irq_vectors 0).

(** [ncpus] is CONFIG_UKPLAT_CPU_MAXCOUNT. *)
Definition lcpu_of (ncpus i : Z) : Z := if i =? 0 then 0 else (i - 1) mod ncpus.
Definition msix_arm_device (ncpus : Z) (bdf : option pci_address) : M D Z :=
  a ← get_ad;
  let nvec := num_irq_vectors a in
  if nvec =? 0 then mret (- ENODEV)
  else
    let ncpus := if ncpus <? 1 then 1 else ncpus in
    let lcpu := (lcpu_of ncpus <$> seqZ 0 nvec) ++ replicate (Z.to_nat (ENA_PLAT_MSIX_MAX_VECTORS - nvec)) 0 in
    ena_plat_msix_arm (mkMsixReq bdf nvec lcpu true).

Definition ena_intr_setup (ncpus : Z) (pci_dev : option pci_address) : M D Z :=
  a ← get_ad;
  if non_null (irq_vectors a) then mret 0
  else
    '(ret, nvec) ← ena_plat_msix_probe pci_dev;
    if z2b ret then mret ret
    else if nvec =? 0 then mret (- ENOTSUP)
    else
      let nvec := if ENA_MAX_MSIX_VECTORS <? nvec then ENA_MAX_MSIX_VECTORS else nvec in
      ret ← ena_intr_msix_init nvec;
      if z2b ret then mret ret
      else
        ena_intr_unmask_vector 0;;
        ret ← msix_arm_device ncpus pci_dev;
        if z2b ret then ena_intr_msix_fini;; mret ret
        else mret 0.

(** ** An interrupt *)
Definition msix_on_fire (i : Z) : M D unit :=
  a ← get_ad;
  if num_irq_vectors a <=? i then mret tt
  else
    mod_vector i (fun v => set_intr_count (u32 (intr_count v + 1)) v);;
    v ← get_vector i;
    if negb (is_admin v) then ena_intr_unmask_vector i;; mret tt else mret tt.

(** The handler that the platform registered for vector [i]. *)
Definition msix_tramp (i : Z) : M D unit :=
  m ← get_msix;
  c ← lift (aget (Some (msix_counts m)) i);
  l ← lift (aset (Some (msix_counts m)) i (u32 (c + 1)));
  mod_msix (set_msix_counts (default [] l));;
  if msix_fire m then msix_on_fire i else mret tt.
End Intr.

(** ** The vector table *)

(** What no operation on a table changes. *)
Definition vec_kept (v v' : ena_irq_vector) : Prop :=
  vector_id v' = vector_id v /\ queue_id v' = queue_id v /\ is_admin v' = is_admin v.

#[export] Instance vec_kept_preorder : PreOrder vec_kept.
Proof. unfold vec_kept. split; [done |]. intros v1 v2 v3 (-> & -> & ->). naive_solver. Qed.

Definition table_kept (o o' : option (Z * list ena_irq_vector)) : Prop :=
  match o, o' with
  | None, None => True
  | Some (b, vs), Some (b', vs') => b' = b /\ Forall2 vec_kept vs vs'
  | _, _ => False
  end.

#[export] Instance table_kept_preorder : PreOrder table_kept.
Proof.
  split.
  - intros [[b vs] |]; [| done]. by split.
  - intros [[b1 v1] |] [[b2 v2] |] [[b3 v3] |]; try done. intros [-> H1] [-> H2]. split; [done |]. by etrans.
Qed.

(** The table of [n] vectors: vector 0 serves the admin queue, vector i the queue i-1. *)
Record wf_vectors (a : ena_adapter) (vs : list ena_irq_vector) : Prop := {
  wv_num : num_irq_vectors a = Z.of_nat (length vs);
  wv_max : 0 < num_irq_vectors a <= ENA_MAX_MSIX_VECTORS;
  wv_each i v : vs !! i = Some v ->
    vector_id v = Z.of_nat i /\ is_admin v = (Z.of_nat i =? 0) /\ queue_id v = Z.max 0 (Z.of_nat i - 1)
}.

Lemma init_vectors_wf a n : num_irq_vectors a = n -> 0 < n <= ENA_MAX_MSIX_VECTORS -> wf_vectors a (init_vectors n).
Proof.
  unfold ENA_MAX_MSIX_VECTORS. intros En Hn. split.
  - cbn [init_vectors length]. rewrite length_fmap, length_seqZ. lia.
  - unfold ENA_MAX_MSIX_VECTORS. lia.
  - intros [| i] v; [intros [= <-]; done |]. change (init_vectors n !! S i) with ((io_vector <$> seqZ 1 (n - 1)) !! i).
    rewrite list_lookup_fmap. destruct (seqZ 1 (n - 1) !! i) as [z |] eqn:E; [| done]. intros [= <-].
    apply lookup_seqZ in E as [-> Hi]. cbn [io_vector vector_id is_admin queue_id]. rewrite u16_id by lia. split_and!; [lia | symmetry; apply Z.eqb_neq; lia | lia].
Qed.

Lemma wf_vectors_kept a a' vs vs' : wf_vectors a vs -> Forall2 vec_kept vs vs' ->
  num_irq_vectors a' = num_irq_vectors a -> wf_vectors a' vs'.
Proof.
  intros [Hn Hm He] Hk E. rewrite <- E in Hn, Hm. split; [by rewrite Hn, (Forall2_length _ _ _ Hk) | done |].
  intros i v' Hv'. destruct (Forall2_lookup_r _ _ _ _ _ Hk Hv') as (v & Hv & (E1 & E2 & E3)).
  rewrite E1, E2, E3. by apply He.
Qed.

Section IntrProofs.
Context {D : Type} `{EnaDevice D} `{PciConfig D} `{IntCtlr D} `{!PciConfigOk D} `{!IntCtlrOk D} `{!DeviceApart D}.
Implicit Types w : world D.

(** Only the table, the device registers and the log may have changed. *)
Definition intr_step (w w' : world D) : Prop :=
  exists o d es, table_kept (irq_vectors (w_adapter w)) o /\ same_regs (w_dev w) d /\ freed es = []
    /\ w' = set_w_dev d (set_w_log (w_log w ++ es) (set_w_adapter (set_irq_vectors o (w_adapter w)) w)).

#[export] Instance intr_step_preorder : PreOrder intr_step.
Proof.
  split.
  - intros w. exists (irq_vectors (w_adapter w)), (w_dev w), []. rewrite app_nil_r. split_and!; [done | done | done |].
    by destruct w as [? [] ? ? ? ?].
  - intros w1 w2 w3 (o & d & es & Ho & Hd & Hf & ->) (o' & d' & es' & Ho' & Hd' & Hf' & ->). wsimpl_all.
    exists o', d', (es ++ es'). rewrite app_assoc. split; [by etrans |]. split; [| by rewrite freed_app, Hf, Hf'].
    destruct Hd as (E1 & E2 & E3), Hd' as (F1 & F2 & F3).
    split_and!; [intros r; by rewrite F1 | by rewrite F2 | by rewrite F3].
Qed.

Lemma wpm_mod_vector i f b vs v (Q : unit -> world D -> Prop) w :
  irq_vectors (w_adapter w) = Some (b, vs) -> 0 <= i -> vs !! Z.to_nat i = Some v ->
  Q tt (set_w_adapter (set_irq_vectors (Some (b, <[Z.to_nat i := f v]> vs)) (w_adapter w)) w) -> wpm (mod_vector i f) Q w.
Proof.
  intros E Hi Hv HQ. unfold mod_vector. apply wpm_bind, wpm_get_ad. rewrite E.
  apply wpm_bind, (wpm_lift _ v); [by apply aget_ret |]. apply wpm_bind.
  eapply wpm_lift; [apply aset_ret; apply lookup_lt_Some in Hv; lia |]. by apply wpm_mod_ad.
Qed.

Lemma wpm_get_vector i b vs v (Q : ena_irq_vector -> world D -> Prop) w :
  irq_vectors (w_adapter w) = Some (b, vs) -> 0 <= i -> vs !! Z.to_nat i = Some v -> Q v w -> wpm (get_vector i) Q w.
Proof.
  intros E Hi Hv HQ. unfold get_vector. apply wpm_bind, wpm_get_ad, (wpm_lift _ v); [| done].
  rewrite E. by apply aget_ret.
Qed.

Lemma intr_step_vector w b vs i v f : irq_vectors (w_adapter w) = Some (b, vs) -> vs !! i = Some v -> vec_kept v (f v) ->
  intr_step w (set_w_adapter (set_irq_vectors (Some (b, <[i := f v]> vs)) (w_adapter w)) w).
Proof.
  intros E Hv Hk. exists (Some (b, <[i := f v]> vs)), (w_dev w), []. rewrite app_nil_r. split_and!; [| done | done | by destruct w].
  rewrite E. split; [done |]. rewrite <- (list_insert_id vs i v) at 1 by done. by apply Forall2_insert.
Qed.

Lemma intr_step_write w off v b : intr_step w (set_w_dev (dev_write off v (w_dev w)) (set_w_log (w_log w ++ [EvWrite32 (b + off) v]) w)).
Proof.
  exists (irq_vectors (w_adapter w)), (dev_write off v (w_dev w)), [EvWrite32 (b + off) v].
  split_and!; [done | apply apart_write | done | by destruct w as [? [] ? ? ? ?]].
Qed.

(** A world with a table. *)
Definition has_table (w : world D) (b : Z) (vs : list ena_irq_vector) : Prop :=
  irq_vectors (w_adapter w) = Some (b, vs) /\ wf_vectors (w_adapter w) vs.

Lemma has_table_step w w' b vs : has_table w b vs -> intr_step w w' ->
  exists vs', has_table w' b vs' /\ Forall2 vec_kept vs vs'.
Proof.
  intros [E Hv] (o & d & es & Ho & _ & _ & ->). rewrite E in Ho. destruct o as [[b' vs'] |]; [| done].
  destruct Ho as [-> Hk]. exists vs'. split; [| done]. split; [done |]. by apply (wf_vectors_kept _ _ _ _ Hv Hk).
Qed.

Lemma bad_vector_table w b vs i : has_table w b vs -> bad_vector (w_adapter w) i = (Z.of_nat (length vs) <=? i).
Proof. intros [E [Hn _ _]]. unfold bad_vector. by rewrite E, Hn. Qed.

(** The queue of a vector is inside the tables of rings. *)
Definition tables_reach (a : ena_adapter) : Prop :=
  forall tx l, rings_of tx (ad_io a) = Some l -> queue_count tx a <= Z.of_nat (length l).

(** The unmask register of queue [q], if any. *)
Definition queue_unmask (tx : bool) (a : ena_adapter) (q : Z) : list (Z * Z) :=
  match rings_of tx (ad_io a) with
  | Some l =>
      if q <? queue_count tx a then
        match l !! Z.to_nat q with
        | Some (Some r) => if z2b (cq_unmask_db_offset (r_cq r))
            then [(cq_unmask_db_offset (r_cq r), ENA_ETH_IO_INTR_REG_INTR_UNMASK_MASK)] else []
        | _ => []
        end
      else []
  | None => []
  end.

Lemma unmask_queue_spec tx q a b w : bar0_base (ad_bars (w_adapter w)) = Some b -> 0 <= q ->
  tables_reach (w_adapter w) -> ad_io a = ad_io (w_adapter w) -> ad_lim a = ad_lim (w_adapter w) ->
  wpm (unmask_queue tx q (queue_count tx a)) (fun _ w' =>
    let l := queue_unmask tx (w_adapter w) q in
    w' = set_w_dev (dev_writes l (w_dev w)) (set_w_log (w_log w ++ write_events b l) w) /\ intr_step w w') w.
Proof.
  intros Hb Hq Ht Eio Elim. assert (queue_count tx a = queue_count tx (w_adapter w)) as ->
    by (unfold queue_count; by rewrite Eio, Elim).
  assert (w = set_w_dev (dev_writes [] (w_dev w)) (set_w_log (w_log w ++ write_events b []) w)) as Enil
    by (simpl; rewrite app_nil_r; by destruct w).
  unfold unmask_queue, queue_unmask. apply wpm_bind, wpm_get_ad. specialize (Ht tx).
  destruct (rings_of tx (ad_io (w_adapter w))) as [l |]; cbn [non_null andb]; [| by apply wpm_ret].
  destruct (Z.ltb_spec q (queue_count tx (w_adapter w))); [| by apply wpm_ret].
  destruct (lookup_in_range l q) as [r Hr]; [specialize (Ht l eq_refl); lia |]. rewrite Hr.
  apply wpm_bind, (wpm_lift _ r); [by apply aget_ret |].
  destruct r as [r |]; [| by apply wpm_ret]. destruct (z2b _); [| by apply wpm_ret].
  apply (wpm_reg_write32 _ _ b); [done |]. split; [done |]. apply intr_step_write.
Qed.

(** Masks and unmasks keep the table well-formed and touch nothing else. *)
Lemma mask_vector_spec i b vs w : has_table w b vs -> 0 <= i ->
  wpm (ena_intr_mask_vector i) (fun ret w' => intr_step w w' /\ ret = (if Z.of_nat (length vs) <=? i then - EINVAL else 0)) w.
Proof.
  intros Ht Hi. unfold ena_intr_mask_vector. apply wpm_bind, wpm_get_ad. rewrite (bad_vector_table _ _ _ _ Ht).
  destruct (Z.leb_spec (Z.of_nat (length vs)) i); [by apply wpm_ret |]. destruct Ht as [E Hv].
  destruct (lookup_in_range vs i) as [v Ev]; [lia |]. apply wpm_bind, (wpm_mod_vector _ _ b vs v); [done.. |].
  set (w1 := set_w_adapter _ w). assert (intr_step w w1) as H1' by (by apply (intr_step_vector _ _ _ _ _ (set_masked true))).
  apply wpm_bind. destruct (bar0_base (ad_bars (w_adapter w))) as [b0 |] eqn:Eb; cbn [non_null andb]; [| by do 2 apply wpm_ret].
  destruct (i =? 0); [| by do 2 apply wpm_ret]. apply (wpm_reg_write32 _ _ b0); [done |]. apply wpm_ret.
  split; [| done]. transitivity w1; [done |]. apply intr_step_write.
Qed.

(** An unmask, with the registers it writes. *)
Definition unmask_writes (a : ena_adapter) (i : Z) (v : ena_irq_vector) : list (Z * Z) :=
  if i =? 0 then [(ENA_REGS_INTR_MASK_OFF, 0)]
  else queue_unmask false a (queue_id v) ++ queue_unmask true a (queue_id v).

Lemma dev_writes_app l1 l2 (d : D) : dev_writes (l1 ++ l2) d = dev_writes l2 (dev_writes l1 d).
Proof. apply fold_left_app. Qed.

Lemma unmask_vector_spec i b vs v w : has_table w b vs -> 0 <= i -> vs !! Z.to_nat i = Some v -> tables_reach (w_adapter w) ->
  wpm (ena_intr_unmask_vector i) (fun ret w' => ret = 0 /\ intr_step w w'
    /\ exists l, w' = set_w_dev (dev_writes l (w_dev w)) (set_w_log (w_log w ++ write_events
         (default 0 (bar0_base (ad_bars (w_adapter w)))) l)
         (set_w_adapter (set_irq_vectors (Some (b, <[Z.to_nat i := set_masked false v]> vs)) (w_adapter w)) w))
       /\ l = match bar0_base (ad_bars (w_adapter w)) with Some _ => unmask_writes (w_adapter w) i v | None => [] end) w.
Proof.
  intros Ht Hi Ev Hr. unfold ena_intr_unmask_vector. apply wpm_bind, wpm_get_ad. rewrite (bad_vector_table _ _ _ _ Ht).
  pose proof (lookup_lt_Some _ _ _ Ev). rewrite (proj2 (Z.leb_gt _ _)) by lia. pose proof Ht as [E Hv].
  apply wpm_bind, (wpm_mod_vector _ _ b vs v); [done.. |].
  set (w1 := set_w_adapter _ w). assert (intr_step w w1) as H1' by (by apply (intr_step_vector _ _ _ _ _ (set_masked false))).
  assert (w1 = set_w_dev (dev_writes [] (w_dev w1)) (set_w_log (w_log w ++ write_events 0 []) w1)) as Enil
    by (unfold w1; simpl; rewrite app_nil_r; by destruct w).
  destruct (bar0_base (ad_bars (w_adapter w))) as [b0 |] eqn:Eb; cbn [non_null negb default].
  2:{ apply wpm_ret. split_and!; [done | done |]. by exists []. }
  clear Enil.
  unfold unmask_writes. destruct (Z.eqb_spec i 0) as [-> | Hi0].
  { apply wpm_bind, (wpm_reg_write32 _ _ b0); [done |]. apply wpm_ret. split_and!; [done | |].
    - transitivity w1; [done |]. apply intr_step_write.
    - by exists [(ENA_REGS_INTR_MASK_OFF, 0)]. }
  apply wpm_bind, (wpm_get_vector _ b (<[Z.to_nat i := set_masked false v]> vs) (set_masked false v));
    [done | done | apply list_lookup_insert_eq; lia |]. cbn [set_masked queue_id].
  assert (0 <= queue_id v) as Hq by (destruct Hv as [_ _ He]; destruct (He _ _ Ev) as (_ & _ & ->); lia).
  apply wpm_bind. refine (wpm_mono _ _ _ _ (unmask_queue_spec false (queue_id v) (w_adapter w) b0 w1 _ Hq _ _ _) _);
    [done | exact Hr | done | done |]. intros _ w2 (-> & H2'). cbv zeta in H2'.
  change (queue_unmask false (w_adapter w1)) with (queue_unmask false (w_adapter w)) in *.
  apply wpm_bind. set (w2 := set_w_dev _ _) in *.
  refine (wpm_mono _ _ _ _ (unmask_queue_spec true (queue_id v) (w_adapter w) b0 w2 _ Hq _ _ _) _);
    [done | exact Hr | done | done |]. intros _ w3 (-> & H3'). apply wpm_ret.
  split_and!; [done | by transitivity w2; [transitivity w1 |] |]. eexists. split; [| done].
  change (queue_unmask true (w_adapter w2)) with (queue_unmask true (w_adapter w)).
  unfold w2, w1. wsimpl. rewrite dev_writes_app, <- app_assoc. unfold write_events. by rewrite fmap_app.
Qed.

Lemma each_vector_spec f n i b vs w : 0 <= i -> i + Z.of_nat n <= Z.of_nat (length vs) -> has_table w b vs ->
  (forall j vs w, 0 <= j < Z.of_nat (length vs) -> has_table w b vs -> tables_reach (w_adapter w) ->
     wpm (f j) (fun _ w' => intr_step w w') w) ->
  tables_reach (w_adapter w) -> wpm (each_vector f n i) (fun _ w' => intr_step w w') w.
Proof.
  intros Hi Hn Ht Hf. revert i vs w Hi Hn Ht. induction n as [| n IH]; intros i vs w Hi Hn Ht Hr; cbn [each_vector].
  { by apply wpm_ret. }
  apply wpm_bind. refine (wpm_mono _ _ _ _ (Hf i vs w _ Ht Hr) _); [lia |]. intros _ w1 Hs.
  destruct (has_table_step _ _ _ _ Ht Hs) as (vs1 & Ht1 & Hk). apply Forall2_length in Hk.
  refine (wpm_mono _ _ _ _ (IH (i + 1) vs1 w1 _ _ Ht1 _) _); [lia | lia | by destruct Hs as (? & ? & ? & _ & _ & _ & ->) |].
  intros _ w2 Hs2. by transitivity w1.
Qed.

Lemma mask_all_spec b vs w : has_table w b vs -> tables_reach (w_adapter w) ->
  wpm ena_intr_mask_all (fun _ w' => intr_step w w') w.
Proof.
  intros Ht Hr. unfold ena_intr_mask_all. apply wpm_bind, wpm_get_ad. rewrite (proj1 Ht). cbn [non_null negb].
  eapply each_vector_spec; [done | | done | | done].
  - rewrite (wv_num _ _ (proj2 Ht)). lia.
  - intros j vs' w' Hj Ht' _. refine (wpm_mono _ _ _ _ (mask_vector_spec j b vs' w' Ht' _) _); [lia | by intros ? ? [? _]].
Qed.

Lemma unmask_all_spec b vs w : has_table w b vs -> tables_reach (w_adapter w) ->
  wpm ena_intr_unmask_all (fun _ w' => intr_step w w') w.
Proof.
  intros Ht Hr. unfold ena_intr_unmask_all. apply wpm_bind, wpm_get_ad. rewrite (proj1 Ht). cbn [non_null negb].
  eapply each_vector_spec; [done | | done | | done].
  - rewrite (wv_num _ _ (proj2 Ht)). lia.
  - intros j vs' w' Hj Ht' Hr'. destruct (lookup_in_range vs' j Hj) as [v Ev].
    refine (wpm_mono _ _ _ _ (unmask_vector_spec j b vs' v w' Ht' _ Ev Hr') _); [lia | by intros ? ? (_ & ? & _)].
Qed.

(** ** Set-up and tear-down *)

(** Everything else of the world: the table, the MSI-X state, the device, the heap and the
    log aside, nothing changed. *)
Record intr_frame (w w' : world D) : Prop := {
  if_ad : exists o n, w_adapter w' = set_num_irq_vectors n (set_irq_vectors o (w_adapter w));
  if_mem : w_mem w' = w_mem w;
  if_uk : exists m, w_uk w' = set_s_msix m (w_uk w) /\ length (msix_irqs m) = length (msix_irqs (s_msix (w_uk w)));
  if_log : exists es, w_log w' = w_log w ++ es /\ freed es = []
}.

#[export] Instance intr_frame_preorder : PreOrder intr_frame.
Proof.
  split.
  - intros w. split; [| done | |].
    + exists (irq_vectors (w_adapter w)), (num_irq_vectors (w_adapter w)). by destruct (w_adapter w).
    + exists (s_msix (w_uk w)). by destruct (w_uk w).
    + exists []. by rewrite app_nil_r.
  - intros w1 w2 w3 [(o & n & Ea) Em (m & Eu & El) (es & Eg & Hf)] [(o' & n' & Ea') Em' (m' & Eu' & El') (es' & Eg' & Hf')]. split.
    + exists o', n'. by rewrite Ea', Ea.
    + congruence.
    + exists m'. rewrite Eu', El', Eu. simpl. by destruct (w_uk w1).
    + exists (es ++ es'). by rewrite Eg', Eg, app_assoc, freed_app, Hf, Hf'.
Qed.

Lemma intr_step_frame w w' : intr_step w w' -> intr_frame w w'.
Proof.
  intros (o & d & es & _ & _ & Hf & ->). split; wsimpl; [| done | | by eauto].
  - exists o, (num_irq_vectors (w_adapter w)). by destruct (w_adapter w).
  - exists (s_msix (w_uk w)). by destruct (w_uk w).
Qed.

Lemma msix_only_frame w w' : msix_only w w' -> intr_frame w w'.
Proof.
  intros (m & d & es & -> & Hf & _ & El). split; wsimpl; [| done | by eauto | by eauto].
  exists (irq_vectors (w_adapter w)), (num_irq_vectors (w_adapter w)). by destruct (w_adapter w).
Qed.

(** Of the interrupts, the platform holds those of its armed vectors on top of [d0]. *)
Definition plat_holds (d0 : D) (w : world D) : Prop :=
  let m := s_msix (w_uk w) in
  if msix_armed m then
    msix_nvec m <= Z.of_nat (length (msix_irqs m)) /\ is_Some (loc_pci_dev (msix_loc m))
    /\ irqs_held d0 (take (Z.to_nat (msix_nvec m)) (msix_irqs m)) (w_dev w)
  else irqs_held d0 [] (w_dev w).

Lemma disarm_spec d0 w : plat_holds d0 w ->
  wpm ena_plat_msix_disarm (fun _ w' => msix_only w w' /\ msix_armed (s_msix (w_uk w')) = false /\ irqs_held d0 [] (w_dev w')) w.
Proof.
  unfold plat_holds. destruct (msix_armed (s_msix (w_uk w))) eqn:Ea.
  - intros (Hn & Hl & Hh). refine (wpm_mono _ _ _ _ (msix_disarm_spec d0 w Ea _ Hl Hh) _); [unfold irqs_of; lia |].
    by intros _ w' (? & ? & _ & ? & _).
  - intros Hh. unfold ena_plat_msix_disarm. apply wpm_bind, wpm_get_msix. rewrite Ea. apply wpm_ret. by split_and!.
Qed.

Lemma msix_fini_spec d0 b vs w : has_table w b vs -> tables_reach (w_adapter w) -> wf_heap (w_heap w) ->
  b ∈ h_live (w_heap w) -> plat_holds d0 w ->
  wpm ena_intr_msix_fini (fun _ w' => intr_frame w w' /\ irq_vectors (w_adapter w') = None /\ num_irq_vectors (w_adapter w') = 0
    /\ wf_heap (w_heap w') /\ h_live (w_heap w') = h_live (w_heap w) ∖ {[b]}
    /\ msix_armed (s_msix (w_uk w')) = false /\ irqs_held d0 [] (w_dev w')) w.
Proof.
  intros Ht Hr Hh Hb Hp. unfold ena_intr_msix_fini. apply wpm_bind, wpm_get_ad. rewrite (proj1 Ht). cbn [non_null negb].
  apply wpm_bind. refine (wpm_mono _ _ _ _ (disarm_spec d0 w Hp) _). intros _ w1 (Ho & Ea & Hh1).
  assert (intr_frame w w1) as F1 by (by apply msix_only_frame).
  assert (has_table w1 b vs /\ tables_reach (w_adapter w1) /\ w_heap w1 = w_heap w) as (Ht1 & Hr1 & Eh1)
    by (by destruct Ho as (? & ? & ? & -> & _)).
  apply wpm_bind. refine (wpm_mono _ _ _ _ (mask_all_spec b vs w1 Ht1 Hr1) _). intros _ w2 Hs2.
  destruct (has_table_step _ _ _ _ Ht1 Hs2) as (vs2 & Ht2 & _). pose proof (intr_step_frame _ _ Hs2) as F2.
  destruct Hs2 as (o & d & es & _ & Hd & _ & E2).
  assert (w_heap w2 = w_heap w /\ w_uk w2 = w_uk w1 /\ w_dev w2 = d) as (Eh2 & Eu2 & Ed2) by (by subst w2).
  clear E2. apply wpm_bind, wpm_get_ad. rewrite (proj1 Ht2). cbn [fmap option_fmap option_map fst].
  apply wpm_bind, wpm_free; [by rewrite Eh2 | rewrite Eh2; cbn [blk]; set_solver |]. intros h Hh' El.
  apply wpm_bind, wpm_mod_ad, wpm_mod_ad. wsimpl. rewrite Eh2 in El. cbn [blk] in El.
  split_and!; [| done | done | done | done | by rewrite Eu2 | rewrite Ed2; by apply (irqs_held_same _ _ _ _ Hd)].
  transitivity w2; [by transitivity w1 |]. split; wsimpl; [by exists None, 0 | done | | exists []; by rewrite app_nil_r].
  exists (s_msix (w_uk w2)). by destruct (w_uk w2).
Qed.

Lemma length_lcpu n ncpus : 0 <= n <= ENA_PLAT_MSIX_MAX_VECTORS ->
  length ((lcpu_of ncpus <$> seqZ 0 n) ++ replicate (Z.to_nat (ENA_PLAT_MSIX_MAX_VECTORS - n)) 0) = Z.to_nat ENA_PLAT_MSIX_MAX_VECTORS.
Proof. intros. rewrite length_app, length_fmap, length_seqZ, length_replicate. lia. Qed.

Lemma arm_device_spec ncpus addr b vs w : has_table w b vs -> caps_end addr (w_dev w) ->
  length (irqs_of w) = Z.to_nat ENA_PLAT_MSIX_MAX_VECTORS -> msix_armed (s_msix (w_uk w)) = false ->
  wpm (msix_arm_device ncpus (Some addr)) (fun ret w' => msix_only w w' /\ plat_holds (w_dev w) w' /\
    (ret = 0 /\ msix_armed (s_msix (w_uk w')) = true /\ msix_fire (s_msix (w_uk w')) = true
       /\ 0 < msix_nvec (s_msix (w_uk w')) <= num_irq_vectors (w_adapter w)
     \/ ret < 0 /\ msix_armed (s_msix (w_uk w')) = false)) w.
Proof.
  intros [_ Hv] Hc Hl Ha. unfold msix_arm_device. apply wpm_bind, wpm_get_ad. cbv zeta.
  pose proof (wv_max _ _ Hv) as Hm. unfold ENA_MAX_MSIX_VECTORS in Hm.
  rewrite (proj2 (Z.eqb_neq _ _)) by lia. set (req := mkMsixReq _ _ _ _).
  refine (wpm_mono _ _ _ _ (msix_arm_spec req w _ _ _ Hl) _); [by intros ? [= <-] | cbn [req req_nvec]; lia | |].
  { apply length_lcpu. unfold ENA_PLAT_MSIX_MAX_VECTORS. lia. }
  intros ret w' (Ho & Hor). split; [done |]. unfold plat_holds.
  destruct Hor as [(-> & _ & [Ea (Hn & Hn' & _) Hf (_ & Hloc) Hh _ _]) | (Hr & Hh & Ea & _)]; rewrite Ea.
  - split; [| left; cbn [req req_nvec] in Hn'; split_and!; (done || lia)]. split_and!; [| by rewrite Hloc; eauto | done].
    destruct Ho as (? & ? & ? & -> & _ & _ & El). simpl in *. unfold irqs_of, ENA_PLAT_MSIX_MAX_VECTORS in *. lia.
  - rewrite Ha. split; [done |]. by right.
Qed.

(** The vectors are set up: the table is there with the admin vector open and the queue
    vectors closed, and every vector the platform can deliver has its entry. *)
Record intr_active (w w' : world D) : Prop := {
  ia_table : exists b vs, has_table w' b vs /\ (b ∉ h_live (w_heap w)) /\ h_live (w_heap w') = {[b]} ∪ h_live (w_heap w)
    /\ forall i v, vs !! i = Some v -> masked v = negb (Z.of_nat i =? 0);
  ia_armed : msix_armed (s_msix (w_uk w')) = true /\ msix_fire (s_msix (w_uk w')) = true;
  ia_nvec : 0 < msix_nvec (s_msix (w_uk w')) <= num_irq_vectors (w_adapter w');
  ia_held : plat_holds (w_dev w) w'
}.

(** Nothing was set up: the table is gone, the heap and the interrupts are as before. *)
Record intr_inactive (w w' : world D) : Prop := {
  in_table : irq_vectors (w_adapter w') = None;
  in_heap : h_live (w_heap w') = h_live (w_heap w);
  in_armed : msix_armed (s_msix (w_uk w')) = false;
  in_held : irqs_held (w_dev w) [] (w_dev w')
}.

(** The worlds in which the probe of the device calls the set-up. *)
Record intr_fresh (pci_dev : option pci_address) (w : world D) : Prop := {
  ir_caps addr : pci_dev = Some addr -> caps_end addr (w_dev w);
  ir_table : irq_vectors (w_adapter w) = None;
  ir_heap : wf_heap (w_heap w);
  ir_reach : tables_reach (w_adapter w);
  ir_irqs : length (msix_irqs (s_msix (w_uk w))) = Z.to_nat ENA_PLAT_MSIX_MAX_VECTORS;
  ir_armed : msix_armed (s_msix (w_uk w)) = false
}.

Lemma open_admin_masks n i v : 0 < n -> <[0%nat := set_masked false (mkVector 0 0 true true 0 0)]> (init_vectors n) !! i = Some v ->
  masked v = negb (Z.of_nat i =? 0).
Proof.
  intros Hn. destruct i as [| i]; [by intros [= <-] |].
  change ((io_vector <$> seqZ 1 (n - 1)) !! i = Some v -> masked v = negb (Z.of_nat (S i) =? 0)).
  rewrite list_lookup_fmap. destruct (seqZ 1 (n - 1) !! i); [| done]. intros [= <-]. cbn [io_vector masked].
  rewrite (proj2 (Z.eqb_neq _ _)) by lia. done.
Qed.

(** After the table is there. *)
Lemma setup_arm_spec ncpus addr n b w0 w : 0 < n <= ENA_MAX_MSIX_VECTORS -> intr_frame w0 w -> wf_heap (w_heap w) ->
  irq_vectors (w_adapter w) = Some (b, init_vectors n) -> num_irq_vectors (w_adapter w) = n ->
  (b ∉ h_live (w_heap w0)) -> h_live (w_heap w) = {[b]} ∪ h_live (w_heap w0) -> tables_reach (w_adapter w) ->
  caps_end addr (w_dev w0) -> same_regs (w_dev w0) (w_dev w) -> s_msix (w_uk w) = s_msix (w_uk w0) ->
  length (irqs_of w) = Z.to_nat ENA_PLAT_MSIX_MAX_VECTORS -> msix_armed (s_msix (w_uk w)) = false ->
  wpm (ena_intr_unmask_vector 0;; ret ← msix_arm_device ncpus (Some addr);
       if z2b ret then ena_intr_msix_fini;; mret ret else mret 0)
    (fun ret w' => intr_frame w0 w' /\ wf_heap (w_heap w')
       /\ (ret = 0 /\ intr_active w0 w' \/ ret < 0 /\ intr_inactive w0 w')) w.
Proof.
  intros Hn F Hh Et En Hb El Hr Hc Hd Em Hli Ha.
  assert (has_table w b (init_vectors n)) as Ht by (split; [done | by apply init_vectors_wf]).
  apply wpm_bind. refine (wpm_mono _ _ _ _ (unmask_vector_spec 0 b _ (mkVector 0 0 true true 0 0) w Ht _ _ Hr) _); [done | done |].
  intros r w1 (_ & Hs & l & E1 & _). set (vs1 := <[Z.to_nat 0:=_]> _) in E1.
  assert (has_table w1 b vs1) as Ht1.
  { destruct (has_table_step _ _ _ _ Ht Hs) as (vs' & Ht' & _). destruct Ht' as [Et' Hv']. rewrite E1 in Et'.
    cbn in Et'. injection Et' as <-. by split; [subst w1 |]. }
  assert (same_regs (w_dev w0) (w_dev w1)) as Hd1
    by (destruct Hs as (? & d & ? & _ & Hd1 & _ & ->); wsimpl; by transitivity (w_dev w)).
  assert (w_uk w1 = w_uk w /\ w_heap w1 = w_heap w /\ num_irq_vectors (w_adapter w1) = n) as (Eu1 & Eh1 & En1) by (by subst w1).
  assert (caps_end addr (w_dev w1)) as Hc1.
  { unfold caps_end in *. rewrite (same_regs_regs addr _ _ _ Hd1).
    by rewrite (walk_caps_ext _ (pci_regs addr (w_dev w0))) by (intros; by apply same_regs_regs). }
  apply wpm_bind. refine (wpm_mono _ _ _ _ (arm_device_spec ncpus addr b vs1 w1 Ht1 Hc1 _ _) _);
    [unfold irqs_of; by rewrite Eu1 | by rewrite Eu1 |].
  intros ret w2 (Ho & Hp & Hor). pose proof (msix_only_frame _ _ Ho) as F2. pose proof (intr_step_frame _ _ Hs) as F1.
  assert (has_table w2 b vs1 /\ w_heap w2 = w_heap w /\ tables_reach (w_adapter w2) /\ num_irq_vectors (w_adapter w2) = n)
    as (Ht2 & Eh2 & Hr2 & En2) by (destruct Ho as (? & ? & ? & -> & _); subst w1; done).
  assert (forall l d, irqs_held (w_dev w1) l d -> irqs_held (w_dev w0) l d) as Hbase.
  { destruct Hd1 as (_ & E2 & E3). intros l' d' [? Hf Hi Hh']. rewrite E2, E3 in *. by split. }
  assert (plat_holds (w_dev w0) w2) as Hp2 by (unfold plat_holds in *; case_match; naive_solver).
  destruct Hor as [(-> & Ea & Hf & Hnv) | (Hret & Ea)].
  - apply wpm_ret. split_and!; [by transitivity w; [| transitivity w1] | by rewrite Eh2 |]. left. split; [done |].
    split; [| done | by rewrite En2; rewrite En1 in Hnv | done]. exists b, vs1. rewrite Eh2. split_and!; [done | done | done |].
    intros i v. apply open_admin_masks. lia.
  - assert (z2b ret = true) as -> by (apply negb_true_iff, Z.eqb_neq; lia). apply wpm_bind.
    refine (wpm_mono _ _ _ _ (msix_fini_spec (w_dev w0) b vs1 w2 Ht2 Hr2 _ _ Hp2) _); [by rewrite Eh2 | rewrite Eh2; set_solver |].
    intros _ w3 (F3 & Et3 & _ & Hh3 & El3 & Ea3 & Hp3). apply wpm_ret.
    split_and!; [transitivity w; [done |]; transitivity w1; [done |]; by transitivity w2 | done |].
    right. split; [done |]. split; [done | | done | done]. rewrite El3, Eh2, El. set_solver.
Qed.

Lemma intr_setup_spec ncpus pci_dev w :
  intr_fresh pci_dev w ->
  wpm (ena_intr_setup ncpus pci_dev) (fun ret w' => intr_frame w w' /\ wf_heap (w_heap w')
    /\ (ret = 0 /\ intr_active w w' \/ ret < 0 /\ intr_inactive w w')) w.
Proof.
  intros [Hc Et Hh Hr Hli Ha]. unfold ena_intr_setup. apply wpm_bind, wpm_get_ad. rewrite Et. cbn [non_null].
  assert (forall d, same_regs (w_dev w) d -> intr_frame w (set_w_dev d w)) as Hfd
    by (intros; apply msix_only_frame, msix_only_dev).
  assert (forall d, same_regs (w_dev w) d -> intr_inactive w (set_w_dev d w)) as Hin.
  { intros d Hd. split; [done | done | done |]. wsimpl. apply (irqs_held_same _ _ _ _ Hd), irqs_held_nil. }
  apply wpm_bind. refine (wpm_mono _ _ _ _ (probe_spec pci_dev w Hc) _). intros [ret nvec] w1 (-> & Hnv & d & Hd & ->).
  cbn [z2b]. change (z2b 0) with false. cbn iota.
  destruct (Z.eqb_spec nvec 0) as [_ | Hnz]; [apply wpm_ret; split_and!; [by apply Hfd | done |]; right; split; [done | by apply Hin] |].
  set (n := if ENA_MAX_MSIX_VECTORS <? nvec then ENA_MAX_MSIX_VECTORS else nvec).
  assert (0 < n <= ENA_MAX_MSIX_VECTORS) as Hn by (unfold n, ENA_MAX_MSIX_VECTORS; case_match; lia). clearbody n.
  destruct pci_dev as [addr |]; [| destruct Hnv as [Hz Hs]; naive_solver].
  apply wpm_bind. unfold ena_intr_msix_init. rewrite (proj2 (orb_false_iff _ _)) by (split; lia).
  apply wpm_bind, wpm_calloc; [done | |].
  - intros h Hh' El. apply wpm_bind, wpm_mod_ad, wpm_ret, wpm_ret. wsimpl.
    split_and!; [| done |].
    + transitivity (set_w_dev d w); [by apply Hfd |]. split; wsimpl; [| done | | exists []; by rewrite app_nil_r].
      * exists None, (num_irq_vectors (w_adapter w)). by destruct (w_adapter w).
      * exists (s_msix (w_uk w)). by destruct (w_uk w).
    + right. split; [done |]. split; [done | done | done |]. apply (irqs_held_same _ _ _ _ Hd), irqs_held_nil.
  - intros b h Hh' Hb El. apply wpm_bind, wpm_mod_ad, wpm_bind, wpm_mod_ad, wpm_ret. wsimpl_all. change (z2b 0) with false. cbn iota.
    apply (setup_arm_spec ncpus addr n b w); try done; [| by apply Hc].
    transitivity (set_w_dev d w); [by apply Hfd |]. split; wsimpl; [by eauto | done | | exists []; by rewrite app_nil_r].
    exists (s_msix (w_uk w)). by destruct (w_uk w).
Qed.

(** C15: The set-up of the interrupt vectors is all or nothing.  On success the vector table
    has one admin vector, open, and the queue vectors, closed, and the platform has
    armed no more vectors than the table has; on any error, from a missing capability
    over a failed allocation to a refused interrupt, the table is gone, every heap
    block and every interrupt the set-up took is given back, and nothing else of the
    driver changed. *)
Theorem intr_setup_all_or_nothing ncpus pci_dev w :
  intr_fresh pci_dev w ->
  wpm (ena_intr_setup ncpus pci_dev) (fun ret w' => intr_frame w w' /\ wf_heap (w_heap w')
    /\ (ret = 0 /\ intr_active w w' \/ ret < 0 /\ intr_inactive w w')) w.
Proof. apply intr_setup_spec. Qed.

(** The registers an interrupt of vector [v] re-opens. *)
Definition fire_writes (a : ena_adapter) (v : ena_irq_vector) : list (Z * Z) :=
  if is_admin v then [] else queue_unmask false a (queue_id v) ++ queue_unmask true a (queue_id v).
Definition fired (v : ena_irq_vector) : ena_irq_vector :=
  mkVector (vector_id v) (queue_id v) (is_admin v) (is_admin v && masked v) (moderation_interval_usec v) (u32 (intr_count v + 1)).

(** C29: An interrupt on a vector of the table counts once on the platform and once in the
    table, and re-opens exactly the interrupts of the queue pair the vector serves: one
    store of the unmask bit to the register the device reported for the queue, for each
    ring that is there.  The admin vector re-opens nothing.  The handler touches no
    other vector and no other state of the driver. *)
Theorem msix_tramp_correct i b b0 c vs v w :
  has_table w b vs -> tables_reach (w_adapter w) -> 0 <= i -> vs !! Z.to_nat i = Some v ->
  msix_counts (s_msix (w_uk w)) !! Z.to_nat i = Some c -> msix_fire (s_msix (w_uk w)) = true ->
  bar0_base (ad_bars (w_adapter w)) = Some b0 ->
  wpm (msix_tramp i) (fun _ w' =>
    let l := fire_writes (w_adapter w) v in
    w' = set_w_uk (set_s_msix (set_msix_counts (<[Z.to_nat i := u32 (c + 1)]> (msix_counts (s_msix (w_uk w)))) (s_msix (w_uk w))) (w_uk w))
      (set_w_adapter (set_irq_vectors (Some (b, <[Z.to_nat i := fired v]> vs)) (w_adapter w))
      (set_w_log (w_log w ++ write_events b0 l) (set_w_dev (dev_writes l (w_dev w)) w)))) w.
Proof.
  intros Ht Hr Hi Ev Hc Hf Hb. cbv zeta. unfold msix_tramp. apply wpm_bind, wpm_get_msix.
  apply wpm_bind, (wpm_lift _ c); [by apply aget_ret |]. apply wpm_bind.
  eapply wpm_lift; [apply aset_ret; apply lookup_lt_Some in Hc; lia |]. cbn [default]. apply wpm_bind, wpm_mod_msix. rewrite Hf.
  set (w1 := set_w_uk _ w). pose proof Ht as [E Hv]. unfold msix_on_fire. apply wpm_bind, wpm_get_ad.
  change (w_adapter w1) with (w_adapter w).
  pose proof (lookup_lt_Some _ _ _ Ev) as Hlt. rewrite (wv_num _ _ Hv), (proj2 (Z.leb_gt _ _)) by lia.
  apply wpm_bind, (wpm_mod_vector _ _ b vs v); [done.. |].
  set (v1 := set_intr_count _ v). set (w2 := set_w_adapter _ w1).
  assert (<[Z.to_nat i := v1]> vs !! Z.to_nat i = Some v1) as Ev1 by (apply list_lookup_insert_eq; lia).
  apply wpm_bind, (wpm_get_vector _ b (<[Z.to_nat i := v1]> vs) v1); [done | done | done |].
  destruct (wv_each _ _ Hv _ _ Ev) as (_ & Eadm & _). unfold fire_writes, fired. cbn [v1 set_intr_count is_admin].
  destruct (is_admin v) eqn:Ead; cbn [negb andb].
  - apply wpm_ret. unfold w2, w1, v1, set_intr_count. cbn. rewrite app_nil_r, Ead. by destruct w.
  - assert (has_table w2 b (<[Z.to_nat i := v1]> vs)) as Ht2.
    { split; [done |]. apply (wf_vectors_kept _ _ _ _ Hv); [| done].
      rewrite <- (list_insert_id vs (Z.to_nat i) v) at 1 by done. by apply Forall2_insert. }
    apply wpm_bind. refine (wpm_mono _ _ _ _ (unmask_vector_spec i b _ v1 w2 Ht2 Hi Ev1 Hr) _).
    intros _ w3 (_ & _ & l & -> & ->). apply wpm_ret. change (bar0_base (ad_bars (w_adapter w2))) with (bar0_base (ad_bars (w_adapter w))).
    rewrite Hb. unfold unmask_writes. rewrite (proj2 (Z.eqb_neq i 0)) by (intros ->; done).
    change (queue_id v1) with (queue_id v). cbn [default].
    change (queue_unmask false (w_adapter w2)) with (queue_unmask false (w_adapter w)).
    change (queue_unmask true (w_adapter w2)) with (queue_unmask true (w_adapter w)).
    unfold w2, w1, v1, set_intr_count, set_masked. cbn [vector_id queue_id is_admin masked moderation_interval_usec intr_count].
    rewrite list_insert_insert_eq, Ead. by destruct w.
Qed.
End IntrProofs.

(** ** Examples *)
#[export] Instance kernel_device `{EnaDevice D} : EnaDevice (kernel D) := {|
  dev_read off d := let '(v, d') := dev_read off (k_dev_state d) in
    (v, mkKernel d' (k_cfg d) (k_mask d) (k_irqs d) (k_handlers d) (k_budget d));
  dev_write off v d := mkKernel (dev_write off v (k_dev_state d)) (k_cfg d) (k_mask d) (k_irqs d) (k_handlers d) (k_budget d);
  dev_run m d := let '(m', d') := dev_run m (k_dev_state d) in
    (m', mkKernel d' (k_cfg d) (k_mask d) (k_irqs d) (k_handlers d) (k_budget d))
|}.
#[export] Instance kernel_apart `{EnaDevice D} : DeviceApart (kernel D).
Proof. split; intros; simpl; repeat case_match; done. Qed.

Definition ex_intr_dev : kernel ex_dev := ex_kernel (mkExDev 0 0 0 None ex_fw0).
Definition ex_intr : world (kernel ex_dev) :=
  mkWorld uk_zero (adapter_zero (Some 0x1000) 0x4000) example_heap (mkMem [] [] []) ex_intr_dev [].

Lemma ex_intr_fresh : intr_fresh (Some ex_addr) ex_intr.
Proof.
  split; [| done | | | done | done].
  - intros addr [= <-]. vm_compute. eauto.
  - split; [done |]. intros a Ha. exfalso. set_solver.
  - intros [|] l; done.
Qed.

Lemma intr_setup_witness : intr_fresh (Some ex_addr) ex_intr /\
  wpm (ena_intr_setup 2 (Some ex_addr)) (fun ret w' => intr_frame ex_intr w' /\ wf_heap (w_heap w')
    /\ (ret = 0 /\ intr_active ex_intr w' \/ ret < 0 /\ intr_inactive ex_intr w')) ex_intr.
Proof. split; [apply ex_intr_fresh | apply (intr_setup_all_or_nothing 2 (Some ex_addr) ex_intr ex_intr_fresh)]. Defined.

(** The set-up succeeds here with the 9 vectors of the capability. *)
Example ex_intr_run : match ena_intr_setup 2 (Some ex_addr) ex_intr with
  | Ret (ret, w) => (ret, num_irq_vectors (w_adapter w), msix_nvec (s_msix (w_uk w)), size (k_handlers (w_dev w)))
  | _ => (1, 0, 0, 0%nat) end = (0, 9, 9, 10%nat).
Proof. vm_compute. reflexivity. Qed.

(** Three vectors, and an RX ring on queue 0 with an unmask register at 0x200. *)
Definition ex_irq_ring : ena_ring :=
  let r := example_ring ENA_RING_TYPE_RX 4 in set_r_cq (set_cq_unmask_db_offset 0x200 (r_cq r)) r.
Definition ex_fire : world (kernel ex_dev) :=
  mkWorld (set_s_msix (mkMsix true 3 (replicate 32 0) (replicate 32 0) true (mkMsixLoc (Some ex_addr) 0 3 0 0)) uk_zero)
    (set_ad_io (mkIo None (Some [Some ex_irq_ring]) 0 1 None (Some 8192))
      (set_num_irq_vectors 3 (set_irq_vectors (Some (4096, init_vectors 3)) (adapter_zero (Some 0x1000) 0x4000))))
    example_heap (mkMem [] [] []) ex_intr_dev [].

Lemma msix_tramp_witness :
  wpm (msix_tramp 1) (fun _ w' => w_log w' = [EvWrite32 (0x1000 + 0x200) (2 ^ 30)]
    /\ irq_vectors (w_adapter w') = Some (4096, <[1%nat := fired (io_vector 1)]> (init_vectors 3))) ex_fire.
Proof.
  assert (has_table ex_fire 4096 (init_vectors 3)) as Ht by (split; [done | by apply init_vectors_wf]).
  assert (tables_reach (w_adapter ex_fire)) as Hr by (intros [|] l E; vm_compute in E; [done | injection E as <-; vm_compute; done]).
  refine (wpm_mono _ _ _ _ (msix_tramp_correct 1 4096 0x1000 0 (init_vectors 3) (io_vector 1) ex_fire Ht Hr _ _ _ _ _) _);
    [done | reflexivity | reflexivity | reflexivity | reflexivity |].
  intros _ w' ->. split; reflexivity.
Defined.
