(* ===== verification/Netdev.v ===== *)
(** * Start, stop and tear-down of the network device

    The operations of src/ena_netdev.c (Unikraft build) that drive the rings of the adapter
    together: creating the hardware queues of every ring with a rollback, stopping them,
    releasing the rings, and the complete tear-down of the device.

    The completion queue of a TX ring is written by the device; [views] says what the
    polls of a stop read from the one of each queue. *)

From stdpp Require Import base tactics option list list_numbers numbers sets gmap.
From Stdlib Require Import ZArith Lia.
From S2P Require Import Prelude Fifo Mem Desc Netq Ring Tx Rx Adapter Admin Session Exec Device Control Queue Init Rss Recover Netconf Plat Intr.
Open Scope Z_scope.
Open Scope list_scope.

Section Netdev.
Context {D : Type} `{EnaDevice D} `{AdminExec D} `{PciConfig D} `{IntCtlr D}.

(** ** Hardware queues *)

(** The two loops of [ena_netdev_start_rings_hw]: result and number of rings created. *)
Fixpoint create_rings (tx : bool) (n : nat) (q created : Z) : M D (Z * Z) :=
  match n with
  | O => mret (0, created)
  | S n =>
      r ← ring_at tx q;
      if non_null r then
        a ← get_ad;
        let vector := if non_null (irq_vectors a) then u32 (q + 1) else 0 in
        ret ← ena_ring_create_hw tx q vector;
        if z2b ret then mret (ret, created) else create_rings tx n (q + 1) (u16 (created + 1))
      else create_rings tx n (q + 1) created
  end.

(** The loops over the rings of a table that are there. *)
Fixpoint each_ring (tx : bool) (op : Z -> M D unit) (n : nat) (q : Z) : M D unit :=
  match n with
  | O => mret tt
  | S n =>
      r ← ring_at tx q;
      (if non_null r then op q else mret tt);;
      each_ring tx op n (q + 1)
  end.

Definition destroy_rings (tx : bool) : nat -> Z -> M D unit := each_ring tx (fun q => ena_ring_destroy_hw tx q;; mret tt).

(** The label [err_rollback]. *)
Definition start_rollback (rx_created tx_created ret : Z) : M D Z :=
  destroy_rings false (Z.to_nat rx_created) 0;;
  destroy_rings true (Z.to_nat tx_created) 0;;
  mret ret.

Definition ena_netdev_start_rings_hw (nb_rx nb_tx : Z) : M D Z :=
  '(ret, tx_created) ← create_rings true (Z.to_nat nb_tx) 0 0;
  if z2b ret then start_rollback 0 tx_created ret
  else
    '(ret, rx_created) ← create_rings false (Z.to_nat nb_rx) 0 0;
    if z2b ret then start_rollback rx_created tx_created ret
    else
      a ← get_ad;
      (if non_null (irq_vectors a) then ena_intr_unmask_all else mret tt);;
      mret 0.

(** [ena_tx_poll_completions(ring, budget, &cleaned)] on a TX ring of the adapter, with
    [cleaned] 0 before the call; the argument of its completion callback is the TX queue of
    the same number. *)
Definition poll_tx_ring (fuel : nat) (view : tx_view) (q budget : Z) : M D Z := fun w =>
  r ← aget (tx_rings (ad_io (w_adapter w))) q;
  s ← aget (Some (tx_queues (w_uk w))) q;
  match r with
  | None => Fault
  | Some r =>
      '(_, cleaned, r, txq, es) ← ena_tx_poll_completions fuel (uk_cpu (w_uk w)) view r (Some (txs_q s)) budget;
      l ← aset (tx_rings (ad_io (w_adapter w))) q (Some r);
      qs ← aset (Some (tx_queues (w_uk w))) q (set_txs_q (default (txs_q s) txq) s);
      Ret (default 0 cleaned, set_w_log (w_log w ++ es) (set_w_uk (set_tx_queues (default [] qs) (w_uk w))
        (set_w_adapter (set_ad_io (set_tx_rings l (ad_io (w_adapter w))) (w_adapter w)) w)))
  end.

Definition drain_tx_rings (fuel : nat) (views : Z -> tx_view) : nat -> Z -> M D unit :=
  each_ring true (fun q => poll_tx_ring fuel (views q) q 0;; mret tt).

Definition ena_netdev_stop_rings_hw (fuel : nat) (views : Z -> tx_view) (nb_rx nb_tx : Z) : M D Z :=
  drain_tx_rings fuel views (Z.to_nat nb_tx) 0;;
  destroy_rings false (Z.to_nat nb_rx) 0;;
  destroy_rings true (Z.to_nat nb_tx) 0;;
  mret 0.

(** ** Start and stop *)
Definition ena_netdev_start : M D Z :=
  a ← get_ad;
  ret ← ena_netdev_start_rings_hw (num_rx_rings (ad_io a)) (num_tx_rings (ad_io a));
  if z2b ret then mret ret
  else
    r ← ring_at false 0;
    match r with
    | Some r => refill_queue 0 (u32 (sq_depth (r_sq r) - 1));; mret tt
    | None => mret tt
    end;;
    a ← get_ad;
    (if 1 <? num_rx_rings (ad_io a) then ena_rss_configure (num_rx_rings (ad_io a));; mret tt else mret tt);;
    mod_ad (set_link_up true);;
    mret 0.

Definition ena_netdev_clear_rx_chains (nq : Z) : M D unit :=
  mod_uk (fun u => set_rx_queues (imap (fun i s => if (Z.of_nat i <? nq) && (Z.of_nat i <? ENA_NETDEV_MAX_QUEUES)
                                                   then set_rxs_chain [] s else s) (rx_queues u)) u).

Definition ena_netdev_stop (fuel : nat) (views : Z -> tx_view) : M D Z :=
  mod_ad (set_link_up false);;
  ena_netdev_clear_rx_chains ENA_NETDEV_MAX_QUEUES;;
  a ← get_ad;
  ena_netdev_stop_rings_hw fuel views (num_rx_rings (ad_io a)) (num_tx_rings (ad_io a)).

(** ** Release *)
Fixpoint free_rings (tx : bool) (n : nat) (q : Z) : M D unit :=
  match n with
  | O => mret tt
  | S n => drop_ring tx q;; free_rings tx n (q + 1)
  end.

(** One table, with its rings. *)
Definition free_table (tx : bool) : M D unit :=
  a ← get_ad;
  if non_null (rings_of tx (ad_io a)) then
    free_rings tx (Z.to_nat (queue_count tx a)) 0;;
    free (table_blk tx (ad_io a));;
    mod_ad (fun a => set_ad_io (set_num_rings tx 0 (set_table tx None None (ad_io a))) a)
  else mret tt.

Definition ena_netdev_cleanup_adapter_rings : M D unit :=
  free_table false;; free_table true;; ena_rss_fini.

(** The loop over the queues in [ena_netdev_teardown]. *)
Fixpoint free_bounces (n : nat) (q : Z) : M D unit :=
  match n with
  | O => mret tt
  | S n =>
      ena_netdev_free_bounce (S := rxq_slot) q;;
      ena_netdev_free_bounce (S := txq_slot) q;;
      free_bounces n (q + 1)
  end.

Definition ena_netdev_teardown (fuel : nat) (views : Z -> tx_view) : M D unit :=
  ena_netdev_stop fuel views;;
  free_bounces (Z.to_nat ENA_NETDEV_MAX_QUEUES) 0;;
  ena_netdev_cleanup_adapter_rings;;
  ena_intr_msix_fini;;
  ena_admin_fini.

(** [ena_netdev_free] of a network device, or of NULL. *)
Definition ena_netdev_free (netdev : bool) (fuel : nat) (views : Z -> tx_view) : M D unit :=
  if netdev then ena_netdev_teardown fuel views else mret tt.
End Netdev.

(** ** Tables whose rings come first *)

(** Of the first [n] entries of the table, the first ones are the rings [rs]. *)
Definition ring_tab (o : arr (option ena_ring)) (n : Z) (rs : list ena_ring) : Prop :=
  (o = None /\ rs = []) \/
  exists m rest, o = Some ((Some <$> rs) ++ replicate m None ++ rest) /\ Z.to_nat n = (length rs + m)%nat.

(** The same table with other rings in front. *)
Definition tab_with (rs : list ena_ring) (o : arr (option ena_ring)) : arr (option ena_ring) :=
  match o with Some l => Some ((Some <$> rs) ++ drop (length rs) l) | None => None end.
Definition io_with (tx : bool) (rs : list ena_ring) (io : io_rings) : io_rings :=
  set_rings_of tx (tab_with rs (rings_of tx io)) io.

Lemma tab_with_same o n rs : ring_tab o n rs -> tab_with rs o = o.
Proof.
  intros [[-> _] | (m & rest & -> & _)]; [done |]. simpl. f_equal. f_equal.
  by rewrite drop_app_length' by (by rewrite length_fmap).
Qed.

Lemma io_with_same tx io n rs : ring_tab (rings_of tx io) n rs -> io_with tx rs io = io.
Proof. intros Ht. unfold io_with. rewrite (tab_with_same _ _ _ Ht). destruct io, tx; done. Qed.

Lemma ring_tab_with o n rs rs' : ring_tab o n rs -> length rs' = length rs -> ring_tab (tab_with rs' o) n rs'.
Proof.
  intros [[-> ->] | (m & rest & -> & En)] El; [left; by destruct rs' |]. right. exists m, rest. simpl. split; [| by rewrite El].
  f_equal. f_equal. by rewrite El, drop_app_length' by (by rewrite length_fmap).
Qed.

Lemma rings_of_io_with tx tx' rs io : rings_of tx' (io_with tx rs io) = if eqb tx tx' then tab_with rs (rings_of tx io) else rings_of tx' io.
Proof. by destruct tx, tx'. Qed.

Lemma length_tab (o : arr (option ena_ring)) n rs l : ring_tab o n rs -> o = Some l -> (Z.to_nat n <= length l)%nat.
Proof.
  intros [[-> _] | (m & rest & -> & En)]; [done |]. intros [= <-]. rewrite !length_app, length_fmap, length_replicate. lia.
Qed.

(** ** The queues of the device

    The device has the queues [(C0, S0)] and those of the rings [rs], all distinct. *)
Record queues_owned (C0 S0 : gset Z) (rs : list ena_ring) (C S : gset Z) : Prop := {
  qo_cq : C = C0 ∪ list_to_set (cq_idx ∘ r_cq <$> rs);
  qo_sq : S = S0 ∪ list_to_set (sq_idx ∘ r_sq <$> rs);
  qo_cq_nodup : NoDup (cq_idx ∘ r_cq <$> rs);
  qo_sq_nodup : NoDup (sq_idx ∘ r_sq <$> rs);
  qo_new : Forall (fun r => (cq_idx (r_cq r) ∉ C0) /\ (sq_idx (r_sq r) ∉ S0)) rs;
  qo_range : Forall (fun r => 0 <= cq_idx (r_cq r) < 65536 /\ 0 <= sq_idx (r_sq r) < 65536) rs
}.

#[export] Instance queues_owned_proper C0 S0 : Proper ((≡ₚ) ==> eq ==> eq ==> iff) (queues_owned C0 S0).
Proof.
  assert (forall rs rs' C S, rs ≡ₚ rs' -> queues_owned C0 S0 rs C S -> queues_owned C0 S0 rs' C S) as Hp.
  { intros rs rs' C S E [-> -> ? ? ? ?]. assert (cq_idx ∘ r_cq <$> rs ≡ₚ cq_idx ∘ r_cq <$> rs') as E1 by (by rewrite E).
    assert (sq_idx ∘ r_sq <$> rs ≡ₚ sq_idx ∘ r_sq <$> rs') as E2 by (by rewrite E).
    split; [f_equal; by apply list_to_set_perm_L | f_equal; by apply list_to_set_perm_L | by rewrite <- E1 | by rewrite <- E2 | by rewrite <- E | by rewrite <- E]. }
  intros rs rs' E C ? <- S ? <-. split; apply Hp; [done | by symmetry].
Qed.

Lemma queues_owned_nil C S : queues_owned C S [] C S.
Proof. split; simpl; try constructor; set_solver. Qed.

Lemma queues_owned_nil_inv C0 S0 C S : queues_owned C0 S0 [] C S -> C = C0 /\ S = S0.
Proof. intros [-> -> _ _ _ _]. simpl. split; set_solver. Qed.

Lemma queues_owned_add C0 S0 rs C S r :
  queues_owned C0 S0 rs C S -> (cq_idx (r_cq r) ∉ C) -> (sq_idx (r_sq r) ∉ S) ->
  0 <= cq_idx (r_cq r) < 65536 /\ 0 <= sq_idx (r_sq r) < 65536 ->
  queues_owned C0 S0 (r :: rs) ({[cq_idx (r_cq r)]} ∪ C) ({[sq_idx (r_sq r)]} ∪ S).
Proof.
  intros [-> -> ? ? ? ?] Hc Hs Hr. rewrite not_elem_of_union, not_elem_of_list_to_set in Hc, Hs. destruct Hc, Hs.
  split; simpl; [set_solver | set_solver | by constructor.. | by constructor | by constructor].
Qed.

Lemma queues_owned_drop C0 S0 rs C S r :
  queues_owned C0 S0 (r :: rs) C S ->
  queues_owned C0 S0 rs (C ∖ {[cq_idx (r_cq r)]}) (S ∖ {[sq_idx (r_sq r)]})
  /\ (cq_idx (r_cq r) ∈ C) /\ (sq_idx (r_sq r) ∈ S) /\ (0 <= cq_idx (r_cq r) < 65536 /\ 0 <= sq_idx (r_sq r) < 65536).
Proof.
  intros [-> -> H1 H2 H3 H4]. simpl in *. apply NoDup_cons in H1 as [H1 ?], H2 as [H2 ?].
  apply Forall_cons in H3 as [[? ?] ?], H4 as [? ?]. split; [| split; [set_solver | split; [set_solver | done]]].
  split; try done; rewrite <- (not_elem_of_list_to_set (C := gset Z)) in *; set_solver.
Qed.

(** ** Start *)
Section Start.
Context {D : Type} `{AdminExecOk D}.
Implicit Types w : world D.

Lemma moved_io k qs io w0 w : moved k qs (upd (set_ad_io io) w0) w -> ad_io (w_adapter w) = io.
Proof. intros Hm. by rewrite (moved_ad _ _ _ _ Hm). Qed.

Lemma moved_ring k k' qs qs' io w0 w tx q r w' :
  moved k qs (upd (set_ad_io io) w0) w -> hw_at tx q k' w w' r qs'.1 qs'.2 ->
  exists l, rings_of tx io = Some l /\ moved k' qs' (upd (set_ad_io (set_rings_of tx (Some (<[Z.to_nat q := Some r]> l)) io)) w0) w'.
Proof.
  intros Hm [Hok (l & El & _ & Hcalm)]. pose proof (moved_io _ _ _ _ _ Hm) as Eio. rewrite Eio in El, Hcalm. exists l. split; [done |].
  destruct qs' as [C' S']. split; [done |]. etrans; [| exact Hcalm].
  destruct (moved_mod _ _ _ _ (set_ad_io (set_rings_of tx (Some (<[Z.to_nat q := Some r]> l)) io)) Hm) as [_ Hc]; [done | exact Hc].
Qed.

(** A ring created: it names new queues of the device. *)
Lemma create_one k C0 S0 rs C S io w0 w tx q l r vector :
  ax_tracked = true -> moved (11 + k) (C, S) (upd (set_ad_io io) w0) w -> queues_owned C0 S0 rs C S ->
  rings_of tx io = Some l -> 0 <= q -> l !! Z.to_nat q = Some (Some r) ->
  wpm (ena_ring_create_hw tx q vector) (fun ret w' => exists r' C' S', sw r' = sw r
    /\ moved k (C', S') (upd (set_ad_io (set_rings_of tx (Some (<[Z.to_nat q := Some r']> l)) io)) w0) w'
    /\ if ret =? 0 then hw_valid r' = true /\ queues_owned C0 S0 (r' :: rs) C' S'
       else hw_valid r' = hw_valid r /\ C' = C /\ S' = S) w.
Proof.
  intros Ht Hm Hqo El Hq Hr. pose proof (moved_io _ _ _ _ _ Hm) as Eio.
  eapply wpm_mono; [apply (create_hw_spec tx q k w l r vector C S); [apply Hm | by rewrite Eio | done..] |].
  intros ret w' Hret. cbv beta in Hret. destruct (ret =? 0).
  - destruct Hret as [r' [Hsw Hv Hix Hnc Hns _ _ Ha]].
    destruct (moved_ring _ _ _ ({[cq_idx (r_cq r')]} ∪ C, {[sq_idx (r_sq r')]} ∪ S) _ _ _ _ _ _ _ Hm Ha) as (l' & El' & Hm').
    rewrite El in El'. injection El' as <-. exists r', ({[cq_idx (r_cq r')]} ∪ C), ({[sq_idx (r_sq r')]} ∪ S).
    split_and!; [done | done | done | apply queues_owned_add; [done | by apply Hnc | by apply Hns | done]].
  - destruct Hret as (r' & (Hsw & Hv & _) & Ha). destruct (moved_ring _ _ _ (C, S) _ _ _ _ _ _ _ Hm Ha) as (l' & El' & Hm').
    rewrite El in El'. injection El' as <-. exists r', C, S. by split_and!.
Qed.

(** A ring destroyed: its queues are gone. *)
Lemma destroy_one k C0 S0 rs C S io w0 w tx q l r :
  moved (2 + k) (C, S) (upd (set_ad_io io) w0) w -> queues_owned C0 S0 (r :: rs) C S ->
  rings_of tx io = Some l -> 0 <= q -> l !! Z.to_nat q = Some (Some r) ->
  wpm (ena_ring_destroy_hw tx q) (fun _ w' => exists r' C' S', sw r' = sw r /\ hw_valid r' = false
    /\ moved k (C', S') (upd (set_ad_io (set_rings_of tx (Some (<[Z.to_nat q := Some r']> l)) io)) w0) w'
    /\ queues_owned C0 S0 rs C' S') w.
Proof.
  intros Hm Hqo El Hq Hr. pose proof (moved_io _ _ _ _ _ Hm) as Eio.
  destruct (queues_owned_drop _ _ _ _ _ _ Hqo) as (Hqo' & Hc & Hs & Hix).
  assert (hw_at tx q (2 + k) w w r C S) as Ha by (eapply hw_at_start; [apply Hm | by rewrite Eio | done..]).
  eapply wpm_mono; [apply (destroy_hw_spec tx q k w w r C S Ha Hix); done |].
  intros ret w' (_ & r' & Hsw & Hv & _ & _ & _ & Ha').
  destruct (moved_ring _ _ _ (C ∖ {[cq_idx (r_cq r)]}, S ∖ {[sq_idx (r_sq r)]}) _ _ _ _ _ _ _ Hm Ha') as (l' & El' & Hm').
  rewrite El in El'. injection El' as <-. by do 3 eexists.
Qed.

(** An entry of the table, and a change of it. *)
Lemma mid_lookup (vs : list ena_ring) (o : option ena_ring) (l : list (option ena_ring)) :
  ((Some <$> vs) ++ o :: l) !! length vs = Some o.
Proof. by rewrite list_lookup_middle by (by rewrite length_fmap). Qed.
Lemma mid_insert (vs : list ena_ring) (o : option ena_ring) (r : ena_ring) (l : list (option ena_ring)) :
  <[length vs := Some r]> ((Some <$> vs) ++ o :: l) = (Some <$> (vs ++ [r])) ++ l.
Proof.
  rewrite insert_app_r_alt, length_fmap, Nat.sub_diag by (by rewrite length_fmap). simpl.
  by rewrite fmap_app, <- app_assoc.
Qed.

Lemma wpm_ring_at_null tx q w (Q : option ena_ring -> world D -> Prop) :
  rings_of tx (ad_io (w_adapter w)) = None -> Q None w -> wpm (ring_at tx q) Q w.
Proof. intros El HQ. unfold wpm, ring_at. by rewrite El. Qed.

Lemma wpm_ring_at_mid tx vs o l q w (Q : option ena_ring -> world D -> Prop) :
  rings_of tx (ad_io (w_adapter w)) = Some ((Some <$> vs) ++ o :: l) -> q = Z.of_nat (length vs) -> Q o w -> wpm (ring_at tx q) Q w.
Proof.
  intros El -> HQ. eapply wpm_ring_at; [exact El | rewrite length_app, length_fmap; simpl; lia |].
  intros r. rewrite Nat2Z.id, mid_lookup. by intros [= <-].
Qed.

(** The two loops over the entries that are NULL. *)
Lemma create_rings_none tx n q c w :
  (forall i, q <= i < q + Z.of_nat n -> wpm (ring_at tx i) (fun r w' => r = None /\ w' = w) w) ->
  wpm (create_rings tx n q c) (fun x w' => x = (0, c) /\ w' = w) w.
Proof.
  revert q. induction n as [| n IH]; intros q Hn; cbn [create_rings]; [by apply wpm_ret |].
  apply wpm_bind. eapply wpm_mono; [apply Hn; lia |]. intros r w' [-> ->]. cbn [non_null]. apply IH. intros i Hi. apply Hn. lia.
Qed.
Lemma destroy_rings_none tx n q w :
  (forall i, q <= i < q + Z.of_nat n -> wpm (ring_at tx i) (fun r w' => r = None /\ w' = w) w) ->
  wpm (destroy_rings tx n q) (fun _ w' => w' = w) w.
Proof.
  revert q. induction n as [| n IH]; intros q Hn; unfold destroy_rings in *; cbn [each_ring]; [by apply wpm_ret |].
  apply wpm_bind. eapply wpm_mono; [apply Hn; lia |]. intros r w' [-> ->]. cbn [non_null]. apply wpm_bind, wpm_ret.
  apply IH. intros i Hi. apply Hn. lia.
Qed.

Lemma ring_at_nones tx vs m rest q n w :
  rings_of tx (ad_io (w_adapter w)) = Some ((Some <$> vs) ++ replicate m None ++ rest) -> q = Z.of_nat (length vs) -> (n <= m)%nat ->
  forall i, q <= i < q + Z.of_nat n -> wpm (ring_at tx i) (fun r w' => r = None /\ w' = w) w.
Proof.
  intros El -> Hn i Hi. eapply wpm_ring_at; [exact El | rewrite !length_app, length_fmap, length_replicate; lia |].
  intros r. rewrite lookup_app_r, length_fmap by (rewrite length_fmap; lia).
  rewrite lookup_app_l by (rewrite length_replicate; lia). intros [-> _]%lookup_replicate. done.
Qed.

(** Creating: the rings before were created, those from the failure on were not. *)
Definition created_to (k : nat) (C0 S0 : gset Z) (others : list ena_ring) (w0 : world D) (tx : bool) (tail : list (option ena_ring))
    (io : io_rings) (vs rs : list ena_ring) (x : Z * Z) (w' : world D) : Prop :=
  exists new rs' C S, moved k (C, S) (upd (set_ad_io (set_rings_of tx (Some ((Some <$> (vs ++ new)) ++ (Some <$> rs') ++ tail)) io)) w0) w'
    /\ queues_owned C0 S0 (others ++ vs ++ new) C S /\ x.2 = Z.of_nat (length (vs ++ new))
    /\ sw <$> (new ++ rs') = sw <$> rs /\ Forall (fun r => hw_valid r = true) new
    /\ hw_valid <$> rs' = drop (length new) (hw_valid <$> rs) /\ (x.1 = 0 <-> rs' = []).

Lemma create_rings_spec C0 S0 others w0 tx rs : ax_tracked = true -> forall k vs m rest C S io w,
  moved (11 * length rs + k) (C, S) (upd (set_ad_io io) w0) w -> queues_owned C0 S0 (others ++ vs) C S ->
  rings_of tx io = Some ((Some <$> vs) ++ (Some <$> rs) ++ replicate m None ++ rest) ->
  Z.of_nat (length vs + length rs) < 65536 ->
  wpm (create_rings tx (length rs + m) (Z.of_nat (length vs)) (Z.of_nat (length vs)))
    (created_to k C0 S0 others w0 tx (replicate m None ++ rest) io vs rs) w.
Proof.
  intros Ht. induction rs as [| r rs IH]; intros k vs m rest C S io w Hm Hqo El Hlen.
  - pose proof (moved_io _ _ _ _ _ Hm) as Eio. cbn [length Nat.add]. eapply wpm_mono.
    + apply create_rings_none. apply (ring_at_nones tx vs m rest); [by rewrite Eio, El | done | done].
    + intros x w' [-> ->]. exists [], [], C, S. rewrite app_nil_r. split_and!; try done.
      assert (set_rings_of tx (Some ((Some <$> vs) ++ (Some <$> []) ++ replicate m None ++ rest)) io = io) as -> by (rewrite <- El; by destruct io, tx).
      eapply moved_less; [| exact Hm]. lia.
  - pose proof (moved_io _ _ _ _ _ Hm) as Eio. rewrite fmap_cons, <- app_comm_cons in El.
    cbn [length Nat.add create_rings]. apply wpm_bind.
    eapply wpm_ring_at_mid; [by rewrite Eio, El | done |]. cbn [non_null]. apply wpm_bind, wpm_get_ad. cbv zeta. apply wpm_bind.
    assert (moved (11 + (11 * length rs + k)) (C, S) (upd (set_ad_io io) w0) w) as Hm1 by (eapply moved_less; [| exact Hm]; simpl; lia).
    eapply wpm_mono; [eapply (create_one _ _ _ _ _ _ _ _ _ _ _ _ _ _ Ht Hm1 Hqo El); [lia | rewrite Nat2Z.id; apply mid_lookup] |].
    intros ret w1 (r' & C' & S' & Hsw & Hm' & Hret). rewrite Nat2Z.id, mid_insert in Hm'. unfold z2b.
    destruct (Z.eqb_spec ret 0) as [-> | Hne]; cbn [negb].
    + destruct Hret as [Hv Hqo']. specialize (IH k (vs ++ [r']) m rest C' S'). rewrite length_app in IH. cbn [length] in *.
      replace (Z.of_nat (length vs) + 1) with (Z.of_nat (length vs + 1)) by lia. rewrite u16_id by lia.
      eapply wpm_mono; [eapply IH; [exact Hm' | | by rewrite rings_of_set | lia] |].
      * rewrite app_assoc, <- Permutation_middle, app_nil_r. exact Hqo'.
      * intros [e c] w2 (new & rs' & C2 & S2 & Hm2 & Hq2 & Hc & Hs2 & Hf & Hh & Hz). rewrite <- app_assoc in Hm2, Hq2, Hc.
        exists (r' :: new), rs', C2, S2. split_and!; try done; [| rewrite <- app_comm_cons, !fmap_cons; by rewrite Hsw, Hs2 | by constructor].
        replace (set_rings_of tx _ io) with (set_rings_of tx (Some ((Some <$> vs ++ r' :: new) ++ (Some <$> rs') ++ replicate m None ++ rest))
          (set_rings_of tx (Some ((Some <$> vs ++ [r']) ++ (Some <$> rs) ++ replicate m None ++ rest)) io)) by (by destruct tx). exact Hm2.
    + destruct Hret as (Hv & -> & ->). apply wpm_ret. exists [], (r' :: rs), C, S. rewrite app_nil_r. split_and!; try done.
      * rewrite fmap_app, <- app_assoc in Hm'. eapply moved_less; [| exact Hm']. lia.
      * simpl. by rewrite Hsw.
      * simpl. by rewrite Hv.
Qed.

Definition destroyed_to (k : nat) (C0 S0 : gset Z) (others : list ena_ring) (w0 : world D) (tx : bool) (tail : list (option ena_ring))
    (io : io_rings) (ds vs : list ena_ring) (w' : world D) : Prop :=
  exists ds' C S, moved k (C, S) (upd (set_ad_io (set_rings_of tx (Some ((Some <$> (ds ++ ds')) ++ tail)) io)) w0) w'
    /\ queues_owned C0 S0 others C S /\ sw <$> ds' = sw <$> vs /\ Forall (fun r => hw_valid r = false) ds'.

Lemma destroy_rings_spec C0 S0 others w0 tx vs : forall k ds m rest C S io w,
  moved (2 * length vs + k) (C, S) (upd (set_ad_io io) w0) w -> queues_owned C0 S0 (others ++ vs) C S ->
  rings_of tx io = Some ((Some <$> ds) ++ (Some <$> vs) ++ replicate m None ++ rest) ->
  wpm (destroy_rings tx (length vs + m) (Z.of_nat (length ds)))
    (fun _ => destroyed_to k C0 S0 others w0 tx (replicate m None ++ rest) io ds vs) w.
Proof.
  induction vs as [| r vs IH]; intros k ds m rest C S io w Hm Hqo El; pose proof (moved_io _ _ _ _ _ Hm) as Eio.
  - cbn [length Nat.add]. eapply wpm_mono.
    + apply destroy_rings_none. apply (ring_at_nones tx ds m rest); [by rewrite Eio, El | done | done].
    + intros _ w' ->. exists [], C, S. rewrite app_nil_r in Hqo |- *. split_and!; try done.
      assert (set_rings_of tx (Some ((Some <$> ds) ++ replicate m None ++ rest)) io = io) as -> by (by destruct io, tx; simpl in *; rewrite El).
      exact Hm.
  - rewrite fmap_cons, <- app_comm_cons in El. unfold destroy_rings in *. cbn [length Nat.add each_ring]. apply wpm_bind.
    eapply wpm_ring_at_mid; [by rewrite Eio, El | done |]. cbn [non_null]. apply wpm_bind, wpm_bind.
    assert (moved (2 + (2 * length vs + k)) (C, S) (upd (set_ad_io io) w0) w) as Hm1 by (eapply moved_less; [| exact Hm]; simpl; lia).
    rewrite <- Permutation_middle in Hqo.
    eapply wpm_mono; [eapply (destroy_one _ _ _ _ _ _ _ _ _ _ _ _ _ Hm1 Hqo El); [lia | rewrite Nat2Z.id; apply mid_lookup] |].
    intros _ w1 (r' & C' & S' & Hsw & Hv & Hm' & Hqo'). rewrite Nat2Z.id, mid_insert in Hm'. apply wpm_ret.
    specialize (IH k (ds ++ [r']) m rest C' S'). rewrite length_app in IH. cbn [length] in *.
    replace (Z.of_nat (length ds) + 1) with (Z.of_nat (length ds + 1)) by lia.
    eapply wpm_mono; [eapply IH; [exact Hm' | done | by rewrite rings_of_set] |].
    intros _ w2 (ds' & C2 & S2 & Hm2 & Hq2 & Hs2 & Hf). rewrite <- app_assoc in Hm2.
    exists (r' :: ds'), C2, S2. split_and!; [| done | rewrite !fmap_cons; by rewrite Hsw, Hs2 | by constructor].
    replace (set_rings_of tx _ io) with (set_rings_of tx (Some ((Some <$> ds ++ r' :: ds') ++ replicate m None ++ rest))
      (set_rings_of tx (Some ((Some <$> ds ++ [r']) ++ (Some <$> vs) ++ replicate m None ++ rest)) io)) by (by destruct tx). exact Hm2.
Qed.

Lemma sw_length (rs rs' : list ena_ring) : sw <$> rs' = sw <$> rs -> length rs' = length rs.
Proof. intros E. by rewrite <- (length_fmap sw rs'), E, length_fmap. Qed.

Lemma io_with_set tx rs io l rest :
  rings_of tx io = Some l -> drop (length rs) l = rest -> set_rings_of tx (Some ((Some <$> rs) ++ rest)) io = io_with tx rs io.
Proof. intros El <-. unfold io_with. by rewrite El. Qed.

(** A whole table, which may be NULL. *)
Lemma create_tab k C0 S0 others C S io w0 w tx n rs :
  ax_tracked = true -> moved (11 * length rs + k) (C, S) (upd (set_ad_io io) w0) w -> queues_owned C0 S0 others C S ->
  ring_tab (rings_of tx io) n rs -> 0 <= n < 65536 ->
  wpm (create_rings tx (Z.to_nat n) 0 0) (fun x w' => exists new rs' C' S',
    moved k (C', S') (upd (set_ad_io (io_with tx (new ++ rs') io)) w0) w' /\ queues_owned C0 S0 (others ++ new) C' S'
    /\ x.2 = Z.of_nat (length new) /\ sw <$> (new ++ rs') = sw <$> rs /\ Forall (fun r => hw_valid r = true) new
    /\ hw_valid <$> rs' = drop (length new) (hw_valid <$> rs) /\ (x.1 = 0 <-> rs' = [])) w.
Proof.
  intros Ht Hm Hqo Htab Hn. pose proof (moved_io _ _ _ _ _ Hm) as Eio. destruct Htab as [[El ->] | (m & rest & El & En)].
  - eapply wpm_mono; [apply create_rings_none; intros i _; apply wpm_ring_at_null; [by rewrite Eio | done] |].
    intros x w' [-> ->]. exists [], [], C, S. rewrite !app_nil_r. split_and!; try done.
    assert (io_with tx [] io = io) as -> by (unfold io_with; rewrite El; by destruct io, tx; simpl in *; rewrite El). exact Hm.
  - rewrite En. change 0 with (Z.of_nat (length (@nil ena_ring))). rewrite <- (app_nil_r others) in Hqo.
    eapply wpm_mono; [eapply (create_rings_spec C0 S0 others w0 tx rs Ht k [] m rest C S io w); [exact Hm | exact Hqo | exact El | simpl; lia] |].
    intros x w' (new & rs' & C' & S' & Hm' & Hq & Hc & Hs & Hrest). exists new, rs', C', S'.
    cbn [app] in *. rewrite app_assoc, <- fmap_app in Hm'. split_and!; try tauto.
    rewrite <- (io_with_set tx (new ++ rs') io _ _ El (eq_refl _)), (sw_length _ _ Hs), drop_app_length' by (by rewrite length_fmap).
    exact Hm'.
Qed.

(** The first rings of a table. *)
Lemma destroy_tab k C0 S0 others C S io w0 w tx n vs rs m :
  moved (2 * length vs + k) (C, S) (upd (set_ad_io io) w0) w -> queues_owned C0 S0 (others ++ vs) C S ->
  ring_tab (rings_of tx io) n (vs ++ rs) -> m = Z.of_nat (length vs) \/ rs = [] /\ m = n ->
  wpm (destroy_rings tx (Z.to_nat m) 0) (fun _ w' => exists ds C' S',
    moved k (C', S') (upd (set_ad_io (io_with tx (ds ++ rs) io)) w0) w' /\ queues_owned C0 S0 others C' S'
    /\ sw <$> ds = sw <$> vs /\ Forall (fun r => hw_valid r = false) ds) w.
Proof.
  intros Hm Hqo Htab Hmn. pose proof (moved_io _ _ _ _ _ Hm) as Eio. destruct Htab as [[El E0] | (j & rest & El & En)].
  - apply app_eq_nil in E0 as [-> ->]. rewrite app_nil_r in Hqo.
    eapply wpm_mono; [apply destroy_rings_none; intros i _; apply wpm_ring_at_null; [by rewrite Eio | done] |].
    intros _ w' ->. exists [], C, S. split_and!; try done.
    cbn [app]. assert (io_with tx [] io = io) as -> by (unfold io_with; rewrite El; by destruct io, tx; simpl in *; rewrite El). exact Hm.
  - change 0 with (Z.of_nat (length (@nil ena_ring))).
    assert (exists i tail, Z.to_nat m = (length vs + i)%nat /\ rings_of tx io = Some ((Some <$> []) ++ (Some <$> vs) ++ replicate i None ++ tail)
      /\ replicate i None ++ tail = (Some <$> rs) ++ replicate j None ++ rest) as (i & tail & Ei & El' & Etail).
    { destruct Hmn as [-> | [-> ->]]; [exists 0%nat, ((Some <$> rs) ++ replicate j None ++ rest) | exists j, rest].
      - split_and!; [lia | | done]. by rewrite El, fmap_app, <- app_assoc.
      - rewrite app_nil_r in En, El. by split_and!. }
    rewrite Ei. eapply wpm_mono; [eapply (destroy_rings_spec C0 S0 others w0 tx vs k [] i tail C S io w Hm Hqo El') |].
    intros _ w' (ds & C' & S' & Hm' & Hq & Hs & Hf). exists ds, C', S'. split_and!; try done.
    cbn [app] in Hm'. rewrite Etail, app_assoc, <- fmap_app in Hm'.
    rewrite <- (io_with_set tx (ds ++ rs) io _ _ El (eq_refl _)), length_app, (sw_length _ _ Hs), <- length_app, drop_app_length' by (by rewrite length_fmap).
    exact Hm'.
Qed.
End Start.

(** ** The start of all rings: the theorem *)
Definition started (r r' : ena_ring) : Prop := sw r' = sw r /\ hw_valid r' = true.
Definition rolled_back (r r' : ena_ring) : Prop := sw r' = sw r /\ (hw_valid r' = false \/ hw_valid r' = hw_valid r).

Lemma sw_Forall2 (P : ena_ring -> Prop) rs rs' :
  sw <$> rs' = sw <$> rs -> Forall P rs' -> Forall2 (fun r r' => sw r' = sw r /\ P r') rs rs'.
Proof.
  revert rs'. induction rs as [| r rs IH]; intros [| r' rs']; try done.
  rewrite !fmap_cons. intros [E1 E2]%(inj2 cons) [HP HPs]%Forall_cons. constructor; [by split |]. by apply IH.
Qed.

Lemma sw_rolled vs rs ds rest :
  sw <$> (ds ++ rest) = sw <$> (vs ++ rs) -> length ds = length vs -> Forall (fun r => hw_valid r = false) ds ->
  hw_valid <$> rest = hw_valid <$> rs -> Forall2 rolled_back (vs ++ rs) (ds ++ rest).
Proof.
  intros E El Hd Hr. rewrite !fmap_app in E. apply app_inj_1 in E as [E1 E2]; [| by rewrite !length_fmap].
  apply Forall2_app.
  - eapply Forall2_impl; [by apply (sw_Forall2 (fun r => hw_valid r = false)) |]. intros r r' [? ?]. split; auto.
  - revert rest E2 Hr. clear. induction rs as [| r rs IH]; intros [| r' rest]; try done.
    rewrite !fmap_cons. intros [E1 E2]%(inj2 cons) [E3 E4]%(inj2 cons). constructor; [split; auto | auto].
Qed.

Lemma io_with_with tx rs rs' io : length rs' = length rs -> io_with tx rs' (io_with tx rs io) = io_with tx rs' io.
Proof.
  intros El. unfold io_with. rewrite rings_of_set. destruct (rings_of tx io) as [l |] eqn:E; simpl.
  - rewrite El, drop_app_length' by (by rewrite length_fmap). by destruct tx.
  - by destruct tx.
Qed.

Lemma io_with_comm rs rs' io : io_with false rs (io_with true rs' io) = io_with true rs' (io_with false rs io).
Proof. by destruct io. Qed.

Section StartTheorem.
Context {D : Type} `{EnaDevice D} `{PciConfig D} `{IntCtlr D} `{!PciConfigOk D} `{!IntCtlrOk D} `{!DeviceApart D} `{AdminExecOk D}.
Implicit Types w : world D.

(** The vectors of the adapter, if it has any. *)
Definition vectors_ok w : Prop := irq_vectors (w_adapter w) = None \/ exists b vs, has_table w b vs.

(** The rings of both tables, in front. *)
Definition rings_in w (trs rrs : list ena_ring) : Prop :=
  let io := ad_io (w_adapter w) in
  ring_tab (tx_rings io) (num_tx_rings io) trs /\ ring_tab (rx_rings io) (num_rx_rings io) rrs
  /\ 0 <= num_tx_rings io < 65536 /\ 0 <= num_rx_rings io < 65536.

(** [w] with the rings [trs] and [rrs] in front of the tables. *)
Definition rings_now w (trs rrs : list ena_ring) : world D :=
  upd (set_ad_io (io_with false rrs (io_with true trs (ad_io (w_adapter w))))) w.

Lemma rings_now_same w trs rrs : rings_in w trs rrs -> rings_now w trs rrs = w.
Proof.
  intros (Ht & Hr & _). unfold rings_now. rewrite (io_with_same true _ _ _ Ht), (io_with_same false _ _ _ Hr).
  by destruct w as [? [] ? ? ? ?].
Qed.

(** Undo a start: the queues of the rings made so far. *)
Lemma rollback_spec k C0 S0 C S w w1 ret tvs ts rvs rs n m :
  moved (2 * (length tvs + length rvs) + k) (C, S) (rings_now w (tvs ++ ts) (rvs ++ rs)) w1 ->
  queues_owned C0 S0 (tvs ++ rvs) C S ->
  ring_tab (rings_of true (io_with true (tvs ++ ts) (ad_io (w_adapter w)))) n (tvs ++ ts) ->
  ring_tab (rings_of false (io_with false (rvs ++ rs) (ad_io (w_adapter w)))) m (rvs ++ rs) ->
  wpm (start_rollback (Z.of_nat (length rvs)) (Z.of_nat (length tvs)) ret) (fun ret' w' => ret' = ret /\ exists tds rds,
    moved k (C0, S0) (rings_now w (tds ++ ts) (rds ++ rs)) w' /\ sw <$> tds = sw <$> tvs /\ sw <$> rds = sw <$> rvs
    /\ Forall (fun r => hw_valid r = false) tds /\ Forall (fun r => hw_valid r = false) rds) w1.
Proof.
  intros Hm Hqo Htt Htr. unfold start_rollback, rings_now in *.
  assert (moved (2 * length rvs + (2 * length tvs + k)) (C, S) (upd (set_ad_io (io_with false (rvs ++ rs) (io_with true (tvs ++ ts) (ad_io (w_adapter w))))) w) w1) as Hm1
    by (eapply moved_less; [| exact Hm]; lia).
  apply wpm_bind. eapply wpm_mono; [eapply (destroy_tab _ C0 S0 tvs _ _ _ w w1 false m rvs rs _ Hm1 Hqo); [exact Htr | by left] |].
  intros _ w2 (rds & C2 & S2 & Hm2 & Hqo2 & Hsr & Hvr).
  rewrite io_with_with in Hm2 by (rewrite !length_app; by rewrite (sw_length _ _ Hsr)). rewrite io_with_comm in Hm2.
  apply wpm_bind. eapply wpm_mono; [eapply (destroy_tab _ C0 S0 [] _ _ _ w w2 true n tvs ts _ Hm2 Hqo2); [exact Htt | by left] |].
  intros _ w3 (tds & C3 & S3 & Hm3 & Hqo3 & Hst & Hvt). apply wpm_ret. split; [done |]. exists tds, rds.
  rewrite io_with_with in Hm3 by (rewrite !length_app; by rewrite (sw_length _ _ Hst)). rewrite <- io_with_comm in Hm3.
  apply queues_owned_nil_inv in Hqo3 as [-> ->]. by split_and!.
Qed.

Lemma rolled_of trs new rs' tds :
  sw <$> (new ++ rs') = sw <$> trs -> sw <$> tds = sw <$> new -> Forall (fun r => hw_valid r = false) tds ->
  hw_valid <$> rs' = drop (length new) (hw_valid <$> trs) -> Forall2 rolled_back trs (tds ++ rs').
Proof.
  intros Hs Ht Hf Hv. pose proof (sw_length _ _ Hs) as Hl. rewrite length_app in Hl.
  rewrite <- (take_drop (length new) trs) at 1. apply sw_rolled.
  - rewrite take_drop, <- Hs, !fmap_app. by rewrite Ht.
  - rewrite length_take, (sw_length _ _ Ht). lia.
  - done.
  - by rewrite Hv, fmap_drop.
Qed.

Lemma rolled_back_refl rs : Forall2 rolled_back rs rs.
Proof. induction rs; constructor; [by split; [| right] | done]. Qed.

(** The tables reach as far with other rings in front. *)
Lemma tables_reach_now w trs rrs trs' rrs' w1 k qs :
  rings_in w trs rrs -> length trs' = length trs -> length rrs' = length rrs ->
  moved k qs (rings_now w trs' rrs') w1 -> tables_reach (w_adapter w) -> tables_reach (w_adapter w1).
Proof.
  intros (Ht & Hr & _) Et Er Hm Hreach tx l. rewrite (moved_ad _ _ _ _ Hm). unfold rings_now. wsimpl.
  assert (queue_count tx (set_ad_state (ad_state (w_adapter w1)) (set_ad_adm (ad_adm (w_adapter w1))
    (w_adapter (upd (set_ad_io (io_with false rrs' (io_with true trs' (ad_io (w_adapter w))))) w)))) = queue_count tx (w_adapter w)) as ->
    by (by destruct tx).
  intros El. assert (exists l0, rings_of tx (ad_io (w_adapter w)) = Some l0 /\ length l0 = length l) as (l0 & El0 & Elen).
  { cbn in El. destruct tx; cbn in El |- *.
    - destruct Ht as [[Ht _] | (m & rest & Ht & _)]; rewrite Ht in El |- *; [done |]. injection El as <-. eexists. split; [done |].
      rewrite Et, drop_app_length' by (by rewrite length_fmap). rewrite !length_app, !length_fmap. lia.
    - destruct Hr as [[Hr _] | (m & rest & Hr & _)]; rewrite Hr in El |- *; [done |]. injection El as <-. eexists. split; [done |].
      rewrite Er, drop_app_length' by (by rewrite length_fmap). rewrite !length_app, !length_fmap. lia. }
  rewrite <- Elen. by apply (Hreach tx).
Qed.

(** The end of a start: the interrupts of the queues are unmasked. *)
Lemma start_unmask w trs rrs tvs rvs k qs w1 :
  rings_in w trs rrs -> length tvs = length trs -> length rvs = length rrs -> moved k qs (rings_now w tvs rvs) w1 ->
  vectors_ok w -> tables_reach (w_adapter w) ->
  wpm (a ← get_ad; (if non_null (irq_vectors a) then ena_intr_unmask_all else mret tt);; mret 0) (fun ret w' =>
    ret = 0 /\ if non_null (irq_vectors (w_adapter w)) then intr_step w1 w' else w' = w1) w1.
Proof.
  intros Hin Et Er Hm Hv Hreach. apply wpm_bind, wpm_get_ad.
  assert (irq_vectors (w_adapter w1) = irq_vectors (w_adapter w) /\ num_irq_vectors (w_adapter w1) = num_irq_vectors (w_adapter w)) as [-> En]
    by (by rewrite (moved_ad _ _ _ _ Hm)).
  apply wpm_bind. destruct Hv as [-> | (b & vs & Hb & Hvs)]; [by do 2 apply wpm_ret |]. rewrite Hb. cbn [non_null].
  eapply wpm_mono; [apply (unmask_all_spec b vs w1) |].
  - split; [by rewrite (moved_ad _ _ _ _ Hm) | by destruct Hvs; split; rewrite ?En].
  - by eapply tables_reach_now.
  - intros ? w' Hs. by apply wpm_ret.
Qed.

(** C6: Starting the hardware queues of the device is all or nothing.  When every ring of the
    two tables gets its queues, all rings are valid, the device has exactly one new
    completion and one new submission queue per ring, all distinct, and opening the
    interrupts touches only the vector table and the registers.  When one creation fails, the queues made for the other
    rings are destroyed again: the device has the queues it had before.  In both cases the
    software state of every ring, the entries of the tables that are not rings, the heap and
    the rest of the driver are as they were, and no netbuf is freed. *)
Theorem start_rings_all_or_nothing k C S w trs rrs :
  ax_tracked = true -> ax_ok (13 * (length trs + length rrs) + k) (C, S) w -> rings_in w trs rrs ->
  vectors_ok w -> tables_reach (w_adapter w) ->
  wpm (ena_netdev_start_rings_hw (num_rx_rings (ad_io (w_adapter w))) (num_tx_rings (ad_io (w_adapter w)))) (fun ret w' =>
    if ret =? 0 then exists tvs rvs C' S' w1, Forall2 started trs tvs /\ Forall2 started rrs rvs
      /\ queues_owned C S (tvs ++ rvs) C' S' /\ moved k (C', S') (rings_now w tvs rvs) w1
      /\ (if non_null (irq_vectors (w_adapter w)) then intr_step w1 w' else w' = w1)
    else exists tds rds, Forall2 rolled_back trs tds /\ Forall2 rolled_back rrs rds
      /\ moved k (C, S) (rings_now w tds rds) w') w.
Proof.
  intros Ht Hok Hin Hv Hreach. pose proof Hin as (Htt & Htr & Hnt & Hnr). unfold ena_netdev_start_rings_hw.
  set (io := ad_io (w_adapter w)) in *.
  assert (moved (11 * length trs + (11 * length rrs + 2 * (length trs + length rrs) + k)) (C, S) (upd (set_ad_io io) w) w) as Hm.
  { replace (upd (set_ad_io io) w) with w by (unfold io; by destruct w as [? [] ? ? ? ?]). apply moved_start. eapply ax_le; [| exact Hok]. lia. }
  apply wpm_bind. eapply wpm_mono; [exact (create_tab _ C S [] _ _ io w w true _ trs Ht Hm (queues_owned_nil C S) Htt Hnt) |].
  intros [ret c] w1 (tvs & ts & C1 & S1 & Hm1 & Hq1 & Hc1 & Hs1 & Hf1 & Hv1 & Hz1). cbn [fst snd app] in *. subst c.
  pose proof (sw_length _ _ Hs1) as Hl1. rewrite length_app in Hl1.
  assert (ring_tab (rings_of true (io_with true (tvs ++ ts) io)) (num_tx_rings io) (tvs ++ ts)) as Htt1
    by (rewrite rings_of_io_with; apply (ring_tab_with _ _ _ _ Htt); by rewrite length_app).
  assert (io_with false rrs (io_with true (tvs ++ ts) io) = io_with true (tvs ++ ts) io) as Esame
    by (rewrite io_with_comm; by rewrite (io_with_same false io _ _ Htr)).
  unfold z2b. destruct (Z.eqb_spec ret 0) as [-> | Hne]; cbn [negb].
  2: { rewrite <- Esame in Hm1. change (start_rollback 0) with (start_rollback (Z.of_nat (length (@nil ena_ring)))). eapply wpm_mono.
       - eapply (rollback_spec k C S C1 S1 w w1 ret tvs ts [] rrs); [eapply moved_less; [| exact Hm1]; simpl; lia | by rewrite app_nil_r | exact Htt1 |].
         rewrite rings_of_io_with. by apply (ring_tab_with _ _ _ _ Htr).
       - intros ret' w' (-> & tds & rds & Hm' & Hst & Hsr & Hvt & _). cbv beta. rewrite (proj2 (Z.eqb_neq _ _) Hne).
         destruct rds; [| discriminate (sw_length _ _ Hsr)]. exists (tds ++ ts), rrs. split_and!; [by eapply rolled_of | apply rolled_back_refl | done]. }
  destruct Hz1 as [Hz1 _]. specialize (Hz1 eq_refl). subst ts. rewrite app_nil_r in *. cbn [length] in Hl1. clear Hv1 Esame.
  apply wpm_bind. eapply wpm_mono; [eapply (create_tab (2 * (length trs + length rrs) + k) C S tvs _ _ _ w w1 false _ rrs Ht); [eapply moved_less; [| exact Hm1]; lia | exact Hq1 | exact Htr | done] |].
  intros [ret c] w2 (rvs & rs & C2 & S2 & Hm2 & Hq2 & Hc2 & Hs2 & Hf2 & Hv2 & Hz2). cbn [fst snd] in *. subst c.
  pose proof (sw_length _ _ Hs2) as Hl2. rewrite length_app in Hl2. destruct (Z.eqb_spec ret 0) as [-> | Hne]; cbn [negb].
  - destruct Hz2 as [Hz2 _]. specialize (Hz2 eq_refl). subst rs. rewrite app_nil_r in *. cbn [length] in Hl2.
    eapply wpm_mono; [eapply (start_unmask w trs rrs tvs rvs); [done | lia | lia | exact Hm2 | done | done] |].
    intros ret w' [-> Hw']. exists tvs, rvs, C2, S2, w2. split_and!; [by apply sw_Forall2 | by apply sw_Forall2 | done | | done].
    eapply moved_less; [| exact Hm2]. lia.
  - eapply wpm_mono.
    + eapply (rollback_spec k C S C2 S2 w w2 ret tvs [] rvs rs); rewrite ?app_nil_r; [eapply moved_less; [| exact Hm2]; lia | done | exact Htt1 |].
      rewrite rings_of_io_with. apply (ring_tab_with _ _ _ _ Htr). by rewrite length_app.
    + intros ret' w' (-> & tds & rds & Hm' & Hst & Hsr & Hvt & Hvr). cbv beta. rewrite (proj2 (Z.eqb_neq _ _) Hne). rewrite app_nil_r in Hm'.
      exists tds, (rds ++ rs). split_and!; [| by eapply rolled_of | done]. rewrite <- (app_nil_r tds).
      apply (rolled_of trs tvs []); [by rewrite app_nil_r | done | done |]. rewrite drop_ge; [done |]. rewrite length_fmap. lia.
Qed.
End StartTheorem.

(** ** Tear-down *)

(** Admin commands reach the registers and the memory of the device only. *)
Class ExecApart (D : Type) `{AdminExec D} `{PciConfig D} `{IntCtlr D} `{!PciConfigOk D} `{!IntCtlrOk D} : Prop :=
  exec_apart opcode req cap polls (w : world D) x w' :
    admin_exec opcode req cap polls w = Ret (x, w') -> same_regs (w_dev w) (w_dev w').

Section Apart.
Context {D : Type} `{AdminExec D} `{PciConfig D} `{IntCtlr D} `{!PciConfigOk D} `{!IntCtlrOk D} `{!ExecApart D}.

Lemma regs_ring_at tx q : dev_keeps same_regs (ring_at tx q).
Proof.
  intros w r w'. unfold ring_at. case_match; [| by intros [= _ <-]]. destruct (aget _ _); [| done..]. by intros [= _ <-].
Qed.
Lemma regs_get_ring tx q : dev_keeps same_regs (get_ring tx q).
Proof. intros w r w'. unfold get_ring. destruct (aget _ _) as [[] | |]; [| done..]. by intros [= _ <-]. Qed.
Lemma regs_mod_ring tx q f : dev_keeps same_regs (mod_ring tx q f).
Proof.
  intros w r w'. unfold mod_ring. destruct (aget _ _) as [[] | |]; [| done..]. simpl. destruct (aset _ _ _); [| done..]. by intros [= _ <-].
Qed.
Lemma regs_exec opcode req cap polls : dev_keeps same_regs (admin_exec opcode req cap polls).
Proof. intros w a w'. apply exec_apart. Qed.

#[local] Hint Resolve regs_ring_at regs_get_ring regs_mod_ring regs_exec : keeps.
Lemma regs_destroy_hw tx q : dev_keeps same_regs (ena_ring_destroy_hw tx q).
Proof. unfold ena_ring_destroy_hw, ena_admin_destroy_sq, ena_admin_destroy_cq. dev_keeps. Qed.

#[local] Hint Resolve regs_destroy_hw : keeps.
Lemma regs_destroy_rings tx n q : dev_keeps same_regs (destroy_rings tx n q).
Proof. revert q. induction n as [| n IH]; simpl; dev_keeps. Qed.
End Apart.

(** ** Stopping *)
(** *** Sweeps over the rings of one kind *)
Lemma held_by_insert l i r r' nbs :
  l !! i = Some (Some r) -> held (raw_bufs r) ≡ₚ nbs ++ held (raw_bufs r') -> held_by l ≡ₚ nbs ++ held_by (<[i := Some r']> l).
Proof.
  intros Hi Hh. unfold held_by. rewrite <- (take_drop_middle l i _ Hi) at 1. pose proof (lookup_lt_Some _ _ _ Hi).
  rewrite insert_take_drop by done. rewrite !bind_app, !bind_cons, Hh, <- !app_assoc. by rewrite Permutation_app_swap_app.
Qed.

Lemma Forall2_insert_r {A} (R : A -> A -> Prop) `{!Transitive R} l l' i x y :
  Forall2 R l l' -> l' !! i = Some x -> R x y -> Forall2 R l (<[i := y]> l').
Proof.
  intros HF Hi Hxy. destruct (Forall2_lookup_r _ _ _ _ _ HF Hi) as (x0 & Hx0 & HR).
  rewrite <- (list_insert_id l i x0 Hx0). apply Forall2_insert; [done |]. by etrans.
Qed.

#[export] Instance option_Forall2_trans {A} (R : relation A) `{!Transitive R} : Transitive (option_Forall2 R).
Proof. intros [x |] [y |] [z |] H1 H2; inversion H1; inversion H2; subst; constructor. by etrans. Qed.

Lemma option_Forall2_same {A} (R : relation A) `{!Reflexive R} (l : list (option A)) : Forall2 (option_Forall2 R) l l.
Proof.
  apply Forall2_same_length_lookup_2; [done |]. intros i x y Hx Hy. rewrite Hx in Hy. injection Hy as <-. destruct x; constructor. done.
Qed.

Section Sweep.
Context {D S : Type} `{NetdevQueueOk S} (RR : relation ena_ring) (RS : relation S) `{!PreOrder RR} `{!PreOrder RS}.
Implicit Types w : world D.

(** Ring [q], with its queue, was worked on; it gave away the netbufs [nbs]. *)
Definition ring_swept (q : Z) (l : list (option ena_ring)) (r : ena_ring) (s : S) (nbs : list Z) w w' : Prop := exists r' s' es,
  w' = set_w_log (w_log w ++ es) (set_w_uk (nq_set_slots (<[Z.to_nat q := s']> (nq_slots (w_uk w))) (w_uk w))
         (put_rings nq_tx (<[Z.to_nat q := Some r']> l) w))
  /\ RR r r' /\ RS s s' /\ held (raw_bufs r) ≡ₚ nbs ++ freed es ++ held (raw_bufs r').

(** Any number of them. *)
Definition swept (l : list (option ena_ring)) (nbs : list Z) w w' : Prop := exists l' qs' es,
  w' = set_w_log (w_log w ++ es) (set_w_uk (nq_set_slots qs' (w_uk w)) (put_rings nq_tx l' w))
  /\ Forall2 (option_Forall2 RR) l l' /\ Forall2 RS (nq_slots (w_uk w)) qs'
  /\ held_by l ≡ₚ nbs ++ freed es ++ held_by l'.

Lemma swept_refl l w : rings_of nq_tx (ad_io (w_adapter w)) = Some l -> swept l [] w w.
Proof.
  intros El. exists l, (nq_slots (w_uk w)), []. split_and!; [| by apply option_Forall2_same, _ | | done].
  - rewrite nq_set_same. rewrite <- (put_rings_id nq_tx l w El) at 1. by destruct w.
  - apply Forall2_same_length_lookup_2; [done |]. intros i x y Hx Hy. rewrite Hx in Hy. by injection Hy as <-.
Qed.

(** A ring in the middle of a sweep. *)
Lemma swept_at l nbs w wi i o : swept l nbs w wi -> l !! i = Some o -> exists l' o',
  rings_of nq_tx (ad_io (w_adapter wi)) = Some l' /\ length l' = length l /\ l' !! i = Some o' /\ option_Forall2 RR o o'.
Proof.
  intros (l' & qs' & es & -> & HF & _) Hi. destruct (Forall2_lookup_l _ _ _ _ _ HF Hi) as (o' & Ho' & HR).
  exists l', o'. split_and!; [exact (put_rings_of nq_tx l' w) | by rewrite (Forall2_length _ _ _ HF) | done | done].
Qed.
Lemma swept_slot l nbs w wi i s : swept l nbs w wi -> nq_slots (w_uk w) !! i = Some s ->
  exists s', nq_slots (w_uk wi) !! i = Some s' /\ RS s s'.
Proof.
  intros (l' & qs' & es & -> & _ & HS & _) Hi. destruct (Forall2_lookup_l _ _ _ _ _ HS Hi) as (s' & Hs' & HR).
  exists s'. split; [| done]. cbn. by rewrite nq_slots_set.
Qed.

Lemma swept_step l nbs nbs' w wi w' i l' r s :
  swept l nbs w wi -> rings_of nq_tx (ad_io (w_adapter wi)) = Some l' -> l' !! i = Some (Some r) -> nq_slots (w_uk wi) !! i = Some s ->
  ring_swept (Z.of_nat i) l' r s nbs' wi w' -> swept l (nbs ++ nbs') w w'.
Proof.
  intros (l1 & qs1 & es1 & -> & HF & HS & Hh) El Hr Hs (r' & s' & es' & -> & HR & HRS & Hh'). rewrite Nat2Z.id.
  assert (l1 = l') as -> by (pose proof (put_rings_of nq_tx l1 w) as E; apply (inj Some); by rewrite <- E, <- El). cbn in Hs |- *. rewrite nq_slots_set in Hs |- *.
  exists (<[i := Some r']> l'), (<[i := s']> qs1), (es1 ++ es'). split_and!.
  - rewrite nq_set_set. unfold put_rings, upd. wsimpl. rewrite app_assoc. destruct w as [? [] ? ? ? ?]. by destruct nq_tx.
  - apply (Forall2_insert_r _ l l' i (Some r)); [exact HF | exact Hr | by constructor].
  - apply (Forall2_insert_r _ _ qs1 i s); [exact HS | exact Hs | done].
  - assert (held (raw_bufs r) ≡ₚ (nbs' ++ freed es') ++ held (raw_bufs r')) as Hh2 by (by rewrite <- app_assoc).
    rewrite Hh, freed_app, (held_by_insert l' i r r' _ Hr Hh2), <- !app_assoc.
    apply Permutation_app_head, Permutation_app_swap_app.
Qed.
End Sweep.

Section Stop.
Context {D : Type}.
Implicit Types w : world D.

(** A loop over a table, with an invariant. *)
Lemma each_ring_spec tx (op : Z -> M D unit) (I : nat -> world D -> Prop) n w :
  (forall i wi, (i < n)%nat -> I i wi -> wpm (ring_at tx (Z.of_nat i)) (fun o w' => w' = wi
     /\ if non_null o then wpm (op (Z.of_nat i)) (fun _ => I (S i)) wi else I (S i) wi) wi) ->
  I 0%nat w -> wpm (each_ring tx op n 0) (fun _ => I n) w.
Proof.
  intros Hstep H0. assert (forall k i wi, (i + k = n)%nat -> I i wi -> wpm (each_ring tx op k (Z.of_nat i)) (fun _ => I n) wi) as Hgo.
  { induction k as [| k IH]; intros i wi Hi HI; cbn [each_ring]; [apply wpm_ret; by replace n with i by lia |].
    apply wpm_bind. eapply wpm_mono; [apply Hstep; [lia | done] |]. intros o w' [-> Ho]. apply wpm_bind.
    eapply (wpm_mono _ (fun _ => I (S i))); [by destruct (non_null o); [| apply wpm_ret] |].
    intros ? w'. replace (Z.of_nat i + 1) with (Z.of_nat (S i)) by lia. apply IH. lia. }
  by apply (Hgo n 0%nat).
Qed.

(** A poll keeps what the release of a ring and of its queue needs. *)
Definition polled_ring (r r' : ena_ring) : Prop :=
  r_blk r' = r_blk r /\ cq_depth (r_cq r') = cq_depth (r_cq r) /\ (wf_tx r -> wf_tx r') /\ (ring_lock r = 0 -> ring_lock r' = 0).
Definition polled_slot (s s' : txq_slot) : Prop :=
  txs_blk s' = txs_blk s /\ (txq_ok (Some (txs_q s)) -> txq_ok (Some (txs_q s')))
  /\ (bounce_blocks_ok (nq_pool s) (nq_blocks s) -> bounce_blocks_ok (nq_pool s') (nq_blocks s')).

#[export] Instance polled_ring_preorder : PreOrder polled_ring.
Proof. split; [done |]. unfold polled_ring. intros r1 r2 r3 (-> & -> & ? & ?) (-> & -> & ? & ?). naive_solver. Qed.
#[export] Instance polled_slot_preorder : PreOrder polled_slot.
Proof. split; [done |]. unfold polled_slot. intros s1 s2 s3 (-> & ? & ?) (-> & ? & ?). naive_solver. Qed.

Lemma tx_polled_ring cpu r r' txq txq' es : tx_polled cpu r r' txq txq' es -> polled_ring r r'.
Proof. intros [? El ? Ec ? ? ? ? ? ? ? (_ & _ & _ & Eb & _)]. split_and!; [done | done | done | congruence]. Qed.

Lemma wf_bounce_blocks b b' k :
  wf_bounce [] b -> wf_bounce [] b' -> bounce_shape b b' -> bounce_blocks_ok b k -> bounce_blocks_ok b' k.
Proof.
  intros [Hf (m & Em & _) _] [Hf' (m' & Em' & _) _] (Eb & _ & _) [? Hi Hm].
  destruct (wff_ids _ _ Hf) as (ids & Ei & _). destruct (wff_ids _ _ Hf') as (ids' & Ei' & _).
  rewrite Ei in Hi. rewrite Em in Hm. split; [congruence | by rewrite Ei' | by rewrite Em'].
Qed.

(** The count a poll stores is the one it returns. *)
Lemma tx_poll_count fuel cpu view r txq budget ret cnt r' txq' es :
  ena_tx_poll_completions fuel cpu view r txq budget = Ret (ret, cnt, r', txq', es) -> 0 <= ret -> default 0 cnt = ret.
Proof.
  unfold ena_tx_poll_completions. case_match; [intros [= <- _ _ _ _]; unfold EINVAL; lia |].
  case_match; [by intros [= <- <- _ _ _] |]. case_match; [by intros [= <- <- _ _ _] |].
  destruct (ena_ring_lock r) as [r1 | |]; [| done..]. cbn [mbind res_bind].
  destruct (ena_tx_drain_foreign_frees cpu r1) as [[r2 e2] | |]; [| done..]. cbn [mbind res_bind].
  destruct (tx_poll_loop _ _ _ _ _ _ _ _) as [[[[r3 q3] c3] e3] | |]; [| done..]. by intros [= <- <- _ _ _].
Qed.

Lemma poll_tx_ring_spec fuel view q budget l r s w :
  tx_rings (ad_io (w_adapter w)) = Some l -> 0 <= q -> l !! Z.to_nat q = Some (Some r) ->
  tx_queues (w_uk w) !! Z.to_nat q = Some s -> wf_tx r -> ring_lock r = 0 -> txq_ok (Some (txs_q s)) ->
  tx_view_ok (cq_depth (r_cq r)) view -> 0 <= budget ->
  wlp (poll_tx_ring fuel view q budget w) (fun '(n, w') => ring_swept polled_ring polled_slot q l r s [] w w'
    /\ 0 <= n <= (if budget =? 0 then cq_depth (r_cq r) else budget))
  /\ (forall V, view = (fun _ _ => V) -> cq_depth (r_cq r) < Z.of_nat fuel -> poll_tx_ring fuel view q budget w <> Hang).
Proof.
  intros El Hq Hr Hs Hwf Hk Hok Hv Hb. unfold poll_tx_ring. rewrite El, (aget_ret l q (Some r)) by done.
  rewrite (aget_ret _ q s) by done. cbn [mbind res_bind].
  pose proof (tx_poll_spec fuel (uk_cpu (w_uk w)) view r (Some (txs_q s)) budget Hwf Hk Hok Hv Hb) as Hp.
  pose proof (lookup_lt_Some _ _ _ Hr). pose proof (lookup_lt_Some _ _ _ Hs). split.
  - destruct (ena_tx_poll_completions _ _ _ _ _ _) as [[[[[ret cnt] r'] txq'] es] | |] eqn:Ep; [| done..]. destruct Hp as [Hp Hn].
    apply tx_poll_count in Ep as <-; [| lia]. cbn [mbind res_bind]. rewrite !aset_ret by lia.
    cbn [mbind res_bind wlp default]. pose proof (proj1 (txp_step _ _ _ _ _ _ Hp)) as Hsh. destruct txq' as [q' |]; [| done].
    split; [| exact Hn].
    exists r', (set_txs_q q' s), es. split_and!; [done | by eapply tx_polled_ring | | apply Hp]. cbn [default].
    split_and!; [done | intros _; apply Hp |]. apply wf_bounce_blocks; [by apply Hok | by apply (txp_txq _ _ _ _ _ _ Hp) | exact Hsh].
  - intros V -> Hf. pose proof (tx_poll_total fuel (uk_cpu (w_uk w)) V r (Some (txs_q s)) budget Hwf Hk Hok Hv Hf) as Hh.
    destruct (ena_tx_poll_completions _ _ _ _ _ _) as [[[[[ret cnt] r'] txq'] es] | |]; [| done..].
    cbn [mbind res_bind]. by rewrite !aset_ret by lia.
Qed.

Lemma poll_tx_ring_quiet fuel V q budget l r s w :
  tx_rings (ad_io (w_adapter w)) = Some l -> 0 <= q -> l !! Z.to_nat q = Some (Some r) ->
  tx_queues (w_uk w) !! Z.to_nat q = Some s -> wf_tx r -> ring_lock r = 0 -> txq_ok (Some (txs_q s)) ->
  tx_view_ok (cq_depth (r_cq r)) (fun _ _ => V) -> cq_depth (r_cq r) < Z.of_nat fuel -> 0 <= budget ->
  wpm (poll_tx_ring fuel (fun _ _ => V) q budget) (fun _ w' => ring_swept polled_ring polled_slot q l r s [] w w') w.
Proof.
  intros El Hq Hr Hs Hwf Hk Hok Hv Hf Hb.
  destruct (poll_tx_ring_spec fuel (fun _ _ => V) q budget l r s w El Hq Hr Hs Hwf Hk Hok Hv Hb) as [Hp Hh].
  specialize (Hh V eq_refl Hf). unfold wpm. destruct (poll_tx_ring _ _ _ _ _) as [[n w'] | |]; [apply Hp | done..].
Qed.

(** What the poll of every TX ring needs: a sound ring and queue, and a device that does not
    write to the completion queue while it is polled. *)
Definition tx_pollable (fuel : nat) (views : Z -> tx_view) (l : list (option ena_ring)) (qs : list txq_slot) : Prop :=
  forall i r, l !! i = Some (Some r) -> wf_tx r /\ ring_lock r = 0 /\ cq_depth (r_cq r) < Z.of_nat fuel
    /\ (exists V, views (Z.of_nat i) = (fun _ _ => V) /\ tx_view_ok (cq_depth (r_cq r)) (fun _ _ => V))
    /\ exists s, qs !! i = Some s /\ txq_ok (Some (txs_q s)).

Lemma drain_spec fuel views l n w :
  tx_rings (ad_io (w_adapter w)) = Some l -> (n <= length l)%nat -> tx_pollable fuel views l (tx_queues (w_uk w)) ->
  wpm (drain_tx_rings fuel views n 0) (fun _ w' => swept polled_ring polled_slot l [] w w') w.
Proof.
  intros El Hn Hp. unfold drain_tx_rings. apply (each_ring_spec true _ (fun _ w' => swept polled_ring polled_slot l [] w w')); [| exact (swept_refl (S := txq_slot) polled_ring polled_slot l w El)].
  intros i wi Hi Hs. destruct (lookup_lt_is_Some_2 l i) as [o Ho]; [lia |].
  destruct (swept_at _ _ _ _ _ _ _ _ Hs Ho) as (l' & o' & El' & Hl' & Ho' & HR).
  eapply wpm_ring_at; [exact El' | lia |]. rewrite Nat2Z.id. intros ? Ho2. rewrite Ho' in Ho2. injection Ho2 as <-. split; [done |].
  destruct HR as [r0 r (Eb & Ec & Hw & Hl) |]; [| done]. cbn [non_null].
  destruct (Hp i r0 Ho) as (Hwf & Hk & Hf & (V & -> & HV) & s0 & Hs0 & Hok0).
  destruct (swept_slot _ _ _ _ _ _ _ _ Hs Hs0) as (s & Hsl & (_ & Hok & _)).
  apply wpm_bind. eapply wpm_mono; [eapply (poll_tx_ring_quiet fuel V _ 0 l' r s wi El'); rewrite ?Nat2Z.id, ?Ec; auto; lia |].
  intros ? w' Hst. apply wpm_ret. by apply (swept_step _ _ l [] [] w wi w' i l' r s).
Qed.
End Stop.

Definition same_sw (r r' : ena_ring) : Prop := sw r' = sw r.
#[export] Instance same_sw_preorder : PreOrder same_sw.
Proof. unfold same_sw. split; [done | intros r1 r2 r3; congruence]. Qed.

Section StopHw.
Context {D : Type} `{AdminExecOk D}.
Implicit Types w : world D.

(** Whatever queues the device has: a ring that is destroyed keeps its software state. *)
Lemma destroy_any k qs io w0 w tx q l r :
  moved (2 + k) qs (upd (set_ad_io io) w0) w -> rings_of tx io = Some l -> 0 <= q -> l !! Z.to_nat q = Some (Some r) ->
  wpm (ena_ring_destroy_hw tx q) (fun _ w' => exists r' qs', same_sw r r'
    /\ moved k qs' (upd (set_ad_io (set_rings_of tx (Some (<[Z.to_nat q := Some r']> l)) io)) w0) w') w.
Proof.
  intros Hm El Hq Hr. pose proof (moved_io _ _ _ _ _ Hm) as Eio. destruct qs as [C S].
  assert (hw_at tx q (2 + k) w w r C S) as Ha by (eapply hw_at_start; [apply Hm | by rewrite Eio | done..]).
  unfold ena_ring_destroy_hw. apply wpm_bind. eapply wpm_get_ring; [exact Ha |]. apply wpm_bind, wpm_bind.
  eapply wpm_mono; [apply (exec_at tx q (1 + k) w w r C S); [exact Ha | done | apply destroy_req_ok | done | by right] |].
  intros [[e1 o1] p1] w1 (_ & [C1 S1] & _ & Ha1). apply wpm_ret. cbn [fst snd] in Ha1.
  apply wpm_bind. eapply wpm_get_ring; [exact Ha1 |]. apply wpm_bind, wpm_bind.
  eapply wpm_mono; [apply (exec_at tx q k w w1 r C1 S1); [exact Ha1 | done | apply destroy_req_ok | done | by right] |].
  intros [[e2 o2] p2] w2 (_ & [C2 S2] & _ & Ha2). apply wpm_ret. cbn [fst snd] in Ha2.
  apply wpm_bind. eapply wpm_mod_ring; [exact Ha2 |]. intros w3 Ha3. apply wpm_ret.
  destruct (moved_ring _ _ _ (C2, S2) _ _ _ _ _ _ _ Hm Ha3) as (l' & El' & Hm'). rewrite El in El'. injection El' as <-.
  by refine (ex_intro _ _ (ex_intro _ (C2, S2) (conj _ Hm'))).
Qed.

(** The rings of a table after such a loop. *)
Definition tab_same (o o' : arr (option ena_ring)) : Prop := option_Forall2 (Forall2 (option_Forall2 same_sw)) o o'.

Lemma destroy_all k qs io w0 w tx n :
  moved (2 * n + k) qs (upd (set_ad_io io) w0) w -> (forall l, rings_of tx io = Some l -> (n <= length l)%nat) ->
  wpm (destroy_rings tx n 0) (fun _ w' => exists o' qs', tab_same (rings_of tx io) o'
    /\ moved k qs' (upd (set_ad_io (set_rings_of tx o' io)) w0) w') w.
Proof.
  intros Hm Hn. pose proof (moved_io _ _ _ _ _ Hm) as Eio. destruct (rings_of tx io) as [l |] eqn:El.
  - eapply (wpm_mono _ (fun _ w' => exists qs' l', moved (2 * (n - n) + k) qs' (upd (set_ad_io (set_rings_of tx (Some l') io)) w0) w'
      /\ Forall2 (option_Forall2 same_sw) l l')).
    + apply (each_ring_spec tx _ (fun i w' => exists qs' l', moved (2 * (n - i) + k) qs' (upd (set_ad_io (set_rings_of tx (Some l') io)) w0) w'
        /\ Forall2 (option_Forall2 same_sw) l l')).
      * intros i wi Hi (qs' & l' & Hm' & HF). pose proof (moved_io _ _ _ _ _ Hm') as Eio'. pose proof (Forall2_length _ _ _ HF) as El'.
        specialize (Hn l eq_refl). eapply wpm_ring_at; [rewrite Eio'; apply rings_of_set | lia |]. rewrite Nat2Z.id. intros o Ho. split; [done |].
        destruct o as [r |]; cbn [non_null].
        2: { exists qs', l'. split; [| done]. eapply moved_less; [| exact Hm']. lia. }
        assert (moved (2 + (2 * (n - S i) + k)) qs' (upd (set_ad_io (set_rings_of tx (Some l') io)) w0) wi) as Hm1
          by (eapply moved_less; [| exact Hm']; lia).
        apply wpm_bind. eapply wpm_mono; [eapply (destroy_any _ _ _ _ _ tx (Z.of_nat i) l' r Hm1); [apply rings_of_set | lia | by rewrite Nat2Z.id] |].
        intros _ w' (r' & qs2 & Hsw & Hm2). apply wpm_ret. rewrite Nat2Z.id in Hm2. exists qs2, (<[i := Some r']> l'). split.
        -- by replace (set_rings_of tx (Some (<[i := Some r']> l')) io) with (set_rings_of tx (Some (<[i := Some r']> l')) (set_rings_of tx (Some l') io)) by (by destruct tx).
        -- apply (Forall2_insert_r _ l l' i (Some r)); [exact HF | exact Ho | by constructor].
      * exists qs, l. split; [| apply option_Forall2_same, _].
        assert (set_rings_of tx (Some l) io = io) as -> by (by destruct io, tx; simpl in *; rewrite El). by rewrite Nat.sub_0_r.
    + intros _ w' (qs' & l' & Hm' & HF). exists (Some l'), qs'. split; [by constructor |]. eapply moved_less; [| exact Hm']. lia.
  - eapply wpm_mono; [apply destroy_rings_none; intros i _; apply wpm_ring_at_null; [by rewrite Eio | done] |].
    intros _ w' ->. exists None, qs. split; [constructor |].
    assert (set_rings_of tx None io = io) as -> by (by destruct io, tx; simpl in *; rewrite El). eapply moved_less; [| exact Hm]. lia.
Qed.
End StopHw.

(** *** The rings after a stop *)
Definition stopped (r r' : ena_ring) : Prop := r_blk r' = r_blk r /\ blocks_ok r'.
Definition stopped_tab (o o' : arr (option ena_ring)) : Prop := option_Forall2 (Forall2 (option_Forall2 stopped)) o o'.

Lemma same_sw_stopped r r' : same_sw r r' -> blocks_ok r -> stopped r r'.
Proof.
  intros E Hb. assert (r_blk (sw r') = r_blk (sw r)) as Eb by (by rewrite E). split; [exact Eb |].
  assert (blocks_ok (sw r')) as [] by (rewrite E; destruct Hb; by split). by split.
Qed.

(** Composition with a relation that the entries of the first table satisfy. *)
Lemma Forall2_option_compose (R1 R2 R : relation ena_ring) l1 l2 l3 :
  Forall2 (option_Forall2 R1) l1 l2 -> Forall2 (option_Forall2 R2) l2 l3 ->
  (forall i r1 r2 r3, l1 !! i = Some (Some r1) -> R1 r1 r2 -> R2 r2 r3 -> R r1 r3) -> Forall2 (option_Forall2 R) l1 l3.
Proof.
  intros H1 H2 HR. apply Forall2_same_length_lookup_2; [by rewrite (Forall2_length _ _ _ H1), (Forall2_length _ _ _ H2) |].
  intros i o1 o3 Ho1 Ho3. destruct (Forall2_lookup_l _ _ _ _ _ H1 Ho1) as (o2 & Ho2 & H12).
  destruct (Forall2_lookup_l _ _ _ _ _ H2 Ho2) as (o3' & Ho3' & H23). rewrite Ho3 in Ho3'. injection Ho3' as <-.
  inversion H12; subst; inversion H23; subst; constructor. by eapply HR.
Qed.

(** A table whose entries all satisfy a property. *)
Definition all_rings (P : ena_ring -> Prop) (o : arr (option ena_ring)) : Prop :=
  forall l i r, o = Some l -> l !! i = Some (Some r) -> P r.

Definition chains_cleared (qs : list rxq_slot) : list rxq_slot :=
  imap (fun i s => if (Z.of_nat i <? ENA_NETDEV_MAX_QUEUES) && (Z.of_nat i <? ENA_NETDEV_MAX_QUEUES) then set_rxs_chain [] s else s) qs.

Section StopSpec.
Context {D : Type} `{EnaDevice D} `{PciConfig D} `{IntCtlr D} `{!PciConfigOk D} `{!IntCtlrOk D} `{!DeviceApart D}
  `{AdminExecOk D} `{!ExecApart D}.
Implicit Types w : world D.

(** The numbers of rings stay inside the tables. *)
Definition nums_fit (io : io_rings) : Prop :=
  forall tx l, rings_of tx io = Some l -> 0 <= num_rings tx io <= Z.of_nat (length l).

(** After a stop: the tables [ot] and [orr], the TX queues [qs'], and the events [es]. *)
Definition stopped_world w ot orr qs' (es : list event) : world D :=
  set_w_log (w_log w ++ es) (set_w_uk (set_tx_queues qs' (set_rx_queues (chains_cleared (rx_queues (w_uk w))) (w_uk w)))
    (upd (fun a => set_link_up false (set_ad_io (set_rx_rings orr (set_tx_rings ot (ad_io a))) a)) w)).

(** The polls of a stop, on a table that may be NULL. *)
Lemma drain_tab fuel views n w :
  (forall l, tx_rings (ad_io (w_adapter w)) = Some l -> (n <= length l)%nat /\ tx_pollable fuel views l (tx_queues (w_uk w))) ->
  wpm (drain_tx_rings fuel views n 0) (fun _ w' => exists o' qs' es,
    w' = set_w_log (w_log w ++ es) (set_w_uk (set_tx_queues qs' (w_uk w)) (upd (fun a => set_ad_io (set_tx_rings o' (ad_io a)) a) w))
    /\ option_Forall2 (Forall2 (option_Forall2 polled_ring)) (tx_rings (ad_io (w_adapter w))) o'
    /\ Forall2 polled_slot (tx_queues (w_uk w)) qs'
    /\ freed es ⊆+ default [] (held_by <$> tx_rings (ad_io (w_adapter w)))) w.
Proof.
  intros Hp. destruct (tx_rings (ad_io (w_adapter w))) as [l |] eqn:El.
  - destruct (Hp l eq_refl) as [Hn Hpoll]. eapply wpm_mono; [by apply (drain_spec fuel views l n w El) |].
    intros ? w' (l' & qs' & es & -> & HF & HS & Hh). exists (Some l'), qs', es. split_and!; [done | by constructor | done |].
    cbn [fmap option_fmap option_map default]. rewrite Hh, app_nil_l. by apply submseteq_inserts_r.
  - unfold drain_tx_rings. eapply wpm_mono; [apply (each_ring_spec true _ (fun _ w' => w' = w)); [| done] |].
    + intros i wi _ ->. by apply wpm_ring_at_null.
    + intros ? w' ->. exists None, (tx_queues (w_uk w)), []. split_and!; [| constructor | | done].
      * rewrite app_nil_r. destruct w as [[] [? ? ? ? ? ? ? ? ? ? ? [] ? ? ? ?] ? ? ? ?]. cbn in *. by subst.
      * apply Forall2_same_length_lookup_2; [done |]. intros i x y Hx Hy. rewrite Hx in Hy. by injection Hy as <-.
Qed.

Lemma stop_spec fuel views k qs w :
  ax_ok (2 * (Z.to_nat (num_rx_rings (ad_io (w_adapter w))) + Z.to_nat (num_tx_rings (ad_io (w_adapter w)))) + k) qs w ->
  nums_fit (ad_io (w_adapter w)) -> all_rings wf_tx (tx_rings (ad_io (w_adapter w))) -> all_rings wf_ring (rx_rings (ad_io (w_adapter w))) ->
  (forall l, tx_rings (ad_io (w_adapter w)) = Some l -> tx_pollable fuel views l (tx_queues (w_uk w))) ->
  wpm (ena_netdev_stop fuel views) (fun ret w' => ret = 0 /\ exists ot orr txqs es qs',
    ax_ok k qs' w' /\ exec_calm (stopped_world w ot orr txqs es) w' /\ same_regs (w_dev w) (w_dev w')
    /\ stopped_tab (tx_rings (ad_io (w_adapter w))) ot /\ stopped_tab (rx_rings (ad_io (w_adapter w))) orr
    /\ Forall2 polled_slot (tx_queues (w_uk w)) txqs
    /\ freed es ⊆+ default [] (held_by <$> tx_rings (ad_io (w_adapter w)))) w.
Proof.
  intros Hok Hfit Hwt Hwr Hp. unfold ena_netdev_stop. apply wpm_bind, wpm_mod_ad. apply wpm_bind. unfold ena_netdev_clear_rx_chains.
  set (w1 := set_w_uk (set_rx_queues (chains_cleared (rx_queues (w_uk w))) (w_uk w)) (upd (set_link_up false) w)).
  change (wpm (a ← get_ad; ena_netdev_stop_rings_hw fuel views (num_rx_rings (ad_io a)) (num_tx_rings (ad_io a))) (fun ret w' => ret = 0 /\
    exists ot orr txqs es qs', ax_ok k qs' w' /\ exec_calm (stopped_world w ot orr txqs es) w' /\ same_regs (w_dev w) (w_dev w')
    /\ stopped_tab (tx_rings (ad_io (w_adapter w))) ot /\ stopped_tab (rx_rings (ad_io (w_adapter w))) orr
    /\ Forall2 polled_slot (tx_queues (w_uk w)) txqs /\ freed es ⊆+ default [] (held_by <$> tx_rings (ad_io (w_adapter w)))) w1).
  apply wpm_bind, wpm_get_ad. change (ad_io (w_adapter w1)) with (ad_io (w_adapter w)). set (io := ad_io (w_adapter w)) in *.
  unfold ena_netdev_stop_rings_hw. apply wpm_bind.
  eapply wpm_mono; [apply (drain_tab fuel views _ w1); intros l El; split; [pose proof (Hfit true l El) as Hf; cbn in Hf; lia | by apply Hp] |].
  intros ? w2 (ot & txqs & es & -> & HFt & HS & Hfr). change (tx_rings (ad_io (w_adapter w1))) with (tx_rings io) in *.
  set (w2 := set_w_log _ _). set (io2 := set_tx_rings ot io).
  assert (moved (2 * Z.to_nat (num_rx_rings io) + (2 * Z.to_nat (num_tx_rings io) + k)) qs (upd (set_ad_io io2) w2) w2) as Hm.
  { replace (upd (set_ad_io io2) w2) with w2 by (by destruct w as [? [] ? ? ? ?]). apply moved_start.
    apply (ax_keep _ _ w); [by split_and! |]. eapply ax_le; [| exact Hok]. lia. }
  apply wpm_bind. eapply wpm_mono; [apply dev_keeps_wpm; [apply regs_destroy_rings |]; apply (destroy_all _ _ _ _ _ false _ Hm);
    intros l El; pose proof (Hfit false l El) as Hf; cbn in Hf; lia |].
  intros ? w3 [(orr & qs3 & HFr & Hm3) Hk3].
  apply wpm_bind. eapply wpm_mono; [apply dev_keeps_wpm; [apply regs_destroy_rings |]; apply (destroy_all _ _ _ _ _ true _ Hm3) |].
  { intros l El. cbn in El. subst ot. inversion HFt as [l0 ? HF |]; subst. pose proof (Hfit true l0 ltac:(by symmetry)) as Hf. cbn in Hf.
    rewrite <- (Forall2_length _ _ _ HF). lia. }
  intros ? w4 [(ot' & qs4 & HFt' & Hm4) Hk4]. apply wpm_ret. split; [done |]. exists ot', orr, txqs, es, qs4. destruct Hm4 as [Hok4 Hc4].
  split_and!; [done | exact Hc4 | by etrans | | | done | done].
  - change (rings_of true (set_rings_of false orr io2)) with ot in HFt'. inversion HFt as [l0 l1 HF1 E0 E1 |]; subst; inversion HFt' as [? l2 HF2 |]; subst; constructor.
    eapply Forall2_option_compose; [exact HF1 | exact HF2 |]. intros i r1 r2 r3 Hr1 (Eb & _ & Hw & _) Hs.
    destruct (same_sw_stopped r2 r3 Hs) as [? ?]; [apply wr_blocks, wt_ring, Hw, (Hwt l0 i); [by symmetry | done] |]. split; [congruence | done].
  - change (rings_of false io2) with (rx_rings io) in HFr. inversion HFr as [l0 l1 HF1 E0 E1 |]; subst; constructor.
    eapply Forall2_option_compose; [apply (option_Forall2_same same_sw) | exact HF1 |]. intros i r1 r2 r3 Hr1 H1' H2'.
    apply same_sw_stopped; [by etrans | apply wr_blocks, (Hwr l0 i); [by symmetry | done]].
Qed.
End StopSpec.

(** *** The memory of the driver *)
Definition tab_blocks (o : arr (option ena_ring)) : list Z := default [] o ≫= ring_list.
Definition io_blocks (tx : bool) (io : io_rings) : list Z := tab_blocks (rings_of tx io) ++ option_list (table_blk tx io).
Definition pool_blocks {S} `{NetdevQueue S} (l : list S) : list Z := l ≫= (fun s => bounce_list (nq_blocks s)).

Lemma stopped_tab_blocks o o' : stopped_tab o o' -> tab_blocks o' = tab_blocks o.
Proof.
  intros [l l' HF |]; [| done]. unfold tab_blocks; cbn. induction HF as [| x y l l' Hxy HF IH]; [done |].
  rewrite !bind_cons, IH. f_equal. destruct Hxy as [r r' [E _] |]; [cbn; by rewrite E | done].
Qed.

Section Release.
Context {D : Type}.
Implicit Types w : world D.

(** A list whose first [i] elements were mapped, and the next one. *)
Lemma map_prefix_step {A} (f : A -> A) (l : list A) i x :
  l !! i = Some x -> ((f <$> take i l) ++ drop i l) !! i = Some x
    /\ <[i := f x]> ((f <$> take i l) ++ drop i l) = (f <$> take (S i) l) ++ drop (S i) l.
Proof.
  intros Hx. pose proof (lookup_lt_Some _ _ _ Hx). assert (length (f <$> take i l) = i) as Elen by (rewrite length_fmap, length_take; lia).
  rewrite (drop_S l x i Hx). split; [by rewrite lookup_app_r, Elen, Nat.sub_diag by lia |].
  rewrite (take_S_r l i x Hx), fmap_app, <- app_assoc. by rewrite insert_app_r_alt, Elen, Nat.sub_diag by lia.
Qed.

(** The loop over the queues. *)
Lemma free_bounces_spec h0 rest rxqs txqs w :
  rx_queues (w_uk w) = rxqs -> tx_queues (w_uk w) = txqs ->
  length rxqs = Z.to_nat ENA_NETDEV_MAX_QUEUES -> length txqs = Z.to_nat ENA_NETDEV_MAX_QUEUES ->
  Forall (fun s => bounce_blocks_ok (nq_pool s) (nq_blocks s)) rxqs -> Forall (fun s => bounce_blocks_ok (nq_pool s) (nq_blocks s)) txqs ->
  owned h0 (w_heap w) (pool_blocks rxqs ++ pool_blocks txqs ++ rest) ->
  wpm (free_bounces (Z.to_nat ENA_NETDEV_MAX_QUEUES) 0) (fun _ w' => exists h, owned h0 h rest
    /\ w' = set_w_heap h (set_w_uk (set_tx_queues (slot_released <$> txqs) (set_rx_queues (slot_released <$> rxqs) (w_uk w))) w)) w.
Proof.
  intros Er Et Hlr Hlt Hbr Hbt Ho.
  assert (forall n i h, (i + n = Z.to_nat ENA_NETDEV_MAX_QUEUES)%nat -> owned h0 h (pool_blocks (drop i rxqs) ++ pool_blocks (drop i txqs) ++ rest) ->
    wpm (free_bounces n (Z.of_nat i)) (fun _ w' => exists h', owned h0 h' rest
      /\ w' = set_w_heap h' (set_w_uk (set_tx_queues (slot_released <$> txqs) (set_rx_queues (slot_released <$> rxqs) (w_uk w))) w))
      (set_w_heap h (set_w_uk (set_tx_queues ((slot_released <$> take i txqs) ++ drop i txqs)
        (set_rx_queues ((slot_released <$> take i rxqs) ++ drop i rxqs) (w_uk w))) w))) as Hgo.
  { induction n as [| n IH]; intros i h Hi Hoi.
    - rewrite Nat.add_0_r in Hi. apply wpm_ret. exists h. rewrite !drop_ge, !take_ge, !app_nil_r in * by lia. done.
    - destruct (lookup_lt_is_Some_2 rxqs i) as [sr Hsr]; [lia |]. destruct (lookup_lt_is_Some_2 txqs i) as [st Hst]; [lia |].
      rewrite (drop_S rxqs sr i Hsr), (drop_S txqs st i Hst) in Hoi. unfold pool_blocks in Hoi. rewrite !bind_cons, <- !app_assoc in Hoi.
      fold (pool_blocks (drop (S i) rxqs)) in Hoi. fold (pool_blocks (drop (S i) txqs)) in Hoi.
      cbn [free_bounces]. apply wpm_bind.
      destruct (map_prefix_step slot_released rxqs i sr Hsr) as [Hlr1 Eir]. destruct (map_prefix_step slot_released txqs i st Hst) as [Hlt1 Eit].
      eapply wpm_mono; [eapply (free_bounce_at (S := rxq_slot) h0 _ (Z.of_nat i) sr); [lia | by rewrite Nat2Z.id | by apply (Forall_lookup_1 _ _ _ _ Hbr Hsr) | exact Hoi] |].
      intros ? w1 (h1 & Ho1 & ->). rewrite Nat2Z.id. cbn [w_uk set_w_heap set_w_uk nq_slots nq_set_slots rx_netdev_queue rx_queues set_tx_queues set_rx_queues].
      rewrite Eir. apply wpm_bind.
      eapply wpm_mono; [eapply (free_bounce_at (S := txq_slot) h0 (pool_blocks (drop (S i) rxqs) ++ pool_blocks (drop (S i) txqs) ++ rest) (Z.of_nat i) st);
        [lia | by rewrite Nat2Z.id | by apply (Forall_lookup_1 _ _ _ _ Hbt Hst) | eapply owned_perm; [apply Permutation_app_swap_app | exact Ho1]] |].
      intros ? w2 (h2 & Ho2 & ->). rewrite Nat2Z.id. cbn [w_uk set_w_heap set_w_uk nq_slots nq_set_slots tx_netdev_queue tx_queues set_tx_queues set_rx_queues].
      rewrite Eit. replace (Z.of_nat i + 1) with (Z.of_nat (S i)) by lia. apply (IH (S i) h2); [lia | exact Ho2]. }
  specialize (Hgo (Z.to_nat ENA_NETDEV_MAX_QUEUES) 0%nat (w_heap w) eq_refl). rewrite !drop_0, !take_0 in Hgo. cbn [fmap list_fmap app] in Hgo.
  specialize (Hgo Ho). destruct w as [[] ? ? ? ? ?]. cbn in *. subst. exact Hgo.
Qed.

(** The rings of a table. *)
Lemma free_rings_spec h0 rest tx n l w :
  rings_of tx (ad_io (w_adapter w)) = Some l -> (n <= length l)%nat -> (forall i r, l !! i = Some (Some r) -> blocks_ok r) ->
  owned h0 (w_heap w) ((l ≫= ring_list) ++ rest) ->
  wpm (free_rings tx n 0) (fun _ w' => exists h, owned h0 h ((drop n l ≫= ring_list) ++ rest)
    /\ w' = set_w_heap h (put_rings tx (replicate n None ++ drop n l) w)) w.
Proof.
  intros El Hn Hb Ho.
  assert (forall k i h, (i + k = n)%nat -> owned h0 h ((drop i l ≫= ring_list) ++ rest) ->
    wpm (free_rings tx k (Z.of_nat i)) (fun _ w' => exists h', owned h0 h' ((drop n l ≫= ring_list) ++ rest)
      /\ w' = set_w_heap h' (put_rings tx (replicate n None ++ drop n l) w))
      (set_w_heap h (put_rings tx (replicate i None ++ drop i l) w))) as Hgo.
  { induction k as [| k IH]; intros i h Hi Hoi; cbn [free_rings].
    - apply wpm_ret. exists h. by replace n with i by lia.
    - destruct (lookup_lt_is_Some_2 l i) as [o Hio]; [lia |]. rewrite (drop_S l o i Hio) in Hoi |- *. rewrite bind_cons, <- app_assoc in Hoi.
      assert ((replicate i None ++ o :: drop (S i) l) !! i = Some o) as Hlk by (by rewrite list_lookup_middle by (by rewrite length_replicate)).
      assert (<[i := None]> (replicate i None ++ o :: drop (S i) l) = replicate (S i) None ++ drop (S i) l) as Eins.
      { rewrite insert_app_r_alt, length_replicate, Nat.sub_diag by (by rewrite length_replicate). cbn [list_insert insert].
        by rewrite <- (Nat.add_1_r i), replicate_add, <- app_assoc. }
      apply wpm_bind. unfold drop_ring. apply wpm_bind. eapply wpm_ring_at; [apply put_rings_of | rewrite length_app, length_replicate; cbn; lia |].
      rewrite Nat2Z.id, Hlk. intros o' [= <-]. replace (Z.of_nat i + 1) with (Z.of_nat (S i)) by lia.
      destruct o as [r |]; cbn [ring_list] in Hoi.
      + apply wpm_bind. eapply wpm_ring_free; [by apply (Hb i) | exact Hoi |]. intros h1 Ho1. unfold wpm at 1, ring_store.
        assert (rings_of tx (ad_io (w_adapter (set_w_heap h1 (set_w_heap h (put_rings tx (replicate i None ++ Some r :: drop (S i) l) w)))))
          = Some (replicate i None ++ Some r :: drop (S i) l)) as -> by apply put_rings_of.
        cbn [non_null]. rewrite aset_ret by (rewrite length_app, length_replicate; cbn; lia). cbn [mbind res_bind wp]. rewrite Nat2Z.id, Eins.
        assert (forall l1 l2, set_w_adapter (set_ad_io (set_rings_of tx (Some l2) (ad_io (w_adapter (set_w_heap h1 (set_w_heap h (put_rings tx l1 w))))))
          (w_adapter (set_w_heap h1 (set_w_heap h (put_rings tx l1 w))))) (set_w_heap h1 (set_w_heap h (put_rings tx l1 w)))
          = set_w_heap h1 (put_rings tx l2 w)) as -> by (intros; unfold put_rings, upd; wsimpl; by destruct tx).
        apply (IH (S i) h1); [lia | exact Ho1].
      + apply wpm_ret. specialize (IH (S i) h ltac:(lia) Hoi). rewrite <- Eins, list_insert_id in IH by exact Hlk. exact IH. }
  specialize (Hgo n 0%nat (w_heap w) eq_refl). rewrite drop_0 in Hgo. specialize (Hgo Ho). cbn [replicate app] in Hgo.
  replace (set_w_heap (w_heap w) (put_rings tx l w)) with w in Hgo; [exact Hgo |].
  rewrite <- (put_rings_id tx l w El) at 1. rewrite app_nil_r. by destruct w as [? [] ? ? ? ?].
Qed.

(** The loop of the release reaches every ring, and a table has a block. *)
Record tab_releasable (tx : bool) (a : ena_adapter) : Prop := {
  tre_blk : non_null (table_blk tx (ad_io a)) = non_null (rings_of tx (ad_io a));
  tre_rings l : rings_of tx (ad_io a) = Some l -> 0 <= queue_count tx a <= Z.of_nat (length l)
    /\ (forall i r, l !! i = Some (Some r) -> blocks_ok r /\ Z.of_nat i < queue_count tx a)
}.

Definition io_released (tx : bool) (io : io_rings) : io_rings :=
  if non_null (rings_of tx io) then set_num_rings tx 0 (set_table tx None None io) else io.

Lemma free_table_spec h0 rest tx w :
  tab_releasable tx (w_adapter w) -> owned h0 (w_heap w) (io_blocks tx (ad_io (w_adapter w)) ++ rest) ->
  wpm (free_table tx) (fun _ w' => exists h, owned h0 h rest
    /\ w' = set_w_heap h (upd (fun a => set_ad_io (io_released tx (ad_io a)) a) w)) w.
Proof.
  intros [Eb Hr] Ho. unfold free_table, io_blocks, io_released in *. apply wpm_bind, wpm_get_ad.
  destruct (rings_of tx (ad_io (w_adapter w))) as [l |] eqn:El; cbn [non_null] in *.
  - destruct (Hr l eq_refl) as (Hc & Hrings). unfold tab_blocks in Ho. cbn [default id] in Ho. rewrite <- app_assoc in Ho.
    apply wpm_bind. eapply wpm_mono; [apply (free_rings_spec h0 (option_list (table_blk tx (ad_io (w_adapter w))) ++ rest) tx _ l w El); [lia | intros i r Hi; by apply (Hrings i) | exact Ho] |].
    intros ? w1 (h1 & Ho1 & ->).
    assert (drop (Z.to_nat (queue_count tx (w_adapter w))) l ≫= ring_list = []) as Enil.
    { assert (forall l' : list (option ena_ring), (forall i r, l' !! i <> Some (Some r)) -> l' ≫= ring_list = []) as Hnil.
      { induction l' as [| [r |] l' IH]; intros Hno; [done | by destruct (Hno 0%nat r) |]. apply IH. intros i r. apply (Hno (S i)). }
      apply Hnil. intros i r Hi. rewrite lookup_drop in Hi. apply Hrings in Hi as [_ Hi]. lia. }
    rewrite Enil in Ho1. apply wpm_bind. eapply wpm_free_owned; [exact Ho1 |]. intros h2 Ho2. apply wpm_mod_ad.
    exists h2. split; [done |]. unfold put_rings, upd. wsimpl. rewrite El. by destruct tx.
  - apply wpm_ret. destruct (table_blk tx (ad_io (w_adapter w))); [done |]. exists (w_heap w). split; [exact Ho |].
    unfold upd. wsimpl. rewrite El. cbn [non_null]. by destruct w as [? [] ? ? ? ?].
Qed.

Lemma rss_fini_owned h0 rest w :
  owned h0 (w_heap w) (rss_blocks (rss_info (w_adapter w)) ++ rest) ->
  wpm ena_rss_fini (fun _ w' => exists h s, owned h0 h rest /\ rss_blocks s = []
    /\ w' = set_w_heap h (upd (set_rss_info s) w)) w.
Proof.
  intros Ho. unfold ena_rss_fini, get_rss. apply wpm_bind, wpm_bind, wpm_get_ad, wpm_ret.
  set (s := rss_info (w_adapter w)) in *. unfold rss_blocks in Ho. rewrite <- !app_assoc in Ho.
  assert (forall p f ps h s' (Q : unit -> world D -> Prop), owned h0 h (option_list (fst <$> p) ++ ps) ->
    (forall h' s'', owned h0 h' ps -> s'' = (if non_null p then f s' else s') -> Q tt (set_w_heap h' (upd (set_rss_info s'') w))) ->
    wpm (if non_null (p : option (Z * list Z)) then free (fst <$> p);; mod_rss f else mret tt) Q (set_w_heap h (upd (set_rss_info s') w))) as Hstep.
  { intros p f ps h s' Q Ho' HQ. destruct p as [[b l] |]; cbn [non_null] in *; [| by apply wpm_ret, HQ].
    apply wpm_bind. eapply wpm_free_owned; [exact Ho' |]. intros h' Ho''. apply wpm_mod_ad. exact (HQ h' (f s') Ho'' eq_refl). }
  assert (w = set_w_heap (w_heap w) (upd (set_rss_info s) w)) as Ew by (unfold s; by destruct w as [? [] ? ? ? ?]).
  rewrite Ew at 1. clear Ew.
  apply wpm_bind. eapply Hstep; [exact Ho |]. intros h1 s1 Ho1 E1.
  apply wpm_bind. eapply Hstep; [exact Ho1 |]. intros h2 s2 Ho2 E2.
  apply wpm_bind. eapply Hstep; [exact Ho2 |]. intros h3 s3 Ho3 E3.
  apply wpm_bind. eapply Hstep; [exact Ho3 |]. intros h4 s4 Ho4 E4. apply wpm_mod_ad. exists h4. eexists. split; [exact Ho4 |]. split; [| done].
  cbn. rewrite E4, E3, E2, E1. clear. by destruct s as [? ? ? [] [] ? [] ? [] ?].
Qed.
End Release.

(** *** The whole tear-down *)
Definition driver_blocks {D} (w : world D) : list Z :=
  pool_blocks (rx_queues (w_uk w)) ++ pool_blocks (tx_queues (w_uk w))
  ++ io_blocks false (ad_io (w_adapter w)) ++ io_blocks true (ad_io (w_adapter w))
  ++ rss_blocks (rss_info (w_adapter w)) ++ option_list (fst <$> irq_vectors (w_adapter w)) ++ admin_blocks (w_adapter w).

Definition pools_ok {S} `{NetdevQueue S} (l : list S) : Prop :=
  length l = Z.to_nat ENA_NETDEV_MAX_QUEUES /\ Forall (fun s => bounce_blocks_ok (nq_pool s) (nq_blocks s)) l.

Section TearDown.
Context {D : Type} `{EnaDevice D} `{PciConfig D} `{IntCtlr D} `{!PciConfigOk D} `{!IntCtlrOk D} `{!DeviceApart D}
  `{AdminExecOk D} `{!ExecApart D}.
Implicit Types w : world D.

(** The vectors, and the interrupts the platform holds for them on top of [d0]. *)
Definition vectors_held (d0 : D) w : Prop :=
  plat_holds d0 w /\ ((irq_vectors (w_adapter w) = None /\ msix_armed (s_msix (w_uk w)) = false) \/ exists b vs, has_table w b vs).

(** A driver whose memory can be released: every block is accounted for. *)
Record releasable (h0 : heap) (d0 : D) w : Prop := {
  rl_tab tx : tab_releasable tx (w_adapter w);
  rl_rx : pools_ok (rx_queues (w_uk w));
  rl_tx : pools_ok (tx_queues (w_uk w));
  rl_vec : vectors_held d0 w;
  rl_mem : owned h0 (w_heap w) (driver_blocks w)
}.

(** Nothing is left; of netbufs, at most [nbs] were released. *)
Record torn_down (h0 : heap) (d0 : D) (nbs : list Z) w w' : Prop := {
  td_mem : wf_heap (w_heap w') /\ h_live (w_heap w') = h_live h0;
  td_tables : tx_rings (ad_io (w_adapter w')) = None /\ rx_rings (ad_io (w_adapter w')) = None;
  td_queues : Forall slot_empty (rx_queues (w_uk w')) /\ Forall slot_empty (tx_queues (w_uk w'));
  td_rss : rss_blocks (rss_info (w_adapter w')) = [];
  td_vec : irq_vectors (w_adapter w') = None /\ msix_armed (s_msix (w_uk w')) = false;
  td_irqs : ic_irqs (w_dev w') = ic_irqs d0 /\ ic_handlers (w_dev w') = ic_handlers d0;
  td_admin : admin_blocks (w_adapter w') = [] /\ ad_state (w_adapter w') = ENA_STATE_STOPPED;
  td_log : exists es, w_log w' = w_log w ++ es /\ freed es ⊆+ nbs
}.

Lemma msix_fini_owned h0 d0 rest w :
  vectors_held d0 w -> tables_reach (w_adapter w) -> owned h0 (w_heap w) (option_list (fst <$> irq_vectors (w_adapter w)) ++ rest) ->
  wpm ena_intr_msix_fini (fun _ w' => intr_frame w w' /\ irq_vectors (w_adapter w') = None /\ msix_armed (s_msix (w_uk w')) = false
    /\ irqs_held d0 [] (w_dev w') /\ owned h0 (w_heap w') rest) w.
Proof.
  intros [Hp [[Hv Ha] | (b & vs & Ht)]] Hr Ho.
  - unfold ena_intr_msix_fini. apply wpm_bind, wpm_get_ad. rewrite Hv in Ho |- *. cbn [non_null negb]. apply wpm_ret.
    unfold plat_holds in Hp. rewrite Ha in Hp. by split_and!.
  - rewrite (proj1 Ht) in Ho. cbn in Ho. destruct Ho as [Hwf Hnd Hnew El].
    eapply wpm_mono; [apply (msix_fini_spec d0 b vs w Ht Hr Hwf); [rewrite El; set_solver | done] |].
    intros ? w' (Hf & Hi & _ & Hwf' & El' & Ha & Hh). split_and!; try done. apply NoDup_cons in Hnd as [Hb Hnd].
    split; [done | done | set_solver |]. specialize (Hnew b ltac:(set_solver)). rewrite El', El. cbn. set_solver.
Qed.

Lemma io_released_null tx io : rings_of tx (io_released true (io_released false io)) = None.
Proof. destruct io as [[] [] ? ? ? ?], tx; done. Qed.

Lemma cleanup_spec h0 rest w :
  (forall tx, tab_releasable tx (w_adapter w)) ->
  owned h0 (w_heap w) (io_blocks false (ad_io (w_adapter w)) ++ io_blocks true (ad_io (w_adapter w)) ++ rss_blocks (rss_info (w_adapter w)) ++ rest) ->
  wpm ena_netdev_cleanup_adapter_rings (fun _ w' => exists h s, owned h0 h rest /\ rss_blocks s = []
    /\ w' = set_w_heap h (upd (fun a => set_rss_info s (set_ad_io (io_released true (io_released false (ad_io a))) a)) w)) w.
Proof.
  intros Htab Ho. unfold ena_netdev_cleanup_adapter_rings. apply wpm_bind.
  eapply wpm_mono; [eapply (free_table_spec h0 _ false w (Htab false)); exact Ho |]. intros ? w1 (h1 & Ho1 & ->). set (w1 := set_w_heap h1 _).
  assert (io_blocks true (ad_io (w_adapter w1)) = io_blocks true (ad_io (w_adapter w))) as Eb
    by (unfold w1, upd, io_released; wsimpl; destruct (rings_of false _); done).
  assert (tab_releasable true (w_adapter w1)) as Ht.
  { destruct (Htab true) as [E1 E2]. unfold w1, upd, io_released. wsimpl. destruct (rings_of false _); by split. }
  apply wpm_bind. eapply wpm_mono; [eapply (free_table_spec h0 _ true w1 Ht); rewrite Eb; exact Ho1 |]. intros ? w2 (h2 & Ho2 & ->).
  eapply wpm_mono; [eapply (rss_fini_owned h0); exact Ho2 |]. intros ? w3 (h3 & s & Ho3 & Es & ->). by exists h3, s.
Qed.

Lemma admin_fini_owned h0 w :
  owned h0 (w_heap w) (admin_blocks (w_adapter w)) ->
  wpm ena_admin_fini (fun _ w' => exists h, wf_heap h /\ h_live h = h_live h0
    /\ w' = set_w_heap h (set_w_adapter (admin_cleared (w_adapter w)) w)) w.
Proof.
  intros [Hwf Hnd Hnew El]. eapply wpm_mono; [apply ena_admin_fini_spec; split; [done | done | rewrite El; set_solver] |].
  intros ? w' (h & -> & Hh & Elh). exists h. split_and!; [done | | done]. rewrite Elh, El. set_solver.
Qed.

Lemma slots_released_empty {S} `{NetdevQueueOk S} (l : list S) : Forall slot_empty (slot_released <$> l).
Proof. apply Forall_fmap, Forall_true. intros s. apply slot_released_empty. Qed.

Lemma release_spec h0 d0 w :
  releasable h0 d0 w ->
  wpm (free_bounces (Z.to_nat ENA_NETDEV_MAX_QUEUES) 0;; ena_netdev_cleanup_adapter_rings;; ena_intr_msix_fini;; ena_admin_fini)
    (fun _ w' => torn_down h0 d0 [] w w') w.
Proof.
  intros [Htab [Hlr Hbr] [Hlt Hbt] Hvec Ho]. unfold driver_blocks in Ho.
  apply wpm_bind. eapply wpm_mono; [by eapply (free_bounces_spec h0) |]. intros ? w1 (h1 & Ho1 & ->).
  apply wpm_bind. eapply wpm_mono; [by eapply (cleanup_spec h0) |]. intros ? w2 (h2 & s & Ho2 & Es & ->).
  apply wpm_bind. eapply wpm_mono; [eapply (msix_fini_owned h0 d0); [| | exact Ho2] |].
  { destruct Hvec as [Hp [Hv | (b & vs & Hb & [])]]; (split; [exact Hp |]); [by left | right; exists b, vs; by split; [| split]]. }
  { intros tx l El. cbn in El. by rewrite io_released_null in El. }
  intros ? w3 ([(o & n & Ea) _ (m & Eu & _) (es & Elog & Hes)] & Hv & Harm & Hh & Ho3).
  eapply wpm_mono; [apply (admin_fini_owned h0 w3); by rewrite Ea |]. intros ? w4 (h4 & Hwf & El & ->).
  apply irqs_held_nil_inv in Hh as [? ?].
  split; wsimpl; try done.
  - rewrite Ea. wsimpl. split; [apply (io_released_null true) | apply (io_released_null false)].
  - rewrite Eu. split; apply slots_released_empty.
  - by rewrite Ea.
  - exists es. by rewrite Hes.
Qed.

(** A driver that can be stopped and released. *)
Record teardown_ready (h0 : heap) (d0 : D) (fuel : nat) (views : Z -> tx_view) w : Prop := {
  tr_ax : exists qs, ax_ok (2 * (Z.to_nat (num_rx_rings (ad_io (w_adapter w))) + Z.to_nat (num_tx_rings (ad_io (w_adapter w))))) qs w;
  tr_num tx : 0 <= num_rings tx (ad_io (w_adapter w));
  tr_txr : all_rings wf_tx (tx_rings (ad_io (w_adapter w)));
  tr_rxr : all_rings wf_ring (rx_rings (ad_io (w_adapter w)));
  tr_blk tx : non_null (table_blk tx (ad_io (w_adapter w))) = non_null (rings_of tx (ad_io (w_adapter w)));
  tr_in tx l : rings_of tx (ad_io (w_adapter w)) = Some l -> 0 <= queue_count tx (w_adapter w) <= Z.of_nat (length l)
    /\ forall i r, l !! i = Some (Some r) -> Z.of_nat i < queue_count tx (w_adapter w);
  tr_poll l : tx_rings (ad_io (w_adapter w)) = Some l -> tx_pollable fuel views l (tx_queues (w_uk w));
  tr_rxq : pools_ok (rx_queues (w_uk w));
  tr_txq : pools_ok (tx_queues (w_uk w));
  tr_vec : vectors_held d0 w;
  tr_mem : owned h0 (w_heap w) (driver_blocks w)
}.

Lemma ready_nums h0 d0 fuel views w : teardown_ready h0 d0 fuel views w -> nums_fit (ad_io (w_adapter w)).
Proof.
  intros Hr tx l El. pose proof (tr_num _ _ _ _ _ Hr tx). split; [done |]. destruct (tr_in _ _ _ _ _ Hr tx l El) as [Hc _].
  unfold queue_count, z2b in Hc. destruct tx; cbn [num_rings] in *.
  - destruct (Z.eqb_spec (num_tx_rings (ad_io (w_adapter w))) 0) as [-> |]; cbn [negb] in Hc; lia.
  - destruct (Z.eqb_spec (num_rx_rings (ad_io (w_adapter w))) 0) as [-> |]; cbn [negb] in Hc; lia.
Qed.

Lemma cleared_blocks (f : nat -> bool) l : pool_blocks (imap (fun i s => if f i then set_rxs_chain [] s else s) l) = pool_blocks l.
Proof.
  unfold pool_blocks. revert f. induction l as [| s l IH]; intros f; [done |]. cbn [imap]. rewrite !bind_cons.
  f_equal; [by destruct (f 0%nat) | exact (IH (f ∘ S))].
Qed.

Lemma chains_cleared_pools l : pools_ok l -> pools_ok (chains_cleared l) /\ pool_blocks (chains_cleared l) = pool_blocks l.
Proof.
  intros [Hl Hf]. unfold chains_cleared. split; [split |].
  - by rewrite length_imap.
  - apply Forall_lookup_2. intros i s. rewrite list_lookup_imap. destruct (l !! i) as [s0 |] eqn:E; [| done]. intros [= <-].
    pose proof (Forall_lookup_1 _ _ _ _ Hf E). by case_match.
  - apply (cleared_blocks (fun i => (Z.of_nat i <? ENA_NETDEV_MAX_QUEUES) && (Z.of_nat i <? ENA_NETDEV_MAX_QUEUES))).
Qed.

Lemma polled_pools l l' : Forall2 polled_slot l l' -> pools_ok l -> pools_ok l' /\ pool_blocks l' = pool_blocks l.
Proof.
  intros HF [Hl Hf]. split; [split; [by rewrite <- (Forall2_length _ _ _ HF) |] |].
  - apply Forall_lookup_2. intros i s' Hs'. destruct (Forall2_lookup_r _ _ _ _ _ HF Hs') as (s & Hs & _ & _ & Hb).
    apply Hb. exact (Forall_lookup_1 _ _ _ _ Hf Hs).
  - unfold pool_blocks. clear Hl Hf. induction HF as [| s s' l l' (E & _) HF IH]; [done |]. rewrite !bind_cons, IH. f_equal. cbn. by rewrite E.
Qed.

(** What a stop leaves can be released. *)
Lemma stopped_releasable h0 d0 fuel views w ot orr txqs es w1 :
  teardown_ready h0 d0 fuel views w -> exec_calm (stopped_world w ot orr txqs es) w1 -> same_regs (w_dev w) (w_dev w1) ->
  stopped_tab (tx_rings (ad_io (w_adapter w))) ot -> stopped_tab (rx_rings (ad_io (w_adapter w))) orr ->
  Forall2 polled_slot (tx_queues (w_uk w)) txqs -> releasable h0 d0 w1.
Proof.
  intros Hr [Hf _] Hregs Hot Horr Hqs. pose proof (frame_admin_blocks _ _ Hf) as Eadm. destruct Hf as [Eu Eh Ea _ _ _ _ _ _].
  destruct (chains_cleared_pools _ (tr_rxq _ _ _ _ _ Hr)) as [Hprx Ebrx]. destruct (polled_pools _ _ Hqs (tr_txq _ _ _ _ _ Hr)) as [Hptx Ebtx].
  assert (irq_vectors (w_adapter w1) = irq_vectors (w_adapter w) /\ num_irq_vectors (w_adapter w1) = num_irq_vectors (w_adapter w)
    /\ rss_info (w_adapter w1) = rss_info (w_adapter w) /\ ad_io (w_adapter w1) = set_rx_rings orr (set_tx_rings ot (ad_io (w_adapter w)))
    /\ forall tx, queue_count tx (w_adapter w1) = queue_count tx (w_adapter w)) as (Ev & En & Ers & Eio & Eqc)
    by (rewrite Ea; split_and!; try done; by intros []).
  split.
  - intros tx. pose proof (tr_blk _ _ _ _ _ Hr tx) as Eb. pose proof (fun l => tr_in _ _ _ _ _ Hr tx l) as Hin.
    assert (stopped_tab (rings_of tx (ad_io (w_adapter w))) (rings_of tx (ad_io (w_adapter w1)))) as Hst by (rewrite Eio; by destruct tx).
    split; [rewrite Eio in *; destruct tx; cbn in *; rewrite Eb; by inversion Hst |]. intros l El. rewrite Eqc. rewrite El in Hst.
    inversion Hst as [l0 ? HF E0 |]; subst. destruct (Hin l0 ltac:(done)) as [Hc Hi]. rewrite <- (Forall2_length _ _ _ HF). split; [done |].
    intros i r Hir. destruct (Forall2_lookup_r _ _ _ _ _ HF Hir) as (o & Ho & HR). inversion HR as [r0 ? [_ ?] |]; subst. split; [done | by apply (Hi i r0)].
  - by rewrite Eu.
  - by rewrite Eu.
  - destruct (tr_vec _ _ _ _ _ Hr) as [Hp Hv]. split.
    + unfold plat_holds in *. rewrite Eu. cbn. destruct (msix_armed _); [destruct Hp as (? & ? & ?); split_and!; try done |]; by eapply irqs_held_same.
    + destruct Hv as [[? ?] | (b & vs & Hb & [])]; [left; rewrite Ev, Eu; by split |]. right. exists b, vs. split; [by rewrite Ev |]. by split; rewrite ?En.
  - rewrite Eh. eapply owned_perm; [| exact (tr_mem _ _ _ _ _ Hr)]. unfold driver_blocks. rewrite Eadm, Ev, Ers, Eio, Eu.
    unfold stopped_world. wsimpl. cbn [rx_queues tx_queues set_tx_queues set_rx_queues]. rewrite Ebrx, Ebtx. unfold io_blocks. cbn [rings_of table_blk]. wsimpl. by rewrite (stopped_tab_blocks _ _ Hot), (stopped_tab_blocks _ _ Horr).
Qed.

Lemma teardown_spec h0 d0 fuel views w :
  teardown_ready h0 d0 fuel views w ->
  wpm (ena_netdev_teardown fuel views) (fun _ w' =>
    torn_down h0 d0 (default [] (held_by <$> tx_rings (ad_io (w_adapter w)))) w w') w.
Proof.
  intros Hr. destruct (tr_ax _ _ _ _ _ Hr) as [qs Hax]. unfold ena_netdev_teardown. apply wpm_bind. rewrite <- (Nat.add_0_r (2 * _)) in Hax.
  eapply wpm_mono; [exact (stop_spec fuel views 0 qs w Hax (ready_nums _ _ _ _ _ Hr) (tr_txr _ _ _ _ _ Hr) (tr_rxr _ _ _ _ _ Hr) (tr_poll _ _ _ _ _ Hr)) |].
  intros ? w1 (_ & ot & orr & txqs & es & qs' & _ & Hcalm & Hregs & Hot & Horr & Hqs & Hfr).
  eapply wpm_mono; [by apply (release_spec h0 d0 w1); eapply stopped_releasable |].
  intros ? w2 [? ? ? ? ? ? ? (es2 & Elog & Hes2)]. split; try done. destruct Hcalm as [_ (es1 & Elog1 & Hes1)]. exists (es ++ es1 ++ es2).
  rewrite Elog, Elog1. change (w_log (stopped_world w ot orr txqs es)) with (w_log w ++ es). rewrite <- !app_assoc. split; [done |].
  rewrite !freed_app, Hes1. apply submseteq_nil_r in Hes2 as ->. by rewrite !app_nil_r.
Qed.

(** C5: The tear-down of the device releases everything.  From any state of the driver in
    which every block is accounted for (rings or not, bounce pools or not, MSI-X or
    polling, RSS or not) and while the device does not write to the TX completion queues
    being drained, it terminates, and the heap has exactly the blocks it had before the
    driver allocated any; no block is freed twice.  The tables, the queues, the vector
    table, the RSS tables and the admin queues are gone, the interrupts are given back, and the
    only netbufs released are held by TX rings, each at most once. *)
Theorem teardown_releases_all h0 d0 fuel views w :
  teardown_ready h0 d0 fuel views w ->
  wpm (ena_netdev_teardown fuel views) (fun _ w' =>
    torn_down h0 d0 (default [] (held_by <$> tx_rings (ad_io (w_adapter w)))) w w') w.
Proof. apply teardown_spec. Qed.
End TearDown.

(** ** Examples: one pair of queues on the device of [Device], without interrupts *)
#[local] Instance ex_no_pci : PciConfig ex_dev := {| cfg_read _ d := (0, d); cfg_write _ _ d := d |}.
#[local] Instance ex_no_pci_ok : PciConfigOk ex_dev.
Proof. refine {| cfg_val _ _ := 0 |}; done. Defined.
#[local] Instance ex_no_ic : IntCtlr ex_dev :=
  {| msix_alloc _ d := (-1, 0, 0, 0, d); msix_free _ d := d; irq_register _ _ d := (-1, d); irq_unregister _ d := d |}.
#[local] Instance ex_no_ic_ok : IntCtlrOk ex_dev.
Proof.
  refine {| ic_irqs _ := ∅; ic_handlers _ := ∅ |}; try (intros; split; set_solver).
  - intros lcpu d ret irq a v d' [= <- <- <- <- <-]. done.
  - intros irq v d ret d' [= <- <-]. split_and!; [lia | done | set_solver].
Defined.
#[local] Instance ex_apart : DeviceApart ex_dev.
Proof. split; intros; by split_and!. Qed.
#[local] Instance ex_exec_apart : ExecApart ex_dev.
Proof. intros opcode req cap polls w x w' _. by split_and!. Qed.

(** Both queues configured for four descriptors. *)
Definition ex_pair : world ex_dev :=
  match (ena_netdev_configure false (Some (1, 1));; ena_netdev_q_configure (S := rxq_slot) false 0 4;;
         ena_netdev_q_configure (S := txq_slot) false 0 4) ex_started with
  | Ret (_, w) => w
  | _ => ex_started
  end.
Opaque ex_pair.
Definition ex_first (tx : bool) : ena_ring :=
  match rings_of tx (ad_io (w_adapter ex_pair)) with Some (Some r :: _) => r | _ => example_ring 0 4 end.

Lemma ex_pair_tables tx : rings_of tx (ad_io (w_adapter ex_pair)) = Some [Some (ex_first tx)].
Proof. destruct tx; vm_compute; reflexivity. Qed.

Lemma ex_pair_ok : ax_ok 100 (∅, ∅) ex_pair.
Proof. refine (ex_session_ok ex_pair _ _ _ _ _); vm_compute; (reflexivity || discriminate). Qed.

Lemma ex_pair_nums : num_tx_rings (ad_io (w_adapter ex_pair)) = 1 /\ num_rx_rings (ad_io (w_adapter ex_pair)) = 1.
Proof. vm_compute. by split. Qed.

Lemma ex_pair_no_vectors : irq_vectors (w_adapter ex_pair) = None /\ msix_armed (s_msix (w_uk ex_pair)) = false.
Proof. vm_compute. by split. Qed.

Lemma ex_pair_rings_in : rings_in ex_pair [ex_first true] [ex_first false].
Proof.
  unfold rings_in. cbv zeta. pose proof (ex_pair_tables true) as Et. pose proof (ex_pair_tables false) as Er. cbn [rings_of] in Et, Er.
  rewrite Et, Er. clear Et Er. destruct ex_pair_nums as [-> ->].
  generalize (ex_first true) (ex_first false). intros rt rr.
  split.
  { right. exists 0%nat, []. split; reflexivity. } split; [right; exists 0%nat, []; split; reflexivity | done].
Qed.

Lemma ex_pair_reach : tables_reach (w_adapter ex_pair).
Proof.
  intros tx l El. rewrite ex_pair_tables in El. injection El as <-. unfold queue_count.
  destruct ex_pair_nums as [E1 E2]. destruct tx; [rewrite E1 | rewrite E2]; done.
Qed.

(** The start succeeds. *)
Lemma ex_start_result : wpm (ena_netdev_start_rings_hw 1 1) (fun ret _ => ret = 0) ex_pair.
Proof. vm_compute. reflexivity. Qed.

Lemma start_rings_witness :
  wpm (ena_netdev_start_rings_hw 1 1) (fun ret w' => ret = 0 /\ exists tvs rvs C S,
    Forall2 started [ex_first true] tvs /\ Forall2 started [ex_first false] rvs /\ queues_owned ∅ ∅ (tvs ++ rvs) C S) ex_pair.
Proof.
  pose proof (start_rings_all_or_nothing 0 ∅ ∅ ex_pair [ex_first true] [ex_first false] eq_refl
    (ax_le (13 * (length [ex_first true] + length [ex_first false]) + 0) 100 (∅, ∅) ex_pair ltac:(cbn [length]; lia) ex_pair_ok) ex_pair_rings_in
    (or_introl (proj1 ex_pair_no_vectors)) ex_pair_reach) as Hs.
  rewrite (proj1 ex_pair_nums), (proj2 ex_pair_nums) in Hs.
  eapply wpm_mono; [exact (wpm_conj _ _ _ _ Hs ex_start_result) |].
  intros ret w' [Hr ->]. split; [reflexivity |]. rewrite Z.eqb_refl in Hr.
  destruct Hr as (tvs & rvs & C & S & w1 & Ht & Hr & Hq & _). exists tvs, rvs, C, S. exact (conj Ht (conj Hr Hq)).
Defined.

(** *** The same driver can be torn down *)
Definition ex_fresh (tx : bool) : ena_ring :=
  let r := ex_first tx in
  ring_fresh 0 (if tx then ENA_RING_TYPE_TX else ENA_RING_TYPE_RX) 4 4 (sq_phys (r_sq r)) (cq_phys (r_cq r)) (sq_head_wb_phys (r_sq r)) (r_blk r).

Lemma ex_first_fresh :
  ex_first true = set_ring_callbacks false false true false (ex_fresh true)
  /\ ex_first false = set_ring_callbacks true true false true (ex_fresh false)
  /\ blocks_ok (ex_fresh true) /\ blocks_ok (ex_fresh false).
Proof. split_and!; [vm_compute; reflexivity.. | |]; split; vm_compute; reflexivity. Qed.

Lemma ex_first_wf : wf_tx (ex_first true) /\ wf_ring (ex_first false).
Proof.
  destruct ex_first_fresh as (-> & -> & Ht & Hr). split.
  - apply wf_tx_callbacks, ring_fresh_wf_tx; [apply pow2_depth_4.. | exact Ht].
  - apply (wf_ring_of false), wf_rx_callbacks. split; [| reflexivity].
    apply ring_fresh_wf; [apply pow2_depth_4.. | by right | exact Hr].
Qed.

Lemma ex_pair_pools : pools_ok (rx_queues (w_uk ex_pair)) /\ pools_ok (tx_queues (w_uk ex_pair)).
Proof. split; (split; [vm_compute; reflexivity |]); vm_compute; repeat constructor. Qed.

Lemma owned_blocks h ps :
  wf_heap h -> NoDup ps -> h_live h = list_to_set ps -> owned example_heap h ps.
Proof. intros Hh Hnd El. split; [done | done | set_solver |]. rewrite El. set_solver. Qed.

Lemma ex_pair_mem : owned example_heap (w_heap ex_pair) (driver_blocks ex_pair).
Proof.
  apply owned_blocks.
  - split; [vm_compute; reflexivity |]. apply (proj2 (set_Forall_elements (fun a => 0 < a < h_next (w_heap ex_pair)) _)).
    refine (bool_decide_unpack _ _). vm_compute. exact I.
  - refine (bool_decide_unpack _ _). vm_compute. exact I.
  - vm_compute. reflexivity.
Qed.

Definition ex_idle_views : Z -> tx_view := fun _ _ _ => replicate 4 tx_cdesc_zero.

Lemma ex_pair_slot : exists s, tx_queues (w_uk ex_pair) !! 0%nat = Some s /\ txq_ok (Some (txs_q s)).
Proof.
  assert (exists s phys, tx_queues (w_uk ex_pair) !! 0%nat = Some s /\ txq_bounce (txs_q s) = bounce_fresh phys 4) as (s & phys & Es & Eb).
  { eexists _, _. split; vm_compute; reflexivity. }
  exists s. split; [exact Es |]. intros q [= <-]. rewrite Eb. apply wf_bounce_fresh, pow2_depth_4.
Qed.

Lemma ex_pair_depth : cq_depth (r_cq (ex_first true)) = 4 /\ ring_lock (ex_first true) = 0.
Proof. vm_compute. by split. Qed.

Lemma lookup_only {A} (x y : A) o l i : o = Some [Some x] -> o = Some l -> l !! i = Some (Some y) -> y = x /\ i = 0%nat.
Proof. intros -> [= <-]. destruct i; [| discriminate]. by intros [= ->]. Qed.

Lemma length_only {A} (x : A) o l : o = Some [Some x] -> o = Some l -> Z.of_nat (length l) = 1.
Proof. by intros -> [= <-]. Qed.

Lemma ex_pair_ready : teardown_ready example_heap (w_dev ex_pair) 5 ex_idle_views ex_pair.
Proof.
  destruct ex_pair_nums as [Ent Enr], ex_first_wf as [Ht Hr], ex_pair_pools as [Hrp Htp], ex_pair_no_vectors as [Ev Ea].
  pose proof (ex_pair_tables true) as Et. pose proof (ex_pair_tables false) as Er. cbn [rings_of] in Et, Er. split.
  - exists (∅, ∅). rewrite Ent, Enr. eapply ax_le; [| exact ex_pair_ok]. cbn. lia.
  - destruct tx; cbn [num_rings]; [rewrite Ent | rewrite Enr]; done.
  - intros l i r El Hi. destruct (lookup_only _ _ _ _ _ Et El Hi) as [-> _]. exact Ht.
  - intros l i r El Hi. destruct (lookup_only _ _ _ _ _ Er El Hi) as [-> _]. exact Hr.
  - destruct tx; vm_compute; reflexivity.
  - intros tx l El.
    assert (queue_count tx (w_adapter ex_pair) = 1) as En by (unfold queue_count; destruct tx; rewrite ?Ent, ?Enr; reflexivity).
    rewrite En. rewrite (length_only _ _ _ (ex_pair_tables tx) El). split; [exact (conj Z.le_0_1 (Z.le_refl 1)) |].
    intros i r Hi. destruct (lookup_only _ _ _ _ _ (ex_pair_tables tx) El Hi) as [_ ->]. reflexivity.
  - intros l El i r Hi. destruct (lookup_only _ _ _ _ _ Et El Hi) as [-> ->]. clear El Hi.
    destruct ex_pair_depth as [Ed El]. rewrite Ed. split; [exact Ht |]. split; [exact El |]. split; [reflexivity |].
    split; [| exact ex_pair_slot]. exists (replicate 4 tx_cdesc_zero). split; [reflexivity |].
    intros j k. split; [reflexivity |]. apply Forall_replicate. split; [apply Z.le_refl | reflexivity].
  - exact Hrp.
  - exact Htp.
  - split; [| left; exact (conj Ev Ea)]. unfold plat_holds. cbv zeta. rewrite Ea. apply irqs_held_nil.
  - exact ex_pair_mem.
Qed.

Lemma teardown_witness :
  wpm (ena_netdev_teardown 5 ex_idle_views) (fun _ w' => h_live (w_heap w') = ∅ /\ tx_rings (ad_io (w_adapter w')) = None) ex_pair.
Proof.
  eapply wpm_mono; [exact (teardown_releases_all example_heap (w_dev ex_pair) 5 ex_idle_views ex_pair ex_pair_ready) |].
  intros ? w' [[_ Hm] [Ht _] _ _ _ _ _ _]. exact (conj Hm Ht).
Defined.
