(* ===== verification/Poll.v ===== *)
(** * The polling engine

    [ena_poll_step] of src/ena_intr.c: one sweep over the transmit and the receive rings of
    the adapter, which reaps completions and hands the received packets to a handler.

    The handler is code of the application.  The model records its calls in order; what it
    does with a packet is not part of the driver.  [views] says what the polls read from the
    completion queues. *)

From stdpp Require Import base tactics option list list_numbers numbers sets gmap.
From Stdlib Require Import ZArith Lia.
From S2P Require Import Prelude Fifo Mem Desc Netq Ring Tx Rx Adapter Admin Session Exec Device Control Queue Init Rss Recover Netconf Plat Intr Netdev.
Open Scope Z_scope.
Open Scope list_scope.

(** [rx_handler]: is there a handler? *)
Record ena_poll_ctx := mkPollCtx {
  tx_budget : Z;
  rx_budget : Z;
  total_tx_cleaned : Z;
  total_rx_received : Z;
  rx_handler : bool
}.

(** What the device shows of the completion queues of queue [q]. *)
Record poll_views := mkViews {
  pv_tx : Z -> tx_view;
  pv_rx : Z -> rx_view
}.

Section Poll.
Context {D : Type} `{EnaDevice D}.

(** [ena_rx_poll(ring, rx_pkts, max, NULL)] on an RX ring of the adapter; the argument of its
    drop callback is the RX queue of the same number.  The array of the caller has 32
    entries. *)
Definition poll_rx_ring (fuel : nat) (view : rx_view) (q max : Z) : M D (Z * list ena_rx_pkt) := fun w =>
  r ← aget (rx_rings (ad_io (w_adapter w))) q;
  s ← aget (Some (rx_queues (w_uk w))) q;
  match r with
  | None => Fault
  | Some r =>
      '(count, _, pkts, r, rxq, es) ← ena_rx_poll fuel (uk_cpu (w_uk w)) view r (Some (rxs_q s)) max;
      if 32 <? Z.of_nat (length pkts) then Fault
      else
        l ← aset (rx_rings (ad_io (w_adapter w))) q (Some r);
        qs ← aset (Some (rx_queues (w_uk w))) q (set_rxs_q (default (rxs_q s) rxq) s);
        Ret ((count, pkts), set_w_log (w_log w ++ es) (set_w_uk (set_rx_queues (default [] qs) (w_uk w))
          (set_w_adapter (set_ad_io (set_rx_rings l (ad_io (w_adapter w))) (w_adapter w)) w)))
  end.

(** The loop over the TX rings: [total] and [ctx->total_tx_cleaned]. *)
Fixpoint poll_tx_rings (fuel : nat) (views : Z -> tx_view) (budget : Z) (n : nat) (q total sum : Z) : M D (Z * Z) :=
  match n with
  | O => mret (total, sum)
  | S n =>
      r ← ring_at true q;
      if non_null r then
        cleaned ← poll_tx_ring fuel (views q) q budget;
        poll_tx_rings fuel views budget n (q + 1) (u32 (total + cleaned)) (u64 (sum + cleaned))
      else poll_tx_rings fuel views budget n (q + 1) total sum
  end.

(** The loop over the RX rings: [total], [ctx->total_rx_received] and the packets received,
    each with its queue. *)
Fixpoint poll_rx_rings (fuel : nat) (views : Z -> rx_view) (max : Z) (n : nat) (q total sum : Z) : M D (Z * Z * list (Z * ena_rx_pkt)) :=
  match n with
  | O => mret (total, sum, [])
  | S n =>
      r ← ring_at false q;
      if non_null r then
        '(count, pkts) ← poll_rx_ring fuel (views q) q max;
        if 0 <? count then
          '(total, sum, rest) ← poll_rx_rings fuel views max n (q + 1) (u32 (total + count)) (u64 (sum + count));
          mret (total, sum, (pair q <$> take (Z.to_nat count) pkts) ++ rest)
        else poll_rx_rings fuel views max n (q + 1) total sum
      else poll_rx_rings fuel views max n (q + 1) total sum
  end.

(** Result: return value, [*work_done], context and the calls of the handler. *)
Definition ena_poll_step (fuel : nat) (views : poll_views) (ctx : ena_poll_ctx) : M D (Z * Z * ena_poll_ctx * list (Z * ena_rx_pkt)) :=
  let txb := if tx_budget ctx =? 0 then 32 else tx_budget ctx in
  let rxb := if rx_budget ctx =? 0 then 32 else rx_budget ctx in
  a ← get_ad;
  let num_tx := num_tx_rings (ad_io a) in
  let num_rx := num_rx_rings (ad_io a) in
  if (num_tx =? 0) && (num_rx =? 0) then
    mret (0, 0, mkPollCtx txb rxb (total_tx_cleaned ctx) (total_rx_received ctx) (rx_handler ctx), [])
  else
    '(total, tx_sum) ← poll_tx_rings fuel (pv_tx views) txb (Z.to_nat num_tx) 0 0 (total_tx_cleaned ctx);
    '(total, rx_sum, pkts) ← poll_rx_rings fuel (pv_rx views) (if 32 <? rxb then 32 else rxb) (Z.to_nat num_rx) 0 total (total_rx_received ctx);
    mret (i32 total, total, mkPollCtx txb rxb tx_sum rx_sum (rx_handler ctx), if rx_handler ctx then pkts else []).
End Poll.

(** ** A logic for loops that a busy device can keep going

    [wpq quiet m Q w]: [m] does not fault, its result satisfies [Q], and it returns when
    [quiet] holds. *)
Definition wpq {D A} (quiet : Prop) (m : M D A) (Q : A -> world D -> Prop) (w : world D) : Prop :=
  match m w with
  | Ret (a, w') => Q a w'
  | Fault => False
  | Hang => ~ quiet
  end.

Section Wpq.
Context {D : Type} (quiet : Prop).
Implicit Types w : world D.

Lemma wpq_ret {A} (a : A) (Q : A -> world D -> Prop) w : Q a w -> wpq quiet (mret a) Q w.
Proof. done. Qed.
Lemma wpq_bind {A B} (m : M D A) (f : A -> M D B) (Q : B -> world D -> Prop) w :
  wpq quiet m (fun a w' => wpq quiet (f a) Q w') w -> wpq quiet (m ≫= f) Q w.
Proof. unfold wpq, mbind, M_bind. by destruct (m w) as [[a w'] | |]. Qed.
Lemma wpq_mono {A} (m : M D A) (Q Q' : A -> world D -> Prop) w :
  wpq quiet m Q w -> (forall a w', Q a w' -> Q' a w') -> wpq quiet m Q' w.
Proof. unfold wpq. destruct (m w) as [[a w'] | |]; auto. Qed.
Lemma wpq_wpm {A} (m : M D A) (Q : A -> world D -> Prop) w : wpm m Q w -> wpq quiet m Q w.
Proof. unfold wpq, wpm. by destruct (m w) as [[a w'] | |]. Qed.
Lemma wpq_spec {A} (m : M D A) (Q : A -> world D -> Prop) w :
  wlp (m w) (fun '(a, w') => Q a w') -> (quiet -> m w <> Hang) -> wpq quiet m Q w.
Proof. unfold wpq. destruct (m w) as [[a w'] | |]; [done | done |]. intros _ Hq Hquiet. by apply Hq. Qed.
Lemma wpq_quiet {A} (m : M D A) (Q : A -> world D -> Prop) w : quiet -> wpq quiet m Q w -> wpm m Q w.
Proof. unfold wpq, wpm. destruct (m w) as [[a w'] | |]; [done | done |]. intros Hq Hn. by apply Hn. Qed.
End Wpq.

(** ** One receive ring *)
Definition rx_polled_ring (r r' : ena_ring) : Prop :=
  r_blk r' = r_blk r /\ cq_depth (r_cq r') = cq_depth (r_cq r) /\ hw_valid r' = hw_valid r /\ drop_releases r' = drop_releases r
  /\ (wf_rx r -> wf_rx r') /\ (ring_lock r = 0 -> ring_lock r' = 0).
Definition rx_polled_slot (s s' : rxq_slot) : Prop :=
  rxs_blk s' = rxs_blk s /\ rxs_chain s' = rxs_chain s
  /\ forall lost, rxq_ok lost (Some (rxs_q s)) -> rxq_ok lost (Some (rxs_q s')).

#[export] Instance rx_polled_ring_preorder : PreOrder rx_polled_ring.
Proof. split; [done |]. unfold rx_polled_ring. intros r1 r2 r3 (-> & -> & -> & -> & ? & ?) (-> & -> & -> & -> & ? & ?). naive_solver. Qed.
#[export] Instance rx_polled_slot_preorder : PreOrder rx_polled_slot.
Proof. split; [done |]. unfold rx_polled_slot. intros s1 s2 s3 (-> & -> & ?) (-> & -> & ?). naive_solver. Qed.

Section OneRing.
Context {D : Type} `{EnaDevice D}.
Implicit Types w : world D.

Lemma poll_rx_ring_spec lost fuel view q max l r s w :
  rx_rings (ad_io (w_adapter w)) = Some l -> 0 <= q -> l !! Z.to_nat q = Some (Some r) ->
  rx_queues (w_uk w) !! Z.to_nat q = Some s -> wf_rx r -> ring_lock r = 0 -> drop_releases r = true -> rxq_ok lost (Some (rxs_q s)) ->
  rx_view_ok (cq_depth (r_cq r)) view -> 0 <= max <= 32 ->
  wlp (poll_rx_ring fuel view q max w) (fun '(c, w') => ring_swept rx_polled_ring rx_polled_slot q l r s (omap rxp_netbuf c.2) w w'
    /\ c.1 <= max /\ (if 0 <? c.1 then c.1 = Z.of_nat (length c.2) else c.2 = []))
  /\ (forall V, view = (fun _ _ => V) -> cq_depth (r_cq r) < Z.of_nat fuel -> poll_rx_ring fuel view q max w <> Hang).
Proof.
  intros El Hq Hr Hs Hwf Hk Hd Hok Hv Hm. unfold poll_rx_ring. rewrite El, (aget_ret l q (Some r)) by done.
  rewrite (aget_ret _ q s) by done. cbn [mbind res_bind].
  pose proof (fun lost' Hok' => ena_rx_poll_spec lost' fuel (uk_cpu (w_uk w)) view r (Some (rxs_q s)) max Hwf Hk Hok' Hv ltac:(lia)) as Hp.
  pose proof (lookup_lt_Some _ _ _ Hr). pose proof (lookup_lt_Some _ _ _ Hs).
  assert (forall V, view = (fun _ _ => V) -> cq_depth (r_cq r) < Z.of_nat fuel ->
    ena_rx_poll fuel (uk_cpu (w_uk w)) view r (Some (rxs_q s)) max <> Hang) as Hh.
  { intros V -> Hf Hhang. pose proof (ena_rx_poll_quiet lost V (cq_head (r_cq r)) 0 fuel (uk_cpu (w_uk w)) r (Some (rxs_q s)) max
      Hwf Hk Hok Hv (proj1 (wr_cqi _ (proj1 Hwf))) (cq_lap_start V r Hwf) ltac:(lia)) as Hw. by rewrite Hhang in Hw. }
  destruct (ena_rx_poll _ _ _ _ _ _) as [[[[[[count dr] pkts] r'] rxq'] es] | |]; cbn [mbind res_bind]; 
    [| by specialize (Hp lost Hok) | split; [done |]; intros V HV Hf _; by apply (Hh V HV Hf)].
  destruct (Hp lost Hok) as ((d & [[Hwf' F Ec Hh' _] [Hq' Hkept] _ _ _ _]) & Hcm & Hlen & Hneg).
  assert (Z.of_nat (length pkts) <= 32) as Hl32 by (destruct (Z.leb_spec 0 count); [lia | rewrite Hneg by lia; simpl; lia]).
  rewrite (proj2 (Z.ltb_ge 32 _)) by lia. rewrite !aset_ret by lia. cbn [mbind res_bind wlp default fst snd].
  split; [| done]. split_and!; [| lia |].
  - destruct rxq' as [q' |]; [| by destruct Hkept]. exists r', (set_rxs_q q' s), es. split_and!; [done | | | by apply Hh'].
    + pose proof F as []. split_and!; try done; [by rewrite (rx_frame_drop _ _ _ F) | intros _; cbn in *; congruence].
    + split_and!; [done | done |]. intros lost' Hok'. destruct (Hp lost' Hok') as ((? & [_ [Hq'' _] _ _ _ _]) & _). exact Hq''.
  - destruct (Z.ltb_spec 0 count); [apply Hlen; lia |]. destruct (Z.eqb_spec count 0) as [-> |]; [| apply Hneg; lia].
    apply length_zero_iff_nil. lia.
Qed.
End OneRing.

(** ** The sweeps *)
Lemma u32_add_l x y : u32 (u32 x + y) = u32 (x + y).
Proof. unfold u32. by rewrite Zplus_mod_idemp_l. Qed.
Lemma u64_add_l x y : u64 (u64 x + y) = u64 (x + y).
Proof. unfold u64. by rewrite Zplus_mod_idemp_l. Qed.

(** What the polls need of the rings of a table and their queues. *)
Definition tx_sound (l : list (option ena_ring)) (views : Z -> tx_view) (qs : list txq_slot) : Prop :=
  forall i r, l !! i = Some (Some r) -> wf_tx r /\ ring_lock r = 0 /\ tx_view_ok (cq_depth (r_cq r)) (views (Z.of_nat i))
    /\ exists s, qs !! i = Some s /\ txq_ok (Some (txs_q s)).
Definition rx_sound (l : list (option ena_ring)) (views : Z -> rx_view) (qs : list rxq_slot) : Prop :=
  forall i r, l !! i = Some (Some r) -> wf_rx r /\ ring_lock r = 0 /\ drop_releases r = true
    /\ rx_view_ok (cq_depth (r_cq r)) (views (Z.of_nat i))
    /\ exists s lost, qs !! i = Some s /\ rxq_ok lost (Some (rxs_q s)).

(** The device does not write to the completion queues of a table while it is swept. *)
Definition quiet_views {A} (fuel : nat) (views : Z -> nat -> nat -> A) (o : arr (option ena_ring)) : Prop :=
  forall l i r, o = Some l -> l !! i = Some (Some r) -> cq_depth (r_cq r) < Z.of_nat fuel /\ exists V, views (Z.of_nat i) = (fun _ _ => V).

Section Sweeps.
Context {D : Type} `{EnaDevice D}.
Implicit Types w : world D.

Lemma wpq_ring_at quiet tx q l w (Q : option ena_ring -> world D -> Prop) o :
  rings_of tx (ad_io (w_adapter w)) = Some l -> 0 <= q -> l !! Z.to_nat q = Some o -> Q o w -> wpq quiet (ring_at tx q) Q w.
Proof.
  intros El Hq Ho HQ. pose proof (lookup_lt_Some _ _ _ Ho). apply wpq_wpm. eapply wpm_ring_at; [exact El | lia |].
  intros r Hr. rewrite Ho in Hr. by injection Hr as <-.
Qed.

Lemma poll_tx_rings_spec (quiet : Prop) fuel views budget l n total sum w :
  (quiet -> quiet_views fuel views (Some l)) -> tx_rings (ad_io (w_adapter w)) = Some l -> (n <= length l)%nat ->
  tx_sound l views (tx_queues (w_uk w)) -> 0 < budget -> u32 total = total -> u64 sum = sum ->
  wpq quiet (poll_tx_rings fuel views budget n 0 total sum) (fun '(total', sum') w' =>
    swept polled_ring polled_slot l [] w w' /\ exists c, 0 <= c <= Z.of_nat n * budget /\ total' = u32 (total + c) /\ sum' = u64 (sum + c)) w.
Proof.
  intros Hquiet El Hn Hs Hb Ht Hu.
  enough (forall k i wi c, (i + k = n)%nat -> swept polled_ring polled_slot l [] w wi -> 0 <= c <= Z.of_nat i * budget ->
    wpq quiet (poll_tx_rings fuel views budget k (Z.of_nat i) (u32 (total + c)) (u64 (sum + c))) (fun '(total', sum') w' =>
      swept polled_ring polled_slot l [] w w' /\ exists c, 0 <= c <= Z.of_nat n * budget /\ total' = u32 (total + c) /\ sum' = u64 (sum + c)) wi) as Hgo.
  { specialize (Hgo n 0%nat w 0). rewrite !Z.add_0_r, Ht, Hu in Hgo. apply Hgo; [lia | exact (swept_refl (S := txq_slot) polled_ring polled_slot l w El) | lia]. }
  induction k as [| k IH]; intros i wi c Hi Hsw Hc; cbn [poll_tx_rings].
  { apply wpq_ret. split; [done |]. exists c. replace n with i by lia. done. }
  destruct (lookup_lt_is_Some_2 l i) as [o Ho]; [lia |].
  destruct (swept_at _ _ _ _ _ _ _ _ Hsw Ho) as (l' & o' & El' & Hl' & Ho' & HR).
  replace (Z.of_nat i + 1) with (Z.of_nat (S i)) by lia.
  apply wpq_bind. eapply wpq_ring_at; [exact El' | lia | by rewrite Nat2Z.id |].
  destruct HR as [r0 r (Eb & Ec & Hw & Hl) |]; cbn [non_null]; [| apply IH; [lia | done | lia]].
  destruct (Hs i r0 Ho) as (Hwf & Hk & Hv & s0 & Hs0 & Hok0).
  destruct (swept_slot _ _ _ _ _ _ _ _ Hsw Hs0) as (s & Hsl & (_ & Hok & _)).
  destruct (poll_tx_ring_spec fuel (views (Z.of_nat i)) (Z.of_nat i) budget l' r s wi El') as [Hp Hh];
    rewrite ?Nat2Z.id, ?Ec; auto; [lia | lia |].
  apply wpq_bind. eapply wpq_mono; [apply wpq_spec; [exact Hp |] |].
  { intros Hq. destruct (Hquiet Hq l i r0 eq_refl Ho) as [Hf [V HV]]. apply (Hh V HV). by rewrite Ec. }
  intros c' w' [Hst Hc']. rewrite (proj2 (Z.eqb_neq budget 0)) in Hc' by lia. rewrite u32_add_l, u64_add_l, <- !Z.add_assoc.
  apply IH; [lia | by apply (swept_step _ _ l [] [] w wi w' i l' r s) | lia].
Qed.

Lemma poll_rx_rings_spec (quiet : Prop) fuel views max l n total sum w :
  (quiet -> quiet_views fuel views (Some l)) -> rx_rings (ad_io (w_adapter w)) = Some l -> (n <= length l)%nat ->
  rx_sound l views (rx_queues (w_uk w)) -> 0 < max <= 32 -> u32 total = total -> u64 sum = sum ->
  wpq quiet (poll_rx_rings fuel views max n 0 total sum) (fun '(total', sum', pkts) w' =>
    swept rx_polled_ring rx_polled_slot l (omap rxp_netbuf pkts.*2) w w' /\ Z.of_nat (length pkts) <= Z.of_nat n * max
    /\ total' = u32 (total + Z.of_nat (length pkts)) /\ sum' = u64 (sum + Z.of_nat (length pkts))) w.
Proof.
  intros Hquiet El Hn Hs Hb Ht Hu.
  enough (forall k i wi nbs total sum, (i + k = n)%nat -> u32 total = total -> u64 sum = sum -> swept rx_polled_ring rx_polled_slot l nbs w wi ->
    wpq quiet (poll_rx_rings fuel views max k (Z.of_nat i) total sum) (fun '(total', sum', pkts) w' =>
      swept rx_polled_ring rx_polled_slot l (nbs ++ omap rxp_netbuf pkts.*2) w w' /\ Z.of_nat (length pkts) <= Z.of_nat k * max
      /\ total' = u32 (total + Z.of_nat (length pkts)) /\ sum' = u64 (sum + Z.of_nat (length pkts))) wi) as Hgo.
  { apply (Hgo n 0%nat w [] total sum); [lia | done | done | exact (swept_refl (S := rxq_slot) rx_polled_ring rx_polled_slot l w El)]. }
  clear Ht Hu total sum. induction k as [| k IH]; intros i wi nbs total sum Hi Ht Hu Hsw; cbn [poll_rx_rings].
  { apply wpq_ret. cbn [length fmap list_fmap omap list_omap]. rewrite app_nil_r, !Z.add_0_r. split_and!; [done | lia | done | done]. }
  assert (forall wi, swept rx_polled_ring rx_polled_slot l nbs w wi ->
    wpq quiet (poll_rx_rings fuel views max k (Z.of_nat (S i)) total sum) (fun '(total', sum', pkts) w' =>
      swept rx_polled_ring rx_polled_slot l (nbs ++ omap rxp_netbuf pkts.*2) w w' /\ Z.of_nat (length pkts) <= Z.of_nat (S k) * max
      /\ total' = u32 (total + Z.of_nat (length pkts)) /\ sum' = u64 (sum + Z.of_nat (length pkts))) wi) as Hskip.
  { intros wi' Hsw'. eapply wpq_mono; [apply (IH (S i) wi' nbs); [lia | done..] |].
    intros [[t u] pkts] w' (? & ? & ? & ?). split_and!; [done | lia | done | done]. }
  destruct (lookup_lt_is_Some_2 l i) as [o Ho]; [lia |].
  destruct (swept_at _ _ _ _ _ _ _ _ Hsw Ho) as (l' & o' & El' & Hl' & Ho' & HR).
  replace (Z.of_nat i + 1) with (Z.of_nat (S i)) by lia.
  apply wpq_bind. eapply wpq_ring_at; [exact El' | lia | by rewrite Nat2Z.id |].
  destruct HR as [r0 r (Eb & Ec & Ev & Ed & Hw & Hl) |]; cbn [non_null]; [| by apply Hskip].
  destruct (Hs i r0 Ho) as (Hwf & Hk & Hd & Hv & s0 & lost & Hs0 & Hok0).
  destruct (swept_slot _ _ _ _ _ _ _ _ Hsw Hs0) as (s & Hsl & (_ & _ & Hok)).
  destruct (poll_rx_ring_spec lost fuel (views (Z.of_nat i)) (Z.of_nat i) max l' r s wi El') as [Hp Hh];
    rewrite ?Nat2Z.id, ?Ec, ?Ed; auto; [lia | lia |].
  apply wpq_bind. eapply wpq_mono; [apply wpq_spec; [exact Hp |] |].
  { intros Hq. destruct (Hquiet Hq l i r0 eq_refl Ho) as [Hf [V HV]]. apply (Hh V HV). by rewrite Ec. }
  intros [count pkts] w' (Hst & Hc & Hlen). cbn [fst snd] in *.
  assert (swept rx_polled_ring rx_polled_slot l (nbs ++ omap rxp_netbuf pkts) w w') as Hsw'
    by (by apply (swept_step _ _ l nbs (omap rxp_netbuf pkts) w wi w' i l' r s)).
  destruct (Z.ltb_spec 0 count); [| subst pkts; apply Hskip; by rewrite app_nil_r in Hsw'].
  apply wpq_bind. eapply wpq_mono; [apply (IH (S i) w' (nbs ++ omap rxp_netbuf pkts) (u32 (total + count)) (u64 (sum + count))); [lia | apply u32_id, u32_range | apply u64_id, u64_range | exact Hsw'] |].
  intros [[t u] rest] w'' (Hsw'' & Hr & -> & ->). apply wpq_ret. subst count. rewrite Nat2Z.id, firstn_all.
  rewrite length_app, length_fmap, fmap_app, <- list_fmap_compose, omap_app, app_assoc, u32_add_l, u64_add_l, <- !Z.add_assoc, Nat2Z.inj_add.
  rewrite (list_fmap_ext (snd ∘ pair (Z.of_nat i)) id pkts), list_fmap_id by done. split_and!; [done | lia | done | done].
Qed.
End Sweeps.

(** ** The step *)
Section Step.
Context {D : Type} `{EnaDevice D}.
Implicit Types w : world D.

Record poll_ready (views : poll_views) w : Prop := {
  pr_num tx : 0 <= num_rings tx (ad_io (w_adapter w));
  pr_fit tx l : rings_of tx (ad_io (w_adapter w)) = Some l -> num_rings tx (ad_io (w_adapter w)) <= Z.of_nat (length l);
  pr_tx l : tx_rings (ad_io (w_adapter w)) = Some l -> tx_sound l (pv_tx views) (tx_queues (w_uk w));
  pr_rx l : rx_rings (ad_io (w_adapter w)) = Some l -> rx_sound l (pv_rx views) (rx_queues (w_uk w))
}.
Definition poll_quiet fuel views w : Prop :=
  quiet_views fuel (pv_tx views) (tx_rings (ad_io (w_adapter w))) /\ quiet_views fuel (pv_rx views) (rx_rings (ad_io (w_adapter w))).

(** The netbufs in the rings of a table. *)
Definition tab_held (o : arr (option ena_ring)) : list Z := default [] (held_by <$> o).

(** Rings and queues of a table that may be NULL; what the rings gave away. *)
Definition tab_swept {S} `{NetdevQueue S} (RR : relation ena_ring) (RS : relation S) (nbs : list Z) w w' : Prop := exists o' qs' es,
  w' = set_w_log (w_log w ++ es) (set_w_uk (nq_set_slots qs' (w_uk w)) (upd (fun a => set_ad_io (set_rings_of nq_tx o' (ad_io a)) a) w))
  /\ option_Forall2 (Forall2 (option_Forall2 RR)) (rings_of nq_tx (ad_io (w_adapter w))) o' /\ Forall2 RS (nq_slots (w_uk w)) qs'
  /\ tab_held (rings_of nq_tx (ad_io (w_adapter w))) ≡ₚ nbs ++ freed es ++ tab_held o'.

Lemma swept_tab {S} `{NetdevQueueOk S} RR RS l nbs w w' :
  rings_of nq_tx (ad_io (w_adapter w)) = Some l -> swept (S := S) RR RS l nbs w w' -> tab_swept RR RS nbs w w'.
Proof.
  intros El (l' & qs' & es & -> & HF & HS & Hh). exists (Some l'), qs', es. rewrite El. split_and!; [done | by constructor | done | exact Hh].
Qed.

Lemma tab_swept_null {S} `{NetdevQueueOk S} (RR : relation ena_ring) (RS : relation S) `{!Reflexive RS} w :
  rings_of nq_tx (ad_io (w_adapter w)) = None -> tab_swept RR RS [] w w.
Proof.
  intros El. exists None, (nq_slots (w_uk w)), []. rewrite El. split_and!; [| constructor | | done].
  - rewrite nq_set_same, app_nil_r. destruct w as [? [? ? ? ? ? ? ? ? ? ? ? [] ? ? ? ?] ? ? ? ?]. cbn in *. destruct nq_tx; cbn in *; by subst.
  - apply Forall2_same_length_lookup_2; [done |]. intros i x y Hx Hy. rewrite Hx in Hy. by injection Hy as <-.
Qed.

Lemma poll_tx_null quiet fuel views budget n q total sum w (Q : Z * Z -> world D -> Prop) :
  tx_rings (ad_io (w_adapter w)) = None -> Q (total, sum) w -> wpq quiet (poll_tx_rings fuel views budget n q total sum) Q w.
Proof.
  intros El HQ. revert q. induction n as [| n IH]; intros q; cbn [poll_tx_rings]; [done |].
  apply wpq_bind, wpq_wpm, wpm_ring_at_null; [done |]. apply IH.
Qed.
Lemma poll_rx_null quiet fuel views max n q total sum w (Q : Z * Z * list (Z * ena_rx_pkt) -> world D -> Prop) :
  rx_rings (ad_io (w_adapter w)) = None -> Q (total, sum, []) w -> wpq quiet (poll_rx_rings fuel views max n q total sum) Q w.
Proof.
  intros El HQ. revert q. induction n as [| n IH]; intros q; cbn [poll_rx_rings]; [done |].
  apply wpq_bind, wpq_wpm, wpm_ring_at_null; [done |]. apply IH.
Qed.

Lemma tx_table_spec fuel views budget total sum w :
  poll_ready views w -> 0 < budget -> u32 total = total -> u64 sum = sum ->
  wpq (poll_quiet fuel views w) (poll_tx_rings fuel (pv_tx views) budget (Z.to_nat (num_tx_rings (ad_io (w_adapter w)))) 0 total sum)
    (fun '(total', sum') w' => tab_swept polled_ring polled_slot [] w w'
      /\ exists c, 0 <= c <= num_tx_rings (ad_io (w_adapter w)) * budget /\ total' = u32 (total + c) /\ sum' = u64 (sum + c)) w.
Proof.
  intros [Hn Hfit Htx _] Hb Ht Hu. specialize (Hn true). cbn [num_rings] in Hn.
  destruct (tx_rings (ad_io (w_adapter w))) as [l |] eqn:El.
  - pose proof (Hfit true l El) as Hl. cbn [num_rings] in Hl.
    eapply wpq_mono; [apply (poll_tx_rings_spec _ fuel (pv_tx views) budget l); [| done | lia | by apply Htx | done..] |].
    { intros [Hq _]. by rewrite El in Hq. }
    intros [t u] w' (Hs & c & Hc & -> & ->). split; [exact (swept_tab (S := txq_slot) _ _ l [] w w' El Hs) |]. exists c. split_and!; [lia | lia | done | done].
  - apply poll_tx_null; [done |]. split; [exact (tab_swept_null (S := txq_slot) polled_ring polled_slot w El) |].
    exists 0. rewrite !Z.add_0_r. split_and!; [lia | nia | done | done].
Qed.

Lemma rx_table_spec (quiet : Prop) fuel views max total sum w :
  (quiet -> quiet_views fuel (pv_rx views) (rx_rings (ad_io (w_adapter w)))) -> 0 <= num_rx_rings (ad_io (w_adapter w)) ->
  (forall l, rx_rings (ad_io (w_adapter w)) = Some l ->
     num_rx_rings (ad_io (w_adapter w)) <= Z.of_nat (length l) /\ rx_sound l (pv_rx views) (rx_queues (w_uk w))) ->
  0 < max <= 32 -> u32 total = total -> u64 sum = sum ->
  wpq quiet (poll_rx_rings fuel (pv_rx views) max (Z.to_nat (num_rx_rings (ad_io (w_adapter w)))) 0 total sum)
    (fun '(total', sum', pkts) w' => tab_swept rx_polled_ring rx_polled_slot (omap rxp_netbuf pkts.*2) w w'
      /\ Z.of_nat (length pkts) <= num_rx_rings (ad_io (w_adapter w)) * max
      /\ total' = u32 (total + Z.of_nat (length pkts)) /\ sum' = u64 (sum + Z.of_nat (length pkts))) w.
Proof.
  intros Hq Hn Hrx Hb Ht Hu. destruct (rx_rings (ad_io (w_adapter w))) as [l |] eqn:El.
  - destruct (Hrx l eq_refl) as [Hl Hs].
    eapply wpq_mono; [apply (poll_rx_rings_spec _ fuel (pv_rx views) max l); [done | done | lia | done..] |].
    intros [[t u] pkts] w' (Hs' & Hl' & -> & ->). split; [exact (swept_tab (S := rxq_slot) _ _ l _ w w' El Hs') |]. split_and!; [lia | done | done].
  - apply poll_rx_null; [done |]. split; [exact (tab_swept_null (S := rxq_slot) rx_polled_ring rx_polled_slot w El) |].
    cbn [length]. rewrite !Z.add_0_r. split_and!; [nia | done | done].
Qed.

(** What a step leaves: the rings and queues stay sound, the netbufs of both tables are in the
    rings, were released, or were in a packet received, each once; the numbers add up. *)
Record poll_stepped (ctx : ena_poll_ctx) w (ret work : Z) (ctx' : ena_poll_ctx) (calls : list (Z * ena_rx_pkt)) w' : Prop := {
  ps_tx : option_Forall2 (Forall2 (option_Forall2 polled_ring)) (tx_rings (ad_io (w_adapter w))) (tx_rings (ad_io (w_adapter w')))
    /\ Forall2 polled_slot (tx_queues (w_uk w)) (tx_queues (w_uk w'));
  ps_rx : option_Forall2 (Forall2 (option_Forall2 rx_polled_ring)) (rx_rings (ad_io (w_adapter w))) (rx_rings (ad_io (w_adapter w')))
    /\ Forall2 rx_polled_slot (rx_queues (w_uk w)) (rx_queues (w_uk w'));
  ps_frame : w' = set_w_log (w_log w') (set_w_uk (set_rx_queues (rx_queues (w_uk w')) (set_tx_queues (tx_queues (w_uk w')) (w_uk w)))
    (upd (fun a => set_ad_io (set_rx_rings (rx_rings (ad_io (w_adapter w'))) (set_tx_rings (tx_rings (ad_io (w_adapter w'))) (ad_io a))) a) w));
  ps_work : exists cleaned pkts es,
    w_log w' = w_log w ++ es
    /\ tab_held (tx_rings (ad_io (w_adapter w))) ++ tab_held (rx_rings (ad_io (w_adapter w)))
       ≡ₚ freed es ++ omap rxp_netbuf pkts.*2 ++ tab_held (tx_rings (ad_io (w_adapter w'))) ++ tab_held (rx_rings (ad_io (w_adapter w')))
    /\ calls = (if rx_handler ctx then pkts else [])
    /\ 0 <= cleaned <= num_tx_rings (ad_io (w_adapter w)) * tx_budget ctx'
    /\ Z.of_nat (length pkts) <= num_rx_rings (ad_io (w_adapter w)) * Z.min 32 (rx_budget ctx')
    /\ work = u32 (cleaned + Z.of_nat (length pkts)) /\ ret = i32 work
    /\ total_tx_cleaned ctx' = u64 (total_tx_cleaned ctx + cleaned)
    /\ total_rx_received ctx' = u64 (total_rx_received ctx + Z.of_nat (length pkts))
}.

Lemma tx_sound_kept l l' views qs qs' :
  tx_sound l views qs -> Forall2 (option_Forall2 polled_ring) l l' -> Forall2 polled_slot qs qs' -> tx_sound l' views qs'.
Proof.
  intros Hs HF HS i r' Hr'. destruct (Forall2_lookup_r _ _ _ _ _ HF Hr') as (o & Ho & HR).
  inversion HR as [r ? (_ & Ec & Hw & Hl) |]; subst. destruct (Hs i r Ho) as (Hwf & Hk & Hv & s & Hsl & Hok).
  destruct (Forall2_lookup_l _ _ _ _ _ HS Hsl) as (s' & Hs' & (_ & Hok' & _)). rewrite Ec. split_and!; auto. exists s'. auto.
Qed.
Lemma rx_sound_kept l l' views qs qs' :
  rx_sound l views qs -> Forall2 (option_Forall2 rx_polled_ring) l l' -> Forall2 rx_polled_slot qs qs' -> rx_sound l' views qs'.
Proof.
  intros Hs HF HS i r' Hr'. destruct (Forall2_lookup_r _ _ _ _ _ HF Hr') as (o & Ho & HR).
  inversion HR as [r ? (_ & Ec & _ & Ed & Hw & Hl) |]; subst. destruct (Hs i r Ho) as (Hwf & Hk & Hd & Hv & s & lost & Hsl & Hok).
  destruct (Forall2_lookup_l _ _ _ _ _ HS Hsl) as (s' & Hs' & (_ & _ & Hok')). rewrite Ec, Ed. split_and!; auto. exists s', lost. auto.
Qed.

(** The queues and rings stay ready for the next step. *)
Lemma poll_stepped_ready views ctx w ret work ctx' calls w' :
  poll_ready views w -> poll_stepped ctx w ret work ctx' calls w' -> poll_ready views w'.
Proof.
  intros [Hn Hfit Htx Hrx] [[HT HTq] [HR HRq] Hw _].
  assert (forall tx, num_rings tx (ad_io (w_adapter w')) = num_rings tx (ad_io (w_adapter w))) as En
    by (intros []; rewrite Hw; by destruct w as [? [? ? ? ? ? ? ? ? ? ? ? [] ? ? ? ?] ? ? ? ?]).
  split.
  - intros tx. rewrite En. apply Hn.
  - intros tx l' El'. rewrite En. destruct tx; cbn [rings_of] in El'.
    + rewrite El' in HT. inversion HT as [l ? HF E |]; subst. rewrite <- (Forall2_length _ _ _ HF). by apply Hfit.
    + rewrite El' in HR. inversion HR as [l ? HF E |]; subst. rewrite <- (Forall2_length _ _ _ HF). by apply Hfit.
  - intros l' El'. rewrite El' in HT. inversion HT as [l ? HF E |]; subst. by eapply tx_sound_kept; [apply Htx | exact HF |].
  - intros l' El'. rewrite El' in HR. inversion HR as [l ? HF E |]; subst. by eapply rx_sound_kept; [apply Hrx | exact HF |].
Qed.

Lemma poll_stepped_refl ctx txb rxb w :
  num_tx_rings (ad_io (w_adapter w)) = 0 -> num_rx_rings (ad_io (w_adapter w)) = 0 ->
  0 <= total_tx_cleaned ctx < 2 ^ 64 -> 0 <= total_rx_received ctx < 2 ^ 64 ->
  poll_stepped ctx w 0 0 (mkPollCtx txb rxb (total_tx_cleaned ctx) (total_rx_received ctx) (rx_handler ctx)) [] w.
Proof.
  intros Et Er Ht Hr. split.
  - by split.
  - by split.
  - unfold upd. by destruct w as [[] [? ? ? ? ? ? ? ? ? ? ? [] ? ? ? ?] ? ? ? ?].
  - exists 0, [], []. rewrite app_nil_r, Et, Er, !Z.add_0_r, !u64_id by done. split_and!; try done. by destruct (rx_handler ctx).
Qed.

(** The two sweeps together. *)
Lemma sweeps_stepped ctx txb rxb cleaned pkts w w1 w2 :
  tab_swept polled_ring polled_slot [] w w1 -> tab_swept rx_polled_ring rx_polled_slot (omap rxp_netbuf pkts.*2) w1 w2 ->
  0 <= cleaned <= num_tx_rings (ad_io (w_adapter w)) * txb -> Z.of_nat (length pkts) <= num_rx_rings (ad_io (w_adapter w)) * Z.min 32 rxb ->
  let work := u32 (cleaned + Z.of_nat (length pkts)) in
  poll_stepped ctx w (i32 work) work (mkPollCtx txb rxb (u64 (total_tx_cleaned ctx + cleaned))
    (u64 (total_rx_received ctx + Z.of_nat (length pkts))) (rx_handler ctx)) (if rx_handler ctx then pkts else []) w2.
Proof.
  intros (ot & tq & es1 & -> & HT & HTq & Hh1) (orr & rq & es2 & -> & HR & HRq & Hh2) Hc Hl. cbn in *. split; cbn.
  - done.
  - done.
  - unfold upd. wsimpl. destruct w as [[] [? ? ? ? ? ? ? ? ? ? ? [] ? ? ? ?] ? ? ? ?]. reflexivity.
  - exists cleaned, pkts, (es1 ++ es2). split; [by rewrite app_assoc |]. split; [| split_and!; (done || lia)].
    rewrite Hh1, Hh2, freed_app, <- !app_assoc. apply Permutation_app_head. solve_Permutation.
Qed.

End Step.

(** ** Example: a completed packet on the TX ring, a packet and a bad completion on the RX ring *)
Definition ex_poll : world ex_dev :=
  set_w_uk (mkUk 3 [mkRxSlot None 0 example_rxq (mkBounceBlk None None None) []]
              [mkTxSlot None 0 (mkTxq (bounce_fresh 0x90000 4) false 0) (mkBounceBlk None None None) 0] msix_zero [])
    (upd (set_ad_io (mkIo (Some [Some example_sent]) (Some [Some example_posted]) 1 1 None None)) ex_world0).
Definition ex_poll_views : poll_views := mkViews (fun _ _ _ => example_cq) (fun _ _ _ => example_rx_cq).
Definition ex_poll_ctx : ena_poll_ctx := mkPollCtx 0 0 5 9 true.

Lemma ex_poll_ready : poll_ready ex_poll_views ex_poll.
Proof.
  split.
  - by intros [].
  - intros [] l El; [rewrite (length_only example_sent _ l eq_refl El) | rewrite (length_only example_posted _ l eq_refl El)]; apply Z.le_refl.
  - intros l El i r Hi. destruct (lookup_only example_sent r _ l i eq_refl El Hi) as [-> ->]. clear El Hi.
    split; [exact example_sent_wf |]. split; [reflexivity |]. split; [exact example_view_ok |].
    eexists. split; [reflexivity |]. intros q [= <-]. apply wf_bounce_fresh, pow2_depth_4.
  - intros l El i r Hi. destruct (lookup_only example_posted r _ l i eq_refl El Hi) as [-> ->]. clear El Hi.
    split; [exact example_posted_wf |]. split; [reflexivity |]. split; [vm_compute; reflexivity |]. split; [exact example_rx_view_ok |].
    eexists _, []. split; [reflexivity |]. intros q [= <-]. apply (rr_wf _ _ _ example_rxq_ready).
Qed.

Lemma ex_poll_quiet : poll_quiet 5 ex_poll_views ex_poll.
Proof.
  split; intros l i r El Hi.
  - destruct (lookup_only example_sent r _ l i eq_refl El Hi) as [-> ->]. split; [reflexivity | exists example_cq; reflexivity].
  - destruct (lookup_only example_posted r _ l i eq_refl El Hi) as [-> ->]. split; [reflexivity | exists example_rx_cq; reflexivity].
Qed.

Lemma ex_poll_run : wpm (ena_poll_step 5 ex_poll_views ex_poll_ctx) (fun '(ret, _, _, calls) w' =>
  ret = 2 /\ calls.*1 = [0] /\ freed (w_log w') = [7; 101]) ex_poll.
Proof. vm_compute. by split_and!. Qed.

