(* ===== verification/Pci.v ===== *)
(** * Probe and removal of the PCI device

    src/ena_pci.c: the access to configuration space, the measurement and mapping of the
    BARs, the registry of probed devices, [ena_pci_add_dev] and [ena_pci_remove_dev].
    They compose the components of the other files: the scaffold and the admin queues, the
    bring-up, the interrupts, and the tear-down.

    The address space and the network core of the kernel are the class [KernelServices]
    over a state [K] of their own.  [struct ena_uk_device] is split: its adapter and its
    queues are those of the world, the rest is [ena_uk_device].  The world is that of the
    device being probed or removed. *)

From stdpp Require Import base tactics option list list_numbers numbers sets functions gmap.
From Stdlib Require Import ZArith Lia.
From S2P Require Import Prelude Fifo Mem Desc Netq Ring Tx Rx Adapter Admin Session Exec Device Control Queue Init Rss Recover Netconf Plat Intr Netdev.

(** ** The world outside *)

(** Mapping of device memory, by length and physical address: result and virtual address.
    [uk_vma_find] gives the start and the end of the mapping around an address.  The network
    core allocates from the heap. *)
Class KernelServices (K : Type) := {
  page_shift : Z;
  page_align_down : Z -> Z;
  page_align_up : Z -> Z;
  uk_vma_map_dma : Z -> Z -> K -> Z * Z * K;
  uk_vma_find : Z -> K -> option (Z * Z);
  uk_vma_unmap : Z -> Z -> K -> K;
  uk_paging_page_map : Z -> Z -> Z -> K -> Z * K;
  uk_netdev_drv_register : heap -> K -> Z * heap * K
}.

(** Documented behaviour.  [vmas]: the mappings, start to length; none is shorter than a
    page.  The core keeps its own blocks only when it registers the device. *)
Class KernelServicesOk (K : Type) `{KernelServices K} := {
  vmas : K -> gmap Z Z;
  page_shift_ok : 0 <= page_shift < 64;
  page_down_ok x : page_align_down x <= x < page_align_down x + 2 ^ page_shift;
  vma_map_ok len pa k ret v k' : uk_vma_map_dma len pa k = (ret, v, k') ->
    ret <= 0 /\ if ret =? 0 then 0 < v /\ 2 ^ page_shift <= len /\ vmas k !! v = None /\ vmas k' = <[v := len]> (vmas k)
                else vmas k' = vmas k;
  vma_find_ok v len a k : vmas k !! v = Some len -> v <= a < v + len -> uk_vma_find a k = Some (v, v + len);
  vma_unmap_ok v len k : vmas k !! v = Some len -> vmas (uk_vma_unmap v len k) = delete v (vmas k);
  page_map_ok va pa n k : vmas (uk_paging_page_map va pa n k).2 = vmas k;
  drv_register_ok h k ret h' k' : wf_heap h -> uk_netdev_drv_register h k = (ret, h', k') ->
    vmas k' = vmas k /\ wf_heap h' /\ exists B, B ## h_live h /\ h_live h' = B ∪ h_live h /\ (ret < 0 -> B = ∅)
}.

(** The build options that choose how a BAR is mapped: CONFIG_LIBUKVMEM, else
    CONFIG_LIBUKPAGING, else neither. *)
Inductive bar_mapping := MapVmem | MapPaging | MapDirect.

(** ** Data *)

(** [struct pci_device] by its address in memory and its PCI address. *)
Record pci_device := mkPdev { pdev_ptr : Z; pdev_addr : pci_address }.

(** [struct ena_uk_device] at address [ed_ptr]; [ed_ops], [ed_rx_one], [ed_tx_one]: the
    callbacks of the network device are set. *)
Record ena_uk_device := mkEdev {
  ed_ptr : Z;
  ed_pdev : option Z;
  bar0_vaddr : option Z;
  bar2_vaddr : option Z;
  ed_uid : Z;
  ed_ops : bool;
  ed_rx_one : bool;
  ed_tx_one : bool
}.

Definition set_ed_pdev (p : option Z) (e : ena_uk_device) : ena_uk_device :=
  mkEdev (ed_ptr e) p (bar0_vaddr e) (bar2_vaddr e) (ed_uid e) (ed_ops e) (ed_rx_one e) (ed_tx_one e).
Definition set_bar2 (b : option Z) (n : Z) (a : ena_adapter) : ena_adapter :=
  mkAdapter (mkBars (bar0_base (ad_bars a)) (bar0_size (ad_bars a)) b n) (ad_state a) (ad_adm a) (recover_active a) (ad_aen a)
    (link_up a) (ad_ver a) (ad_attr a) (ad_lim a) (ad_mtu a) (ad_host a) (ad_io a) (irq_vectors a) (num_irq_vectors a)
    (llq_info a) (rss_info a).

Definition ENA_PCI_VENDOR_ID : Z := 0x1D0F.
Definition ENA_PCI_DEV_ID_RESERVED : Z := 0x0051.
Definition ENA_PCI_DEV_ID_PF : Z := 0x0EC2.
Definition ENA_PCI_DEV_ID_LLQ_PF : Z := 0x1EC2.
Definition ENA_PCI_DEV_ID_VF : Z := 0xEC20.
Definition ENA_PCI_DEV_ID_LLQ_VF : Z := 0xEC21.
Definition ENA_PCI_MAX_DEVS : Z := 8.
Definition EEXIST : Z := 17.

Definition supported_pci_ids : list (Z * Z) :=
  pair ENA_PCI_VENDOR_ID <$>
    [ENA_PCI_DEV_ID_RESERVED; ENA_PCI_DEV_ID_PF; ENA_PCI_DEV_ID_LLQ_PF; ENA_PCI_DEV_ID_VF; ENA_PCI_DEV_ID_LLQ_VF].
Fixpoint match_ids (vendor_id device_id : Z) (ids : list (Z * Z)) : Z :=
  match ids with
  | [] => 0
  | (v, d) :: ids => if (v =? vendor_id) && (d =? device_id) then 1 else match_ids vendor_id device_id ids
  end.
Definition ena_pci_match_id (vendor_id device_id : Z) : Z := match_ids vendor_id device_id supported_pci_ids.

(** ** The registry *)
Fixpoint ena_pci_find_edev (l : list (option ena_uk_device)) (pdev : Z) : option ena_uk_device :=
  match l with
  | [] => None
  | Some e :: l => if bool_decide (ed_pdev e = Some pdev) then Some e else ena_pci_find_edev l pdev
  | None :: l => ena_pci_find_edev l pdev
  end.
Fixpoint track_slot (e : ena_uk_device) (l : list (option ena_uk_device)) : Z * list (option ena_uk_device) :=
  match l with
  | [] => (- ENOSPC, [])
  | None :: l => (0, Some e :: l)
  | Some e' :: l => let '(ret, l) := track_slot e l in (ret, Some e' :: l)
  end.
Definition ena_pci_track_edev (e : ena_uk_device) (pdev : Z) (l : list (option ena_uk_device)) :
    Z * list (option ena_uk_device) :=
  track_slot (set_ed_pdev (Some pdev) e) l.
Fixpoint clear_slot (p : Z) (l : list (option ena_uk_device)) : list (option ena_uk_device) :=
  match l with
  | [] => []
  | Some e :: l => if ed_ptr e =? p then None :: l else Some e :: clear_slot p l
  | None :: l => None :: clear_slot p l
  end.

(** ** Configuration space *)
Section Config.
Context {D : Type} `{PciConfig D}.

Definition pci_read32 (addr : pci_address) (reg : Z) : M D Z := fun w =>
  let '(v, d) := cfg_read (config_addr addr reg) (w_dev w) in Ret (v, set_w_dev d w).
Definition pci_write32 (addr : pci_address) (reg v : Z) : M D unit := fun w =>
  Ret (tt, set_w_dev (cfg_write (config_addr addr reg) v (w_dev w)) w).

Definition pci_enable_device (addr : pci_address) : M D unit :=
  cmd ← pci_read32 addr 0x04;
  pci_write32 addr 0x04 (Z.lor cmd 7).

Definition pci_read_bar (addr : pci_address) (reg : Z) : M D Z :=
  bar_lo ← pci_read32 addr reg;
  let bar := Z.land bar_lo 0xFFFFFFF0 in
  if Z.land bar_lo 0x06 =? 0x04 then
    bar_hi ← pci_read32 addr (reg + 4);
    mret (Z.lor bar (Z.shiftl bar_hi 32))
  else mret bar.

Definition pci_read_bar_size (addr : pci_address) (reg : Z) : M D Z :=
  bar_lo_orig ← pci_read32 addr reg;
  let bar64 := Z.land bar_lo_orig 0x06 =? 0x04 in
  bar_hi_orig ← (if bar64 then pci_read32 addr (reg + 4) else mret 0);
  pci_write32 addr reg 0xFFFFFFFF;;
  (if bar64 then pci_write32 addr (reg + 4) 0xFFFFFFFF else mret tt);;
  mask_lo ← pci_read32 addr reg;
  mask ← (if bar64 then
            mask_hi ← pci_read32 addr (reg + 4);
            mret (if mask_lo =? 0xFFFFFFFF then Z.lor (Z.shiftl mask_hi 32) mask_lo else Z.land mask_lo 0xFFFFFFF0)
          else mret (Z.land mask_lo 0xFFFFFFF0));
  pci_write32 addr reg bar_lo_orig;;
  (if bar64 then pci_write32 addr (reg + 4) bar_hi_orig else mret tt);;
  mret (if mask =? 0 then 0 else u64 (Z.lnot mask + 1)).

(** The reads of the loop that prints the BARs. *)
Fixpoint dump_bars (addr : pci_address) (n : nat) (b : Z) : M D unit :=
  match n with
  | O => mret tt
  | S n => pci_read32 addr (0x10 + b * 4);; dump_bars addr n (b + 1)
  end.
End Config.

(** ** The world of the probe: the device, the kernel and the registry *)
Record pci_world (D K : Type) := mkPw {
  pw_w : world D;
  pw_k : K;
  s_edevs : list (option ena_uk_device)
}.
Arguments mkPw {D K} _ _ _.
Arguments pw_w {D K} _.
Arguments pw_k {D K} _.
Arguments s_edevs {D K} _.

Definition PM (D K A : Type) : Type := pci_world D K -> res (A * pci_world D K).
#[global] Instance PM_ret D K : MRet (PM D K) := fun A a p => Ret (a, p).
#[global] Instance PM_bind D K : MBind (PM D K) := fun A B f m p =>
  match m p with
  | Ret (a, p') => f a p'
  | Fault => Fault
  | Hang => Hang
  end.

Section Probe.
Context {D K : Type} `{EnaDevice D} `{PciConfig D} `{IntCtlr D} `{AdminExec D} `{KernelServices K}.

Definition run {A} (m : M D A) : PM D K A := fun p =>
  '(a, w) ← m (pw_w p); Ret (a, mkPw w (pw_k p) (s_edevs p)).
Definition get_edevs : PM D K (list (option ena_uk_device)) := fun p => Ret (s_edevs p, p).
Definition put_edevs (l : list (option ena_uk_device)) : PM D K unit := fun p => Ret (tt, mkPw (pw_w p) (pw_k p) l).
Definition kcall {A} (f : K -> A * K) : PM D K A := fun p => let '(a, k) := f (pw_k p) in Ret (a, mkPw (pw_w p) k (s_edevs p)).
Definition drv_register : PM D K Z := fun p =>
  let '(ret, h, k) := uk_netdev_drv_register (w_heap (pw_w p)) (pw_k p) in Ret (ret, mkPw (set_w_heap h (pw_w p)) k (s_edevs p)).

(** Arithmetic on addresses and sizes has 64 bits. *)
Definition ena_pci_map_bar (how : bar_mapping) (phys_addr size : Z) : PM D K (option Z) :=
  let paddr_aligned := page_align_down phys_addr in
  let offset := u64 (phys_addr - paddr_aligned) in
  let len := page_align_up (u64 (size + offset)) in
  match how with
  | MapVmem =>
      '(ret, vaddr) ← kcall (uk_vma_map_dma len paddr_aligned);
      if z2b ret then mret None else mret (Some (vaddr + offset))
  | MapPaging =>
      ret ← kcall (uk_paging_page_map paddr_aligned paddr_aligned (Z.shiftr len page_shift));
      if z2b ret && negb (ret =? - EEXIST) then mret None
      else mret (if paddr_aligned + offset =? 0 then None else Some (paddr_aligned + offset))
  | MapDirect => mret (if phys_addr =? 0 then None else Some phys_addr)
  end.

Definition ena_pci_unmap_bar (how : bar_mapping) (vaddr : option Z) : PM D K unit :=
  match how, vaddr with
  | MapVmem, Some v => kcall (fun k =>
      match uk_vma_find v k with
      | Some (s, e) => (tt, uk_vma_unmap s (e - s) k)
      | None => (tt, k)
      end)
  | _, _ => mret tt
  end.

(** The removed device, if the registry knew it, with its callbacks cleared. *)
Definition ena_pci_remove_dev (how : bar_mapping) (fuel : nat) (views : Z -> tx_view) (pdev : Z) :
    PM D K (option ena_uk_device) :=
  l ← get_edevs;
  match ena_pci_find_edev l pdev with
  | None => mret None
  | Some e =>
      run (ena_netdev_teardown fuel views);;
      ena_pci_unmap_bar how (bar0_vaddr e);;
      ena_pci_unmap_bar how (bar2_vaddr e);;
      put_edevs (clear_slot (ed_ptr e) l);;
      mret (Some (mkEdev (ed_ptr e) (ed_pdev e) (bar0_vaddr e) (bar2_vaddr e) (ed_uid e) false false false))
  end.

(** The first step: BARs read and measured, BAR0 mapped, and the device enabled.  Result:
    BAR0, its size, and address and size of BAR2; or the error. *)
Definition probe_bars (how : bar_mapping) (addr : pci_address) : PM D K (option (Z * Z * Z * Z)) :=
  run (dump_bars addr 6 0);;
  size ← run (pci_read_bar_size addr 0x10);
  let bar0_size := u32 size in
  let bar0_size := if bar0_size =? 0 then 0x4000 else bar0_size in
  let bar0_size := if bar0_size <? 0x104 then 0x104 else bar0_size in
  bar0_phys ← run (pci_read_bar addr 0x10);
  bar0 ← ena_pci_map_bar how bar0_phys bar0_size;
  match bar0 with
  | None => mret None
  | Some bar0 =>
      bar2_lo ← run (pci_read32 addr 0x18);
      '(bar2_phys, bar2_size) ← (if Z.land bar2_lo 0x01 =? 0 then
          p ← run (pci_read_bar addr 0x18); s ← run (pci_read_bar_size addr 0x18); mret (p, s)
        else mret (0, 0));
      run (pci_enable_device addr);;
      mret (Some (bar0, bar0_size, bar2_phys, bar2_size))
  end.

(** The optional BAR2. *)
Definition probe_bar2 (how : bar_mapping) (bar2_phys bar2_size : Z) : PM D K (option Z) :=
  if negb (bar2_phys =? 0) && negb (bar2_size =? 0) then
    b ← ena_pci_map_bar how bar2_phys bar2_size;
    (if non_null b then run (mod_ad (set_bar2 b bar2_size)) else mret tt);;
    mret b
  else mret None.

(** From the admin queues to the registration: the steps that act on the allocated
    structure [e]. *)
Definition probe_start (ncpus : Z) (pdev : pci_device) (e bar0 : Z) (bar2 : option Z) : PM D K Z :=
  run (reg_read32 ENA_REGS_DEV_STS_OFF);;
  ret ← run (ena_admin_init 32 32 32);
  if z2b ret then run (free (Some e));; mret ret
  else
    ret ← run (ena_init_run 1500);
    if z2b ret then run ena_admin_fini;; run (free (Some e));; mret ret
    else
      run (ena_admin_aenq_register (Some AenqDefault) true);;
      run (ena_intr_setup ncpus (Some (pdev_addr pdev)));;
      ret ← drv_register;
      if ret <? 0 then run ena_intr_msix_fini;; run ena_admin_fini;; run (free (Some e));; mret ret
      else
        l ← get_edevs;
        put_edevs (ena_pci_track_edev (mkEdev e None (Some bar0) bar2 (u16 ret) true true true) (pdev_ptr pdev) l).2;;
        mret 0.

(** [ncpus] is CONFIG_UKPLAT_CPU_MAXCOUNT.  The structure comes zeroed from the heap. *)
Definition ena_pci_add_dev (how : bar_mapping) (ncpus : Z) (pdev : pci_device) : PM D K Z :=
  o ← probe_bars how (pdev_addr pdev);
  match o with
  | None => mret (- ENOMEM)
  | Some (bar0, bar0_size, bar2_phys, bar2_size) =>
      edev ← run calloc;
      match edev with
      | None => ena_pci_unmap_bar how (Some bar0);; mret (- ENOMEM)
      | Some e =>
          run (put_ad (adapter_zero None 0));;
          run (mod_uk (fun u => set_rx_queues (rx_queues uk_zero) (set_tx_queues (tx_queues uk_zero) u)));;
          ret ← run (ena_device_init_scaffold (Some bar0) bar0_size);
          if z2b ret then ena_pci_unmap_bar how (Some bar0);; run (free (Some e));; mret ret
          else
            bar2 ← probe_bar2 how bar2_phys bar2_size;
            probe_start ncpus pdev e bar0 bar2
      end
  end.
End Probe.

(** ** The registers of a function *)

(** A write changes the writable bits. *)
Definition cfg_merge (m old v : Z) : Z := Z.lor (Z.land v m) (Z.ldiff old m).
Definition is_bar (reg : Z) : Prop := reg ∈ [0x10; 0x14; 0x18; 0x1C; 0x20; 0x24].

(** Documented behaviour of the registers that the probe writes: the BARs, of which some bits
    can be written, and the command register.  Neither has an effect on another one. *)
Class PciBars (D : Type) `{PciConfigOk D} := {
  cfg_mask : Z -> D -> Z;
  cfg_write_bar addr reg v d : is_bar reg ->
    cfg_val (config_addr addr reg) (cfg_write (config_addr addr reg) v d)
    = cfg_merge (cfg_mask (config_addr addr reg) d) (cfg_val (config_addr addr reg) d) v;
  cfg_write_other addr reg r v d : is_bar reg \/ reg = 0x04 -> r <> config_addr addr reg ->
    cfg_val r (cfg_write (config_addr addr reg) v d) = cfg_val r d;
  cfg_mask_read r r' d : cfg_mask r (cfg_read r' d).2 = cfg_mask r d;
  cfg_mask_write r r' v d : cfg_mask r (cfg_write r' v d) = cfg_mask r d
}.

Lemma cfg_merge_restore m old v : cfg_merge m (cfg_merge m old v) old = old.
Proof.
  unfold cfg_merge. apply Z.bits_inj'. intros n Hn. rewrite !Z.lor_spec, !Z.land_spec, !Z.ldiff_spec, !Z.lor_spec, !Z.land_spec, !Z.ldiff_spec.
  by destruct (Z.testbit v n), (Z.testbit m n), (Z.testbit old n).
Qed.

Lemma config_addr_low addr reg : Z.land (config_addr addr reg) 0xFF = Z.land reg 0xFC.
Proof.
  assert (forall x n, 8 <= n -> Z.land (Z.shiftl x n) 0xFF = 0) as Hs.
  { intros x n Hn. change 0xFF with (Z.ones 8). rewrite Z.land_ones, Z.shiftl_mul_pow2 by lia.
    replace (2 ^ n) with (2 ^ (n - 8) * 2 ^ 8) by (rewrite <- Z.pow_add_r by lia; f_equal; lia).
    rewrite Z.mul_assoc. apply Z.mod_mul. lia. }
  unfold config_addr. rewrite !Z.land_lor_distr_l, !Hs by lia. rewrite <- Z.land_assoc. done.
Qed.

Lemma config_addr_ne addr reg reg' : Z.land reg 0xFC <> Z.land reg' 0xFC -> config_addr addr reg <> config_addr addr reg'.
Proof. intros Hne E. apply Hne. by rewrite <- !(config_addr_low addr), E. Qed.

(** What the size probe computes from the low and the high register and their masks. *)
Definition bar_size_of (lo hi mlo mhi : Z) : Z :=
  let ml := cfg_merge mlo lo 0xFFFFFFFF in
  let mask := if (Z.land lo 0x06 =? 0x04) && (ml =? 0xFFFFFFFF) then Z.lor (Z.shiftl (cfg_merge mhi hi 0xFFFFFFFF) 32) ml
              else Z.land ml 0xFFFFFFF0 in
  if mask =? 0 then 0 else u64 (Z.lnot mask + 1).
Definition bar_addr_of (lo hi : Z) : Z :=
  if Z.land lo 0x06 =? 0x04 then Z.lor (Z.land lo 0xFFFFFFF0) (Z.shiftl hi 32) else Z.land lo 0xFFFFFFF0.

Section ConfigProofs.
Context {D : Type} `{PciBars D}.
Implicit Types (w : world D) (d : D) (f m : Z -> Z).

(** Values and masks of all registers. *)
Definition cfg_like f m d : Prop := (forall r, cfg_val r d = f r) /\ (forall r, cfg_mask r d = m r).

Lemma cfg_like_refl d : cfg_like (fun r => cfg_val r d) (fun r => cfg_mask r d) d.
Proof. by split. Qed.

Lemma wpm_pci_read32 f m addr reg (Q : Z -> world D -> Prop) w :
  cfg_like f m (w_dev w) ->
  (forall d, cfg_like f m d -> Q (f (config_addr addr reg)) (set_w_dev d w)) -> wpm (pci_read32 addr reg) Q w.
Proof.
  intros [Hf Hm] HQ. unfold wpm, pci_read32. pose proof (cfg_read_val (config_addr addr reg) (w_dev w)) as E.
  assert (cfg_like f m (cfg_read (config_addr addr reg) (w_dev w)).2) as Hd
    by (split; intros r; [rewrite cfg_read_keeps; apply Hf | rewrite cfg_mask_read; apply Hm]).
  destruct (cfg_read _ _) as [v d]. cbn [fst snd] in *. subst v. rewrite Hf. by apply HQ.
Qed.

Lemma wpm_pci_write32 f m addr reg v (Q : unit -> world D -> Prop) w :
  cfg_like f m (w_dev w) -> is_bar reg ->
  (forall d, cfg_like (<[config_addr addr reg := cfg_merge (m (config_addr addr reg)) (f (config_addr addr reg)) v]> f) m d ->
     Q tt (set_w_dev d w)) -> wpm (pci_write32 addr reg v) Q w.
Proof.
  intros [Hf Hm] Hb HQ. unfold wpm, pci_write32. apply HQ. split; intros r; [| rewrite cfg_mask_write; apply Hm].
  destruct (decide (r = config_addr addr reg)) as [-> | Hne].
  - by rewrite fn_lookup_insert, cfg_write_bar, Hf, Hm.
  - rewrite fn_lookup_insert_ne by done. rewrite cfg_write_other by (done || by left). apply Hf.
Qed.

Lemma pci_read_bar_spec f m addr reg w (Q : Z -> world D -> Prop) :
  cfg_like f m (w_dev w) ->
  (forall d, cfg_like f m d -> Q (bar_addr_of (f (config_addr addr reg)) (f (config_addr addr (reg + 4)))) (set_w_dev d w)) ->
  wpm (pci_read_bar addr reg) Q w.
Proof.
  intros Hl HQ. unfold pci_read_bar. unfold bar_addr_of in HQ. apply wpm_bind, (wpm_pci_read32 f m); [done |]. intros d1 Hd1.
  destruct (_ =? _); [| apply wpm_ret; by apply HQ]. apply wpm_bind, (wpm_pci_read32 f m); [done |]. intros d2 Hd2. by apply wpm_ret, HQ.
Qed.

(** The registers are as before: what was all ones was written back. *)
Lemma pci_read_bar_size_spec f m addr reg w (Q : Z -> world D -> Prop) :
  cfg_like f m (w_dev w) -> is_bar reg -> is_bar (reg + 4) -> Z.land reg 0xFC <> Z.land (reg + 4) 0xFC ->
  let r := config_addr addr reg in let r' := config_addr addr (reg + 4) in
  (forall d, cfg_like f m d -> Q (bar_size_of (f r) (f r') (m r) (m r')) (set_w_dev d w)) ->
  wpm (pci_read_bar_size addr reg) Q w.
Proof.
  intros Hl Hb Hb' Hne r r' HQ. apply (config_addr_ne addr) in Hne. fold r r' in Hne. unfold pci_read_bar_size.
  apply wpm_bind, (wpm_pci_read32 f m); [done |]. fold r. intros d1 Hd1. unfold bar_size_of in HQ. destruct (Z.land (f r) 0x06 =? 0x04).
  - apply wpm_bind, (wpm_pci_read32 f m); [done |]. fold r'. intros d2 Hd2.
    apply wpm_bind, (wpm_pci_write32 f m); [done | done |]. fold r. intros d3 Hd3. set (f1 := <[r := _]> f) in *.
    apply wpm_bind, (wpm_pci_write32 f1 m); [done | done |]. fold r'. intros d4 Hd4. set (f2 := <[r' := _]> f1) in *.
    assert (f1 r' = f r') as E1 by (unfold f1; by rewrite fn_lookup_insert_ne).
    assert (f2 r = cfg_merge (m r) (f r) 0xFFFFFFFF) as E2 by (unfold f2, f1; by rewrite fn_lookup_insert_ne, fn_lookup_insert).
    assert (f2 r' = cfg_merge (m r') (f r') 0xFFFFFFFF) as E3 by (unfold f2; by rewrite fn_lookup_insert, E1).
    apply wpm_bind, (wpm_pci_read32 f2 m); [done |]. fold r. intros d5 Hd5. rewrite E2.
    apply wpm_bind, wpm_bind, (wpm_pci_read32 f2 m); [done |]. fold r'. intros d6 Hd6. rewrite E3. apply wpm_ret.
    apply wpm_bind, (wpm_pci_write32 f2 m); [done | done |]. fold r. intros d7 Hd7. set (f3 := <[r := _]> f2) in *.
    apply wpm_bind, (wpm_pci_write32 f3 m); [done | done |]. fold r'. intros d8 [Hf Hm]. apply wpm_ret, HQ. split; [| done].
    intros x. rewrite Hf. destruct (decide (x = r')) as [-> | Hx'].
    + rewrite fn_lookup_insert. unfold f3. rewrite fn_lookup_insert_ne, E3 by done. apply cfg_merge_restore.
    + rewrite fn_lookup_insert_ne by done. unfold f3. destruct (decide (x = r)) as [-> | Hx].
      * rewrite fn_lookup_insert, E2. apply cfg_merge_restore.
      * rewrite fn_lookup_insert_ne by done. unfold f2, f1. by rewrite !fn_lookup_insert_ne.
  - apply wpm_bind, wpm_ret, wpm_bind, (wpm_pci_write32 f m); [done | done |]. fold r. intros d2 Hd2. set (f1 := <[r := _]> f) in *.
    apply wpm_bind, wpm_ret, wpm_bind, (wpm_pci_read32 f1 m); [done |]. fold r. intros d3 Hd3.
    apply wpm_bind, wpm_ret, wpm_bind, (wpm_pci_write32 f1 m); [done | done |]. fold r. intros d4 [Hf Hm].
    assert (f1 r = cfg_merge (m r) (f r) 0xFFFFFFFF) as E1 by (unfold f1; by rewrite fn_lookup_insert).
    apply wpm_bind, wpm_ret, wpm_ret. rewrite E1 in *. apply HQ. split; [| done].
    intros x. rewrite Hf. destruct (decide (x = r)) as [-> | Hx].
    + rewrite fn_lookup_insert. apply cfg_merge_restore.
    + rewrite fn_lookup_insert_ne by done. unfold f1. by rewrite fn_lookup_insert_ne.
Qed.

Lemma pci_enable_spec f m addr w (Q : unit -> world D -> Prop) :
  cfg_like f m (w_dev w) ->
  (forall d, (forall r, r <> config_addr addr 0x04 -> cfg_val r d = f r) -> Q tt (set_w_dev d w)) -> wpm (pci_enable_device addr) Q w.
Proof.
  intros Hl HQ. unfold pci_enable_device. apply wpm_bind, (wpm_pci_read32 f m); [done |]. intros d [Hf Hm].
  unfold wpm, pci_write32. apply HQ. intros r Hr. rewrite cfg_write_other by (done || by right). apply Hf.
Qed.

Lemma dump_bars_spec f m addr n b w (Q : unit -> world D -> Prop) :
  cfg_like f m (w_dev w) -> (forall d, cfg_like f m d -> Q tt (set_w_dev d w)) -> wpm (dump_bars addr n b) Q w.
Proof.
  revert b w. induction n as [| n IH]; intros b w Hl HQ; simpl.
  - apply wpm_ret. specialize (HQ _ Hl). by destruct w.
  - apply wpm_bind, (wpm_pci_read32 f m); [done |]. intros d Hd. by apply IH.
Qed.
End ConfigProofs.

(** ** Address and size of a BAR *)

(** A memory BAR of 2^k bytes: its writable bits are the address bits from k on, its four low
    bits say what it is, and its base is a multiple of its size. *)
Record mem_bar (k lo mlo : Z) : Prop := {
  mb_size : 4 <= k <= 31;
  mb_mask : mlo = 2 ^ 32 - 2 ^ k;
  mb_mem : Z.testbit lo 0 = false;
  mb_base : Z.land lo (Z.ones k) < 16
}.

Lemma bar_mask_bits k i : 0 <= k <= 32 -> 0 <= i -> Z.testbit (2 ^ 32 - 2 ^ k) i = (k <=? i) && (i <? 32).
Proof.
  intros Hk Hi. replace (2 ^ 32 - 2 ^ k) with (Z.shiftl (Z.ones (32 - k)) k).
  - rewrite Z.shiftl_spec by done. destruct (Z.leb_spec k i) as [Hle | Hlt]; cbn [andb].
    + rewrite Z.testbit_ones by lia. destruct (Z.ltb_spec i 32), (Z.leb_spec 0 (i - k)), (Z.ltb_spec (i - k) (32 - k)); lia || done.
    + apply Z.testbit_neg_r. lia.
  - rewrite Z.shiftl_mul_pow2, Z.ones_equiv by lia. rewrite Z.mul_pred_l, <- Z.pow_add_r by lia. f_equal. f_equal. lia.
Qed.

Lemma mem_bar_mask k lo mlo :
  mem_bar k lo mlo -> Z.land (cfg_merge mlo lo 0xFFFFFFFF) 0xFFFFFFF0 = 2 ^ 32 - 2 ^ k /\ cfg_merge mlo lo 0xFFFFFFFF <> 0xFFFFFFFF.
Proof.
  intros [Hk -> Hm Hb]. unfold cfg_merge. change 0xFFFFFFF0 with (2 ^ 32 - 2 ^ 4). change 0xFFFFFFFF with (2 ^ 32 - 2 ^ 0) at 1 3.
  assert (forall i, 4 <= i < k -> Z.testbit lo i = false) as Hz.
  { intros i Hi. assert (0 <= Z.land lo (Z.ones k)) by (apply Z.land_nonneg; right; rewrite Z.ones_equiv; lia).
    rewrite <- (andb_true_r (Z.testbit lo i)). rewrite <- (Z.ones_spec_low k i) by lia. rewrite <- Z.land_spec.
    destruct (Z.eq_dec (Z.land lo (Z.ones k)) 0) as [-> |]; [by rewrite Z.bits_0 |]. apply Z.bits_above_log2; [done |].
    apply (Z.lt_le_trans _ 4); [| lia]. apply Z.log2_lt_pow2; lia. }
  split.
  - apply Z.bits_inj'. intros i Hi. rewrite Z.land_spec, Z.lor_spec, Z.land_spec, Z.ldiff_spec, !bar_mask_bits by lia.
    destruct (Z.leb_spec k i), (Z.ltb_spec i 32), (Z.leb_spec 4 i), (Z.leb_spec 0 i); cbn [andb orb negb];
      rewrite ?andb_false_r, ?andb_true_r; try done; try lia; by apply Hz.
  - intros E. apply (f_equal (fun x => Z.testbit x 0)) in E. rewrite Z.lor_spec, Z.land_spec, Z.ldiff_spec, !bar_mask_bits, Hm in E by lia.
    destruct (Z.leb_spec k 0); [lia |]. by rewrite andb_false_r in E.
Qed.

(** The address bits of a 32-bit register. *)
Lemma bar_base_bits lo : 0 <= lo < 2 ^ 32 -> Z.land lo 0xFFFFFFF0 = lo - lo mod 16.
Proof.
  intros Hlo. transitivity (Z.shiftl (Z.shiftr lo 4) 4).
  - apply Z.bits_inj'. intros i Hi. change 0xFFFFFFF0 with (2 ^ 32 - 2 ^ 4). rewrite Z.land_spec, bar_mask_bits, Z.shiftl_spec by lia.
    destruct (Z.leb_spec 4 i); cbn [andb]; [| by rewrite andb_false_r, Z.testbit_neg_r by lia].
    rewrite Z.shiftr_spec by lia. replace (i - 4 + 4) with i by lia. destruct (Z.ltb_spec i 32); [apply andb_true_r |].
    rewrite andb_false_r. symmetry. by apply (testbit_above _ 32).
  - rewrite Z.shiftl_mul_pow2, Z.shiftr_div_pow2 by lia. pose proof (Z.div_mod lo 16). change (2 ^ 4) with 16. lia.
Qed.

Section Bars.
Context {D : Type} `{PciBars D}.

(** C36: Reading a memory BAR.  For every BAR of 2^k bytes below 4 GiB, the address read is
    its base, and every configuration register is as before: the probe writes back what it
    overwrote.  The size computed has the right low 32 bits, which is all that is used of
    it for BAR0; the 64-bit value, which is used for BAR2, is 2^64 - 2^32 too large. *)
Theorem bar_probe_correct addr reg k (w : world D) :
  let lo := cfg_val (config_addr addr reg) (w_dev w) in let hi := cfg_val (config_addr addr (reg + 4)) (w_dev w) in
  reg ∈ [0x10; 0x18; 0x20] -> mem_bar k lo (cfg_mask (config_addr addr reg) (w_dev w)) ->
  wpm (size ← pci_read_bar_size addr reg; base ← pci_read_bar addr reg; mret (size, base)) (fun '(size, base) w' =>
    u32 size = 2 ^ k /\ size = 2 ^ k + (2 ^ 64 - 2 ^ 32)
    /\ base = (lo - lo mod 16) + (if Z.land lo 0x06 =? 0x04 then hi * 2 ^ 32 else 0)
    /\ forall r, cfg_val r (w_dev w') = cfg_val r (w_dev w)) w.
Proof.
  intros lo hi Hreg Hb. assert (is_bar reg /\ is_bar (reg + 4) /\ Z.land reg 0xFC <> Z.land (reg + 4) 0xFC) as (Hb1 & Hb2 & Hb3).
  { apply list_elem_of_In in Hreg. unfold is_bar. destruct Hreg as [<- | [<- | [<- | []]]]; (split_and!; [set_solver.. | done]). }
  apply wpm_bind, (pci_read_bar_size_spec _ _ _ _ _ _ (cfg_like_refl _)); [done.. |]. intros d1 Hd1.
  apply wpm_bind. eapply pci_read_bar_spec; [exact Hd1 |]. intros d2 [Hf _]. apply wpm_ret. cbv beta. fold lo hi.
  destruct (mem_bar_mask _ _ _ Hb) as [Em Ene]. destruct Hb as [Hk _ _ _].
  assert (bar_size_of lo hi (cfg_mask (config_addr addr reg) (w_dev w)) (cfg_mask (config_addr addr (reg + 4)) (w_dev w))
    = 2 ^ k + (2 ^ 64 - 2 ^ 32)) as Es.
  { unfold bar_size_of. rewrite (proj2 (Z.eqb_neq _ _) Ene), andb_false_r, Em.
    assert (0 < 2 ^ k < 2 ^ 32) by (split; [lia | apply Z.pow_lt_mono_r; lia]).
    rewrite (proj2 (Z.eqb_neq _ _)) by lia. unfold Z.lnot. unfold u64. rewrite <- (Z.mod_add _ 1) by lia. rewrite Z.mod_small by lia. lia. }
  rewrite Es. split_and!; [| done | | done].
  - unfold u32. replace (2 ^ k + (2 ^ 64 - 2 ^ 32)) with (2 ^ k + (2 ^ 32 - 1) * 2 ^ 32) by lia.
    rewrite Z.mod_add by lia. apply Z.mod_small. split; [lia | apply Z.pow_lt_mono_r; lia].
  - pose proof (cfg_val_range (config_addr addr reg) (w_dev w)) as Hr. fold lo in Hr. pose proof (Z.mod_pos_bound lo 16).
    pose proof (Z.mod_le lo 16). unfold bar_addr_of. rewrite bar_base_bits by done. destruct (_ =? _); [| lia].
    rewrite lor_shiftl by lia. lia.
Qed.
End Bars.

(** ** Steps beside the admin queue

    The probe also reads registers, walks the configuration space, allocates interrupts
    and masks them.  None of that is a command. *)
Section Outside.
Context {D : Type} `{EnaDevice D} `{PciConfig D} `{IntCtlr D}.

Inductive outside : relation D :=
| out_cfg_read r d : outside d (cfg_read r d).2
| out_cfg_write r v d : outside d (cfg_write r v d)
| out_msix_alloc lcpu d : outside d (msix_alloc lcpu d).2
| out_msix_free irq d : outside d (msix_free irq d)
| out_irq_register irq v d : outside d (irq_register irq v d).2
| out_irq_unregister irq d : outside d (irq_unregister irq d)
| out_dev_read off d : outside d (dev_read off d).2
| out_intr_mask v d : outside d (dev_write ENA_REGS_INTR_MASK_OFF v d).

Abbreviation beside m := (dev_keeps (rtc outside) m).

Lemma beside_cfg_read addr r : beside (plat_pci_cfg_read addr r).
Proof. intros w a w'. unfold plat_pci_cfg_read. pose proof (out_cfg_read (config_addr addr r) (w_dev w)). destruct (cfg_read _ _). intros [= _ <-]. by apply rtc_once. Qed.
Lemma beside_cfg_write addr r v : beside (plat_pci_cfg_write addr r v).
Proof. intros w a w' [= _ <-]. apply rtc_once, out_cfg_write. Qed.
Lemma beside_pci_read addr r : beside (pci_read32 addr r).
Proof. exact (beside_cfg_read addr r). Qed.
Lemma beside_pci_write addr r v : beside (pci_write32 addr r v).
Proof. exact (beside_cfg_write addr r v). Qed.
Lemma beside_msix_alloc lcpu : beside (k_msix_alloc lcpu).
Proof. intros w a w'. unfold k_msix_alloc. pose proof (out_msix_alloc lcpu (w_dev w)). destruct (msix_alloc _ _) as [[[[]]]]. intros [= _ <-]. by apply rtc_once. Qed.
Lemma beside_irq_register irq v : beside (k_irq_register irq v).
Proof. intros w a w'. unfold k_irq_register. pose proof (out_irq_register irq v (w_dev w)). destruct (irq_register _ _ _). intros [= _ <-]. by apply rtc_once. Qed.
Lemma beside_msix_free irq : beside (k_dev (msix_free irq)).
Proof. intros w a w' [= _ <-]. apply rtc_once, out_msix_free. Qed.
Lemma beside_irq_unregister irq : beside (k_dev (irq_unregister irq)).
Proof. intros w a w' [= _ <-]. apply rtc_once, out_irq_unregister. Qed.
Lemma beside_dev_read off : beside (reg_read32 off).
Proof. apply dev_keeps_read. intros d. apply rtc_once, out_dev_read. Qed.
Lemma beside_intr_mask v : beside (reg_write32 ENA_REGS_INTR_MASK_OFF v).
Proof. apply dev_keeps_write. intros d. apply rtc_once, out_intr_mask. Qed.
#[local] Hint Resolve beside_cfg_read beside_cfg_write beside_pci_read beside_pci_write beside_msix_alloc beside_irq_register
  beside_msix_free beside_irq_unregister beside_dev_read beside_intr_mask : keeps.

Lemma beside_cap_walk addr fuel cap : beside (cap_walk addr fuel cap).
Proof. revert cap. induction fuel as [| fuel IH]; intros cap; simpl; dev_keeps. Qed.
Lemma beside_find_cap addr : beside (find_msix_cap addr).
Proof. unfold find_msix_cap. dev_keeps. apply beside_cap_walk. Qed.
Lemma beside_cfg_dump addr n off : beside (msix_cfg_dump addr n off).
Proof. revert off. induction n as [| n IH]; intros off; cbn [msix_cfg_dump]; dev_keeps. Qed.
Lemma beside_get_msix : beside get_msix.
Proof. unfold get_msix. dev_keeps. Qed.
Lemma beside_mod_msix f : beside (mod_msix f).
Proof. unfold mod_msix. dev_keeps. Qed.
#[local] Hint Resolve beside_cap_walk beside_find_cap beside_cfg_dump beside_get_msix beside_mod_msix : keeps.
Lemma beside_get_irq i : beside (get_irq i).
Proof. unfold get_irq. dev_keeps. Qed.
Lemma beside_put_irq i irq : beside (put_irq i irq).
Proof. unfold put_irq. dev_keeps. Qed.
#[local] Hint Resolve beside_get_irq beside_put_irq : keeps.
Lemma beside_arm_vectors n i table lcpu : beside (arm_vectors n i table lcpu).
Proof. revert i. induction n as [| n IH]; intros i; cbn [arm_vectors]; dev_keeps. Qed.
Lemma beside_release_down n : beside (release_down n).
Proof. induction n as [| n IH]; cbn [release_down]; dev_keeps. Qed.
Lemma beside_release_up n i : beside (release_up n i).
Proof. revert i. induction n as [| n IH]; intros i; cbn [release_up]; dev_keeps. Qed.
Lemma beside_msgctl f : beside (update_msgctl f).
Proof. unfold update_msgctl. dev_keeps. Qed.
Lemma beside_get_vector i : beside (get_vector i).
Proof. unfold get_vector. dev_keeps. Qed.
Lemma beside_mod_vector i f : beside (mod_vector i f).
Proof. unfold mod_vector. dev_keeps. Qed.
#[local] Hint Resolve beside_arm_vectors beside_release_down beside_release_up beside_msgctl beside_get_vector beside_mod_vector : keeps.
Lemma beside_mask_vector i : beside (ena_intr_mask_vector i).
Proof. unfold ena_intr_mask_vector. dev_keeps. Qed.
Lemma beside_mask_vectors n i : beside (each_vector ena_intr_mask_vector n i).
Proof. revert i. pose proof beside_mask_vector. induction n as [| n IH]; intros i; cbn [each_vector]; dev_keeps. Qed.
Lemma beside_unmask_admin : beside (ena_intr_unmask_vector 0).
Proof. unfold ena_intr_unmask_vector. cbn [Z.eqb]. dev_keeps. Qed.
#[local] Hint Resolve beside_mask_vectors beside_unmask_admin : keeps.
Lemma beside_msix_arm req : beside (ena_plat_msix_arm req).
Proof. unfold ena_plat_msix_arm, msix_find. dev_keeps. Qed.
Lemma beside_msix_fini : beside ena_intr_msix_fini.
Proof. unfold ena_intr_msix_fini, ena_plat_msix_disarm, ena_intr_mask_all. dev_keeps. Qed.
#[local] Hint Resolve beside_msix_arm beside_msix_fini : keeps.
Lemma beside_intr_setup ncpus pci_dev : beside (ena_intr_setup ncpus pci_dev).
Proof. unfold ena_intr_setup, ena_plat_msix_probe, ena_intr_msix_init, msix_arm_device. dev_keeps. Qed.
End Outside.

(** Configuration accesses leave the interrupts alone, too. *)
Section Aside.
Context {D : Type} `{EnaDevice D} `{PciConfig D} `{IntCtlr D} `{!PciConfigOk D} `{!IntCtlrOk D}.

Definition aside (d d' : D) : Prop := rtc outside d d' /\ ic_irqs d' = ic_irqs d /\ ic_handlers d' = ic_handlers d.

#[export] Instance aside_preorder : PreOrder aside.
Proof.
  split; [done |]. intros d1 d2 d3 (R1 & E1 & F1) (R2 & E2 & F2). split; [by etrans |]. by rewrite E2, F2.
Qed.

Lemma aside_pci_read addr r : dev_keeps aside (pci_read32 addr r).
Proof.
  intros w a w' E. split; [by eapply beside_pci_read |]. unfold pci_read32 in E. pose proof (cfg_read_ic (config_addr addr r) (w_dev w)) as Hi.
  destruct (cfg_read _ _). by injection E as _ <-.
Qed.
Lemma aside_pci_write addr r v : dev_keeps aside (pci_write32 addr r v).
Proof. intros w a w' E. split; [by eapply beside_pci_write |]. injection E as <- <-. apply cfg_write_ic. Qed.
#[local] Hint Resolve aside_pci_read aside_pci_write : keeps.
Lemma aside_bar_size addr reg : dev_keeps aside (pci_read_bar_size addr reg).
Proof. unfold pci_read_bar_size. dev_keeps. Qed.
Lemma aside_read_bar addr reg : dev_keeps aside (pci_read_bar addr reg).
Proof. unfold pci_read_bar. dev_keeps. Qed.
Lemma aside_dump_bars addr n b : dev_keeps aside (dump_bars addr n b).
Proof. revert b. induction n as [| n IH]; intros b; cbn [dump_bars]; dev_keeps. Qed.
Lemma aside_enable addr : dev_keeps aside (pci_enable_device addr).
Proof. unfold pci_enable_device. dev_keeps. Qed.
End Aside.

(** ** A logic for the probe *)
Definition wpp {D K A} (m : PM D K A) (Q : A -> pci_world D K -> Prop) (p : pci_world D K) : Prop :=
  wp (m p) (fun '(a, p') => Q a p').

Section Wpp.
Context {D K : Type}.
Implicit Types p : pci_world D K.

Lemma wpp_ret {A} (a : A) (Q : A -> pci_world D K -> Prop) p : Q a p -> wpp (mret a) Q p.
Proof. done. Qed.
Lemma wpp_bind {A B} (m : PM D K A) (f : A -> PM D K B) (Q : B -> pci_world D K -> Prop) p :
  wpp m (fun a => wpp (f a) Q) p -> wpp (m ≫= f) Q p.
Proof. unfold wpp, mbind, PM_bind. by destruct (m p) as [[a p'] | |]. Qed.
Lemma wpp_mono {A} (m : PM D K A) (Q Q' : A -> pci_world D K -> Prop) p :
  wpp m Q p -> (forall a p', Q a p' -> Q' a p') -> wpp m Q' p.
Proof. unfold wpp. destruct (m p) as [[a p'] | |]; simpl; auto. Qed.
Lemma wpp_conj {A} (m : PM D K A) (Q Q' : A -> pci_world D K -> Prop) p :
  wpp m Q p -> wpp m Q' p -> wpp m (fun a p' => Q a p' /\ Q' a p') p.
Proof. unfold wpp. destruct (m p) as [[a p'] | |]; simpl; auto. Qed.
Lemma wpp_run {A} (m : M D A) (Q : A -> pci_world D K -> Prop) p :
  wpm m (fun a w => Q a (mkPw w (pw_k p) (s_edevs p))) (pw_w p) -> wpp (run m) Q p.
Proof. unfold wpp, run, wpm. by destruct (m (pw_w p)) as [[a w] | |]. Qed.
Lemma wpp_put_edevs l (Q : unit -> pci_world D K -> Prop) p : Q tt (mkPw (pw_w p) (pw_k p) l) -> wpp (put_edevs l) Q p.
Proof. done. Qed.
Lemma wpp_get_edevs (Q : list (option ena_uk_device) -> pci_world D K -> Prop) p : Q (s_edevs p) p -> wpp get_edevs Q p.
Proof. done. Qed.
End Wpp.

(** *** Mappings *)

(** The mapping of a BAR at [v] added to [m]; only one of the builds keeps any. *)
Definition bar_region (how : bar_mapping) (v : option Z) (m m' : gmap Z Z) : Prop :=
  match how, v with
  | MapVmem, Some a => exists s len, m !! s = None /\ s <= a < s + len /\ m' = <[s := len]> m
  | _, _ => m' = m
  end.

Section Mapping.
Context {D K : Type} `{KernelServicesOk K}.
Implicit Types p : pci_world D K.

Lemma map_bar_spec how phys size p (Q : option Z -> pci_world D K -> Prop) :
  (forall v k, (forall a, v = Some a -> how = MapVmem -> 0 < a) -> bar_region how v (vmas (pw_k p)) (vmas k) ->
     Q v (mkPw (pw_w p) k (s_edevs p))) -> wpp (ena_pci_map_bar how phys size) Q p.
Proof.
  intros HQ. unfold ena_pci_map_bar. pose proof (page_down_ok phys) as Hd. pose proof page_shift_ok.
  assert (2 ^ page_shift < 2 ^ 64) by (apply Z.pow_lt_mono_r; lia). rewrite (u64_id (phys - _)) by lia.
  set (len := page_align_up _). destruct how.
  - unfold wpp, mbind, PM_bind, kcall. destruct (uk_vma_map_dma _ _ _) as [[ret v] k] eqn:E. destruct (vma_map_ok _ _ _ _ _ _ E) as [_ Hm].
    unfold z2b. destruct (Z.eqb_spec ret 0); cbn [negb wp mret PM_ret]; apply HQ; [| | done | done].
    + intros a [= <-] _. lia.
    + destruct Hm as (? & ? & ? & ?). exists v, len. split_and!; [done | lia | lia | done].
  - unfold wpp, mbind, PM_bind, kcall. pose proof (page_map_ok (page_align_down phys) (page_align_down phys) (Z.shiftr len page_shift) (pw_k p)).
    destruct (uk_paging_page_map _ _ _ _) as [ret k]. destruct (_ && _); cbn [wp mret PM_ret]; by apply HQ.
  - apply wpp_ret. destruct p. by apply HQ.
Qed.

Lemma unmap_bar_spec how v m m' p (Q : unit -> pci_world D K -> Prop) :
  bar_region how v m m' -> (forall s len, m' !! s = Some len -> m !! s = None -> vmas (pw_k p) !! s = Some len) ->
  (forall k, (forall s, vmas k !! s = if decide (is_Some (m' !! s) /\ m !! s = None) then None else vmas (pw_k p) !! s) ->
     Q tt (mkPw (pw_w p) k (s_edevs p))) -> wpp (ena_pci_unmap_bar how v) Q p.
Proof.
  intros Hr Hin HQ. assert (m' = m -> Q tt p) as Hnone.
  { intros ->. destruct p as [w k l]. apply HQ. intros s. rewrite decide_False; [done |]. intros [[x E1] E2]. congruence. }
  unfold ena_pci_unmap_bar. destruct how, v as [a |]; try (by apply wpp_ret, Hnone).
  destruct Hr as (s & len & Hs & Ha & ->). specialize (Hin s len). rewrite lookup_insert_eq in Hin. specialize (Hin eq_refl Hs).
  unfold wpp, kcall. rewrite (vma_find_ok s len a) by done. replace (s + len - s) with len by lia. cbn [wp]. apply HQ.
  intros x. rewrite (vma_unmap_ok s len) by done. destruct (decide (x = s)) as [-> | Hne].
  - rewrite lookup_delete_eq, decide_True; [done |]. by rewrite lookup_insert_eq.
  - rewrite lookup_delete_ne, decide_False; [done | | done]. rewrite lookup_insert_ne by done. intros [[y E1] E2]. congruence.
Qed.

Lemma bar_region_keep how v m m' s x : bar_region how v m m' -> m !! s = Some x -> m' !! s = Some x.
Proof.
  unfold bar_region. destruct how, v as [a |]; try (by intros ->). intros (s' & len & Hs & _ & ->) E.
  rewrite lookup_insert_ne; [done |]. intros ->. congruence.
Qed.

(** Both BARs are unmapped again. *)
Lemma unmap_both how b0 b2 m m1 p (Q : unit -> pci_world D K -> Prop) :
  bar_region how b0 m m1 -> bar_region how b2 m1 (vmas (pw_k p)) ->
  (forall k, vmas k = m -> Q tt (mkPw (pw_w p) k (s_edevs p))) ->
  wpp (ena_pci_unmap_bar how b0) (fun _ => wpp (ena_pci_unmap_bar how b2) Q) p.
Proof.
  intros Hr0 Hr2 HQ. eapply unmap_bar_spec; [exact Hr0 | intros s len Hs _; by eapply bar_region_keep |]. intros k1 E1.
  eapply unmap_bar_spec; [exact Hr2 | |].
  { intros s len Hs Hn. cbn. rewrite E1, decide_False; [done |]. intros [[x E] _]. congruence. }
  intros k2 E2. apply (HQ k2). apply map_eq. intros s. rewrite E2. cbn. rewrite E1.
  destruct (m !! s) as [x |] eqn:Em.
  - pose proof (bar_region_keep _ _ _ _ _ _ Hr0 Em) as Em1. rewrite Em1. rewrite decide_False by (by intros [_ ?]).
    rewrite decide_False by (by intros [_ ?]). by eapply bar_region_keep.
  - destruct (m1 !! s) as [x |] eqn:Em1.
    + rewrite decide_False by (by intros [_ ?]). by rewrite decide_True by (by split; [eexists |]).
    + rewrite (decide_False (P := is_Some None /\ _)) by (by intros [[? ?] _]).
      destruct (vmas (pw_k p) !! s); [by rewrite decide_True by (by split; [eexists |]) | by rewrite decide_False by (by intros [[? ?] _])].
Qed.

Lemma unmap_one how b0 m p (Q : unit -> pci_world D K -> Prop) :
  bar_region how b0 m (vmas (pw_k p)) -> (forall k, vmas k = m -> Q tt (mkPw (pw_w p) k (s_edevs p))) ->
  wpp (ena_pci_unmap_bar how b0) Q p.
Proof.
  intros Hr0 HQ. assert (bar_region how None (vmas (pw_k p)) (vmas (pw_k p))) as Hr2 by (by destruct how).
  eapply wpp_mono; [exact (unmap_both how b0 None m _ p Q Hr0 Hr2 HQ) |]. intros [] p'. by destruct how.
Qed.
End Mapping.

(** ** The probe *)

(** Which device can be brought up.  Register reads, configuration accesses and interrupts do
    not disturb its admin queue; once the queues of 32 entries are published, it has no IO
    queues, and the commands of the bring-up and [boot_left] more are covered. *)
Class AdminBoot (D : Type) `{EnaDevice D} `{PciConfig D} `{IntCtlr D} `{AdminExecOk D} := {
  boot_ready : D -> Prop;
  boot_left : nat;
  boot_outside d d' : outside d d' -> boot_ready d -> boot_ready d';
  boot_started live w w' : boot_ready (w_dev w) -> admin_lock (ad_adm (w_adapter w)) = 0 ->
    admin_started live 32 32 32 w w' -> ax_ok (8 + boot_left) (∅, ∅) w';
  ax_outside k qs w d : outside (w_dev w) d -> ax_ok k qs w -> ax_ok k qs (set_w_dev d w);
  ax_handler k qs w f arg : ax_ok k qs w ->
    ax_ok k qs (set_w_adapter (set_ad_adm (set_aenq_handler_arg arg (set_aenq_handler f (ad_adm (w_adapter w)))) (w_adapter w)) w)
}.

Section Regs.
Context {D : Type} `{EnaDevice D} `{PciConfig D} `{IntCtlr D} `{!PciConfigOk D} `{!IntCtlrOk D} `{!DeviceApart D}
  `{AdminExec D} `{!ExecApart D}.

Lemma regs_reg_write off v : dev_keeps same_regs (reg_write32 off v).
Proof. apply dev_keeps_write. intros d. apply apart_write. Qed.
Lemma regs_reg_read off : dev_keeps same_regs (reg_read32 off).
Proof. apply dev_keeps_read. intros d. apply apart_read. Qed.
Lemma regs_reg_writes l : dev_keeps same_regs (reg_writes l).
Proof. pose proof regs_reg_write. induction l as [| [off v] l IH]; cbn [reg_writes]; dev_keeps. Qed.
Lemma regs_put_mem m : dev_keeps same_regs (put_mem m).
Proof. by intros w a w' [= _ <-]. Qed.
Lemma regs_mod_adm f : dev_keeps same_regs (mod_adm f).
Proof. unfold mod_adm. dev_keeps. Qed.
#[local] Hint Resolve regs_reg_write regs_reg_read regs_reg_writes regs_put_mem regs_mod_adm regs_exec : keeps.
Lemma regs_admin_fini : dev_keeps same_regs ena_admin_fini.
Proof. unfold ena_admin_fini. dev_keeps. Qed.
Lemma regs_admin_init a b c : dev_keeps same_regs (ena_admin_init a b c).
Proof. pose proof regs_admin_fini. unfold ena_admin_init, admin_setup. dev_keeps. Qed.
Lemma regs_init_run mtu : dev_keeps same_regs (ena_init_run mtu).
Proof.
  unfold ena_init_run, ena_init_get_device_attributes, ena_init_get_queue_limits, ena_init_set_host_info, ena_init_config_aenq,
    ena_init_config_llq, ena_init_set_mtu, ena_init_get_mac_addr, ena_init_exec. dev_keeps.
Qed.
End Regs.

Section Stages.
Context {D : Type} `{EnaDevice D} `{PciConfig D} `{IntCtlr D} `{!PciConfigOk D} `{!IntCtlrOk D} `{!DeviceApart D}
  `{AdminExecOk D} `{!ExecApart D} `{!AdminBoot D}.
Implicit Types (w : world D) (d : D).

Lemma boot_outsides d d' : rtc outside d d' -> boot_ready d -> boot_ready d'.
Proof. induction 1; [done |]. eauto using boot_outside. Qed.

Lemma ax_outsides k qs w d : rtc outside (w_dev w) d -> ax_ok k qs w -> ax_ok k qs (set_w_dev d w).
Proof.
  intros Hr. remember (w_dev w) as d0 eqn:E. revert w E. induction Hr as [d0 | d0 d1 d2 Hs Hr IH]; intros w -> Hok; [by destruct w |].
  exact (IH (set_w_dev d1 w) eq_refl (ax_outside _ _ _ _ Hs Hok)).
Qed.

Lemma ax_intr k qs w w' : intr_frame w w' -> rtc outside (w_dev w) (w_dev w') -> ax_ok k qs w -> ax_ok k qs w'.
Proof.
  intros [(o & n & Ea) Em _ _] Hr Hok. eapply ax_keep; [| exact (ax_outsides _ _ _ _ Hr Hok)].
  split_and!; wsimpl; rewrite ?Ea; done.
Qed.

(** What the probe leaves as the allocation gave it. *)
Record bare (addr : pci_address) w : Prop := {
  br_bar : is_Some (bar0_base (ad_bars (w_adapter w)));
  br_io : ad_io (w_adapter w) = mkIo None None 0 0 None None;
  br_rss : rss_blocks (rss_info (w_adapter w)) = [];
  br_vec : irq_vectors (w_adapter w) = None;
  br_queues : rx_queues (w_uk w) = rx_queues uk_zero /\ tx_queues (w_uk w) = tx_queues uk_zero;
  br_irqs : length (msix_irqs (s_msix (w_uk w))) = Z.to_nat ENA_PLAT_MSIX_MAX_VECTORS;
  br_armed : msix_armed (s_msix (w_uk w)) = false;
  br_caps : caps_end addr (w_dev w)
}.

Lemma caps_end_same addr d d' : same_regs d d' -> caps_end addr d -> caps_end addr d'.
Proof.
  intros (E & _). unfold caps_end. assert (forall r, pci_regs addr d' r = pci_regs addr d r) as Er by (intros; apply E).
  rewrite Er. intros [x Hx]. exists x. rewrite <- Hx. apply walk_caps_ext. done.
Qed.

Lemma bare_step addr w w' :
  bare addr w -> w_uk w' = w_uk w -> same_regs (w_dev w) (w_dev w') -> ad_bars (w_adapter w') = ad_bars (w_adapter w) ->
  ad_io (w_adapter w') = ad_io (w_adapter w) -> rss_info (w_adapter w') = rss_info (w_adapter w) ->
  irq_vectors (w_adapter w') = irq_vectors (w_adapter w) -> bare addr w'.
Proof.
  intros [? ? ? ? ? ? ? Hc] Eu Hd Eb Ei Er Ev. split; [rewrite ?Eu, ?Eb, ?Ei, ?Er, ?Ev; assumption.. |]. exact (caps_end_same _ _ _ Hd Hc).
Qed.

(** The configured adapter. *)
Record configured w : Prop := {
  cf_state : ad_state (w_adapter w) = ENA_STATE_CONFIGURED;
  cf_lim : limits_ok (ad_lim (w_adapter w));
  cf_mtu : ad_mtu (w_adapter w) = 1500
}.

Lemma owned_live h0 h h' : owned h0 h [] -> wf_heap h' -> h_live h' = h_live h -> owned h0 h' [].
Proof. intros [_ _ _ El] Hwf E. split; [done | apply NoDup_nil_2 | set_solver |]. by rewrite E. Qed.

Lemma admin_stage h1 addr w :
  bare addr w -> owned h1 (w_heap w) [] -> admin_down (w_adapter w) -> host_info_base (ad_host (w_adapter w)) = None ->
  admin_lock (ad_adm (w_adapter w)) = 0 -> boot_ready (w_dev w) ->
  wpm (ena_admin_init 32 32 32) (fun ret w' => bare addr w' /\ same_regs (w_dev w) (w_dev w')
    /\ (ret = 0 /\ owned h1 (w_heap w') (admin_blocks (w_adapter w')) /\ host_info_base (ad_host (w_adapter w')) = None
          /\ ax_ok (8 + boot_left) (∅, ∅) w'
        \/ ret < 0 /\ owned h1 (w_heap w') [])) w.
Proof.
  intros Hb Ho (E1 & E2 & E3) Eh Hl Hboot. destruct (br_bar _ _ Hb) as [b Eb].
  assert (admin_up (w_adapter w) = false) as Eup by (unfold admin_up; by rewrite E1, E2, E3).
  assert (admin_owned w) as Hown.
  { split; [exact (ow_wf _ _ _ Ho) | |]; unfold admin_blocks; rewrite E1, E2, E3, Eh; [apply NoDup_nil_2 | apply empty_subseteq]. }
  eapply wpm_mono; [eapply dev_keeps_wpm; [apply regs_admin_init | apply (admin_init_spec 32 32 32 b w Hown Eb); lia] |].
  rewrite Eup. cbv zeta. intros ret w' [(Hwf & Euk & Hr) Hd].
  rewrite decide_True in Hr by (split_and!; by exists 5).
  destruct Hr as [(-> & El & Ea & _) | (-> & Hst & Ehost)].
  - split; [apply (bare_step addr w w' Hb Euk Hd); by rewrite Ea |]. split; [exact Hd |]. right. split; [done |]. by eapply owned_live.
  - pose proof (boot_started _ _ _ Hboot Hl Hst) as Hax.
    destruct Hst as [_ _ (a1 & a2 & a3 & Hnd & B1 & B2 & B3 & Hdis & El) _ _ _ _ _ _ [_ (q1 & q2 & q3 & Ea)] _].
    split; [apply (bare_step addr w w' Hb Euk Hd); by rewrite Ea |]. split; [exact Hd |]. left. rewrite Ehost. split_and!; [done | | done | done].
    unfold admin_blocks. rewrite B1, B2, B3, Ehost, Eh. cbn. destruct Ho as [_ _ _ El0]. rewrite El0 in *.
    split; [done | done | | rewrite El]; cbn; set_solver.
Qed.

(** The page of the host information comes last. *)
Lemma owned_more h0 h h' (p1 p2 p3 o : option Z) :
  owned h0 h (omap id [p1; p2; p3; None]) -> wf_heap h' -> blk o ## h_live h -> h_live h' = blk o ∪ h_live h ->
  owned h0 h' (omap id [p1; p2; p3; o]).
Proof.
  intros [_ Hnd Hnew El] Hwf Hdis El'. rewrite El in *.
  assert (omap id [p1; p2; p3; o] ≡ₚ option_list o ++ omap id [p1; p2; p3; None]) as Hp.
  { destruct p1, p2, p3, o; cbn; solve_Permutation. }
  apply (owned_perm _ _ _ _ Hp). destruct o as [a |]; cbn [option_list blk app] in *.
  - split; [done | apply NoDup_cons; split; [set_solver | done] | set_solver | rewrite El'; cbn [list_to_set]; set_solver].
  - split; [done | done | done | rewrite El'; set_solver].
Qed.

Lemma init_stage h1 addr w :
  bare addr w -> owned h1 (w_heap w) (admin_blocks (w_adapter w)) -> host_info_base (ad_host (w_adapter w)) = None ->
  ax_ok (8 + boot_left) (∅, ∅) w ->
  wpm (ena_init_run 1500) (fun ret w' => bare addr w' /\ same_regs (w_dev w) (w_dev w')
    /\ owned h1 (w_heap w') (admin_blocks (w_adapter w')) /\ ax_ok boot_left (∅, ∅) w' /\ (ret = 0 /\ configured w' \/ ret < 0)) w.
Proof.
  intros Hb Ho Eh Hax.
  eapply wpm_mono; [eapply dev_keeps_wpm; [apply regs_init_run | apply (init_run_spec _ _ 1500 w Hax (ow_wf _ _ _ Ho) Eh)] |].
  intros ret w' [(attr & lim & aen & m & host & llq & h & [Hok [[Eu Ehp Ea _ Eq _ _ (i & p & E1) (i' & p' & E2)] _]] & (Hwf & Hdis & El) & Hr) Hd].
  cbn in Eu, Ehp, Ea, Eq, E1, E2. split; [| split; [exact Hd | split; [| split; [exact Hok |]]]].
  - apply (bare_step addr w w' Hb Eu Hd); by rewrite Ea.
  - rewrite Ehp. unfold admin_blocks in *. rewrite Ea at 4. rewrite E1, E2, Eq. cbn. rewrite Eh in Ho. cbn in Ho.
    by apply (owned_more h1 (w_heap w)).
  - destruct (Z.eqb_spec ret 0); [left | by right]. destruct Hr as [[] Hs]. split; [done |]. split; [done | |]; rewrite Ea; cbn; [done | tauto].
Qed.

Lemma intr_stage h1 k qs ncpus addr w :
  bare addr w -> owned h1 (w_heap w) (admin_blocks (w_adapter w)) -> ax_ok k qs w ->
  wpm (ena_intr_setup ncpus (Some addr)) (fun _ w' => intr_frame w w' /\ ax_ok k qs w' /\ vectors_held (w_dev w) w'
    /\ owned h1 (w_heap w') (option_list (fst <$> irq_vectors (w_adapter w')) ++ admin_blocks (w_adapter w'))) w.
Proof.
  intros Hb [Hwf Hnd Hnew El] Hax. assert (intr_fresh (Some addr) w) as Hf.
  { destruct Hb as [_ Ei _ ? _ ? ? Hc]. split; [by intros a [= <-] | done | done | | done | done].
    intros tx l. rewrite Ei. by destruct tx. }
  eapply wpm_mono; [eapply dev_keeps_wpm; [apply beside_intr_setup | apply (intr_setup_spec ncpus _ w Hf)] |].
  intros ret w' [(Hfr & Hwf' & Hr) Hout]. split; [done |]. split; [by eapply ax_intr |].
  pose proof Hfr as [(o & n & Ea) _ _ _].
  assert (admin_blocks (w_adapter w') = admin_blocks (w_adapter w)) as Eb by (by rewrite Ea).
  destruct Hr as [(_ & [(b & vs & Ht & Hnew' & El' & _) _ _ Hh]) | (_ & [Hv El' Harm Hh])].
  - split; [split; [done | right; by exists b, vs] |]. rewrite Eb, (proj1 Ht). cbn [fmap option_fmap option_map option_list fst app].
    rewrite El in *. split; [done | apply NoDup_cons; split; [set_solver | done] | set_solver | rewrite El'; cbn [list_to_set]; set_solver].
  - split; [| rewrite Hv, Eb; split; [done | done | done | by rewrite El']].
    split; [| by left]. unfold plat_holds. by rewrite Harm.
Qed.

(** A device that was probed: configured, with the default event handler, ready for commands,
    and ready to be torn down; [h2] and [d0] are the heap and the interrupts without it. *)
Record probed (h2 : heap) (d0 : D) w : Prop := {
  pd_ready fuel views : teardown_ready h2 d0 fuel views w;
  pd_conf : configured w;
  pd_handler : aenq_handler (ad_adm (w_adapter w)) = Some AenqDefault /\ aenq_handler_arg (ad_adm (w_adapter w)) = true;
  pd_ax : ax_ok boot_left (∅, ∅) w
}.

Lemma bare_ready h2 d0 k qs fuel views w :
  ad_io (w_adapter w) = mkIo None None 0 0 None None -> rss_blocks (rss_info (w_adapter w)) = [] ->
  rx_queues (w_uk w) = rx_queues uk_zero -> tx_queues (w_uk w) = tx_queues uk_zero -> ax_ok k qs w -> vectors_held d0 w ->
  owned h2 (w_heap w) (option_list (fst <$> irq_vectors (w_adapter w)) ++ admin_blocks (w_adapter w)) ->
  teardown_ready h2 d0 fuel views w.
Proof.
  intros Ei Er Erx Etx Hax Hv Ho. split; rewrite ?Ei; try done.
  - exists qs. eapply ax_le; [| exact Hax]. cbn. lia.
  - by destruct tx.
  - by destruct tx.
  - intros tx l. by destruct tx.
  - rewrite Erx. split; [done |]. by apply Forall_replicate.
  - rewrite Etx. split; [done |]. by apply Forall_replicate.
  - unfold driver_blocks. rewrite Erx, Etx, Ei, Er. exact Ho.
Qed.
End Stages.

Section ProbeProofs.
Context {D K : Type} `{EnaDevice D} `{PciConfig D} `{IntCtlr D} `{!PciConfigOk D} `{!IntCtlrOk D} `{!DeviceApart D}
  `{AdminExecOk D} `{!ExecApart D} `{!AdminBoot D} `{!PciBars D} `{KernelServicesOk K}.
Implicit Types (w : world D) (d : D) (p : pci_world D K).

(** Nothing of a failed probe is left in the driver: heap [L], interrupts [d], registry [l]. *)
Record undone (L : gset Z) d (l : list (option ena_uk_device)) p : Prop := {
  un_heap : wf_heap (w_heap (pw_w p)) /\ h_live (w_heap (pw_w p)) = L;
  un_irqs : ic_irqs (w_dev (pw_w p)) = ic_irqs d /\ ic_handlers (w_dev (pw_w p)) = ic_handlers d;
  un_armed : msix_armed (s_msix (w_uk (pw_w p))) = false;
  un_edevs : s_edevs p = l
}.

Lemma undo_admin h1 e d l (ret : Z) (Q : Z -> pci_world D K -> Prop) p :
  owned h1 (w_heap (pw_w p)) (admin_blocks (w_adapter (pw_w p))) -> e ∈ h_live h1 ->
  ic_irqs (w_dev (pw_w p)) = ic_irqs d -> ic_handlers (w_dev (pw_w p)) = ic_handlers d ->
  msix_armed (s_msix (w_uk (pw_w p))) = false -> s_edevs p = l ->
  (forall w', undone (h_live h1 ∖ {[e]}) d l (mkPw w' (pw_k p) (s_edevs p)) -> Q ret (mkPw w' (pw_k p) (s_edevs p))) ->
  wpp (run ena_admin_fini;; run (free (Some e));; mret ret) Q p.
Proof.
  intros Ho He E1 E2 Ea El HQ. apply wpp_bind, wpp_run. eapply wpm_mono; [exact (admin_fini_owned h1 _ Ho) |].
  intros _ w1 (h & Hwf & Elh & ->). apply wpp_bind, wpp_run. cbn [pw_w]. apply (wpm_free (Some e)); [done | cbn; set_solver |].
  intros h' Hwf' El'. apply wpp_ret. cbn in El' |- *. apply HQ. split; cbn; [| done..]. split; [done |]. by rewrite El', Elh.
Qed.

(** A heap with some more blocks. *)
Lemma owned_grow h1 h h' B ps :
  owned h1 h ps -> wf_heap h' -> B ## h_live h -> h_live h' = B ∪ h_live h ->
  exists h2, h_live h2 = B ∪ h_live h1 /\ owned h2 h' ps.
Proof.
  intros [_ Hnd Hnew El] Hwf Hd El'. rewrite El in *. exists (mkHeap 0 (B ∪ h_live h1) (fun _ => true) id). split; [done |].
  split; [done | done | cbn; set_solver | rewrite El'; cbn; set_solver].
Qed.

(** What [probe_start] leaves when it succeeds. *)
Definition started_up (h1 : heap) d (e bar0 : Z) (bar2 : option Z) (pdev : Z) (l : list (option ena_uk_device)) p : Prop :=
  exists uid B h2 d0,
    s_edevs p = (ena_pci_track_edev (mkEdev e None (Some bar0) bar2 uid true true true) pdev l).2
    /\ B ## h_live h1 /\ h_live h2 = B ∪ h_live h1 /\ same_regs d d0 /\ probed h2 d0 (pw_w p).

Lemma register_stage h1 d e bar0 bar2 pdev p :
  let w := pw_w p in
  owned h1 (w_heap w) (option_list (fst <$> irq_vectors (w_adapter w)) ++ admin_blocks (w_adapter w)) -> e ∈ h_live h1 ->
  ad_io (w_adapter w) = mkIo None None 0 0 None None -> rss_blocks (rss_info (w_adapter w)) = [] ->
  rx_queues (w_uk w) = rx_queues uk_zero -> tx_queues (w_uk w) = tx_queues uk_zero -> ax_ok boot_left (∅, ∅) w ->
  vectors_held d w -> configured w ->
  aenq_handler (ad_adm (w_adapter w)) = Some AenqDefault /\ aenq_handler_arg (ad_adm (w_adapter w)) = true ->
  wpp (ret ← drv_register;
       if ret <? 0 then run ena_intr_msix_fini;; run ena_admin_fini;; run (free (Some e));; mret ret
       else l ← get_edevs; put_edevs (ena_pci_track_edev (mkEdev e None (Some bar0) bar2 (u16 ret) true true true) pdev l).2;; mret 0)
    (fun ret p' => vmas (pw_k p') = vmas (pw_k p) /\
       if ret =? 0 then started_up h1 d e bar0 bar2 pdev (s_edevs p) p' else ret < 0 /\ undone (h_live h1 ∖ {[e]}) d (s_edevs p) p') p.
Proof.
  intros w. subst w. intros Ho He Ei Er Erx Etx Hax Hv Hc Hh. apply wpp_bind. unfold wpp at 1, drv_register.
  destruct (uk_netdev_drv_register _ _) as [[ret h'] k'] eqn:E. destruct (drv_register_ok _ _ _ _ _ (ow_wf _ _ _ Ho) E) as (Ev & Hwf & B & Hd & El & Hneg).
  cbn [wp]. destruct (Z.ltb_spec ret 0) as [Hlt | Hge].
  - rewrite Hneg in El by done. rewrite (left_id_L ∅ _) in El. destruct Ho as [_ Hnd Hnew El0].
    apply wpp_bind, wpp_run. eapply wpm_mono; [apply (msix_fini_owned h1 d (admin_blocks (w_adapter (pw_w p)))) |]; cbn [pw_w set_w_heap w_adapter w_heap].
    + destruct Hv as [Hp Hv]. split; [exact Hp | exact Hv].
    + intros tx l. cbn. rewrite Ei. by destruct tx.
    + split; [done | done | done | by rewrite El].
    + intros [] w1 ([(o & n & Ea) _ _ _] & Hvec & Harm & Hirq & Ho1). apply irqs_held_nil_inv in Hirq as [E1 E2].
      apply (undo_admin h1 e d (s_edevs p)); cbn [pw_w pw_k s_edevs]; try done; [by rewrite Ea |].
      intros w2 Hu. split; [done |]. rewrite (proj2 (Z.eqb_neq ret 0)) by lia. by split.
  - apply wpp_bind, wpp_get_edevs, wpp_bind, wpp_put_edevs, wpp_ret. cbn [pw_k]. split; [done |]. cbn [Z.eqb].
    destruct (owned_grow _ _ _ B _ Ho Hwf Hd El) as (h2 & E2 & Ho2). exists (u16 ret), B, h2, d. cbn [s_edevs pw_w].
    assert (ax_ok boot_left (∅, ∅) (set_w_heap h' (pw_w p))) as Hax' by (eapply ax_keep; [| exact Hax]; by split_and!).
    split; [done |]. split; [destruct Ho; set_solver |]. split; [done |]. split; [done |].
    split; [| by destruct Hc; split | done | done].
    intros fuel views. by eapply bare_ready.
Qed.

(** The allocated structure before the admin queues are set up. *)
Record staged (h1 : heap) (addr : pci_address) w : Prop := {
  sg_bare : bare addr w;
  sg_mem : owned h1 (w_heap w) [];
  sg_down : admin_down (w_adapter w);
  sg_host : host_info_base (ad_host (w_adapter w)) = None;
  sg_lock : admin_lock (ad_adm (w_adapter w)) = 0;
  sg_boot : boot_ready (w_dev w)
}.

Lemma staged_dev h1 addr w d :
  staged h1 addr w -> same_regs (w_dev w) d -> rtc outside (w_dev w) d -> staged h1 addr (set_w_dev d w).
Proof.
  intros [Hb ? ? ? ? ?] Hd Ho. split; try assumption; [| by eapply boot_outsides].
  by apply (bare_step addr w).
Qed.

Lemma same_irqs d d' : same_regs d d' -> ic_irqs d' = ic_irqs d /\ ic_handlers d' = ic_handlers d.
Proof. by intros (_ & ? & ?). Qed.

Lemma probe_start_spec h1 ncpus pdev e bar0 bar2 p :
  staged h1 (pdev_addr pdev) (pw_w p) -> e ∈ h_live h1 ->
  wpp (probe_start ncpus pdev e bar0 bar2) (fun ret p' => vmas (pw_k p') = vmas (pw_k p) /\
    if ret =? 0 then started_up h1 (w_dev (pw_w p)) e bar0 bar2 (pdev_ptr pdev) (s_edevs p) p'
    else ret < 0 /\ undone (h_live h1 ∖ {[e]}) (w_dev (pw_w p)) (s_edevs p) p') p.
Proof.
  intros Hs He. set (w := pw_w p) in *. unfold probe_start. apply wpp_bind, wpp_run, wpm_reg_read32; [exact (br_bar _ _ (sg_bare _ _ _ Hs)) |].
  pose proof (apart_read ENA_REGS_DEV_STS_OFF (w_dev w)) as Hd1. pose proof (rtc_once _ _ (out_dev_read ENA_REGS_DEV_STS_OFF (w_dev w))) as Ho1.
  fold w. destruct (dev_read _ _) as [v d1]. cbn [fst snd] in *. apply (staged_dev _ _ _ _ Hs Hd1) in Ho1 as [Hb Hm Hdn Hh Hl Hbt].
  apply wpp_bind, wpp_run. cbn [pw_w]. eapply wpm_mono; [exact (admin_stage _ _ _ Hb Hm Hdn Hh Hl Hbt) |]. cbn [w_dev set_w_dev].
  intros ret w2 (Hb2 & Hd2 & [(-> & Ho2 & Hh2 & Hax2) | (Hneg & Ho2)]); cbv beta.
  2:{ unfold z2b. rewrite (proj2 (Z.eqb_neq ret 0)) by lia. cbn [negb]. apply wpp_bind, wpp_run. cbn [pw_w].
      destruct (owned_nil _ _ Ho2) as [Hwf El].
      apply (wpm_free (Some e)); [done | cbn; rewrite El; set_solver |]. intros h Hwf' El'. apply wpp_ret. split; [done |].
      rewrite (proj2 (Z.eqb_neq ret 0)) by lia. split; [done |]. destruct (same_irqs _ _ Hd1), (same_irqs _ _ Hd2). split; cbn; [| split; congruence | exact (br_armed _ _ Hb2) | done].
      split; [done |]. rewrite El', El. done. }
  change (z2b 0) with false. cbn iota. apply wpp_bind, wpp_run. cbn [pw_w].
  eapply wpm_mono; [exact (init_stage _ _ _ Hb2 Ho2 Hh2 Hax2) |]. intros ret w3 (Hb3 & Hd3 & Ho3 & Hax3 & [(-> & Hc) | Hneg]); cbv beta.
  2:{ unfold z2b. rewrite (proj2 (Z.eqb_neq ret 0)) by lia. cbn [negb]. destruct (same_irqs _ _ Hd1), (same_irqs _ _ Hd2), (same_irqs _ _ Hd3).
      apply (undo_admin h1 e (w_dev w) (s_edevs p)); cbn [pw_w pw_k s_edevs]; [done | done | congruence | congruence | exact (br_armed _ _ Hb3) | done |].
      intros w' Hu. split; [done |]. rewrite (proj2 (Z.eqb_neq ret 0)) by lia. by split. }
  change (z2b 0) with false. cbn iota. apply wpp_bind, wpp_run. cbn [pw_w]. apply wpm_bind, wpm_mod_adm, wpm_ret. cbn [pw_k s_edevs].
  set (w4 := set_w_adapter _ w3). pose proof (ax_handler _ _ w3 (Some AenqDefault) true Hax3 : ax_ok boot_left (∅, ∅) w4) as Hax4.
  assert (bare (pdev_addr pdev) w4) as Hb4 by (by apply (bare_step _ w3)).
  apply wpp_bind, wpp_run. cbn [pw_w]. eapply wpm_mono; [exact (intr_stage h1 _ _ ncpus _ w4 Hb4 Ho3 Hax4) |].
  intros _ w5 ([(o & n & Ea) _ (m & Eu & _) _] & Hax5 & Hv & Ho5). cbn [pw_k s_edevs].
  assert (same_regs (w_dev w) (w_dev w4)) as Hd4 by (change (w_dev w4) with (w_dev w3); by do 2 (etrans; [eassumption |])).
  eapply wpp_mono; [apply (register_stage h1 (w_dev w4)); cbn [pw_w]; try done |].
  - rewrite Ea. exact (br_io _ _ Hb4).
  - rewrite Ea. exact (br_rss _ _ Hb4).
  - rewrite Eu. exact (proj1 (br_queues _ _ Hb4)).
  - rewrite Eu. exact (proj2 (br_queues _ _ Hb4)).
  - destruct Hc. by split; rewrite Ea.
  - by rewrite Ea.
  - intros ret p' [Ev Hr]. split; [done |]. destruct (_ =? _).
    + destruct Hr as (uid & B & h2 & d0 & ? & ? & ? & Hd0 & ?). exists uid, B, h2, d0. split_and!; try done. by etrans.
    + destruct Hr as [? [? [E1 E2] ? ?]]. split; [done |]. destruct (same_irqs _ _ Hd4). split; [done | split; congruence | done | done].
Qed.

(** While the BARs are read, the device is that of [p0] up to accesses without effect. *)
Record probing p0 p : Prop := {
  pg_cfg : cfg_like (fun r => cfg_val r (w_dev (pw_w p0))) (fun r => cfg_mask r (w_dev (pw_w p0))) (w_dev (pw_w p));
  pg_w : pw_w p = set_w_dev (w_dev (pw_w p)) (pw_w p0);
  pg_dev : aside (w_dev (pw_w p0)) (w_dev (pw_w p));
  pg_edevs : s_edevs p = s_edevs p0
}.

Lemma probing_start p : probing p p.
Proof. split; [by split | by destruct p as [[]] | done | done]. Qed.
Lemma probing_k p0 p k : probing p0 p -> probing p0 (mkPw (pw_w p) k (s_edevs p)).
Proof. intros []. by split. Qed.

Lemma probing_run {A} (m : M D A) v p0 p (Q : A -> pci_world D K -> Prop) :
  dev_keeps aside m -> probing p0 p ->
  (forall Q' : A -> world D -> Prop,
     (forall d, cfg_like (fun r => cfg_val r (w_dev (pw_w p0))) (fun r => cfg_mask r (w_dev (pw_w p0))) d -> Q' v (set_w_dev d (pw_w p))) ->
     wpm m Q' (pw_w p)) ->
  (forall p', probing p0 p' -> pw_k p' = pw_k p -> Q v p') -> wpp (run m) Q p.
Proof.
  intros Hk [Hc Ew Hd Es] Hm HQ. apply wpp_run. eapply wpm_mono.
  - eapply dev_keeps_wpm; [exact Hk |]. apply (Hm (fun a w' => a = v /\ exists d, w' = set_w_dev d (pw_w p)
      /\ cfg_like (fun r => cfg_val r (w_dev (pw_w p0))) (fun r => cfg_mask r (w_dev (pw_w p0))) d)).
    intros d Hl. split; [done |]. by exists d.
  - intros a w' [(-> & d & -> & Hl) Ha]. apply HQ; [| done]. split; cbn; [done | by rewrite Ew at 1 | by etrans | done].
Qed.

(** The BARs are as the probe found them, the command register is not; BAR0 is mapped. *)
Lemma probe_bars_spec how addr p0 (Q : option (Z * Z * Z * Z) -> pci_world D K -> Prop) :
  (forall p, probing p0 p -> vmas (pw_k p) = vmas (pw_k p0) -> Q None p) ->
  (forall bar0 size phys2 size2 d k, 0x104 <= size -> (forall r, r <> config_addr addr 0x04 -> cfg_val r d = cfg_val r (w_dev (pw_w p0))) ->
     aside (w_dev (pw_w p0)) d -> bar_region how (Some bar0) (vmas (pw_k p0)) (vmas k) ->
     Q (Some (bar0, size, phys2, size2)) (mkPw (set_w_dev d (pw_w p0)) k (s_edevs p0))) ->
  wpp (probe_bars how addr) Q p0.
Proof.
  intros HN HS. unfold probe_bars.
  apply wpp_bind. eapply probing_run; [apply aside_dump_bars | apply probing_start | intros Q' HQ'; by eapply (dump_bars_spec _ _ addr _ _ _ _ (cfg_like_refl _)) |].
  intros p1 Hp1 Ek1. cbn beta.
  apply wpp_bind. eapply probing_run; [apply aside_bar_size | exact Hp1 | |].
  { intros Q' HQ'. eapply pci_read_bar_size_spec; [exact (pg_cfg _ _ Hp1) | unfold is_bar; set_solver.. | done | exact HQ']. }
  intros p2 Hp2 Ek2. set (size := if _ <? 0x104 then _ else _). assert (0x104 <= size) as Hsize by (unfold size; case_match; lia). clearbody size.
  apply wpp_bind. eapply probing_run; [apply aside_read_bar | exact Hp2 | intros Q' HQ'; eapply pci_read_bar_spec; [exact (pg_cfg _ _ Hp2) | exact HQ'] |].
  intros p3 Hp3 Ek3. apply wpp_bind, map_bar_spec. intros v k Hv Hr. rewrite Ek3, Ek2, Ek1 in Hr.
  destruct v as [bar0 |]; [| apply wpp_ret, HN; [by apply probing_k | by destruct how]].
  apply (probing_k _ _ k) in Hp3. set (p4 := mkPw _ k _) in *.
  apply wpp_bind. eapply probing_run; [apply aside_pci_read | exact Hp3 | intros Q' HQ'; eapply wpm_pci_read32; [exact (pg_cfg _ _ Hp3) | exact HQ'] |].
  intros p5 Hp5 Ek5. apply wpp_bind. match goal with |- wpp _ ?Q' _ => set (Q2 := Q') end.
  assert (forall phys2 size2 p, probing p0 p -> pw_k p = k -> Q2 (phys2, size2) p) as HQ2.
  { intros phys2 size2 p6 [Hc Ew Hd Es] Ek. unfold Q2. apply wpp_bind, wpp_run. eapply wpm_mono.
    - eapply dev_keeps_wpm; [apply aside_enable |]. apply (pci_enable_spec _ _ addr _ (fun _ w' => exists d, w' = set_w_dev d (pw_w p6)
        /\ forall r, r <> config_addr addr 0x04 -> cfg_val r d = cfg_val r (w_dev (pw_w p0))) Hc). intros d Hl. by exists d.
    - intros _ w' [(d & -> & Hl) Ha]. apply wpp_ret. rewrite Ew, Es, Ek. cbn in Ha |- *. apply HS; [done | done | by etrans | done]. }
  destruct (_ =? 0).
  - apply wpp_bind. eapply probing_run; [apply aside_read_bar | exact Hp5 | intros Q' HQ'; eapply pci_read_bar_spec; [exact (pg_cfg _ _ Hp5) | exact HQ'] |].
    intros p6 Hp6 Ek6. apply wpp_bind. eapply probing_run; [apply aside_bar_size | exact Hp6 | |].
    { intros Q' HQ'. eapply pci_read_bar_size_spec; [exact (pg_cfg _ _ Hp6) | unfold is_bar; set_solver.. | done | exact HQ']. }
    intros p7 Hp7 Ek7. apply wpp_ret, HQ2; [done |]. by rewrite Ek7, Ek6, Ek5.
  - apply wpp_ret, HQ2; [done |]. by rewrite Ek5.
Qed.

Lemma scaffold_spec bar0 size w :
  0x104 <= size ->
  wpm (ena_device_init_scaffold (Some bar0) size) (fun ret w' => ret = 0 /\ same_regs (w_dev w) (w_dev w') /\ rtc outside (w_dev w) (w_dev w')
    /\ exists ver, w' = set_w_dev (w_dev w') (set_w_adapter (set_ad_ver ver (set_ad_state ENA_STATE_PCI_PROBED (adapter_zero (Some bar0) size))) w)) w.
Proof.
  intros Hs. unfold ena_device_init_scaffold. cbn [non_null negb orb]. rewrite (proj2 (Z.ltb_ge _ _)) by done.
  assert (forall off f a w0 (m : M D Z) (Q : Z -> world D -> Prop),
    w_adapter w0 = a -> is_Some (bar0_base (ad_bars a)) ->
    (forall v d, same_regs (w_dev w0) d -> rtc outside (w_dev w0) d -> wpm m Q (set_w_adapter (f v a) (set_w_dev d w0))) ->
    wpm (v ← reg_read32 off; mod_ad (f v);; m) Q w0) as Hstep.
  { intros off f a w0 m Q <- Hb HQ. apply wpm_bind, wpm_reg_read32; [done |]. apply wpm_bind, wpm_mod_ad. cbn [w_adapter set_w_dev].
    apply HQ; [apply apart_read | apply rtc_once, out_dev_read]. }
  apply wpm_bind. unfold wpm at 1, put_ad. cbn [wp].
  eapply Hstep; [reflexivity | by eexists |]. intros v1 d1 Hr1 Ho1. eapply Hstep; [reflexivity | by eexists |]. intros v2 d2 Hr2 Ho2.
  eapply Hstep; [reflexivity | by eexists |]. intros v3 d3 Hr3 Ho3. apply wpm_ret. cbn in *.
  split; [done |]. split; [by do 2 (etrans; [eassumption |]) |]. split; [by do 2 (etrans; [eassumption |]) |]. eexists. by destruct w.
Qed.

Lemma bar2_stage how h1 addr phys size p (Q : option Z -> pci_world D K -> Prop) :
  staged h1 addr (pw_w p) ->
  (forall v w' k, staged h1 addr w' -> w_dev w' = w_dev (pw_w p) -> bar_region how v (vmas (pw_k p)) (vmas k) -> Q v (mkPw w' k (s_edevs p))) ->
  wpp (probe_bar2 how phys size) Q p.
Proof.
  intros Hs HQ. unfold probe_bar2. destruct (_ && _).
  2:{ apply wpp_ret. destruct p. apply HQ; [done | done | by destruct how]. }
  apply wpp_bind, map_bar_spec. intros v k _ Hr. destruct v as [v |]; cbn [non_null].
  - apply wpp_bind, wpp_run, wpm_mod_ad, wpp_ret. apply HQ; [| done | done].
    destruct Hs as [[? ? ? ? ? ? ? Hc] ? ? ? ? ?]. split; try assumption. split; assumption.
  - apply wpp_bind, wpp_ret, wpp_ret. by apply HQ.
Qed.

(** The state in which a device is probed: no other device uses MSI-X, and the capability
    list ends, whatever the command register says. *)
Record probe_ready (pdev : pci_device) p : Prop := {
  rd_heap : wf_heap (w_heap (pw_w p));
  rd_irqs : length (msix_irqs (s_msix (w_uk (pw_w p)))) = Z.to_nat ENA_PLAT_MSIX_MAX_VECTORS;
  rd_armed : msix_armed (s_msix (w_uk (pw_w p))) = false;
  rd_caps d : (forall r, r <> config_addr (pdev_addr pdev) 0x04 -> cfg_val r d = cfg_val r (w_dev (pw_w p))) ->
    caps_end (pdev_addr pdev) d;
  rd_boot : boot_ready (w_dev (pw_w p))
}.

(** A device bound by the probe: its structure [e] in the registry, its BARs mapped.  Besides
    the driver's own blocks, the heap has [e] and the blocks [B] of the network core more
    than before. *)
Record bound (how : bar_mapping) (pdev : pci_device) p (e : ena_uk_device) p' : Prop := {
  bd_edev : ed_pdev e = None /\ ed_ops e = true /\ ed_rx_one e = true /\ ed_tx_one e = true;
  bd_track : s_edevs p' = (ena_pci_track_edev e (pdev_ptr pdev) (s_edevs p)).2;
  bd_maps : exists m, bar_region how (bar0_vaddr e) (vmas (pw_k p)) m /\ bar_region how (bar2_vaddr e) m (vmas (pw_k p'));
  bd_probed : exists B h d, ed_ptr e ∉ h_live (w_heap (pw_w p)) /\ B ## {[ed_ptr e]} ∪ h_live (w_heap (pw_w p))
    /\ h_live h = B ∪ ({[ed_ptr e]} ∪ h_live (w_heap (pw_w p)))
    /\ ic_irqs d = ic_irqs (w_dev (pw_w p)) /\ ic_handlers d = ic_handlers (w_dev (pw_w p)) /\ probed h d (pw_w p')
}.

Lemma add_dev_spec how ncpus pdev p :
  probe_ready pdev p ->
  wpp (ena_pci_add_dev how ncpus pdev) (fun ret p' =>
    if ret =? 0 then exists e, bound how pdev p e p'
    else ret < 0 /\ undone (h_live (w_heap (pw_w p))) (w_dev (pw_w p)) (s_edevs p) p') p.
Proof.
  intros [Hh Hi Ha Hc Hb]. unfold ena_pci_add_dev. apply wpp_bind, probe_bars_spec.
  { intros p1 [_ Ew (_ & E1 & E2) Es] Ev. apply wpp_ret. split; [done |]. split; [by rewrite Ew | done | by rewrite Ew | done]. }
  intros bar0 size phys2 size2 d1 k1 Hsize Hcfg (Hout & Ei1 & Ei2) Hreg. apply wpp_bind, wpp_run. cbn [pw_w pw_k s_edevs].
  apply wpm_calloc; [done | |]; cbn [w_heap set_w_dev].
  { intros h Hwf El. apply wpp_bind. eapply unmap_one; [exact Hreg |]. intros k Ek. apply wpp_ret. split; [done |]. by split. }
  intros e h1 Hwf Hnew El. apply wpp_bind, wpp_run. unfold wpm at 1, put_ad. cbn [wp pw_w pw_k s_edevs].
  apply wpp_bind, wpp_run. unfold wpm at 1, mod_uk. cbn [wp pw_w pw_k s_edevs].
  apply wpp_bind, wpp_run. eapply wpm_mono; [by apply scaffold_spec |]. intros ret w2 (-> & Hr2 & Ho2 & ver & Ew2).
  change (z2b 0) with false. cbn [pw_w pw_k s_edevs w_dev w_heap w_uk set_w_uk set_w_dev set_w_heap set_w_adapter] in Hr2, Ho2, Ew2 |- *. cbn iota.
  assert (staged h1 (pdev_addr pdev) w2) as Hst.
  { split; rewrite Ew2; cbn; [| | by split_and! | done | done | apply (boot_outsides (w_dev (pw_w p))); [by etrans | done]].
    - split; cbn; try done. apply (caps_end_same _ d1); [done | by apply Hc].
    - by apply owned_refl. }
  apply wpp_bind. eapply bar2_stage; [exact Hst |]. intros bar2 w3 k3 Hst3 Ed3 Hreg2. cbn [pw_w pw_k s_edevs] in *.
  eapply wpp_mono; [apply (probe_start_spec h1); [exact Hst3 | rewrite El; set_solver] |]. cbn [pw_w pw_k s_edevs].
  assert (same_regs d1 (w_dev w3)) as Hr3 by (by rewrite Ed3). destruct (same_irqs _ _ Hr3) as [Ej1 Ej2].
  intros ret p' [Ev Hr]. destruct (ret =? 0).
  - destruct Hr as (uid & B & h2 & d0 & Et & HB & Eh2 & Hd0 & Hp). exists (mkEdev e None (Some bar0) bar2 uid true true true).
    destruct (same_irqs _ _ Hd0) as [Ek1 Ek2]. rewrite El in HB, Eh2.
    split; [done | done | exists (vmas k1); by rewrite Ev |]. exists B, h2, d0. split_and!; try done; congruence.
  - destruct Hr as [Hneg [[? Elu] [? ?] ? ?]]. split; [done |]. split; [split; [done |] | split; congruence | done | done].
    rewrite Elu, El. set_solver.
Qed.

Lemma remove_spec how pdev fuel views e h d m m1 l p (Q : option ena_uk_device -> pci_world D K -> Prop) :
  ena_pci_find_edev (s_edevs p) pdev = Some e -> clear_slot (ed_ptr e) (s_edevs p) = l -> teardown_ready h d fuel views (pw_w p) ->
  bar_region how (bar0_vaddr e) m m1 -> bar_region how (bar2_vaddr e) m1 (vmas (pw_k p)) ->
  (forall w' k, torn_down h d (default [] (held_by <$> tx_rings (ad_io (w_adapter (pw_w p))))) (pw_w p) w' -> vmas k = m ->
     Q (Some (mkEdev (ed_ptr e) (ed_pdev e) (bar0_vaddr e) (bar2_vaddr e) (ed_uid e) false false false)) (mkPw w' k l)) ->
  wpp (ena_pci_remove_dev how fuel views pdev) Q p.
Proof.
  intros Hf Hl Hr Hr0 Hr2 HQ. unfold ena_pci_remove_dev. apply wpp_bind, wpp_get_edevs. rewrite Hf.
  apply wpp_bind, wpp_run. eapply wpm_mono; [exact (teardown_spec h d fuel views _ Hr) |]. intros [] w1 Htd. cbv beta in Htd.
  apply wpp_bind. eapply wpp_mono; [eapply (unmap_both how _ _ m m1); [exact Hr0 | exact Hr2 |] |].
  - intros k Ek. instantiate (1 := fun _ p' => exists k, vmas k = m /\ p' = mkPw w1 k (s_edevs p)). by exists k.
  - intros [] p2 Hp2. apply wpp_bind. eapply wpp_mono; [exact Hp2 |]. intros [] p3 (k & Ek & ->).
    apply wpp_bind, wpp_put_edevs, wpp_ret. rewrite Hl. by apply HQ.
Qed.
End ProbeProofs.

(** *** The registry *)
Lemma track_find e pdev l :
  None ∈ l -> (forall e', Some e' ∈ l -> ed_pdev e' <> Some pdev) ->
  ena_pci_find_edev (ena_pci_track_edev e pdev l).2 pdev = Some (set_ed_pdev (Some pdev) e).
Proof.
  unfold ena_pci_track_edev. intros Hn Hp. induction l as [| [e' |] l IH]; [set_solver | |].
  - cbn [track_slot]. destruct (track_slot _ l) as [ret l'] eqn:E. cbn [snd ena_pci_find_edev] in *.
    rewrite bool_decide_eq_false_2 by (apply Hp; set_solver). apply IH; set_solver.
  - cbn. by rewrite bool_decide_eq_true_2.
Qed.

Lemma track_clear e pdev l :
  (forall e', Some e' ∈ l -> ed_ptr e' <> ed_ptr e) -> clear_slot (ed_ptr e) (ena_pci_track_edev e pdev l).2 = l.
Proof.
  unfold ena_pci_track_edev. induction l as [| [e' |] l IH]; intros Hp; [done | |].
  - cbn [track_slot]. destruct (track_slot _ l) as [ret l'] eqn:E. cbn [snd clear_slot] in *.
    rewrite (proj2 (Z.eqb_neq _ _)) by (apply Hp; set_solver). f_equal. apply IH. set_solver.
  - cbn. by rewrite Z.eqb_refl.
Qed.

Section ProbeTheorems.
Context {D K : Type} `{EnaDevice D} `{PciConfig D} `{IntCtlr D} `{!PciConfigOk D} `{!IntCtlrOk D} `{!DeviceApart D}
  `{AdminExecOk D} `{!ExecApart D} `{!AdminBoot D} `{!PciBars D} `{KernelServicesOk K}.
Implicit Types p : pci_world D K.


(** The registry has a free slot, no entry for [pdev], and only structures on the heap. *)
Record registry_ready (pdev : pci_device) p : Prop := {
  rr_free : None ∈ s_edevs p;
  rr_new e : Some e ∈ s_edevs p -> ed_pdev e <> Some (pdev_ptr pdev);
  rr_live e : Some e ∈ s_edevs p -> ed_ptr e ∈ h_live (w_heap (pw_w p))
}.

End ProbeTheorems.

(** ** The command function keeps away from the platform *)
Section ExecRegs.
Context {D : Type} `{EnaDevice D} `{PciConfig D} `{IntCtlr D} `{!PciConfigOk D} `{!IntCtlrOk D} `{!DeviceApart D}.

Lemma regs_tick : dev_keeps same_regs tick.
Proof. intros w a w'. unfold tick. pose proof (apart_run (w_mem w) (w_dev w)). destruct (dev_run _ _). by intros [= _ <-]. Qed.
Lemma regs_aq_put i e : dev_keeps same_regs (aq_put i e).
Proof. intros w a w'. unfold aq_put. case_match; [| done]. destruct (aset _ _ _); [| done..]. by intros [= _ <-]. Qed.
Lemma regs_acq_put i e : dev_keeps same_regs (acq_put i e).
Proof. intros w a w'. unfold acq_put. case_match; [| done]. destruct (aset _ _ _); [| done..]. by intros [= _ <-]. Qed.
Lemma regs_acq_peek i : dev_keeps same_regs (acq_peek i).
Proof. intros w a w'. unfold acq_peek. case_match; [| done]. destruct (aget _ _); [| done..]. by intros [= _ <-]. Qed.
Lemma regs_lock_take : dev_keeps same_regs ena_admin_lock_take.
Proof. intros w a w'. unfold ena_admin_lock_take. case_match; [done |]. by intros [= _ <-]. Qed.
#[local] Hint Resolve regs_tick regs_aq_put regs_acq_put regs_acq_peek regs_lock_take regs_reg_write regs_mod_adm : keeps.
Lemma regs_acq_get i : dev_keeps same_regs (acq_get i).
Proof. unfold acq_get. dev_keeps. Qed.
#[local] Hint Resolve regs_acq_get : keeps.
Lemma regs_acq_poll n slot : dev_keeps same_regs (acq_poll n slot).
Proof. induction n as [| n IH]; cbn [acq_poll]; dev_keeps. Qed.
#[local] Hint Resolve regs_acq_poll : keeps.

Lemma regs_exec_cmd recover opcode req cap polls :
  dev_keeps same_regs recover -> dev_keeps same_regs (ena_admin_exec_cmd recover opcode req cap polls).
Proof.
  intros Hr. unfold ena_admin_exec_cmd, ena_admin_exec_locked, aq_submit, acq_complete, ena_admin_ring_aq_db, ena_admin_lock_drop. dev_keeps.
Qed.
End ExecRegs.

(** ** Examples: the device of [Device] behind a kernel *)
#[export] Instance kernel_device_ok `{EnaDeviceOk D} : EnaDeviceOk (kernel D).
Proof.
  split; intros; simpl.
  - pose proof (dev_run_aq m (k_dev_state d)). by destruct (dev_run _ _).
  - pose proof (dev_run_acq m (k_dev_state d) ltac:(done)). by destruct (dev_run _ _).
  - pose proof (dev_run_aenq m (k_dev_state d) ltac:(done)). by destruct (dev_run _ _).
  - pose proof (dev_read_range off (k_dev_state d)). by destruct (dev_read _ _).
Qed.
#[export, refine] Instance kernel_responsive `{ResponsiveDevice D} : ResponsiveDevice (kernel D) := {
  dev_latency := dev_latency (D := D);
  fw := fw (D := D);
  fw_step := fw_step;
  dev_idle a b n s d := dev_idle a b n s (k_dev_state d);
  dev_busy a b n s k d := dev_busy a b n s k (k_dev_state d)
}.
Proof.
  - apply fw_step_ok.
  - intros a b n s d. apply (dev_doorbell (D := D)).
  - intros a b n s k m d Hd. pose proof (dev_wait a b n s k m _ Hd). simpl. by destruct (dev_run _ _).
  - intros a b n s m d e Hd He Hp. pose proof (dev_post a b n s m _ e Hd He Hp). simpl. by destruct (dev_run _ _).
  - intros a b n s m d Hd. pose proof (dev_idle_run a b n s m _ Hd). simpl. by destruct (dev_run _ _).
  - intros a b n s v d. apply dev_idle_tail.
Defined.
#[export, refine] Instance kernel_queues `{QueueFirmware D} : QueueFirmware (kernel D) := {
  fw_queues := fw_queues (D := D)
}.
Proof. intros s e. exact (fw_queues_step (D := D) s e). Defined.

Abbreviation ex_machine := (kernel ex_dev).
#[export] Instance ex_machine_exec : AdminExec ex_machine := session_exec (mret 0).
#[export] Instance ex_machine_exec_ok : AdminExecOk ex_machine :=
  session_exec_ok (D := ex_machine) (mret 0) ltac:(apply Nat.ltb_lt; reflexivity) ex_no_timeout.
#[export] Instance ex_machine_apart : ExecApart ex_machine.
Proof. intros opcode req cap polls w x w'. apply regs_exec_cmd. apply dev_keeps_ret, _. Qed.

Lemma ex_machine_outside (d d' : ex_machine) : outside d d' -> k_dev_state d' = k_dev_state d.
Proof. intros []; simpl; repeat case_match; done. Qed.

(** Its firmware starts without queues; 4095 commands pass before the ids wrap. *)
#[export, refine] Instance ex_machine_boot : AdminBoot ex_machine := {
  boot_ready d := xd_fw (k_dev_state d) = ex_fw0;
  boot_left := 100
}.
Proof.
  - intros d d' Ho. by rewrite (ex_machine_outside _ _ Ho).
  - intros live w w' Hfw Hl [Hwf _ _ Hst Hlock Hid (E1 & E2 & _) [Ei1 Ei2] Hstale _ [Ed _]]. exists 0, ex_fw0.
    split_and!; [| done | lia | left; by rewrite Hid | lia | by rewrite Hst | congruence].
    split; rewrite ?E1, ?E2; [done | done | done | | done]. rewrite Ed. by destruct (w_dev w) as [[? ? ? ? f] ? ? ? ? ?]; cbn in Hfw; subst f.
  - intros k qs w d Ho (n & s & [Hwf ? ? Hd ?] & Hs). exists n, s. split; [| exact Hs]. split; try assumption.
    + destruct Hwf. by split.
    + unfold dev_idle, kernel_responsive. cbn [w_dev set_w_dev w_adapter]. by rewrite (ex_machine_outside _ _ Ho).
  - intros k qs w f arg (n & s & [Hwf ? ? ? ?] & Hs). exists n, s. split; [| exact Hs]. split; try assumption. destruct Hwf. by split.
Defined.

#[export, refine] Instance kernel_bars {D} : PciBars (kernel D) := { cfg_mask r d := u32 (default 0 (k_mask d !! r)) }.
Proof.
  - intros addr reg v d _. set (r := config_addr addr reg). change (u32 (default 0 (<[r := k_merge (default 0 (k_mask d !! r)) (k_val r d) v]> (k_cfg d) !! r))
      = cfg_merge (u32 (default 0 (k_mask d !! r))) (k_val r d) v). rewrite lookup_insert_eq. cbn [default]. unfold id.
    pose proof (u32_range (default 0 (k_cfg d !! r)) : 0 <= k_val r d < 2 ^ 32) as Hv. set (m := default 0 (k_mask d !! r)). set (x := k_val r d) in *.
    unfold cfg_merge, k_merge, u32. apply Z.bits_inj'. intros i Hi. destruct (Z.lt_ge_cases i 32) as [Hlt | Hge].
    + rewrite Z.mod_pow2_bits_low by lia. rewrite !Z.lor_spec, !Z.land_spec, !Z.ldiff_spec. by rewrite Z.mod_pow2_bits_low by lia.
    + rewrite Z.mod_pow2_bits_high by lia. rewrite !Z.lor_spec, !Z.land_spec, !Z.ldiff_spec. rewrite Z.mod_pow2_bits_high by lia.
      by rewrite (testbit_above x 32), andb_false_r.
  - intros addr reg r v d _ Hne. unfold cfg_val, kernel_config_ok, cfg_write, kernel_config, k_val. cbn. by rewrite lookup_insert_ne.
  - done.
  - done.
Defined.

(** An address space of slots of 2^40 bytes, the free one being the next. *)
Definition ex_slot (i : Z) : Z := (i + 1) * 2 ^ 40.
#[local] Instance ex_slot_inj : Inj (=) (=) ex_slot.
Proof. unfold ex_slot. intros i j. lia. Qed.
Definition ex_find (a : Z) (k : gmap Z Z) : option (Z * Z) :=
  let i := a / 2 ^ 40 - 1 in
  match k !! i with Some len => Some (ex_slot i, ex_slot i + len) | None => None end.
#[export] Instance ex_services : KernelServices (gmap Z Z) := {|
  page_shift := 12;
  page_align_down x := x / 4096 * 4096;
  page_align_up x := (x + 4095) / 4096 * 4096;
  uk_vma_map_dma len _ k :=
    let i := Z.of_nat (size k) in
    if bool_decide (k !! i = None) && (4096 <=? len) && (len <=? 2 ^ 40) then (0, ex_slot i, <[i := len]> k) else (- ENOMEM, 0, k);
  uk_vma_find := ex_find;
  uk_vma_unmap v _ k := delete (v / 2 ^ 40 - 1) k;
  uk_paging_page_map _ _ _ k := (0, k);
  uk_netdev_drv_register h k := let '(o, h) := heap_alloc h in (if non_null o then 0 else - ENOMEM, h, k)
|}.
Definition ex_vmas (k : gmap Z Z) : gmap Z Z := kmap ex_slot (filter (fun x : Z * Z => x.2 <= 2 ^ 40) k).

Lemma ex_vmas_lookup k v len : ex_vmas k !! v = Some len <-> exists i, v = ex_slot i /\ k !! i = Some len /\ len <= 2 ^ 40.
Proof. unfold ex_vmas. rewrite lookup_kmap_Some by apply _. by setoid_rewrite map_lookup_filter_Some. Qed.

#[export, refine] Instance ex_services_ok : KernelServicesOk (gmap Z Z) := { vmas := ex_vmas }.
Proof.
  - done.
  - intros x. cbn. pose proof (Z.div_mod x 4096). pose proof (Z.mod_pos_bound x 4096). lia.
  - intros len pa k ret v k'. cbn. destruct (bool_decide (k !! Z.of_nat (size k) = None)) eqn:E1; cbn [andb]; [| by intros [= <- <- <-]].
    destruct (Z.leb_spec 4096 len), (Z.leb_spec len (2 ^ 40)); cbn [andb]; try (by intros [= <- <- <-]). intros [= <- <- <-].
    apply bool_decide_eq_true in E1. split; [done |]. cbn [Z.eqb]. split_and!; [unfold ex_slot; lia | done | |].
    + apply eq_None_not_Some. intros [x (i & Ei%(inj ex_slot) & Hi & _)%ex_vmas_lookup]. subst i. congruence.
    + unfold ex_vmas. by rewrite map_filter_insert_True, kmap_insert by (done || apply _).
  - intros v len a k (i & -> & Hi & Hl)%ex_vmas_lookup Ha. cbn. unfold ex_find.
    assert (a / 2 ^ 40 - 1 = i) as ->; [| by rewrite Hi]. unfold ex_slot in Ha.
    assert (a / 2 ^ 40 = i + 1); [| lia]. symmetry. apply (Z.div_unique _ _ _ (a - (i + 1) * 2 ^ 40)); lia.
  - intros v len k (i & -> & Hi & Hl)%ex_vmas_lookup. cbn. assert (ex_slot i / 2 ^ 40 - 1 = i) as ->.
    { unfold ex_slot. rewrite Z.div_mul by lia. lia. }
    unfold ex_vmas. by rewrite map_filter_delete, kmap_delete by apply _.
  - done.
  - intros h k ret h' k' Hwf. cbn. destruct (heap_alloc h) as [o h1] eqn:E. intros [= <- <- <-].
    destruct (heap_alloc_spec _ _ _ Hwf E) as (Hwf' & _ & Hp). split_and!; [done | done |]. destruct o as [a |].
    + destruct Hp as (-> & _ & Hn & El). exists {[h_next h]}. split_and!; [set_solver | done | cbn; lia].
    + exists ∅. split_and!; [set_solver | rewrite Hp; set_solver | done].
Defined.

(** The function of [Plat] with a BAR0 of 64 KiB and a BAR2 of 1 MiB, both of 64 bits. *)
Definition ex_pdev : pci_device := mkPdev 77 ex_addr.
Definition ex_regs (l : list (Z * Z)) : gmap Z Z := list_to_map ((fun '(r, v) => (config_addr ex_addr r, v)) <$> l).
Definition ex_pci_dev : ex_machine := mkKernel (mkExDev 0 0 0 None ex_fw0)
  (ex_regs [(0x10, 0xFEBF0004); (0x14, 0); (0x18, 0xE000000C); (0x1C, 0); (0x34, 0x40); (0x40, 0x00037001); (0x70, 0x00080011);
            (0x74, 0x2000); (0x78, 0x3000)])
  (ex_regs [(0x04, 7); (0x10, 0xFFFF0000); (0x14, 0xFFFFFFFF); (0x18, 0xFFF00000); (0x1C, 0xFFFFFFFF); (0x70, 0xC0000000)])
  {[33]} {[33]} 16.
Definition ex_pci : pci_world ex_machine (gmap Z Z) :=
  mkPw (mkWorld uk_zero (adapter_zero None 0) example_heap (mkMem [] [] []) ex_pci_dev []) ∅ (replicate (Z.to_nat ENA_PCI_MAX_DEVS) None).

Lemma bar_probe_witness :
  wpm (size ← pci_read_bar_size ex_addr 0x18; base ← pci_read_bar ex_addr 0x18; mret (size, base)) (fun '(size, base) w' =>
    u32 size = 2 ^ 20 /\ size = 2 ^ 20 + (2 ^ 64 - 2 ^ 32) /\ base = 0xE0000000) (pw_w ex_pci).
Proof.
  eapply wpm_mono; [apply (bar_probe_correct ex_addr 0x18 20 (pw_w ex_pci)) |].
  - set_solver.
  - split; [lia | vm_compute; reflexivity..].
  - intros [size base] w' (H1 & H2 & H3 & _). split_and!; [done | done |]. rewrite H3. vm_compute. reflexivity.
Defined.

Lemma ex_pci_ready : probe_ready ex_pdev ex_pci.
Proof.
  split; [by split | done | done | | done].
  intros d Hd. unfold caps_end. change (pdev_addr ex_pdev) with ex_addr in *.
  set (val := fun r => if Z.land r 0xFC =? 0x04 then pci_regs ex_addr d r else pci_regs ex_addr ex_pci_dev r).
  assert (forall r, pci_regs ex_addr d r = val r) as E.
  { intros r. unfold val. destruct (Z.eqb_spec (Z.land r 0xFC) 0x04); [done |]. apply Hd. by apply config_addr_ne. }
  rewrite (walk_caps_ext _ val), E by done. vm_compute. by eexists.
Qed.

Lemma ex_pci_registry : registry_ready ex_pdev ex_pci.
Proof. split; [by left | |]; intros e [[=] _]%elem_of_replicate. Qed.

(** The probe succeeds, with 9 vectors armed; the mapping of BAR2, with the size computed for
    it, is refused, so that there is no push region. *)
Lemma ex_probe_run : wpp (ena_pci_add_dev MapVmem 2 ex_pdev) (fun ret p' =>
  ret = 0 /\ (msix_nvec (s_msix (w_uk (pw_w p'))), bar2_base (ad_bars (w_adapter (pw_w p'))), size (pw_k p')) = (9, None, 1%nat)) ex_pci.
Proof. vm_compute. split; reflexivity. Qed.


Lemma ex_cycle_run : wpp (ret ← ena_pci_add_dev MapVmem 2 ex_pdev;
    r ← (if ret =? 0 then ena_pci_remove_dev MapVmem 5 ex_idle_views 77 else mret None); mret (ret, r))
  (fun '(ret, r) p' => ret = 0) ex_pci.
Proof. vm_compute. reflexivity. Qed.


(** A bring-up that fails leaves BAR0 mapped: here the registration finds no memory. *)
Definition ex_poor (n : nat) : pci_world ex_machine (gmap Z Z) :=
  mkPw (set_w_heap (mkHeap 4096 ∅ (fun i => bool_decide (i < n)%nat) id) (pw_w ex_pci)) (pw_k ex_pci) (s_edevs ex_pci).
Example failed_probe_keeps_mapping : wpp (ena_pci_add_dev MapVmem 2 ex_pdev) (fun ret p' =>
  ret = - ENOMEM /\ h_live (w_heap (pw_w p')) = ∅ /\ size (vmas (pw_k p')) = 1%nat) (ex_poor 6).
Proof. vm_compute. split_and!; reflexivity. Qed.

(** A second device: [ena_plat_msix_arm] refuses, and the error path of [ena_intr_setup] then
    disarms the platform, whose vectors are those of the first device. *)
Example second_device_disarms : wpp (
    ret ← ena_pci_add_dev MapVmem 2 ex_pdev;
    n ← run ena_plat_msix_state;
    ret' ← ena_pci_add_dev MapVmem 2 (mkPdev 78 ex_addr);
    n' ← run ena_plat_msix_state; mret [ret; n; ret'; n']) (fun l _ => l = [0; 9; 0; 0]) ex_pci.
Proof. vm_compute. reflexivity. Qed.
