(* ===== verification/Diag.v ===== *)
(** * Diagnostics of the network device

    The observers at the end of src/ena_netdev.c, which the samples print: counters and
    accounting of a ring, the keep-alive report, the statistics of the device, and the two
    that nudge a quiet queue ([ena_netdev_rx_kick], [ena_netdev_rearm_cq_intr]).  [dev] is
    false for a NULL device; output pointers are not NULL. *)

From stdpp Require Import base tactics option list list_numbers numbers sets gmap.
From Stdlib Require Import ZArith Lia.
From S2P Require Import Prelude Fifo Mem Desc Netq Ring Tx Adapter Admin Session Exec Device Control Queue Init Rss Recover Netconf Plat Intr Netdev.

(** Output of [ena_netdev_dev_stats]; [None]: not written. *)
Record dev_stats_out := mkDevStats {
  ds_rx_drops : option Z;
  ds_tx_drops : option Z;
  ds_rx_pkts : option Z;
  ds_tx_pkts : option Z;
  ds_eni : option (list Z);
  ds_eni_valid : Z
}.

(** Two words of a statistics block of bytes, the low one first. *)
Definition stat_pair (off : nat) (b : list Z) : Z := Z.lor (Z.shiftl (le_get 4 (off + 4) b) 32) (le_get 4 off b).

(** [if (ring->req_in_flight[i]) inf++] for the first [n] requests. *)
Fixpoint count_in_flight (fl : arr Z) (n : nat) (i inf : Z) : res Z :=
  match n with
  | O => mret inf
  | S n => x ← aget fl i; count_in_flight fl n (i + 1) (if z2b x then u32 (inf + 1) else inf)
  end.

Section Diag.
Context {D : Type} `{EnaDevice D} `{PciConfig D} `{IntCtlr D} `{AdminExec D}.

Definition ena_netdev_aen_report (dev : bool) : M D (Z * Z * Z) :=
  if negb dev then mret (0, 0, 0)
  else a ← get_ad; mret (aen_keepalives (ad_aen a), aen_rx_drops (ad_aen a), aen_tx_drops (ad_aen a)).

(** [eni]: the caller has an array for the ENI counters. *)
Definition ena_netdev_dev_stats (dev eni : bool) : M D (Z * dev_stats_out) :=
  if negb dev then mret (- EINVAL, mkDevStats None None None None None 0)
  else
    '(ret, basic) ← ena_admin_get_basic_stats;
    if z2b ret then mret (ret, mkDevStats None None None None None 0)
    else
      let out := mkDevStats (Some (stat_pair 32 basic)) (Some (stat_pair 40 basic)) (Some (stat_pair 24 basic)) (Some (stat_pair 8 basic)) in
      a ← get_ad;
      if eni && z2b (Z.land (attr_caps (ad_attr a)) 1) then
        '(ret, s) ← ena_admin_get_eni_stats;
        if ret =? 0 then mret (0, out (Some ((fun i => le_get 8 (8 * i) s) <$> seq 0 5)) 1)
        else mret (0, out None 0)
      else mret (0, out None 0).

(** The ring of a queue, if there is one: the checks that all observers share. *)
Definition diag_ring (dev tx : bool) (qid : Z) : M D (option ena_ring) :=
  if negb dev then mret None
  else
    a ← get_ad;
    if non_null (rings_of tx (ad_io a)) && (qid <? num_rings tx (ad_io a)) then lift (aget (rings_of tx (ad_io a)) qid)
    else mret None.

Definition ena_netdev_rx_posted (dev : bool) (qid : Z) : M D Z :=
  r ← diag_ring dev false qid;
  match r with
  | None => mret 0xFFFFFFFF
  | Some r => mret (Z.land (sq_tail (r_sq r) - sq_head (r_sq r)) (u16 (sq_depth (r_sq r) - 1)))
  end.

(** Free ids, requests in flight, submission tail, completion head. *)
Definition ena_netdev_tx_ring_state (dev : bool) (qid : Z) : M D (Z * Z * Z * Z) :=
  r ← diag_ring dev true qid;
  match r with
  | None => mret (0, 0, 0, 0)
  | Some r =>
      inf ← (if non_null (req_in_flight (r_pool r)) then lift (count_in_flight (req_in_flight (r_pool r)) (Z.to_nat (sq_depth (r_sq r))) 0 0)
             else mret 0);
      mret (ff_count (free_req (r_pool r)), inf, sq_tail (r_sq r), cq_head (r_cq r))
  end.

(** The same, with the submission head before the completion head. *)
Definition ena_netdev_rx_ring_state (dev : bool) (qid : Z) : M D (Z * Z * Z * Z * Z) :=
  r ← diag_ring dev false qid;
  match r with
  | None => mret (0, 0, 0, 0, 0)
  | Some r =>
      inf ← (if non_null (req_in_flight (r_pool r)) then lift (count_in_flight (req_in_flight (r_pool r)) (Z.to_nat (sq_depth (r_sq r))) 0 0)
             else mret 0);
      mret (ff_count (free_req (r_pool r)), inf, sq_tail (r_sq r), sq_head (r_sq r), cq_head (r_cq r))
  end.

Definition ena_netdev_rx_kick (dev : bool) (qid : Z) : M D unit :=
  r ← diag_ring dev false qid;
  match r with
  | None => mret tt
  | Some r =>
      match sq_db (r_sq r) with
      | Some db => if hw_valid r then emit [EvWrite32 db (sq_tail (r_sq r))] else mret tt
      | None => mret tt
      end
  end.

Definition ena_netdev_rx_dropped (dev : bool) (qid : Z) : M D Z :=
  r ← diag_ring dev false qid; mret (default 0 ((fun r => rx_dropped (r_stats r)) <$> r)).
Definition ena_netdev_rx_refill_err (dev : bool) (qid : Z) : M D Z :=
  r ← diag_ring dev false qid; mret (default 0 ((fun r => rx_refill_err (r_stats r)) <$> r)).
Definition ena_netdev_rxq_pkts (dev : bool) (qid : Z) : M D Z :=
  r ← diag_ring dev false qid; mret (default 0 ((fun r => rx_packets (r_stats r)) <$> r)).
Definition ena_netdev_txq_pkts (dev : bool) (qid : Z) : M D Z :=
  r ← diag_ring dev true qid; mret (default 0 ((fun r => tx_packets (r_stats r)) <$> r)).
Definition ena_netdev_cq_unmask_off (dev : bool) (qid : Z) : M D Z :=
  r ← diag_ring dev false qid; mret (default 0xFFFFFFFF ((fun r => cq_unmask_db_offset (r_cq r)) <$> r)).

Definition ena_netdev_rearm_cq_intr (dev : bool) (qid : Z) : M D unit :=
  if negb dev then mret tt
  else
    a ← get_ad;
    if negb (non_null (irq_vectors a)) || (num_irq_vectors a <=? qid + 1) then mret tt
    else ena_intr_unmask_vector (qid + 1);; mret tt.

(** Free TX requests, posted RX descriptors, free bounce slots. *)
Definition ena_netdev_ring_stats (dev : bool) (qid : Z) : M D (Z * Z * Z) :=
  t ← diag_ring dev true qid;
  r ← diag_ring dev false qid;
  mret (default 0 ((fun r => ff_count (free_req (r_pool r))) <$> t),
        default 0 ((fun r => u32 (sq_tail (r_sq r) - cq_head (r_cq r))) <$> r), 0).
End Diag.

(** ** The accounting of a ring *)
Definition in_flight_ids (p : pool_state) (d : Z) : list Z := filter (fun id => flights p !!! Z.to_nat id <> 0) (seqZ 0 d).

Lemma count_in_flight_spec p d n i inf :
  req_in_flight p = Some (flights p) -> Z.of_nat (length (flights p)) = d -> d < 2 ^ 32 -> 0 <= i -> i + Z.of_nat n = d ->
  inf = Z.of_nat (length (filter (fun id => flights p !!! Z.to_nat id <> 0) (seqZ 0 i))) ->
  count_in_flight (req_in_flight p) n i inf = Ret (Z.of_nat (length (in_flight_ids p d))).
Proof.
  intros Ep Ed Hd. revert i inf. induction n as [| n IH]; intros i inf Hi Hn ->; cbn [count_in_flight].
  - assert (i = d) as -> by lia. done.
  - destruct (lookup_in_range (flights p) i) as [x Hx]; [lia |]. rewrite Ep, (aget_ret _ _ x) by (done || lia). rewrite <- Ep.
    cbn [mbind res_bind]. apply IH; [lia | lia |].
    assert (seqZ 0 (i + 1) = seqZ 0 i ++ [i]) as -> by (rewrite seqZ_app by lia; by rewrite Z.add_0_l).
    rewrite filter_app, length_app. set (k := length (filter _ (seqZ 0 i))).
    assert (Z.of_nat k <= i) by (unfold k; pose proof (length_filter (fun id => flights p !!! Z.to_nat id <> 0) (seqZ 0 i)) as Hl;
      rewrite length_seqZ in Hl; lia).
    cbn [filter list_filter]. rewrite (list_lookup_total_correct _ _ _ Hx). unfold z2b. destruct (Z.eqb_spec x 0) as [-> | Hne]; cbn [negb].
    + rewrite decide_False by naive_solver. cbn. lia.
    + rewrite decide_True by done. rewrite u32_id by lia. cbn. lia.
Qed.

(** Free, in flight and deferred are three different things. *)
Lemma tx_accounting r :
  wf_tx r -> ff_count (free_req (r_pool r)) + Z.of_nat (length (in_flight_ids (r_pool r) (sq_depth (r_sq r)))) + tx_foreign_count (r_own r)
             <= sq_depth (r_sq r).
Proof.
  intros [Hr _ Hfl [(fo & Efo & Hfo) Hcnt Hndd Hdef]]. pose proof (wr_pool _ Hr) as Hp. set (d := sq_depth (r_sq r)) in *. set (p := r_pool r) in *.
  pose proof (wff_count _ _ (wp_fifo _ _ _ Hp)) as Hc. pose proof (length_fifo_contents _ _ (wp_fifo _ _ _ Hp)) as Hlf.
  set (ids := free_ids d p ++ in_flight_ids p d ++ (fo_req_id <$> deferred (r_own r))).
  assert (length (deferred (r_own r)) = Z.to_nat (tx_foreign_count (r_own r))) as Hld
    by (unfold deferred; rewrite length_take, Efo; cbn [default]; unfold id; lia).
  assert (forall id, id ∈ in_flight_ids p d <-> 0 <= id < d /\ in_flight p id) as Hin.
  { intros id. unfold in_flight_ids. rewrite list_elem_of_filter, elem_of_seqZ. unfold in_flight. split.
    - intros [Hx Hid]. split; [lia |]. exists (flights p !!! Z.to_nat id). split; [| done]. apply list_lookup_lookup_total_lt.
      pose proof (wp_fl_len _ _ _ Hp). lia.
    - intros [Hid (x & Hx & Hne)]. rewrite (list_lookup_total_correct _ _ _ Hx). split; [done | lia]. }
  assert (NoDup ids) as Hnd.
  { unfold ids. rewrite !NoDup_app. split_and!; [exact (wp_nodup _ _ _ Hp) | | apply NoDup_filter, NoDup_seqZ | | done].
    - intros id Hid%(wp_free _ _ _ Hp) [Hx | Hx]%elem_of_app.
      + apply Hin in Hx as [? Hx]. destruct (Hfl id ltac:(lia) Hx) as (x & Ex & Hne). naive_solver.
      + apply list_elem_of_fmap in Hx as (e & -> & He). destruct (Hdef e He) as (_ & (x & Ex & Hne) & _). naive_solver.
    - intros id [_ Hx]%Hin Hd'. apply list_elem_of_fmap in Hd' as (e & -> & He). by destruct (Hdef e He) as (_ & _ & ? & _). }
  assert (ids ⊆+ seqZ 0 d) as Hsub%submseteq_length.
  { apply NoDup_submseteq; [done |]. intros id. unfold ids. rewrite !elem_of_app, elem_of_seqZ. intros [Hx | [Hx | Hx]].
    - apply (wp_free _ _ _ Hp) in Hx. lia.
    - apply Hin in Hx. lia.
    - apply list_elem_of_fmap in Hx as (e & -> & He). destruct (Hdef e He) as (? & _). lia. }
  unfold ids in Hsub. rewrite !length_app, length_fmap, Hld, length_seqZ in Hsub. change (free_ids d p) with (fifo_contents d (free_req p)) in Hsub.
  rewrite Hlf in Hsub. lia.
Qed.

(** A pair of words is a 64-bit counter. *)
Lemma stat_pair_eq off b : Forall is_byte b -> (off + 8 <= length b)%nat -> stat_pair off b = le_get 8 off b.
Proof.
  intros Hb Hl. unfold stat_pair. pose proof (le_get_range 4 (drop off b) (Forall_drop _ _ _ Hb)) as Hr.
  change (le_get 4 0 (drop off b)) with (le_get 4 off b) in Hr. rewrite Z.lor_comm, lor_shiftl by exact Hr.
  unfold le_get. replace (take 8 (drop off b)) with (take 4 (drop off b) ++ take 4 (drop (off + 4) b)).
  - rewrite le_val_app. rewrite length_take, length_drop. replace (4 `min` (length b - off))%nat with 4%nat by lia.
    change (256 ^ Z.of_nat 4) with (2 ^ 32). lia.
  - rewrite <- drop_drop. change 8%nat with (4 + 4)%nat. by rewrite take_take_drop.
Qed.

Section DiagProofs.
Context {D : Type} `{EnaDevice D} `{PciConfig D} `{IntCtlr D} `{AdminExecOk D}.
Implicit Types w : world D.

Lemma wpm_diag_ring tx q w (Q : option ena_ring -> world D -> Prop) :
  nums_fit (ad_io (w_adapter w)) -> 0 <= q ->
  (forall o, (forall l, rings_of tx (ad_io (w_adapter w)) = Some l -> q < num_rings tx (ad_io (w_adapter w)) -> l !! Z.to_nat q = Some o) -> Q o w) ->
  wpm (diag_ring true tx q) Q w.
Proof.
  intros Hn Hq HQ. unfold diag_ring. cbn [negb]. apply wpm_bind, wpm_get_ad.
  destruct (rings_of tx _) as [l |] eqn:El; cbn [non_null andb]; [| apply wpm_ret, HQ; congruence].
  destruct (Z.ltb_spec q (num_rings tx (ad_io (w_adapter w)))) as [Hlt | Hge]; [| apply wpm_ret, HQ; intros; lia].
  destruct (Hn tx l El) as [_ Hle]. destruct (lookup_in_range l q) as [o Ho]; [lia |].
  eapply wpm_lift; [by apply aget_ret |]. apply HQ. congruence.
Qed.

Lemma get_stats_ok type : is_byte type -> req_ok (Some (get_stats_req type)).
Proof. intros Ht r [= <-]. split; [| left; simpl; lia]. unfold get_stats_req, ctrl_buff, mem_addr. byte_list. Qed.

(** What [ena_netdev_dev_stats] reports: the 64-bit words of the block the device sent; the ENI
    counters only if the device has them and the caller wants them; nothing on an error. *)
Definition stats_read (eni : bool) w (ret : Z) (out : dev_stats_out) : Prop :=
  ret = 0 /\ (exists b, length b = 48%nat /\ Forall is_byte b /\ ds_tx_pkts out = Some (le_get 8 8 b) /\ ds_rx_pkts out = Some (le_get 8 24 b)
      /\ ds_rx_drops out = Some (le_get 8 32 b) /\ ds_tx_drops out = Some (le_get 8 40 b))
    /\ (ds_eni_valid out = 1 <-> is_Some (ds_eni out))
    /\ (is_Some (ds_eni out) -> eni = true /\ Z.land (attr_caps (ad_attr (w_adapter w))) 1 <> 0)
  \/ ret < 0 /\ out = mkDevStats None None None None None 0.

(** It takes two commands at most. *)
Lemma dev_stats_correct k qs eni w :
  ax_ok (2 + k) qs w ->
  wpm (ena_netdev_dev_stats true eni) (fun '(ret, out) w' => moved k qs w w' /\ stats_read eni w ret out) w.
Proof.
  intros Hok. unfold ena_netdev_dev_stats, ena_admin_get_basic_stats, ena_admin_exec_get_stats. cbn [negb].
  do 3 apply wpm_bind. eapply (wpm_feature (S k)); [by apply moved_start | by right; right | by apply get_stats_ok | done |].
  intros ret out resp w1 Hm1 Hle Hr. apply wpm_ret. unfold z2b. destruct (Z.eqb_spec ret 0) as [-> | Hne]; cbn [negb].
  2:{ apply wpm_ret. rewrite (proj2 (Z.eqb_neq ret 0)) by done. cbn [negb]. apply wpm_ret. split; [by apply (moved_less _ (S k)); [lia |] |]. right. split; [lia | done]. }
  destruct (Hr eq_refl) as [Hlen Hb]. change (resp_len 56) with 56 in Hlen. apply wpm_ret. cbn [Z.eqb negb]. apply wpm_bind, wpm_get_ad.
  assert (forall o v, (v = 1 <-> is_Some o) -> (is_Some o -> eni = true /\ Z.land (attr_caps (ad_attr (w_adapter w))) 1 <> 0) ->
    stats_read eni w 0 (mkDevStats (Some (stat_pair 32 (take 48 resp))) (Some (stat_pair 40 (take 48 resp))) (Some (stat_pair 24 (take 48 resp)))
      (Some (stat_pair 8 (take 48 resp))) o v)) as Hst.
  { intros o v Hv Ho. left. split; [done |]. split; [| by split]. assert (length (take 48 resp) = 48%nat) as El by (rewrite length_take; lia).
    exists (take 48 resp). split; [done |]. split; [by apply Forall_take |]. cbn [ds_tx_pkts ds_rx_pkts ds_rx_drops ds_tx_drops].
    by rewrite !stat_pair_eq by (apply Forall_take, Hb || (rewrite El; lia)). }
  assert (forall w' o v, moved k qs w w' -> (v = 1 <-> is_Some o) -> (is_Some o -> eni = true /\ Z.land (attr_caps (ad_attr (w_adapter w))) 1 <> 0) ->
    moved k qs w w' /\ stats_read eni w 0 (mkDevStats (Some (stat_pair 32 (take 48 resp))) (Some (stat_pair 40 (take 48 resp)))
      (Some (stat_pair 24 (take 48 resp))) (Some (stat_pair 8 (take 48 resp))) o v)) as Hdone by (intros; split; auto).
  clear Hst. pose proof (moved_ad _ _ _ _ Hm1) as Ea. destruct eni; cbn [andb].
  - destruct (Z.eqb_spec (Z.land (attr_caps (ad_attr (w_adapter w1))) 1) 0) as [E0 | E0]; cbn [negb].
    + apply wpm_ret, Hdone; [by apply (moved_less _ (S k)); [lia |] | by split; [| intros []] | by intros []].
    + unfold ena_admin_get_eni_stats, ena_admin_exec_get_stats. do 3 apply wpm_bind.
      eapply (wpm_feature k); [exact Hm1 | by right; right | by apply get_stats_ok | done |].
      intros ret2 out2 resp2 w2 Hm2 _ _. apply wpm_ret. destruct (z2b ret2) eqn:Ez; apply wpm_ret.
      * unfold z2b in Ez. apply negb_true_iff in Ez. rewrite Ez. apply wpm_ret, Hdone; [done | by split; [| intros []] | by intros []].
      * cbn [Z.eqb]. apply wpm_ret, Hdone; [done | done |]. intros _. split; [done |]. by rewrite Ea in E0.
  - apply wpm_ret, Hdone; [by apply (moved_less _ (S k)); [lia |] | by split; [| intros []] | by intros []].
Qed.

(** C37: The figures of a TX ring add up.  For every TX ring that keeps its invariant, the
    observers change nothing, and the requests reported free, those reported in flight and
    the completed ones that wait for the core that owns them are at most the depth of the
    ring: no request is counted twice, and the counter does not wrap.  The two observers
    agree on the free requests; the number of free bounce slots is reported as 0 always. *)
Theorem ring_accounting q l r w :
  nums_fit (ad_io (w_adapter w)) -> 0 <= q < num_tx_rings (ad_io (w_adapter w)) ->
  tx_rings (ad_io (w_adapter w)) = Some l -> l !! Z.to_nat q = Some (Some r) -> wf_tx r ->
  wpm (s ← ena_netdev_tx_ring_state true q; t ← ena_netdev_ring_stats true q; mret (s, t))
    (fun '(free, inflight, tail, head, (tx_free, _, bounce_free)) w' =>
      w' = w /\ inflight = Z.of_nat (length (in_flight_ids (r_pool r) (sq_depth (r_sq r))))
      /\ 0 <= free /\ free + inflight + tx_foreign_count (r_own r) <= sq_depth (r_sq r)
      /\ tail = sq_tail (r_sq r) /\ head = cq_head (r_cq r) /\ tx_free = free /\ bounce_free = 0) w.
Proof.
  intros Hn Hq El Hr Hwf. pose proof (tx_accounting r Hwf) as Hacc. pose proof (wr_pool _ (wt_ring _ Hwf)) as Hp.
  pose proof (pow2_depth_bounds _ (wr_depth _ (wt_ring _ Hwf))). pose proof (wff_count _ _ (wp_fifo _ _ _ Hp)).
  assert (forall o, (forall l, rings_of true (ad_io (w_adapter w)) = Some l -> q < num_rings true (ad_io (w_adapter w)) -> l !! Z.to_nat q = Some o) ->
    o = Some r) as Ho by (intros o Ho; specialize (Ho l El ltac:(cbn; lia)); congruence).
  apply wpm_bind. unfold ena_netdev_tx_ring_state. apply wpm_bind, wpm_diag_ring; [done | lia |]. intros o ->%Ho.
  rewrite (wp_fl _ _ _ Hp). cbn [non_null]. rewrite <- (wp_fl _ _ _ Hp). apply wpm_bind. eapply wpm_lift.
  { apply (count_in_flight_spec _ (sq_depth (r_sq r))); [exact (wp_fl _ _ _ Hp) | exact (wp_fl_len _ _ _ Hp) | lia | lia | lia | done]. }
  apply wpm_ret, wpm_bind. unfold ena_netdev_ring_stats. apply wpm_bind, wpm_diag_ring; [done | lia |]. intros o ->%Ho.
  apply wpm_bind, wpm_diag_ring; [done | lia |]. intros o' _. apply wpm_ret, wpm_ret. cbn. split_and!; try done; lia.
Qed.
End DiagProofs.

(** One pair of queues, fresh. *)
Lemma ex_pair_fit : nums_fit (ad_io (w_adapter ex_pair)) /\ 0 <= 0 < num_tx_rings (ad_io (w_adapter ex_pair)).
Proof.
  destruct ex_pair_nums as [Ent Enr]. split; [| rewrite Ent; split; [discriminate | reflexivity]].
  intros tx l El. rewrite (length_only _ _ _ (ex_pair_tables tx) El). destruct tx; cbn [num_rings]; rewrite ?Ent, ?Enr; split; discriminate.
Qed.
Lemma ex_pair_tx : tx_rings (ad_io (w_adapter ex_pair)) = Some [Some (ex_first true)].
Proof. vm_compute. reflexivity. Qed.

Lemma ring_accounting_witness :
  wpm (s ← ena_netdev_tx_ring_state true 0; t ← ena_netdev_ring_stats true 0; mret (s, t))
    (fun '(free, inflight, tail, head, (tx_free, _, bounce_free)) w' =>
      free + inflight + tx_foreign_count (r_own (ex_first true)) <= sq_depth (r_sq (ex_first true)) /\ tx_free = free) ex_pair.
Proof.
  pose proof (ring_accounting 0 [Some (ex_first true)] (ex_first true) ex_pair (proj1 ex_pair_fit) (proj2 ex_pair_fit) ex_pair_tx eq_refl (proj1 ex_first_wf)) as Hacc.
  eapply wpm_mono; [exact Hacc |].
  intros [[[[free inflight] tail] head] [[tx_free rx] bounce]] w' (_ & _ & _ & H1 & _ & _ & H2 & _). exact (conj H1 H2).
Defined.
