(* ===== verification/Sample.v ===== *)
(** * The sample web server: descriptor queue and idle policy

    Two components of the multi-core sample in samples/httpreply-mc.  [Spsc] is the
    lock-free ring of spsc.h between the accept loop and a worker: two threads whose
    steps interleave, with the release/acquire atomics of C11 on the two indexes and
    plain accesses to the slots, where a data race is a fault.  [Backoff] is the sleep policy
    of idlebackoff.h. *)

From Stdlib Require Import ZArith Lia.
From stdpp Require Import base tactics option list list_numbers numbers.
From S2P Require Import Prelude.

Module Spsc.

Definition SPSC_CAP : Z := 1024.

(** ** Memory

    The stores to an index in their order; each carries the number of slot accesses its
    thread had done, which an acquire load of it makes known. *)
Record index_store := mkStore {
  st_val : Z;
  st_clk : Z
}.

(** A slot with the times of its last write and of its last read: the number of the
    access in its thread, from 1. *)
Record spsc_slot := mkSlot {
  sl_fd : Z;
  sl_write : Z;
  sl_read : Z
}.

(** Where a thread is inside its call; the index it loaded. *)
Inductive pc :=
| Idle
| Loaded (fd i : Z)       (* before the access to the slot *)
| Accessed (fd i : Z).    (* before the store to the index *)

(** A thread: its place, its slot accesses, the position of the newest store to the other
    thread's index it has read, and the accesses of the other thread it knows. *)
Record spsc_thread := mkThread {
  th_pc : pc;
  th_clk : Z;
  th_pos : nat;
  th_seen : Z
}.

Record spsc_ring := mkSpsc {
  sp_head : list index_store;
  sp_tail : list index_store;
  sp_data : list spsc_slot;
  sp_prod : spsc_thread;
  sp_cons : spsc_thread
}.

Inductive spsc_event :=
| EPush (fd : Z) (ok : bool)
| EPop (fd : option Z).

(** A relaxed load by the only writer: its own last store. *)
Definition load_own (l : list index_store) : res Z := match list.last l with Some s => mret (st_val s) | None => Fault end.

(** An acquire load: any store from the position already read on, [j] further. *)
Definition load_acquire (l : list index_store) (th : spsc_thread) (j : nat) : res (Z * spsc_thread) :=
  let k := Nat.min (th_pos th + j) (length l - 1) in
  match l !! k with
  | Some s => mret (st_val s, mkThread (th_pc th) (th_clk th) k (Z.max (th_seen th) (st_clk s)))
  | None => Fault
  end.

Definition set_pc (p : pc) (th : spsc_thread) : spsc_thread := mkThread p (th_clk th) (th_pos th) (th_seen th).
(** One more slot access. *)
Definition tick (p : pc) (th : spsc_thread) : spsc_thread := mkThread p (th_clk th + 1) (th_pos th) (th_seen th).

Definition slot_at (r : spsc_ring) (i : Z) : res spsc_slot := aget (Some (sp_data r)) (i mod SPSC_CAP).
Definition set_slot (i : Z) (s : spsc_slot) (r : spsc_ring) : res (list spsc_slot) :=
  match aset (Some (sp_data r)) (i mod SPSC_CAP) s with
  | Ret (Some l) => mret l
  | _ => Fault
  end.

(** ** Operations *)
Definition spsc_ring_init (fds : list Z) : spsc_ring :=
  mkSpsc [mkStore 0 0] [mkStore 0 0] ((fun fd => mkSlot fd 0 0) <$> fds) (mkThread Idle 0 0 0) (mkThread Idle 0 0 0).

(** One step of the producer, which is idle or inside a call. *)
Definition spsc_ring_push (fd : Z) (j : nat) (r : spsc_ring) : res (spsc_ring * list spsc_event) :=
  match th_pc (sp_prod r) with
  | Idle =>
      h ← load_own (sp_head r);
      '(t, th) ← load_acquire (sp_tail r) (sp_prod r) j;
      if SPSC_CAP <=? u64 (h - t) then mret (mkSpsc (sp_head r) (sp_tail r) (sp_data r) th (sp_cons r), [EPush fd false])
      else mret (mkSpsc (sp_head r) (sp_tail r) (sp_data r) (set_pc (Loaded fd h) th) (sp_cons r), [])
  | Loaded fd h =>
      s ← slot_at r h;
      if th_seen (sp_prod r) <? sl_read s then Fault
      else
        l ← set_slot h (mkSlot fd (th_clk (sp_prod r) + 1) (sl_read s)) r;
        mret (mkSpsc (sp_head r) (sp_tail r) l (tick (Accessed fd h) (sp_prod r)) (sp_cons r), [])
  | Accessed fd h =>
      mret (mkSpsc (sp_head r ++ [mkStore (u64 (h + 1)) (th_clk (sp_prod r))]) (sp_tail r) (sp_data r)
              (set_pc Idle (sp_prod r)) (sp_cons r), [EPush fd true])
  end.

(** One step of the consumer. *)
Definition spsc_ring_pop (j : nat) (r : spsc_ring) : res (spsc_ring * list spsc_event) :=
  match th_pc (sp_cons r) with
  | Idle =>
      t ← load_own (sp_tail r);
      '(h, th) ← load_acquire (sp_head r) (sp_cons r) j;
      if h =? t then mret (mkSpsc (sp_head r) (sp_tail r) (sp_data r) (sp_prod r) th, [EPop None])
      else mret (mkSpsc (sp_head r) (sp_tail r) (sp_data r) (sp_prod r) (set_pc (Loaded 0 t) th), [])
  | Loaded _ t =>
      s ← slot_at r t;
      if th_seen (sp_cons r) <? sl_write s then Fault
      else
        l ← set_slot t (mkSlot (sl_fd s) (sl_write s) (th_clk (sp_cons r) + 1)) r;
        mret (mkSpsc (sp_head r) (sp_tail r) l (sp_prod r) (tick (Accessed (sl_fd s) t) (sp_cons r)), [])
  | Accessed fd t =>
      mret (mkSpsc (sp_head r) (sp_tail r ++ [mkStore (u64 (t + 1)) (th_clk (sp_cons r))]) (sp_data r)
              (sp_prod r) (set_pc Idle (sp_cons r)), [EPop (Some fd)])
  end.

(** An interleaving: the thread that moves and how far ahead its load reads. *)
Inductive act := Push (fd : Z) (j : nat) | Pop (j : nat).

Definition spsc_step (a : act) (r : spsc_ring) : res (spsc_ring * list spsc_event) :=
  match a with
  | Push fd j => spsc_ring_push fd j r
  | Pop j => spsc_ring_pop j r
  end.

Fixpoint spsc_run (acts : list act) (r : spsc_ring) : res (spsc_ring * list spsc_event) :=
  match acts with
  | [] => mret (r, [])
  | a :: acts =>
      '(r, es) ← spsc_step a r;
      '(r, es') ← spsc_run acts r;
      mret (r, es ++ es')
  end.

(** The checks of either thread with loads of the newest stores. *)
Definition spsc_ring_empty (r : spsc_ring) : res bool :=
  h ← load_own (sp_head r);
  t ← load_own (sp_tail r);
  mret (h =? t).
Definition spsc_ring_full (r : spsc_ring) : res bool :=
  h ← load_own (sp_head r);
  t ← load_own (sp_tail r);
  mret (SPSC_CAP <=? u64 (h - t)).

(** ** The abstract queue *)
Definition pushed (es : list spsc_event) : list Z := omap (fun e => match e with EPush fd true => Some fd | _ => None end) es.
Definition popped (es : list spsc_event) : list Z := omap (fun e => match e with EPop o => o | _ => None end) es.

(** The stores of [n] advances of an index. *)
Definition stores (n : nat) : list index_store := (fun i => mkStore (u64 (Z.of_nat i)) (Z.of_nat i)) <$> seq 0 (S n).

(** The access [i] of a thread to its slot [i mod SPSC_CAP]. *)
Definition uses (s n clk : Z) : Prop := clk = 0 \/ 0 < clk <= n /\ (clk - 1) mod SPSC_CAP = s.

(** [xs] were pushed since the start; [n] published, [m] removed, [w] written, [r] read. *)
Record spsc_inv (xs : list Z) (n m w rd : nat) (r : spsc_ring) : Prop := {
  si_head : sp_head r = stores n;
  si_tail : sp_tail r = stores m;
  si_len : Z.of_nat (length (sp_data r)) = SPSC_CAP;
  si_written : length xs = w;
  si_uses : forall s c, 0 <= s -> sp_data r !! Z.to_nat s = Some c -> uses s (Z.of_nat w) (sl_write c) /\ uses s (Z.of_nat rd) (sl_read c);
  si_data : forall i x, (m <= i)%nat -> xs !! i = Some x ->
    exists c, sp_data r !! Z.to_nat (Z.of_nat i mod SPSC_CAP) = Some c /\ sl_fd c = x;
  si_prod : th_clk (sp_prod r) = Z.of_nat w /\ th_seen (sp_prod r) = Z.of_nat (th_pos (sp_prod r)) /\ (th_pos (sp_prod r) <= m)%nat
    /\ match th_pc (sp_prod r) with
       | Idle => w = n /\ Z.of_nat n <= Z.of_nat (th_pos (sp_prod r)) + SPSC_CAP
       | Loaded _ h => w = n /\ h = u64 (Z.of_nat n) /\ Z.of_nat n < Z.of_nat (th_pos (sp_prod r)) + SPSC_CAP
       | Accessed fd h => w = S n /\ h = u64 (Z.of_nat n) /\ Z.of_nat n < Z.of_nat (th_pos (sp_prod r)) + SPSC_CAP
                          /\ xs !! n = Some fd
       end;
  si_cons : th_clk (sp_cons r) = Z.of_nat rd /\ th_seen (sp_cons r) = Z.of_nat (th_pos (sp_cons r)) /\ (th_pos (sp_cons r) <= n)%nat
    /\ match th_pc (sp_cons r) with
       | Idle => rd = m /\ (m <= th_pos (sp_cons r))%nat
       | Loaded _ t => rd = m /\ t = u64 (Z.of_nat m) /\ (m < th_pos (sp_cons r))%nat
       | Accessed fd t => rd = S m /\ t = u64 (Z.of_nat m) /\ (m < th_pos (sp_cons r))%nat /\ xs !! m = Some fd
       end
}.

Lemma stores_last n : load_own (stores n) = Ret (u64 (Z.of_nat n)).
Proof. unfold load_own, stores. rewrite fmap_last, seq_S, last_snoc. done. Qed.

Lemma stores_load n th j : (th_pos th <= n)%nat -> th_seen th = Z.of_nat (th_pos th) ->
  exists k, (th_pos th <= k <= n)%nat /\ ((n <= j)%nat -> k = n)
    /\ load_acquire (stores n) th j = Ret (u64 (Z.of_nat k), mkThread (th_pc th) (th_clk th) k (Z.of_nat k)).
Proof.
  intros Hp Hs. unfold load_acquire. assert (length (stores n) = S n) as -> by (unfold stores; by rewrite length_fmap, length_seq).
  set (k := Nat.min _ _). exists k. split_and!; [lia.. |].
  unfold stores. rewrite list_lookup_fmap, lookup_seq_lt by lia. simpl. do 3 f_equal. lia.
Qed.

Lemma stores_snoc n : stores n ++ [mkStore (u64 (u64 (Z.of_nat n) + 1)) (Z.of_nat (S n))] = stores (S n).
Proof.
  unfold stores. rewrite (seq_S (S n)), fmap_app. simpl. do 3 f_equal. unfold u64. rewrite Zplus_mod_idemp_l. f_equal. lia.
Qed.

Lemma index_slot i : u64 (Z.of_nat i) mod SPSC_CAP = Z.of_nat i mod SPSC_CAP.
Proof. unfold u64, SPSC_CAP. apply Z.mod_mod_divide. by exists (2 ^ 54). Qed.

Lemma index_diff i k : (k <= i)%nat -> Z.of_nat i <= Z.of_nat k + SPSC_CAP ->
  u64 (u64 (Z.of_nat i) - u64 (Z.of_nat k)) = Z.of_nat i - Z.of_nat k.
Proof.
  intros Hle Hc. unfold u64, SPSC_CAP in *. rewrite Zminus_mod_idemp_l, Zminus_mod_idemp_r. apply Z.mod_small. lia.
Qed.

Lemma index_eqb i k : (k <= i)%nat -> Z.of_nat i <= Z.of_nat k + SPSC_CAP ->
  (u64 (Z.of_nat i) =? u64 (Z.of_nat k)) = bool_decide (i = k).
Proof.
  intros Hle Hc. pose proof (index_diff i k Hle Hc) as Hd. destruct (Z.eqb_spec (u64 (Z.of_nat i)) (u64 (Z.of_nat k))) as [E | E]; symmetry.
  - apply bool_decide_eq_true. rewrite E, Z.sub_diag in Hd. change (u64 0) with 0 in Hd. lia.
  - apply bool_decide_eq_false. by intros ->.
Qed.

Section Invariant.
  Context (xs : list Z) (n m w rd : nat) (r : spsc_ring) (Hi : spsc_inv xs n m w rd r).

(** The distances between the counters, for any places of the threads. *)
Lemma spsc_counts : (m <= rd <= S m)%nat /\ (rd <= n)%nat /\ (n <= w <= S n)%nat /\ Z.of_nat w <= Z.of_nat m + SPSC_CAP.
Proof.
  destruct (si_prod _ _ _ _ _ _ Hi) as (_ & _ & ? & Hp). destruct (si_cons _ _ _ _ _ _ Hi) as (_ & _ & ? & Hc).
  repeat case_match; lia.
Qed.

Lemma spsc_slot_of i : exists c, slot_at r (u64 (Z.of_nat i)) = Ret c /\ sp_data r !! Z.to_nat (Z.of_nat i mod SPSC_CAP) = Some c
    /\ uses (Z.of_nat i mod SPSC_CAP) (Z.of_nat w) (sl_write c) /\ uses (Z.of_nat i mod SPSC_CAP) (Z.of_nat rd) (sl_read c).
Proof.
  pose proof (Z.mod_pos_bound (Z.of_nat i) SPSC_CAP ltac:(done)) as Hb.
  destruct (lookup_in_range (sp_data r) (Z.of_nat i mod SPSC_CAP)) as [c Hc]; [rewrite (si_len _ _ _ _ _ _ Hi); lia |].
  exists c. destruct (si_uses _ _ _ _ _ _ Hi (Z.of_nat i mod SPSC_CAP) c ltac:(lia) Hc). split_and!; [| done..].
  unfold slot_at. rewrite index_slot. apply aget_ret; [lia | done].
Qed.

Lemma set_spsc_slot_of i c : exists l, set_slot (u64 (Z.of_nat i)) c r = Ret l /\ l = <[Z.to_nat (Z.of_nat i mod SPSC_CAP) := c]> (sp_data r).
Proof.
  pose proof (Z.mod_pos_bound (Z.of_nat i) SPSC_CAP ltac:(done)) as Hb. eexists. split; [| done].
  unfold set_slot. rewrite index_slot, aset_ret; [done |]. rewrite (si_len _ _ _ _ _ _ Hi). lia.
Qed.

End Invariant.

(** What a step does to the counters and to the abstract queue. *)
Definition spsc_next (xs : list Z) (n m : nat) (r' : spsc_ring) (es : list spsc_event) : Prop :=
  exists xs' n' m' w' rd', spsc_inv xs' n' m' w' rd' r'
    /\ take n' xs' = take n xs ++ pushed es /\ take m' xs' = take m xs ++ popped es.

Lemma uses_mono s k k' clk : uses s k clk -> k <= k' -> uses s k' clk.
Proof. intros [-> | [? ?]] ?; [by left | right; split; [lia | done]]. Qed.

(** A slot overwritten by access number [k + 1] of one side. *)
Lemma uses_now k : 0 <= k -> uses (k mod SPSC_CAP) (k + 1) (k + 1).
Proof. intros. right. split; [lia |]. f_equal. lia. Qed.

Lemma push_access xs n m rd r fd fd' j :
  spsc_inv xs n m n rd r -> th_pc (sp_prod r) = Loaded fd (u64 (Z.of_nat n)) ->
  wp (spsc_ring_push fd' j r) (fun '(r', es) => es = [] /\ spsc_inv (xs ++ [fd]) n m (S n) rd r').
Proof.
  intros Hi Epc. unfold spsc_ring_push. rewrite Epc. pose proof (spsc_counts _ _ _ _ _ _ Hi) as Hct.
  destruct (si_prod _ _ _ _ _ _ Hi) as (Hclk & Hseen & Hpos & Hp). rewrite Epc in Hp. destruct Hp as (_ & _ & Hroom).
  destruct (spsc_slot_of _ _ _ _ _ _ Hi n) as (c & -> & Hc & Huw & Hur). cbn [mbind res_bind].
  rewrite (proj2 (Z.ltb_ge _ _)).
  2: { rewrite Hseen. destruct Hur as [-> | [Hk Hm]]; [lia |]. unfold SPSC_CAP in *.
       pose proof (Z.div_mod (sl_read c - 1) 1024). pose proof (Z.div_mod (Z.of_nat n) 1024). nia. }
  destruct (set_spsc_slot_of _ _ _ _ _ _ Hi n (mkSlot fd (th_clk (sp_prod r) + 1) (sl_read c))) as (l & -> & ->). cbn [mbind res_bind].
  apply wp_ret. split; [done |]. pose proof (Z.mod_pos_bound (Z.of_nat n) SPSC_CAP ltac:(done)) as Hb.
  pose proof (lookup_lt_Some _ _ _ Hc) as Hlt. destruct Hi as [? ? Hl Hw Hu Hd ? Hco]. split; simpl; try done.
  - by rewrite length_insert.
  - rewrite length_app. simpl. lia.
  - intros s c' Hs Hc'. rewrite Hclk in Hc'. destruct (decide (Z.to_nat (Z.of_nat n mod SPSC_CAP) = Z.to_nat s)) as [E | E].
    + assert (s = Z.of_nat n mod SPSC_CAP) as -> by lia. rewrite list_lookup_insert_eq in Hc' by done. injection Hc' as <-.
      simpl. split; [| done]. replace (Z.of_nat (S n)) with (Z.of_nat n + 1) by lia. apply uses_now. lia.
    + rewrite list_lookup_insert_ne in Hc' by done. destruct (Hu s c' Hs Hc'). split; [| done]. eapply uses_mono; [done | lia].
  - intros i x Him Hx. destruct (decide (i = n)) as [-> | Hne].
    + rewrite lookup_app_r, Hw, Nat.sub_diag in Hx by lia. injection Hx as <-. rewrite list_lookup_insert_eq by done. eauto.
    + assert (i < n)%nat as Hin.
      { apply lookup_lt_Some in Hx. rewrite length_app in Hx. simpl in Hx. lia. }
      rewrite lookup_app_l in Hx by lia. destruct (Hd i x Him Hx) as (c' & Hc' & Hf). exists c'. split; [| done].
      rewrite list_lookup_insert_ne; [done |]. pose proof (Z.mod_pos_bound (Z.of_nat i) SPSC_CAP ltac:(done)). unfold SPSC_CAP in *.
      pose proof (Z.div_mod (Z.of_nat i) 1024). pose proof (Z.div_mod (Z.of_nat n) 1024). nia.
  - split_and!; [lia | done | done | done | done | done |]. rewrite lookup_app_r, Hw, Nat.sub_diag by lia. done.
  - destruct Hco as (? & ? & ? & Hco). split_and!; try done. destruct (th_pc (sp_cons r)); try done.
    destruct Hco as (? & ? & ? & ?). split_and!; try done. rewrite lookup_app_l; [done |]. lia.
Qed.

Lemma pop_access xs n m w r fd j :
  spsc_inv xs n m w m r -> th_pc (sp_cons r) = Loaded fd (u64 (Z.of_nat m)) ->
  wp (spsc_ring_pop j r) (fun '(r', es) => es = [] /\ spsc_inv xs n m w (S m) r').
Proof.
  intros Hi Epc. unfold spsc_ring_pop. rewrite Epc. pose proof (spsc_counts _ _ _ _ _ _ Hi) as Hct.
  destruct (si_cons _ _ _ _ _ _ Hi) as (Hclk & Hseen & Hpos & Hp). rewrite Epc in Hp. destruct Hp as (_ & _ & Hroom).
  destruct (spsc_slot_of _ _ _ _ _ _ Hi m) as (c & -> & Hc & Huw & Hur). cbn [mbind res_bind].
  rewrite (proj2 (Z.ltb_ge _ _)).
  2: { rewrite Hseen. destruct Huw as [-> | [Hk Hm]]; [lia |]. unfold SPSC_CAP in *.
       pose proof (Z.div_mod (sl_write c - 1) 1024). pose proof (Z.div_mod (Z.of_nat m) 1024). nia. }
  destruct (set_spsc_slot_of _ _ _ _ _ _ Hi m (mkSlot (sl_fd c) (sl_write c) (th_clk (sp_cons r) + 1))) as (l & -> & ->). cbn [mbind res_bind].
  apply wp_ret. split; [done |]. pose proof (Z.mod_pos_bound (Z.of_nat m) SPSC_CAP ltac:(done)) as Hb.
  pose proof (lookup_lt_Some _ _ _ Hc) as Hlt. destruct Hi as [? ? Hl Hw Hu Hd ? Hco].
  destruct (lookup_lt_is_Some_2 xs m) as [x Hx]; [lia |].
  split; simpl; try done.
  - by rewrite length_insert.
  - intros s c' Hs Hc'. rewrite Hclk in Hc'. destruct (decide (Z.to_nat (Z.of_nat m mod SPSC_CAP) = Z.to_nat s)) as [E | E].
    + assert (s = Z.of_nat m mod SPSC_CAP) as -> by lia. rewrite list_lookup_insert_eq in Hc' by done. injection Hc' as <-.
      simpl. split; [done |]. replace (Z.of_nat (S m)) with (Z.of_nat m + 1) by lia. apply uses_now. lia.
    + rewrite list_lookup_insert_ne in Hc' by done. destruct (Hu s c' Hs Hc'). split; [done |]. eapply uses_mono; [done | lia].
  - intros i y Him Hy. destruct (Hd i y Him Hy) as (c' & Hc' & Hf).
    destruct (decide (Z.to_nat (Z.of_nat i mod SPSC_CAP) = Z.to_nat (Z.of_nat m mod SPSC_CAP))) as [E | E].
    + rewrite E in Hc' |- *. rewrite list_lookup_insert_eq by done. eexists. split; [done |]. simpl. congruence.
    + rewrite list_lookup_insert_ne by done. eauto.
  - split_and!; [lia | done | done | done | done | done |]. destruct (Hd m x ltac:(lia) Hx) as (c' & Hc' & Hf). congruence.
Qed.

(** Every step keeps the invariant and is a step of the abstract queue. *)
Lemma push_step xs n m w rd r fd j :
  spsc_inv xs n m w rd r -> wp (spsc_ring_push fd j r) (fun '(r', es) => spsc_next xs n m r' es).
Proof.
  intros Hi. pose proof (spsc_counts _ _ _ _ _ _ Hi) as Hct. pose proof (si_written _ _ _ _ _ _ Hi) as Hw.
  destruct (si_prod _ _ _ _ _ _ Hi) as (Hclk & Hseen & Hpos & Hp). destruct (th_pc (sp_prod r)) as [| fd0 h | fd0 h] eqn:Epc.
  - destruct Hp as [-> Hroom]. unfold spsc_ring_push. rewrite Epc, (si_head _ _ _ _ _ _ Hi), (si_tail _ _ _ _ _ _ Hi), stores_last.
    cbn [mbind res_bind]. destruct (stores_load m (sp_prod r) j Hpos Hseen) as (k & Hk & _ & ->). cbn [mbind res_bind].
    rewrite index_diff by lia. destruct (Z.leb_spec SPSC_CAP (Z.of_nat n - Z.of_nat k)); apply wp_ret;
      (exists xs, n, m, n, rd; split; [| by rewrite !app_nil_r]); destruct Hi; split; simpl; rewrite ?Epc; try done; split_and!; try done; lia.
  - destruct Hp as (-> & -> & _). eapply wp_mono; [by apply (push_access xs n m rd r fd0) |].
    intros [r' es] (-> & Hi'). exists (xs ++ [fd0]), n, m, (S n), rd. split; [done |]. simpl. rewrite !app_nil_r, !take_app_le by lia. done.
  - destruct Hp as (-> & -> & Hroom & Hx). unfold spsc_ring_push. rewrite Epc. apply wp_ret. exists xs, (S n), m, (S n), rd.
    split; [| by rewrite app_nil_r; simpl; erewrite take_S_r by done]. rewrite (si_head _ _ _ _ _ _ Hi), Hclk, stores_snoc.
    destruct Hi as [? ? ? ? ? ? ? Hco]. split; simpl; try done; [split_and!; try done; lia |].
    destruct Hco as (? & ? & ? & ?). split_and!; try done; lia.
Qed.

Lemma pop_step xs n m w rd r j :
  spsc_inv xs n m w rd r -> wp (spsc_ring_pop j r) (fun '(r', es) => spsc_next xs n m r' es).
Proof.
  intros Hi. pose proof (spsc_counts _ _ _ _ _ _ Hi) as Hct. pose proof (si_written _ _ _ _ _ _ Hi) as Hw.
  destruct (si_cons _ _ _ _ _ _ Hi) as (Hclk & Hseen & Hpos & Hp). destruct (th_pc (sp_cons r)) as [| fd0 t | fd0 t] eqn:Epc.
  - destruct Hp as [-> Hroom]. unfold spsc_ring_pop. rewrite Epc, (si_head _ _ _ _ _ _ Hi), (si_tail _ _ _ _ _ _ Hi), stores_last.
    cbn [mbind res_bind]. destruct (stores_load n (sp_cons r) j Hpos Hseen) as (k & Hk & _ & ->). cbn [mbind res_bind].
    rewrite index_eqb by lia. case_bool_decide; apply wp_ret;
      (exists xs, n, m, w, m; split; [| by rewrite !app_nil_r]); destruct Hi; split; simpl; rewrite ?Epc; try done; split_and!; try done; lia.
  - destruct Hp as (-> & -> & _). eapply wp_mono; [by apply (pop_access xs n m w r fd0) |].
    intros [r' es] (-> & Hi'). exists xs, n, m, w, (S m). by rewrite !app_nil_r.
  - destruct Hp as (-> & -> & Hroom & Hx). unfold spsc_ring_pop. rewrite Epc. apply wp_ret. exists xs, n, (S m), w, (S m).
    split; [| by rewrite app_nil_r; simpl; erewrite take_S_r by done]. rewrite (si_tail _ _ _ _ _ _ Hi), Hclk, stores_snoc.
    destruct Hi as [? ? ? ? ? Hd Hpr ?]. split; simpl; try done.
    + intros i x Him. apply Hd. lia.
    + destruct Hpr as (? & ? & ? & Hpr). split_and!; try done. lia.
Qed.

Lemma pushed_app es es' : pushed (es ++ es') = pushed es ++ pushed es'.
Proof. apply omap_app. Qed.
Lemma popped_app es es' : popped (es ++ es') = popped es ++ popped es'.
Proof. apply omap_app. Qed.

Lemma spsc_run_spec acts xs n m w rd r :
  spsc_inv xs n m w rd r -> wp (spsc_run acts r) (fun '(r', es) => spsc_next xs n m r' es).
Proof.
  revert xs n m w rd r. induction acts as [| a acts IH]; intros xs n m w rd r Hi; simpl.
  { apply wp_ret. exists xs, n, m, w, rd. by rewrite !app_nil_r. }
  apply wp_bind. apply (wp_mono _ (fun '(r', es) => spsc_next xs n m r' es)).
  { destruct a; [by eapply push_step | by eapply pop_step]. }
  intros [r1 es1] (xs1 & n1 & m1 & w1 & rd1 & Hi1 & E1 & E2). apply wp_bind. eapply wp_mono; [by eapply IH |].
  intros [r2 es2] (xs2 & n2 & m2 & w2 & rd2 & Hi2 & E3 & E4). apply wp_ret. exists xs2, n2, m2, w2, rd2.
  split; [done |]. rewrite pushed_app, popped_app, !app_assoc, <- E1, <- E2. done.
Qed.

(** The descriptors in the ring, by its indexes. *)
Definition spsc_contents (r : spsc_ring) : list Z :=
  (fun i => from_option sl_fd 0 (sp_data r !! Z.to_nat (Z.of_nat i mod SPSC_CAP)))
    <$> seq (length (sp_tail r) - 1) (length (sp_head r) - length (sp_tail r)).

Lemma spsc_contents_inv xs n m w rd r : spsc_inv xs n m w rd r -> take n xs = take m xs ++ spsc_contents r.
Proof.
  intros Hi. pose proof (spsc_counts _ _ _ _ _ _ Hi) as Hct. destruct Hi as [Eh Et _ Hw _ Hd _ _]. unfold spsc_contents. rewrite Eh, Et.
  assert (forall k, length (stores k) = S k) as Hl by (intros; unfold stores; by rewrite length_fmap, length_seq). rewrite !Hl.
  rewrite <- (take_drop m (take n xs)) at 1. rewrite take_take, Nat.min_l by lia. f_equal.
  apply list_eq. intros i. rewrite lookup_drop, list_lookup_fmap. destruct (decide (m + i < n)%nat) as [Hlt | Hge].
  - rewrite lookup_take_lt by lia. destruct (lookup_lt_is_Some_2 xs (m + i)) as [x Hx]; [lia |].
    destruct (Hd (m + i)%nat x ltac:(lia) Hx) as (c & Hc & Hf). rewrite lookup_seq_lt by lia.
    replace (S m - 1 + i)%nat with (m + i)%nat by lia. rewrite Hx. simpl. rewrite Hc. simpl. by rewrite Hf.
  - rewrite lookup_take_ge, lookup_seq_ge by lia. done.
Qed.

Lemma spsc_init_inv fds : Z.of_nat (length fds) = SPSC_CAP -> spsc_inv [] 0 0 0 0 (spsc_ring_init fds).
Proof.
  intros Hl. split; simpl; try done; try (split_and!; done || (unfold SPSC_CAP; lia)).
  - by rewrite length_fmap.
  - intros s c _ Hc. rewrite list_lookup_fmap in Hc. apply fmap_Some in Hc as (fd & _ & ->). by split; left.
Qed.

(** The checks, and the loads that read the newest stores, agree with the contents. *)
Lemma spsc_checks xs n m w rd r :
  spsc_inv xs n m w rd r ->
  length (spsc_contents r) = (n - m)%nat
  /\ spsc_ring_empty r = Ret (bool_decide (spsc_contents r = []))
  /\ spsc_ring_full r = Ret (bool_decide (Z.of_nat (length (spsc_contents r)) = SPSC_CAP)).
Proof.
  intros Hi. pose proof (spsc_counts _ _ _ _ _ _ Hi) as Hct.
  assert (length (spsc_contents r) = (n - m)%nat) as Hl.
  { pose proof (spsc_contents_inv _ _ _ _ _ _ Hi) as E. apply (f_equal length) in E. rewrite length_app, !length_take in E.
    rewrite (si_written _ _ _ _ _ _ Hi) in E. lia. }
  split; [done |]. unfold spsc_ring_empty, spsc_ring_full. rewrite (si_head _ _ _ _ _ _ Hi), (si_tail _ _ _ _ _ _ Hi), !stores_last.
  cbn [mbind res_bind]. rewrite index_eqb, index_diff by lia. split.
  - f_equal. apply bool_decide_ext. rewrite <- length_zero_iff_nil. lia.
  - f_equal. destruct (Z.leb_spec SPSC_CAP (Z.of_nat n - Z.of_nat m)); symmetry; [apply bool_decide_eq_true | apply bool_decide_eq_false]; lia.
Qed.

Lemma push_refuses xs n m w rd r fd j :
  spsc_inv xs n m w rd r -> th_pc (sp_prod r) = Idle -> (length (sp_tail r) <= j)%nat ->
  (exists r', spsc_ring_push fd j r = Ret (r', [EPush fd false])) <-> Z.of_nat (length (spsc_contents r)) = SPSC_CAP.
Proof.
  intros Hi Epc Hj. pose proof (spsc_counts _ _ _ _ _ _ Hi) as Hct. destruct (spsc_checks _ _ _ _ _ _ Hi) as (-> & _ & _).
  destruct (si_prod _ _ _ _ _ _ Hi) as (_ & Hseen & Hpos & Hp). rewrite Epc in Hp. unfold spsc_ring_push.
  rewrite Epc, (si_head _ _ _ _ _ _ Hi), (si_tail _ _ _ _ _ _ Hi), stores_last in *. cbn [mbind res_bind].
  assert (m <= j)%nat as Hmj by (unfold stores in Hj; rewrite length_fmap, length_seq in Hj; lia).
  destruct (stores_load m (sp_prod r) j Hpos Hseen) as (k & Hk & Hkm & ->). cbn [mbind res_bind]. rewrite (Hkm Hmj), index_diff by lia.
  destruct (Z.leb_spec SPSC_CAP (Z.of_nat n - Z.of_nat m)); split; [lia | eauto | by intros (? & ?) | lia].
Qed.

Lemma pop_refuses xs n m w rd r j :
  spsc_inv xs n m w rd r -> th_pc (sp_cons r) = Idle -> (length (sp_head r) <= j)%nat ->
  (exists r', spsc_ring_pop j r = Ret (r', [EPop None])) <-> spsc_contents r = [].
Proof.
  intros Hi Epc Hj. pose proof (spsc_counts _ _ _ _ _ _ Hi) as Hct. destruct (spsc_checks _ _ _ _ _ _ Hi) as (Hl & _ & _).
  rewrite <- length_zero_iff_nil, Hl. destruct (si_cons _ _ _ _ _ _ Hi) as (_ & Hseen & Hpos & Hp). rewrite Epc in Hp. unfold spsc_ring_pop.
  rewrite Epc, (si_head _ _ _ _ _ _ Hi), (si_tail _ _ _ _ _ _ Hi), stores_last in *. cbn [mbind res_bind].
  assert (n <= j)%nat as Hnj by (unfold stores in Hj; rewrite length_fmap, length_seq in Hj; lia).
  destruct (stores_load n (sp_cons r) j Hpos Hseen) as (k & Hk & Hkm & ->). cbn [mbind res_bind]. rewrite (Hkm Hnj), index_eqb by lia.
  case_bool_decide; split; [lia | eauto | by intros (? & ?) | lia].
Qed.

(** C20: The descriptor ring is a FIFO queue of at most 1024 entries under every
    interleaving of its two threads.  Whatever step each thread takes next and however
    stale the index it loads is, no access to a slot races with the other thread's and no
    index leaves the array; the descriptors pushed are those popped, in the same order,
    followed by the contents.  A push that loads the newest tail is refused exactly when
    the ring is full, a pop that loads the newest head exactly when it is empty, and the
    two checks say so.  The indexes wrap at 64 bits. *)
Theorem spsc_fifo fds acts :
  Z.of_nat (length fds) = SPSC_CAP ->
  exists r es, spsc_run acts (spsc_ring_init fds) = Ret (r, es)
    /\ pushed es = popped es ++ spsc_contents r
    /\ Z.of_nat (length (spsc_contents r)) <= SPSC_CAP
    /\ (th_pc (sp_prod r) = Idle -> forall fd j, (length (sp_tail r) <= j)%nat ->
         (exists r', spsc_ring_push fd j r = Ret (r', [EPush fd false])) <-> Z.of_nat (length (spsc_contents r)) = SPSC_CAP)
    /\ (th_pc (sp_cons r) = Idle -> forall j, (length (sp_head r) <= j)%nat ->
         (exists r', spsc_ring_pop j r = Ret (r', [EPop None])) <-> spsc_contents r = [])
    /\ spsc_ring_empty r = Ret (bool_decide (spsc_contents r = []))
    /\ spsc_ring_full r = Ret (bool_decide (Z.of_nat (length (spsc_contents r)) = SPSC_CAP)).
Proof.
  intros Hl. pose proof (spsc_run_spec acts _ _ _ _ _ _ (spsc_init_inv fds Hl)) as H.
  destruct (spsc_run _ _) as [[r es] | |]; [| done..]. destruct H as (xs & n & m & w & rd & Hi & E1 & E2).
  pose proof (spsc_counts _ _ _ _ _ _ Hi). destruct (spsc_checks _ _ _ _ _ _ Hi) as (Hlen & He & Hf).
  exists r, es. split_and!; try done.
  - rewrite !take_nil in E1, E2. simpl in E1, E2. rewrite <- E1, <- E2. by eapply spsc_contents_inv.
  - rewrite Hlen. lia.
  - intros. by eapply push_refuses.
  - intros. by eapply pop_refuses.
Qed.

(** Two pushes and a pop whose steps interleave; the first pop is too early. *)
Definition example_spsc_acts : list act := [Push 5 0; Pop 0; Push 5 0; Push 5 0; Push 6 0; Pop 1; Push 6 0; Pop 0; Pop 0; Push 6 0].
Lemma spsc_fifo_witness :
  exists r es, spsc_run example_spsc_acts (spsc_ring_init (replicate (Z.to_nat SPSC_CAP) 0)) = Ret (r, es)
    /\ es = [EPop None; EPush 5 true; EPop (Some 5); EPush 6 true] /\ pushed es = popped es ++ spsc_contents r.
Proof.
  destruct (spsc_fifo (replicate (Z.to_nat SPSC_CAP) 0) example_spsc_acts) as (r & es & E & H & _); [reflexivity |].
  exists r, es. split; [exact E |]. split; [| exact H]. vm_compute in E. injection E as _ <-. reflexivity.
Defined.

End Spsc.

Module Backoff.

Definition IB_IDLE_STREAK_LIMIT : Z := 8.
Definition IB_ACTIVE_WINDOW_NS : Z := 2000000.
Definition IB_ACTIVE_SLEEP_NS : Z := 20000.
Definition IB_LONG_BASE_NS : Z := 1000000.
Definition IB_LONG_MAX_NS : Z := 8000000.
Definition IB_LONG_MAX_SHIFT : Z := 3.

Record ib_state := mkIb {
  streak : Z;
  shift : Z;
  last_work : Z
}.

Definition ib_init (now : Z) : ib_state := mkIb 0 0 now.

Definition ib_tick (s : ib_state) (now work : Z) : Z * ib_state :=
  if z2b work then (0, mkIb 0 0 now)
  else
    let s := mkIb (u32 (streak s + 1)) (shift s) (last_work s) in
    if streak s <=? IB_IDLE_STREAK_LIMIT then (0, s)
    else if u64 (now - last_work s) <=? IB_ACTIVE_WINDOW_NS then (IB_ACTIVE_SLEEP_NS, s)
    else
      let budget := u64 (Z.shiftl IB_LONG_BASE_NS (shift s)) in
      (if IB_LONG_MAX_NS <? budget then IB_LONG_MAX_NS else budget,
       if shift s <? IB_LONG_MAX_SHIFT then mkIb (streak s) (u32 (shift s + 1)) (last_work s) else s).

(** The sleeps of a worker that finds no work at the times [nows]. *)
Fixpoint ib_sleeps (s : ib_state) (nows : list Z) : list Z :=
  match nows with
  | [] => []
  | now :: nows => let '(ns, s) := ib_tick s now 0 in ns :: ib_sleeps s nows
  end.

(** ** The policy *)

(** Tick [k] at [now] since the last work at [t0] is in the dormant regime. *)
Definition dormant (t0 : Z) (k : nat) (now : Z) : bool := bool_decide (8 <= k)%nat && (IB_ACTIVE_WINDOW_NS <? u64 (now - t0)).

(** The sleep of tick [k] when [d] earlier ones were dormant. *)
Definition sleep_of (t0 : Z) (k d : nat) (now : Z) : Z :=
  if dormant t0 k now then Z.min (IB_LONG_BASE_NS * 2 ^ Z.of_nat d) IB_LONG_MAX_NS
  else if decide (k < 8)%nat then 0 else IB_ACTIVE_SLEEP_NS.

Fixpoint sleep_policy (t0 : Z) (k d : nat) (nows : list Z) : list Z :=
  match nows with
  | [] => []
  | now :: nows => sleep_of t0 k d now :: sleep_policy t0 (S k) (if dormant t0 k now then S d else d) nows
  end.

Lemma ib_tick_policy t0 k d now :
  Z.of_nat (S k) < 2 ^ 32 ->
  ib_tick (mkIb (Z.of_nat k) (Z.min (Z.of_nat d) 3) t0) now 0
  = (sleep_of t0 k d now, mkIb (Z.of_nat (S k)) (Z.min (Z.of_nat (if dormant t0 k now then S d else d)) 3) t0).
Proof.
  intros Hk. unfold ib_tick, sleep_of, dormant. simpl. rewrite u32_id by lia. replace (Z.of_nat k + 1) with (Z.of_nat (S k)) by lia.
  destruct (Z.leb_spec (Z.of_nat (S k)) IB_IDLE_STREAK_LIMIT) as [Hs | Hs]; unfold IB_IDLE_STREAK_LIMIT in Hs.
  { rewrite bool_decide_eq_false_2 by lia. simpl. by rewrite decide_True by lia. }
  rewrite bool_decide_eq_true_2 by lia. simpl. rewrite (decide_False (P := (k < 8)%nat)) by lia.
  rewrite Z.leb_antisym. destruct (IB_ACTIVE_WINDOW_NS <? _); simpl; [| done].
  assert (0 <= Z.min (Z.of_nat d) 3 <= 3) as Hb by lia. f_equal.
  - rewrite Z.shiftl_mul_pow2 by lia. destruct (decide (d <= 3)%nat) as [Hd | Hd].
    + rewrite Z.min_l by lia. assert (d = 0 \/ d = 1 \/ d = 2 \/ d = 3)%nat as [-> | [-> | [-> | ->]]] by lia; done.
    + rewrite Z.min_r by lia. change (IB_LONG_MAX_NS <? u64 (IB_LONG_BASE_NS * 2 ^ 3)) with false. cbv iota.
      symmetry. change (u64 (IB_LONG_BASE_NS * 2 ^ 3)) with IB_LONG_MAX_NS. apply Z.min_r. assert (2 ^ 3 <= 2 ^ Z.of_nat d) as Hp by (apply Z.pow_le_mono_r; lia). change (2 ^ 3) with 8 in Hp. unfold IB_LONG_MAX_NS, IB_LONG_BASE_NS. lia.
  - unfold IB_LONG_MAX_SHIFT. destruct (Z.ltb_spec (Z.min (Z.of_nat d) 3) 3); [rewrite u32_id by lia |]; f_equal; lia.
Qed.

Lemma ib_sleeps_policy t0 nows k d :
  Z.of_nat (k + length nows) < 2 ^ 32 ->
  ib_sleeps (mkIb (Z.of_nat k) (Z.min (Z.of_nat d) 3) t0) nows = sleep_policy t0 k d nows.
Proof.
  revert k d. induction nows as [| now nows IH]; intros k d Hk; [done |]. simpl in Hk |- *.
  rewrite ib_tick_policy by lia. f_equal. apply IH. lia.
Qed.

Lemma sleep_of_bound t0 k d now : 0 <= sleep_of t0 k d now <= IB_LONG_MAX_NS.
Proof.
  unfold sleep_of, IB_LONG_MAX_NS, IB_LONG_BASE_NS, IB_ACTIVE_SLEEP_NS. pose proof (Z.pow_pos_nonneg 2 (Z.of_nat d) ltac:(lia) ltac:(lia)). repeat case_match; lia.
Qed.

(** C40: The idle policy.  A tick with work sleeps not at all and starts afresh from
    any state.  Over the ticks without work that follow, the first eight do not sleep; a
    later one sleeps 20 us while the work is at most 2 ms ago, and otherwise 1 ms, doubled
    with every such tick before it, up to 8 ms.  No sleep is longer than 8 ms, and no
    64-bit shift overflows. *)
Theorem idle_policy_correct s t0 work nows :
  z2b work = true -> Z.of_nat (length nows) < 2 ^ 32 ->
  ib_tick s t0 work = (0, ib_init t0)
  /\ ib_sleeps (ib_init t0) nows = sleep_policy t0 0 0 nows
  /\ Forall (fun ns => 0 <= ns <= IB_LONG_MAX_NS) (ib_sleeps (ib_init t0) nows).
Proof.
  intros Hw Hl. assert (ib_sleeps (ib_init t0) nows = sleep_policy t0 0 0 nows) as E by (by apply (ib_sleeps_policy t0 nows 0 0)).
  split_and!; [unfold ib_tick; by rewrite Hw | done |]. rewrite E. clear. generalize 0%nat at 1 as k. generalize 0%nat as d.
  induction nows as [| now nows IH]; intros d k; constructor; [apply sleep_of_bound | apply IH].
Qed.

(** Ten ticks 6 us apart, then three after 3 ms. *)
Lemma idle_policy_witness :
  ib_tick (mkIb 100 3 7) 1000 1 = (0, ib_init 1000)
  /\ ib_sleeps (ib_init 1000) ((fun k => 1000 + 6000 * k) <$> seqZ 1 10 ++ [500; 501; 502; 503; 504])
     = replicate 8 0 ++ [20000; 20000; 1000000; 2000000; 4000000; 8000000; 8000000].
Proof.
  destruct (idle_policy_correct (mkIb 100 3 7) 1000 1 ((fun k => 1000 + 6000 * k) <$> seqZ 1 10 ++ [500; 501; 502; 503; 504])
              eq_refl) as (H1 & H2 & _); [vm_compute; reflexivity |].
  split; [exact H1 |]. rewrite H2. vm_compute. reflexivity.
Defined.

End Backoff.
