(* ===== verification/Http.v ===== *)
(** * The sample web servers

    The application of samples/httpreply-mc/main.c above the sockets: the worker loop of a
    core with its event handling, the responses that a socket took only in part, and the
    log ring served at /__log ([Netlog]).  The build is the default one: no statistics on the
    console, and the worker without the log endpoint.

    The socket layer, the network stack and the clock are the class [Sockets] over a state of
    their own; what the worker does to a socket is recorded in a log.  A loop that waits for
    the socket layer has fuel: a send loop one more than the bytes it has to send, the accept
    loop one more than the backlog of the listener. *)

From Stdlib Require Import ZArith Lia String Ascii.
From stdpp Require Import base tactics option list list_numbers numbers gmap sets.
From S2P Require Import Prelude Sample.
Import Sample.Backoff.

(** ** The socket layer *)

(** [sys_send] and [sys_recv]: result and [errno]; [sys_recv] with the bytes read.
    [sys_epoll_wait]: result and the ready descriptors with their events.  [drive_stack] is
    a turn of the network stack, [queue_pkts] the packet counters of a queue when there is a
    network device. *)
Class Sockets (S : Type) := {
  sys_send : Z -> list Z -> S -> Z * Z * S;
  sys_recv : Z -> Z -> S -> Z * Z * list Z * S;
  sys_accept4 : Z -> S -> Z * S;
  socket_options : Z -> S -> S;
  sys_epoll_add : Z -> Z -> Z -> S -> Z * S;
  sys_epoll_del : Z -> Z -> S -> S;
  sys_epoll_wait : Z -> Z -> S -> Z * list (Z * Z) * S;
  sys_close : Z -> S -> S;
  drive_stack : Z -> S -> S;
  has_pcb : S -> bool;
  queue_pkts : Z -> S -> option (Z * Z);
  monotonic_clock : S -> Z * S;
  idle_sleep : Z -> Z -> S -> S
}.

Definition MAX_TRACKED_FDS : Z := 2048.
Definition MC_RECVBUF_SIZE : Z := 4096.
Definition MAX_EVENTS : Z := 256.
Definition BACKLOG : Z := 512.
Definition EPOLLIN : Z := 0x001.
Definition EPOLLOUT : Z := 0x004.
Definition EPOLLERR : Z := 0x008.
Definition EPOLLHUP : Z := 0x010.
Definition EPOLLRDNORM : Z := 0x040.
Definition EPOLLRDHUP : Z := 0x2000.
Definition EAGAIN : Z := 11.
Definition ENOBUFS : Z := 105.

(** ** Data *)
Definition bytes_of (s : string) : list Z := (fun c => Z.of_N (N_of_ascii c)) <$> list_ascii_of_string s.
Definition crlf : list Z := [13; 10].

Definition http_response : list Z :=
  bytes_of "HTTP/1.1 200 OK" ++ crlf ++
  bytes_of "Content-Type: text/plain; charset=utf-8" ++ crlf ++
  bytes_of "Content-Length: 14" ++ crlf ++
  bytes_of "Connection: keep-alive" ++ crlf ++
  bytes_of "Server: Unikraft-ENA-Benchmark-MC" ++ crlf ++
  crlf ++
  bytes_of "Hello, World!" ++ [10].
Definition http_resp_len : Z := Z.of_nat (length http_response).

Record worker_ctx := mkWorker {
  worker_id : Z;
  epoll_fd : Z;
  listener_fd : Z;
  conn_count : Z;
  resp_pending : arr Z;
  req_count : Z;
  byte_count : Z
}.

(** What the worker did, in order: a connection accepted, a request read, bytes a socket
    took, a descriptor closed, a sleep. *)
Inductive sock_event :=
| SAccept (fd : Z)
| SRequest (fd : Z)
| SSent (fd : Z) (b : list Z)
| SClose (fd : Z)
| SSleep (ns : Z).

Record server (S : Type) := mkServer { ap_w : worker_ctx; ap_env : S; ap_log : list sock_event }.
Arguments mkServer {S} _ _ _.
Arguments ap_w {S} _.
Arguments ap_env {S} _.
Arguments ap_log {S} _.

Definition set_conns (n : Z) (w : worker_ctx) : worker_ctx :=
  mkWorker (worker_id w) (epoll_fd w) (listener_fd w) n (resp_pending w) (req_count w) (byte_count w).
Definition set_pending (p : arr Z) (w : worker_ctx) : worker_ctx :=
  mkWorker (worker_id w) (epoll_fd w) (listener_fd w) (conn_count w) p (req_count w) (byte_count w).
Definition count_request (w : worker_ctx) : worker_ctx :=
  mkWorker (worker_id w) (epoll_fd w) (listener_fd w) (conn_count w) (resp_pending w)
    (u64 (req_count w + 1)) (u64 (byte_count w + http_resp_len)).

(** [strstr(s, pat) != NULL] on the C string at the start of [b]. *)
Fixpoint c_string (b : list Z) : list Z :=
  match b with
  | [] => []
  | x :: b => if x =? 0 then [] else x :: c_string b
  end.
Fixpoint has_substring (pat s : list Z) : bool :=
  bool_decide (take (length pat) s = pat) || match s with [] => false | _ :: s => has_substring pat s end.
Definition wants_close (b : list Z) : bool :=
  has_substring (bytes_of "Connection: close") (c_string b) || has_substring (bytes_of "connection: close") (c_string b).

Section Worker.
Context {S : Type} `{Sockets S}.

Definition upd_w (f : worker_ctx -> worker_ctx) (a : server S) : server S := mkServer (f (ap_w a)) (ap_env a) (ap_log a).
Definition upd_env (f : S -> S) (a : server S) : server S := mkServer (ap_w a) (f (ap_env a)) (ap_log a).
Definition note (es : list sock_event) (a : server S) : server S := mkServer (ap_w a) (ap_env a) (ap_log a ++ es).

Definition get_pending (fd : Z) (a : server S) : res Z := aget (resp_pending (ap_w a)) fd.
Definition put_pending (fd p : Z) (a : server S) : res (server S) :=
  l ← aset (resp_pending (ap_w a)) fd p; mret (upd_w (set_pending l) a).

(** [send]: result and [errno]. *)
Definition do_send (fd : Z) (b : list Z) (a : server S) : Z * Z * server S :=
  let '(n, err, s) := sys_send fd b (ap_env a) in
  (n, err, note (if 0 <? n then [SSent fd (take (Z.to_nat n) b)] else []) (mkServer (ap_w a) s (ap_log a))).

(** The [pending] bytes at [http_response + (http_resp_len - pending)]. *)
Definition resp_tail (pending : Z) : res (list Z) :=
  if pending <=? http_resp_len then mret (drop (Z.to_nat (http_resp_len - pending)) http_response) else Fault.

Definition send_again (err : Z) : bool := (err =? EAGAIN) || (err =? ENOBUFS) || (err =? EBUSY).

(** [while (pending > 0)]: the bytes left, or [None] where the function returns -1. *)
Fixpoint send_loop (fuel : nat) (fd pending : Z) (a : server S) : res (option Z * server S) :=
  match fuel with
  | O => Hang
  | Datatypes.S fuel =>
      if 0 <? pending then
        b ← resp_tail pending;
        let '(n, err, a) := do_send fd b a in
        if 0 <? n then send_loop fuel fd (u32 (pending - n)) a
        else if (n <? 0) && send_again err then
          let a := upd_env (drive_stack (worker_id (ap_w a))) a in
          let '(n, _, a) := do_send fd b a in
          if 0 <? n then send_loop fuel fd (u32 (pending - n)) a else mret (Some pending, a)
        else mret (None, a)
      else mret (Some pending, a)
  end.

Definition send_pending_response (fd : Z) (a : server S) : res (Z * server S) :=
  if (fd <? 0) || (MAX_TRACKED_FDS <=? fd) then mret (-1, a)
  else
    pending ← get_pending fd a;
    '(o, a) ← send_loop (Datatypes.S (Z.to_nat pending)) fd pending a;
    match o with
    | None => mret (-1, a)
    | Some pending => a ← put_pending fd pending a; mret (if 0 <? pending then 1 else 0, a)
    end.

Definition handle_readable (fd : Z) (a : server S) : res (Z * server S) :=
  let '(r, err, b, s) := sys_recv fd (MC_RECVBUF_SIZE - 1) (ap_env a) in
  let a := mkServer (ap_w a) s (ap_log a) in
  if 0 <? r then
    let a := note [SRequest fd] (upd_w count_request a) in
    '(rc, a) ← (if fd <? MAX_TRACKED_FDS then a ← put_pending fd http_resp_len a; send_pending_response fd a
                else mret (0, (do_send fd http_response a).2));
    if rc <? 0 then mret (-1, a) else mret (if wants_close b then -1 else 0, a)
  else mret (if (r =? 0) || ((r <? 0) && negb (err =? EAGAIN)) then -1 else 0, a).

Definition drop_connection (fd : Z) (a : server S) : res (server S) :=
  let a := if 0 <? conn_count (ap_w a) then upd_w (set_conns (conn_count (ap_w a) - 1)) a else a in
  a ← (if (0 <=? fd) && (fd <? MAX_TRACKED_FDS) then put_pending fd 0 a else mret a);
  mret (if 0 <=? fd then note [SClose fd] (upd_env (fun s => sys_close fd (sys_epoll_del (epoll_fd (ap_w a)) fd s)) a) else a).

(** ** One iteration of [run_to_completion_worker] *)

(** The inner [for (;;)] at the listener. *)
Fixpoint accept_loop (fuel : nat) (a : server S) : res (server S) :=
  match fuel with
  | O => Hang
  | Datatypes.S fuel =>
      let '(cfd, s) := sys_accept4 (listener_fd (ap_w a)) (ap_env a) in
      let a := mkServer (ap_w a) s (ap_log a) in
      if cfd <? 0 then mret a
      else
        let a := note [SAccept cfd] (upd_env (socket_options cfd) a) in
        let '(rc, s) := sys_epoll_add (epoll_fd (ap_w a)) cfd (Z.lor EPOLLIN EPOLLRDHUP) (ap_env a) in
        let a := mkServer (ap_w a) s (ap_log a) in
        if rc <? 0 then mret (note [SClose cfd] (upd_env (sys_close cfd) a))
        else accept_loop fuel (upd_w (set_conns (conn_count (ap_w a) + 1)) a)
  end.

Definition drop_if (rc : Z) (fd : Z) (a : server S) : res (server S) := if rc <? 0 then drop_connection fd a else mret a.

Definition on_event (e : Z * Z) (a : server S) : res (server S) :=
  let '(fd, evs) := e in
  if fd =? listener_fd (ap_w a) then accept_loop (Datatypes.S (Z.to_nat BACKLOG)) a
  else if z2b (Z.land evs (Z.lor (Z.lor EPOLLERR EPOLLHUP) EPOLLRDHUP)) then drop_connection fd a
  else
    pending ← (if fd <? MAX_TRACKED_FDS then get_pending fd a else mret 0);
    if 0 <? pending then
      if z2b (Z.land evs EPOLLOUT) then '(rc, a) ← send_pending_response fd a; drop_if rc fd a else mret a
    else if z2b (Z.land evs (Z.lor EPOLLIN EPOLLRDNORM)) then '(rc, a) ← handle_readable fd a; drop_if rc fd a
    else mret a.

Fixpoint on_events (evs : list (Z * Z)) (a : server S) : res (server S) :=
  match evs with
  | [] => mret a
  | e :: evs => a ← on_event e a; on_events evs a
  end.

(** [for (fd2 = 0; fd2 < MAX_TRACKED_FDS; fd2++)] from [fd2], [n] more. *)
Fixpoint retry_pending (n : nat) (fd2 : Z) (work : bool) (a : server S) : res (bool * server S) :=
  match n with
  | O => mret (work, a)
  | Datatypes.S n =>
      pending ← get_pending fd2 a;
      '(work, a) ←
        (if 0 <? pending then
           '(rc, a) ← send_pending_response fd2 a;
           if rc <? 0 then a ← drop_connection fd2 a; mret (work, a)
           else if rc =? 0 then '(rc, a) ← handle_readable fd2 a; a ← drop_if rc fd2 a; mret (true, a)
           else mret (true, a)
         else mret (work, a));
      retry_pending n (fd2 + 1) work a
  end.

(** The locals of the loop. *)
Record loop_vars := mkLoop { lv_ib : ib_state; rx_prev : Z; tx_prev : Z }.

Definition worker_turn (v : loop_vars) (a : server S) : res (loop_vars * server S) :=
  let a := upd_env (drive_stack (worker_id (ap_w a))) a in
  let '(n, evs, s) := sys_epoll_wait (epoll_fd (ap_w a)) MAX_EVENTS (ap_env a) in
  let a := mkServer (ap_w a) s (ap_log a) in
  if n <? 0 then mret (v, a)
  else
    a ← on_events (take (Z.to_nat n) evs) a;
    '(work, a) ← retry_pending (Z.to_nat MAX_TRACKED_FDS) 0 (0 <? n) a;
    let work := work || (0 <? conn_count (ap_w a)) || has_pcb (ap_env a) in
    let '(work, v) :=
      match queue_pkts (worker_id (ap_w a)) (ap_env a) with
      | Some (rx, tx) => (work || (rx_prev v <? rx) || (tx_prev v <? tx), mkLoop (lv_ib v) rx tx)
      | None => (work, v)
      end in
    let '(now, s) := monotonic_clock (ap_env a) in
    let a := mkServer (ap_w a) s (ap_log a) in
    let '(ns, ib) := ib_tick (lv_ib v) now (Z.b2z work) in
    mret (mkLoop ib (rx_prev v) (tx_prev v),
          if z2b ns then note [SSleep ns] (upd_env (idle_sleep (worker_id (ap_w a)) ns) a) else a).

Fixpoint worker_turns (n : nat) (v : loop_vars) (a : server S) : res (loop_vars * server S) :=
  match n with
  | O => mret (v, a)
  | Datatypes.S n => '(v, a) ← worker_turn v a; worker_turns n v a
  end.
End Worker.

(** ** What the socket layer promises *)

Definition same_sets {S : Type} (f g : S -> gset Z) (s s' : S) : Prop := f s' = f s /\ g s' = g s.

(** [fds]: the open descriptors; [watched]: those epoll reports on; [backlog]: the connections
    that wait at the listener, which a turn of the stack refills. *)
Class SocketsOk (S : Type) `{Sockets S} := {
  fds : S -> gset Z;
  watched : S -> gset Z;
  backlog : S -> nat;
  fds_pos s fd : fd ∈ fds s -> 0 <= fd;
  backlog_le s : (backlog s <= Z.to_nat BACKLOG)%nat;
  send_ok fd b s n err s' : sys_send fd b s = (n, err, s') -> same_sets fds watched s s' /\ n <= Z.of_nat (length b);
  recv_ok fd cap s r err b s' : sys_recv fd cap s = (r, err, b, s') -> same_sets fds watched s s' /\ (0 < r -> r = Z.of_nat (length b) /\ r <= cap);
  accept_ok l s fd s' : sys_accept4 l s = (fd, s') ->
    watched s' = watched s /\ if fd <? 0 then fds s' = fds s
                              else fd ∉ fds s /\ fds s' = {[fd]} ∪ fds s /\ (backlog s' < backlog s)%nat;
  options_ok fd s : same_sets fds watched s (socket_options fd s) /\ backlog (socket_options fd s) = backlog s;
  add_ok ep fd evs s rc s' : sys_epoll_add ep fd evs s = (rc, s') ->
    fds s' = fds s /\ backlog s' = backlog s /\ watched s' = if rc <? 0 then watched s else {[fd]} ∪ watched s;
  del_ok ep fd s : fds (sys_epoll_del ep fd s) = fds s /\ watched (sys_epoll_del ep fd s) = watched s ∖ {[fd]};
  close_ok fd s : fds (sys_close fd s) = fds s ∖ {[fd]} /\ watched (sys_close fd s) = watched s ∖ {[fd]};
  wait_ok ep m s n evs s' : sys_epoll_wait ep m s = (n, evs, s') ->
    same_sets fds watched s s' /\ (0 <= n -> n = Z.of_nat (length evs)) /\ NoDup evs.*1 /\ forall fd, fd ∈ evs.*1 -> fd ∈ watched s';
  drive_ok core s : same_sets fds watched s (drive_stack core s);
  clock_ok s : same_sets fds watched s (monotonic_clock s).2;
  sleep_ok core ns s : same_sets fds watched s (idle_sleep core ns s)
}.

(** ** What the log says of a connection *)

(** The requests read and the bytes sent on [fd] since it was accepted. *)
Definition conn_step (fd : Z) (c : nat * list Z) (e : sock_event) : nat * list Z :=
  match e with
  | SAccept f | SClose f => if decide (f = fd) then (O, []) else c
  | SRequest f => if decide (f = fd) then (Datatypes.S c.1, c.2) else c
  | SSent f b => if decide (f = fd) then (c.1, c.2 ++ b) else c
  | SSleep _ => c
  end.
Definition conn (fd : Z) (log : list sock_event) : nat * list Z := foldl (conn_step fd) (O, []) log.

(** The connections that are open. *)
Definition opened_step (X : gset Z) (e : sock_event) : gset Z :=
  match e with
  | SAccept f => {[f]} ∪ X
  | SClose f => X ∖ {[f]}
  | _ => X
  end.
Definition opened (log : list sock_event) : gset Z := foldl opened_step ∅ log.

Definition is_request (e : sock_event) : bool := match e with SRequest _ => true | _ => false end.
Definition requests (log : list sock_event) : Z := Z.of_nat (length (filter is_request log)).

Definition responses (k : nat) : list Z := concat (replicate k http_response).

(** The last [p] bytes of a response. *)
Definition rest (p : Z) : list Z := drop (Z.to_nat (http_resp_len - p)) http_response.

(** [fd] has [p] bytes to come: with them, every request has its response. *)
Definition answered (fd p : Z) (log : list sock_event) : Prop :=
  0 <= p <= http_resp_len /\ (conn fd log).2 ++ rest p = responses (conn fd log).1.

(** At every moment the bytes sent are a prefix of the responses due. *)
Definition in_order (fd : Z) (log : list sock_event) : Prop :=
  forall pre, pre `prefix_of` log -> (conn fd pre).2 `prefix_of` responses (conn fd pre).1.

(** The worker slept only when no connection was open. *)
Definition slept_idle (log : list sock_event) : Prop := forall pre ns, pre ++ [SSleep ns] `prefix_of` log -> opened pre = ∅.

Lemma conn_snoc fd log e : conn fd (log ++ [e]) = conn_step fd (conn fd log) e.
Proof. unfold conn. by rewrite foldl_snoc. Qed.
Lemma opened_snoc log e : opened (log ++ [e]) = opened_step (opened log) e.
Proof. unfold opened. by rewrite foldl_snoc. Qed.

Lemma prefix_snoc_inv {A} (pre l : list A) x : pre `prefix_of` l ++ [x] -> pre `prefix_of` l \/ pre = l ++ [x].
Proof.
  intros [k E]. destruct k as [| y k _] using rev_ind; [right; by rewrite app_nil_r in E |].
  rewrite (assoc_L (++)) in E. apply app_inj_tail in E as [E _]. left. by exists k.
Qed.

Lemma in_order_snoc fd log e :
  in_order fd log -> (conn_step fd (conn fd log) e).2 `prefix_of` responses (conn_step fd (conn fd log) e).1 -> in_order fd (log ++ [e]).
Proof. intros Ho He pre [Hp | ->]%prefix_snoc_inv; [by apply Ho |]. by rewrite conn_snoc. Qed.

Lemma slept_idle_snoc log e : slept_idle log -> (forall ns, e = SSleep ns -> opened log = ∅) -> slept_idle (log ++ [e]).
Proof. intros Hs He pre ns [Hp | E]%prefix_snoc_inv; [by apply (Hs pre ns) |]. apply app_inj_tail in E as [-> <-]. by apply (He ns). Qed.

Lemma responses_S k : responses (Datatypes.S k) = responses k ++ http_response.
Proof. unfold responses. rewrite replicate_S_end, concat_app. done. Qed.

Lemma rest_0 : rest 0 = [].
Proof. unfold rest. apply drop_ge. unfold http_resp_len. lia. Qed.
Lemma rest_all : rest http_resp_len = http_response.
Proof. unfold rest. by rewrite Z.sub_diag. Qed.
Lemma rest_length p : 0 <= p <= http_resp_len -> Z.of_nat (length (rest p)) = p.
Proof. intros Hp. unfold rest. rewrite length_drop. unfold http_resp_len in *. lia. Qed.

Lemma rest_split p n : 0 <= n <= p -> p <= http_resp_len -> rest p = take (Z.to_nat n) (rest p) ++ rest (p - n).
Proof.
  intros Hn Hp. rewrite <- (take_drop (Z.to_nat n) (rest p)) at 1. f_equal. unfold rest. rewrite drop_drop. f_equal. lia.
Qed.

Lemma requests_snoc log e : requests (log ++ [e]) = requests log + (if is_request e then 1 else 0).
Proof. unfold requests. rewrite filter_app, length_app, filter_cons, filter_nil. destruct (is_request e); case_decide; (done || (cbn [length]; lia)). Qed.

Lemma answered_in_order fd p log : answered fd p log -> (conn fd log).2 `prefix_of` responses (conn fd log).1.
Proof. intros [_ E]. rewrite <- E. by exists (rest p). Qed.

(** ** The invariant of the worker *)
Section WorkerProofs.
Context {S : Type} `{SocketsOk S}.
Implicit Types a : server S.

(** The descriptors that are not connections, and the listener. *)
Context (base : gset Z) (lfd : Z).

(** [bad]: a connection whose bytes to come are not recorded, because a send is going on or
    because it is about to be dropped. *)
Record worker_inv (bad : option Z) a : Prop := {
  wi_array : exists P, resp_pending (ap_w a) = Some P /\ Z.of_nat (length P) = MAX_TRACKED_FDS
    /\ forall fd p, 0 <= fd -> P !! Z.to_nat fd = Some p -> bad <> Some fd ->
         answered fd p (ap_log a) /\ (0 < p -> fd ∈ opened (ap_log a));
  wi_order fd : 0 <= fd < MAX_TRACKED_FDS -> in_order fd (ap_log a);
  wi_fds : fds (ap_env a) = base ∪ opened (ap_log a) /\ base ## opened (ap_log a);
  wi_listener : listener_fd (ap_w a) = lfd /\ lfd ∈ base;
  wi_watched : watched (ap_env a) ⊆ {[lfd]} ∪ opened (ap_log a);
  wi_conns : conn_count (ap_w a) = Z.of_nat (size (opened (ap_log a)));
  wi_counts : req_count (ap_w a) = u64 (requests (ap_log a)) /\ byte_count (ap_w a) = u64 (requests (ap_log a) * http_resp_len);
  wi_slept : slept_idle (ap_log a)
}.

Lemma inv_env bad a s :
  worker_inv bad a -> same_sets fds watched (ap_env a) s -> worker_inv bad (mkServer (ap_w a) s (ap_log a)).
Proof. intros [] [E1 E2]. split; cbn; rewrite ?E1, ?E2; done. Qed.

Lemma same_sets_trans (s1 s2 s3 : S) : same_sets fds watched s1 s2 -> same_sets fds watched s2 s3 -> same_sets fds watched s1 s3.
Proof. intros [] []. split; congruence. Qed.

(** Events on the connection [fd] only. *)
Definition concerns (fd : Z) (e : sock_event) : Prop :=
  match e with SAccept f | SClose f | SRequest f | SSent f _ => f = fd | SSleep _ => True end.

Lemma conn_step_other fd fd' c e : concerns fd e -> fd' <> fd -> conn_step fd' c e = c.
Proof. intros He Hne. destruct e; cbn in *; subst; rewrite ?decide_False by congruence; done. Qed.

Lemma answered_other fd fd' p log e : concerns fd e -> fd' <> fd -> answered fd' p log -> answered fd' p (log ++ [e]).
Proof. intros He Hne [Hp E]. split; [done |]. by rewrite conn_snoc, (conn_step_other fd). Qed.

Lemma in_order_event fd fd' log e :
  concerns fd e -> (fd' = fd -> (conn_step fd (conn fd log) e).2 `prefix_of` responses (conn_step fd (conn fd log) e).1) ->
  in_order fd' log -> in_order fd' (log ++ [e]).
Proof.
  intros He Hp Ho. apply in_order_snoc; [done |]. destruct (decide (fd' = fd)) as [-> | Hne]; [by apply Hp |].
  rewrite (conn_step_other fd) by done. by apply Ho.
Qed.

(** A request on [fd] or bytes sent on it: every other connection is as before. *)
Lemma inv_traffic bad fd e a s :
  worker_inv bad a -> same_sets fds watched (ap_env a) s -> (e = SRequest fd \/ exists b, e = SSent fd b) ->
  (0 <= fd < MAX_TRACKED_FDS ->
     bad = Some fd /\ (conn_step fd (conn fd (ap_log a)) e).2 `prefix_of` responses (conn_step fd (conn fd (ap_log a)) e).1) ->
  worker_inv bad (mkServer (if is_request e then count_request (ap_w a) else ap_w a) s (ap_log a ++ [e])).
Proof.
  intros Hi Hs He Hp. destruct (inv_env _ _ _ Hi Hs) as [(P & EP & HP & Hg) Hord Hf Hlf Hw Hc [Hr1 Hr2] Hsl]. cbn [ap_w ap_env ap_log] in *.
  assert (concerns fd e) as Hon by (by destruct He as [-> | [b ->]]).
  assert (opened (ap_log a ++ [e]) = opened (ap_log a)) as Eo by (rewrite opened_snoc; by destruct He as [-> | [b ->]]).
  set (w' := if is_request e then _ else _). assert (resp_pending w' = resp_pending (ap_w a) /\ listener_fd w' = listener_fd (ap_w a)
    /\ conn_count w' = conn_count (ap_w a)) as (E1 & E2 & E3) by (unfold w'; by destruct (is_request e)).
  split; cbn [ap_w ap_env ap_log]; rewrite ?Eo, ?E1, ?E2, ?E3; try done.
  - exists P. split_and!; [done.. |]. intros fd' p' H0' Hl Hb. rewrite ?Eo. destruct (Hg fd' p' H0' Hl Hb). split; [| done].
    apply (answered_other fd); [done | | done]. intros ->. apply Hb, Hp. apply lookup_lt_Some in Hl. lia.
  - intros fd' Hfd'. apply (in_order_event fd); [done | | by apply Hord]. intros ->. by apply Hp.
  - rewrite requests_snoc. unfold w'. destruct (is_request e); [| by rewrite Z.add_0_r].
    unfold count_request. cbn. rewrite Hr1, Hr2. unfold u64. rewrite !Zplus_mod_idemp_l. split; f_equal. lia.
  - apply slept_idle_snoc; [done |]. destruct He as [-> | [b ->]]; naive_solver.
Qed.

(** ** Sending *)

(** The connection [fd] has [p] bytes to come, whatever the array says. *)
Definition owing (X : gset Z) (fd p : Z) a : Prop :=
  worker_inv (Some fd) a /\ answered fd p (ap_log a) /\ (opened (ap_log a) = X /\ fd ∈ X) /\ 0 <= fd < MAX_TRACKED_FDS.

Lemma owing_env X fd p a s :
  owing X fd p a -> same_sets fds watched (ap_env a) s -> owing X fd p (mkServer (ap_w a) s (ap_log a)).
Proof. intros (Hi & Ha & Ho & Hfd) Hs. exact (conj (inv_env _ _ _ Hi Hs) (conj Ha (conj Ho Hfd))). Qed.

(** Bytes that [fd] took; the set of open connections and the requests stay. *)
Lemma owing_sent X fd p n a s :
  owing X fd p a -> 0 <= n <= p -> same_sets fds watched (ap_env a) s ->
  owing X fd (p - n) (mkServer (ap_w a) s (ap_log a ++ [SSent fd (take (Z.to_nat n) (rest p))])).
Proof.
  intros (Hi & [Hp E] & Ho & Hfd) Hn Hs.
  assert (answered fd (p - n) (ap_log a ++ [SSent fd (take (Z.to_nat n) (rest p))])) as Ha.
  { split; [lia |]. rewrite conn_snoc. cbn. rewrite decide_True by done. cbn. by rewrite <- (assoc_L (++)), <- rest_split by lia. }
  refine (conj _ (conj Ha (conj _ Hfd))); [| cbn [ap_log]; rewrite opened_snoc; exact Ho].
  apply (inv_traffic _ fd (SSent fd _) a); [done | done | by eauto |]. intros _. split; [done |]. rewrite <- conn_snoc. by eapply answered_in_order.
Qed.

Lemma do_send_spec X fd p a :
  owing X fd p a -> 
  let '(n, _, a') := do_send fd (rest p) a in n <= p /\ owing X fd (p - Z.max n 0) a'.
Proof.
  intros Ho. unfold do_send. destruct (sys_send fd (rest p) (ap_env a)) as [[n err] s] eqn:E. apply send_ok in E as [Hs Hn].
  rewrite rest_length in Hn by apply Ho. split; [done |]. destruct (Z.ltb_spec 0 n).
  - rewrite Z.max_l by lia. apply (owing_sent X fd p n a s Ho); [lia | exact Hs].
  - rewrite Z.max_r, Z.sub_0_r by lia. unfold note. cbn. rewrite app_nil_r. by apply owing_env.
Qed.

Lemma http_resp_len_bound : 0 < http_resp_len < 2 ^ 32.
Proof. vm_compute. done. Qed.

(** With fuel for every byte the loop ends; [None]: the connection failed. *)
Lemma send_loop_spec X fuel fd p a :
  owing X fd p a -> p < Z.of_nat fuel ->
  wp (send_loop fuel fd p a) (fun '(o, a') => exists p', owing X fd p' a' /\ if o is Some q then q = p' else True).
Proof.
  revert p a. induction fuel as [| fuel IH]; intros p a Ho Hf; [destruct Ho as (_ & [] & _); lia |]. cbn [send_loop].
  pose proof Ho as (_ & [Hp _] & _). pose proof http_resp_len_bound.
  destruct (Z.ltb_spec 0 p); [| apply wp_ret; eauto]. unfold resp_tail. rewrite (proj2 (Z.leb_le _ _)) by lia.
  apply wp_bind, wp_ret. fold (rest p). pose proof (do_send_spec X fd p a Ho) as Hd.
  destruct (do_send fd (rest p) a) as [[n err] a1]. destruct Hd as [Hn Ho1]. destruct (Z.ltb_spec 0 n).
  { rewrite Z.max_l in Ho1 by lia. rewrite u32_id by lia. apply IH; [done | lia]. }
  rewrite Z.max_r, Z.sub_0_r in Ho1 by lia. destruct (_ && _); [| apply wp_ret; eauto].
  unfold upd_env. set (a2 := mkServer _ _ _). assert (owing X fd p a2) as Ho2 by (apply owing_env; [done | apply drive_ok]).
  pose proof (do_send_spec X fd p a2 Ho2) as Hd. destruct (do_send fd (rest p) a2) as [[n2 err2] a3]. destruct Hd as [Hn2 Ho3].
  destruct (Z.ltb_spec 0 n2); [rewrite Z.max_l in Ho3 by lia; rewrite u32_id by lia; apply IH; [done | lia] |].
  rewrite Z.max_r, Z.sub_0_r in Ho3 by lia. apply wp_ret. eauto.
Qed.

Lemma inv_weaken fd a : worker_inv None a -> worker_inv (Some fd) a.
Proof. intros [(P & ? & ? & Hg)]. split; try done. exists P. split_and!; [done.. |]. intros fd' p' ? ? _. by apply Hg. Qed.

Lemma inv_pending a fd :
  worker_inv None a -> 0 <= fd < MAX_TRACKED_FDS -> exists p, get_pending fd a = Ret p /\ 0 <= p
    /\ (fd ∈ opened (ap_log a) -> owing (opened (ap_log a)) fd p a) /\ (0 < p -> fd ∈ opened (ap_log a)).
Proof.
  intros Hi Hfd. pose proof Hi as [(P & EP & HP & Hg)]. destruct (lookup_in_range P fd) as [p Hp]; [lia |]. exists p.
  destruct (Hg fd p ltac:(lia) Hp ltac:(done)) as [Ha Ho]. unfold get_pending. rewrite EP, (aget_ret P fd p) by (done || lia).
  split_and!; [done | apply Ha | | done]. intros Hfo. exact (conj (inv_weaken fd a Hi) (conj Ha (conj (conj eq_refl Hfo) Hfd))).
Qed.

(** The bytes to come are recorded. *)
Lemma wp_put_pending X fd p a (Q : server S -> Prop) :
  owing X fd p a -> (forall a', worker_inv None a' -> ap_log a' = ap_log a -> get_pending fd a' = Ret p -> Q a') -> wp (put_pending fd p a) Q.
Proof.
  intros ([(P & EP & HP & Hg)] & Ha & (EX & Hfo) & Hfd) HQ. unfold put_pending. rewrite EP. apply wp_bind, wp_aset; [lia |].
  apply wp_ret, HQ; [| done |].
  2: { unfold get_pending. cbn [upd_w ap_w set_pending resp_pending]. apply aget_ret; [lia |]. apply list_lookup_insert_eq. lia. }
  split; try done. exists (<[Z.to_nat fd := p]> P). split_and!; [done | by rewrite length_insert |].
  intros fd' p' Hfd' Hl _. rewrite zlookup_insert in Hl by lia. cbn [upd_w ap_log]. case_decide as E; [| apply Hg; [done | done | congruence]].
  injection Hl as <-. subst fd'. split; [done |]. intros _. by rewrite EX.
Qed.

(** A negative result: the connection has failed and what it is owed is not recorded. *)
Definition sent_or_failed X fd (rc : Z) a : Prop :=
  if rc <? 0 then exists p, owing X fd p a
  else worker_inv None a /\ opened (ap_log a) = X /\ (rc = 0 -> get_pending fd a = Ret 0).

Lemma send_pending_spec X fd p a :
  owing X fd p a -> get_pending fd a = Ret p -> wp (send_pending_response fd a) (fun '(rc, a') => sent_or_failed X fd rc a').
Proof.
  intros Ho Hp. pose proof Ho as (_ & [Hp0 _] & _ & Hfd). unfold send_pending_response.
  rewrite (proj2 (Z.ltb_ge _ _)), (proj2 (Z.leb_gt _ _)) by lia. cbn [orb]. rewrite Hp. apply wp_bind, wp_ret, wp_bind.
  eapply wp_mono; [apply (send_loop_spec X); [done | lia] |]. intros [o a1] (p' & Ho' & Eo).
  destruct o as [q |]; [subst q | apply wp_ret; by exists p']. apply wp_bind, (wp_put_pending X fd p'); [done |].
  intros a2 Hi El Hg. pose proof Ho' as (_ & [Hp' _] & [EX _] & _). unfold sent_or_failed.
  destruct (Z.ltb_spec 0 p'); apply wp_ret; rewrite El; (split_and!; [done | done |]); [done |]. intros _. rewrite Hg. f_equal. lia.
Qed.

(** ** Reading *)

(** A request read while nothing is owed: a whole response is. *)
Lemma owing_request X fd a s :
  owing X fd 0 a -> same_sets fds watched (ap_env a) s ->
  owing X fd http_resp_len (note [SRequest fd] (upd_w count_request (mkServer (ap_w a) s (ap_log a)))).
Proof.
  intros (Hi & [Hp E] & Ho & Hfd) Hs. pose proof http_resp_len_bound. rewrite rest_0, app_nil_r in E.
  assert (answered fd http_resp_len (ap_log a ++ [SRequest fd])) as Ha.
  { split; [lia |]. rewrite conn_snoc. cbn [conn_step]. rewrite decide_True by done. cbn [fst snd]. by rewrite rest_all, responses_S, E. }
  refine (conj _ (conj Ha (conj _ Hfd))); [| cbn [note ap_log upd_w]; rewrite opened_snoc; exact Ho].
  apply (inv_traffic _ fd (SRequest fd) a); [done | done | by left |]. intros _. split; [done |]. rewrite <- conn_snoc. by eapply answered_in_order.
Qed.

(** A connection that may be read: its response, if the table has room for one, is out. *)
Definition idle_conn fd a : Prop := fd ∈ opened (ap_log a) /\ (fd < MAX_TRACKED_FDS -> get_pending fd a = Ret 0).

(** The connection has failed, or all is well. *)
Definition failed_or X fd (rc : Z) a : Prop :=
  if rc <? 0 then worker_inv (Some fd) a /\ opened (ap_log a) = X else worker_inv None a /\ opened (ap_log a) = X.

Lemma failed_owing X fd rc a : sent_or_failed X fd rc a -> failed_or X fd rc a.
Proof. unfold sent_or_failed, failed_or. destruct (rc <? 0); [| by intros (? & ? & _)]. intros (p & ? & _ & [? _] & _). done. Qed.

Lemma failed_drop X fd rc a : failed_or X fd rc a -> worker_inv (Some fd) a /\ opened (ap_log a) = X.
Proof. unfold failed_or. destruct (rc <? 0); intros [Hi E]; split; try done. by apply inv_weaken. Qed.

Lemma opened_pos fd a bad : worker_inv bad a -> fd ∈ opened (ap_log a) -> 0 <= fd.
Proof. intros Hi Ho. apply (fds_pos (ap_env a)). rewrite (proj1 (wi_fds _ _ Hi)). set_solver. Qed.

(** A descriptor that has no entry in the table. *)
Lemma untracked_send fd b a :
  worker_inv None a -> MAX_TRACKED_FDS <= fd -> worker_inv None (do_send fd b a).2 /\ opened (ap_log (do_send fd b a).2) = opened (ap_log a).
Proof.
  intros Hi Hfd. unfold do_send. destruct (sys_send fd b (ap_env a)) as [[n err] s] eqn:E. apply send_ok in E as [Hs _].
  unfold note. cbn [snd ap_w ap_env ap_log]. destruct (0 <? n); [| rewrite app_nil_r; split; [by apply inv_env | done]].
  split; [| apply opened_snoc]. apply (inv_traffic _ fd (SSent fd _) a); [done | done | by eauto | lia].
Qed.

Lemma handle_readable_spec fd a :
  worker_inv None a -> idle_conn fd a -> wp (handle_readable fd a) (fun '(rc, a') => failed_or (opened (ap_log a)) fd rc a').
Proof.
  intros Hi [Ho Hz]. pose proof (opened_pos _ _ _ Hi Ho) as H0'. unfold handle_readable.
  destruct (sys_recv fd _ (ap_env a)) as [[[r err] b] s] eqn:Er. apply recv_ok in Er as [Hs _].
  destruct (0 <? r); [| apply wp_ret; unfold failed_or; pose proof (inv_env _ _ _ Hi Hs) as Hi';
    case_match; (split; [| done]); [by apply inv_weaken | done]].
  set (a1 := note _ _). apply wp_bind. apply (wp_mono _ (fun '(rc, a') => failed_or (opened (ap_log a)) fd rc a')).
  { destruct (Z.ltb_spec fd MAX_TRACKED_FDS) as [Hm | Hm]; [| apply wp_ret].
    - apply wp_bind, (wp_put_pending (opened (ap_log a))).
      { apply owing_request; [| done]. destruct (inv_pending a fd Hi ltac:(lia)) as (p & Hp & _ & Hw & _). rewrite Hz in Hp by done.
        injection Hp as <-. by apply Hw. }
      intros a2 Hi2 El Hp2. assert (opened (ap_log a2) = opened (ap_log a)) as Eo by (rewrite El; apply opened_snoc).
      destruct (inv_pending a2 fd Hi2 ltac:(lia)) as (p & Hp & _ & Hw & _). rewrite Hp2 in Hp. injection Hp as <-.
      eapply wp_mono; [eapply send_pending_spec; [apply Hw; by rewrite Eo | done] |]. rewrite Eo. intros [rc a3]. apply failed_owing.
    - assert (worker_inv None a1) as Hi1 by (apply (inv_traffic _ fd (SRequest fd) a); [done | done | by left | lia]).
      assert (opened (ap_log a1) = opened (ap_log a)) as <- by apply opened_snoc. by apply untracked_send. }
  intros [rc a2] Hf. pose proof (failed_drop _ _ _ _ Hf). destruct (rc <? 0) eqn:Erc; [by apply wp_ret |].
  destruct (wants_close b); apply wp_ret; [done |]. unfold failed_or in Hf. by rewrite Erc in Hf.
Qed.

(** ** Connections that open and close *)
Lemma answered_fresh fd log e : conn_step fd (conn fd log) e = (O, []) -> answered fd 0 (log ++ [e]).
Proof. intros E. pose proof http_resp_len_bound. split; [lia |]. by rewrite conn_snoc, E, rest_0. Qed.

Lemma inv_accepted fd a s :
  worker_inv None a -> fd ∉ fds (ap_env a) -> fds s = {[fd]} ∪ fds (ap_env a) -> watched s ⊆ {[fd]} ∪ watched (ap_env a) ->
  worker_inv None (mkServer (set_conns (conn_count (ap_w a) + 1) (ap_w a)) s (ap_log a ++ [SAccept fd])).
Proof.
  intros [(P & EP & HP & Hg) Hord [Hf Hd] Hlf Hw Hc Hr Hsl] Hn Hfs Hws. rewrite Hf in Hn.
  assert (conn_step fd (conn fd (ap_log a)) (SAccept fd) = (O, [])) as Ef by (cbn; by rewrite decide_True).
  split; cbn [ap_w ap_env ap_log set_conns resp_pending listener_fd conn_count req_count byte_count];
    rewrite ?opened_snoc, ?requests_snoc, ?Z.add_0_r; cbn [opened_step is_request]; try done.
  - exists P. split_and!; [done.. |]. intros fd' p' Hfd' Hl Hb. rewrite ?opened_snoc. cbn [opened_step].
    destruct (Hg fd' p' Hfd' Hl Hb) as [Ha Ho]. destruct (decide (fd' = fd)) as [-> | Hne]; [| split; [by apply (answered_other fd) | set_solver]].
    destruct (Z.ltb_spec 0 p') as [Hlt |]; [set_solver |]. destruct Ha as [Ha _]. assert (p' = 0) as -> by lia.
    split; [by apply answered_fresh | set_solver].
  - intros fd' Hfd'. apply (in_order_event fd); [done | | by apply Hord]. intros ->. rewrite Ef. apply prefix_nil.
  - rewrite Hfs, Hf. set_solver.
  - set_solver.
  - rewrite Hc, size_union, size_singleton by set_solver. lia.
  - apply slept_idle_snoc; [done | naive_solver].
Qed.

Lemma inv_closed fd a s :
  worker_inv (Some fd) a -> fd ∈ opened (ap_log a) -> (fd < MAX_TRACKED_FDS -> get_pending fd a = Ret 0) ->
  fds s = fds (ap_env a) ∖ {[fd]} -> watched s ⊆ watched (ap_env a) ∖ {[fd]} ->
  worker_inv None (mkServer (set_conns (conn_count (ap_w a) - 1) (ap_w a)) s (ap_log a ++ [SClose fd])).
Proof.
  intros [(P & EP & HP & Hg) Hord [Hf Hd] Hlf Hw Hc Hr Hsl] Ho Hz Hfs Hws.
  assert (conn_step fd (conn fd (ap_log a)) (SClose fd) = (O, [])) as Ef by (cbn; by rewrite decide_True).
  split; cbn [ap_w ap_env ap_log set_conns resp_pending listener_fd conn_count req_count byte_count];
    rewrite ?opened_snoc, ?requests_snoc; cbn [opened_step is_request]; try done.
  - exists P. split_and!; [done.. |]. intros fd' p' Hfd' Hl _. rewrite ?opened_snoc. cbn [opened_step].
    destruct (decide (fd' = fd)) as [-> | Hne].
    + pose proof (lookup_lt_Some _ _ _ Hl). specialize (Hz ltac:(lia)). unfold get_pending in Hz. rewrite EP in Hz. apply aget_inv in Hz as [_ Hz].
      assert (p' = 0) as -> by congruence. split; [by apply answered_fresh | lia].
    + destruct (Hg fd' p' Hfd' Hl ltac:(congruence)) as [Ha Ho']. split; [by apply (answered_other fd) | set_solver].
  - intros fd' Hfd'. apply (in_order_event fd); [done | | by apply Hord]. intros ->. rewrite Ef. apply prefix_nil.
  - rewrite Hfs, Hf. set_solver.
  - set_solver.
  - rewrite Hc, size_difference, size_singleton by set_solver. assert (size (opened (ap_log a)) <> O); [| lia].
    apply size_non_empty_iff. set_solver.
  - by rewrite Z.add_0_r.
  - apply slept_idle_snoc; [done | naive_solver].
Qed.

(** The entry of a connection that is about to be dropped. *)
Lemma wp_clear_pending fd p a (Q : arr Z -> Prop) :
  worker_inv (Some fd) a -> 0 <= fd < MAX_TRACKED_FDS ->
  (forall l, worker_inv (Some fd) (upd_w (set_pending l) a) -> get_pending fd (upd_w (set_pending l) a) = Ret p -> Q l) ->
  wp (aset (resp_pending (ap_w a)) fd p) Q.
Proof.
  intros [(P & EP & HP & Hg)] Hfd HQ. rewrite EP. apply wp_aset; [lia |]. apply HQ.
  - split; try done. exists (<[Z.to_nat fd := p]> P). split_and!; [done | by rewrite length_insert |].
    intros fd' p' Hfd' Hl Hb. rewrite zlookup_insert in Hl by lia. case_decide; [congruence |]. by apply Hg.
  - apply aget_ret; [lia |]. apply list_lookup_insert_eq. lia.
Qed.

Lemma drop_connection_spec fd a :
  worker_inv (Some fd) a -> fd ∈ opened (ap_log a) ->
  wp (drop_connection fd a) (fun a' => worker_inv None a' /\ opened (ap_log a') = opened (ap_log a) ∖ {[fd]}).
Proof.
  intros Hi Ho. pose proof (opened_pos _ _ _ Hi Ho) as Hfd. unfold drop_connection.
  assert (0 < conn_count (ap_w a)) as Hc.
  { rewrite (wi_conns _ _ Hi). assert (size (opened (ap_log a)) <> O); [| lia]. apply size_non_empty_iff. set_solver. }
  rewrite (proj2 (Z.ltb_lt _ _) Hc). destruct (Z.leb_spec 0 fd); [| lia]. cbn [andb].
  assert (forall w, let s := ap_env a in
    let s' := sys_close fd (sys_epoll_del (epoll_fd w) fd s) in fds s' = fds s ∖ {[fd]} /\ watched s' ⊆ watched s ∖ {[fd]}) as Hs.
  { intros w s s'. unfold s'. destruct (close_ok fd (sys_epoll_del (epoll_fd w) fd s)) as [-> ->].
    destruct (del_ok (epoll_fd w) fd s) as [-> ->]. split; set_solver. }
  destruct (Z.ltb_spec fd MAX_TRACKED_FDS) as [Hm | Hm].
  - apply wp_bind. unfold put_pending. apply wp_bind. apply (wp_clear_pending fd 0 a); [done | lia |].
    intros l Hi' Hp. apply wp_ret, wp_ret. split; [| apply opened_snoc].
    apply (inv_closed fd (upd_w (set_pending l) a)); [done | done | done | apply Hs..].
  - apply wp_bind, wp_ret, wp_ret. split; [| apply opened_snoc]. apply (inv_closed fd a); [done | done | lia | apply Hs..].
Qed.

Lemma drop_if_spec X rc fd a :
  failed_or X fd rc a -> fd ∈ X -> wp (drop_if rc fd a) (fun a' => worker_inv None a' /\ X ∖ {[fd]} ⊆ opened (ap_log a')).
Proof.
  unfold failed_or, drop_if. intros Hf Hx. destruct (rc <? 0); destruct Hf as [Hi EX]; [| apply wp_ret; split; [done | set_solver]].
  eapply wp_mono; [apply drop_connection_spec; [done | by rewrite EX] |]. intros a' [Hi' ->]. split; [done | set_solver].
Qed.

Lemma accept_loop_spec fuel a :
  worker_inv None a -> (backlog (ap_env a) < fuel)%nat ->
  wp (accept_loop fuel a) (fun a' => worker_inv None a' /\ opened (ap_log a) ⊆ opened (ap_log a')).
Proof.
  revert a. induction fuel as [| fuel IH]; intros a Hi Hb; [lia |]. cbn [accept_loop].
  destruct (sys_accept4 _ (ap_env a)) as [fd s] eqn:Ea. apply accept_ok in Ea as [Ew Ea].
  destruct (fd <? 0) eqn:Efd; [apply wp_ret; split; [by apply inv_env | done] |]. destruct Ea as (Hn & Ef & Hlt).
  cbn [upd_env note ap_w ap_env ap_log]. destruct (options_ok fd s) as [[Ef1 Ew1] Eb1].
  destruct (sys_epoll_add _ fd _ (socket_options fd s)) as [rc s2] eqn:Ep. apply add_ok in Ep as (Ef2 & Eb2 & Ew2).
  assert (worker_inv None (mkServer (set_conns (conn_count (ap_w a) + 1) (ap_w a)) s2 (ap_log a ++ [SAccept fd]))) as Hi2.
  { apply inv_accepted; [done | done | congruence |]. rewrite Ew2, Ew1, Ew. destruct (rc <? 0); set_solver. }
  assert (opened (ap_log a ++ [SAccept fd]) = {[fd]} ∪ opened (ap_log a)) as Eo by apply opened_snoc.
  destruct (rc <? 0).
  - apply wp_ret. destruct (close_ok fd s2) as [Ef3 Ew3].
    assert (forall w, w = set_conns (conn_count w + 1 - 1) (set_conns (conn_count w + 1) w)) as Ew4
      by (intros w; replace (conn_count w + 1 - 1) with (conn_count w) by lia; by destruct w).
    unfold note, upd_env. cbn [ap_w ap_env ap_log]. rewrite (Ew4 (ap_w a)). split.
    + refine (inv_closed fd (mkServer _ s2 _) (sys_close fd s2) (inv_weaken _ _ Hi2) _ _ Ef3 _); [cbn; set_solver | | by rewrite Ew3].
      intros Hm. apply Z.ltb_ge in Efd. destruct (inv_pending a fd Hi ltac:(lia)) as (p & Hp & Hp0 & _ & Hpo).
      replace p with 0 in Hp; [done |]. destruct (Z.ltb_spec 0 p); [| lia]. exfalso. apply Hn. rewrite (proj1 (wi_fds _ _ Hi)). set_solver.
    + cbn [ap_log]. rewrite opened_snoc, Eo. cbn. rewrite (proj1 (wi_fds _ _ Hi)) in Hn. set_solver.
  - eapply wp_mono; [apply IH; [done | cbn; lia] |]. cbn [ap_log]. intros a' [Hi' Hsub]. split; [done | set_solver].
Qed.

(** ** An iteration *)
Lemma on_event_spec e a :
  worker_inv None a -> (e.1 = lfd \/ e.1 ∈ opened (ap_log a)) ->
  wp (on_event e a) (fun a' => worker_inv None a' /\ opened (ap_log a) ∖ {[e.1]} ⊆ opened (ap_log a')).
Proof.
  destruct e as [fd evs]. cbn [fst]. intros Hi He. unfold on_event. pose proof (wi_listener _ _ Hi) as [El Hlb]. rewrite El.
  destruct (Z.eqb_spec fd lfd) as [-> | Hne].
  { eapply wp_mono; [apply accept_loop_spec; [done | pose proof (backlog_le (ap_env a)); lia] |]. intros a' [Hi' Ho]. split; [done | set_solver]. }
  destruct He as [-> | Ho]; [done |]. pose proof (opened_pos _ _ _ Hi Ho) as Hfd.
  destruct (z2b _).
  { eapply wp_mono; [apply drop_connection_spec; [by apply inv_weaken | done] |]. by intros a' [Hi' ->]. }
  apply wp_bind. apply (wp_mono _ (fun p => (0 < p -> fd < MAX_TRACKED_FDS /\ owing (opened (ap_log a)) fd p a /\ get_pending fd a = Ret p)
    /\ (p <= 0 -> idle_conn fd a))).
  { destruct (Z.ltb_spec fd MAX_TRACKED_FDS) as [Hm | Hm]; [| apply wp_ret; split; [lia | split; [done | lia]]].
    destruct (inv_pending a fd Hi ltac:(lia)) as (p & Hp & Hp0 & Hw & _). rewrite Hp. apply wp_ret. split; [intros _; exact (conj Hm (conj (Hw Ho) eq_refl)) |].
    intros Hle. split; [done |]. intros _. rewrite ?Hp. f_equal. lia. }
  intros p [Hp Hz]. destruct (Z.ltb_spec 0 p) as [Hlt | Hle].
  - destruct (Hp Hlt) as (Hm & Hw & Hg). destruct (z2b _); [| apply wp_ret; split; [done | set_solver]]. apply wp_bind.
    eapply wp_mono; [by eapply send_pending_spec |]. intros [rc a1] Hf%failed_owing. by apply drop_if_spec.
  - destruct (z2b _); [| apply wp_ret; split; [done | set_solver]]. apply wp_bind.
    eapply wp_mono; [apply handle_readable_spec; [done | by apply Hz] |]. intros [rc a1] Hf. by apply drop_if_spec.
Qed.

Lemma on_events_spec evs a :
  worker_inv None a -> NoDup evs.*1 -> (forall fd, fd ∈ evs.*1 -> fd = lfd \/ fd ∈ opened (ap_log a)) ->
  wp (on_events evs a) (fun a' => worker_inv None a').
Proof.
  revert a. induction evs as [| e evs IH]; intros a Hi Hnd Hin; [by apply wp_ret |]. cbn [on_events]. cbn in Hnd. apply NoDup_cons in Hnd as [Hne Hnd].
  apply wp_bind. eapply wp_mono; [apply on_event_spec; [done | apply Hin; cbn; left] |]. intros a1 [Hi1 Ho1]. apply IH; [done | done |].
  intros fd Hfd. destruct (Hin fd ltac:(cbn; by right)) as [-> | Ho]; [by left | right]. apply Ho1. set_solver.
Qed.

Lemma retry_pending_spec n fd work a :
  worker_inv None a -> 0 <= fd -> fd + Z.of_nat n <= MAX_TRACKED_FDS -> wp (retry_pending n fd work a) (fun '(_, a') => worker_inv None a').
Proof.
  revert fd work a. induction n as [| n IH]; intros fd work a Hi Hfd Hn; [by apply wp_ret |]. cbn [retry_pending].
  destruct (inv_pending a fd Hi ltac:(lia)) as (p & Hp & Hp0 & Hw & Ho). rewrite Hp. apply wp_bind, wp_ret, wp_bind.
  apply (wp_mono _ (fun '(_, a') => worker_inv None a')); [| intros [work' a'] Hi'; apply IH; [done | lia | lia]].
  destruct (Z.ltb_spec 0 p) as [Hlt | Hle]; [| by apply wp_ret]. specialize (Ho Hlt). apply wp_bind.
  eapply wp_mono; [eapply send_pending_spec; [by apply Hw | done] |]. intros [rc a1] Hs. pose proof (failed_owing _ _ _ _ Hs) as Hf.
  destruct (rc <? 0) eqn:Erc.
  - destruct (failed_drop _ _ _ _ Hf) as [Hi1 E1]. apply wp_bind. eapply wp_mono; [apply drop_connection_spec; [done | by rewrite E1] |].
    intros a2 [Hi2 _]. by apply wp_ret.
  - unfold failed_or in Hf. rewrite Erc in Hf. destruct Hf as [Hi1 E1]. destruct (Z.eqb_spec rc 0) as [-> | Hne]; [| by apply wp_ret].
    apply wp_bind. eapply wp_mono; [apply handle_readable_spec; [done |] |].
    { split; [by rewrite E1 |]. intros _. unfold sent_or_failed in Hs. rewrite Erc in Hs. by apply Hs. }
    rewrite E1. intros [rc2 a2] Hf2. apply wp_bind. eapply wp_mono; [by eapply drop_if_spec |]. intros a3 [Hi3 _]. by apply wp_ret.
Qed.

(** The worker sleeps only without a connection. *)
Lemma inv_sleep core ns a :
  worker_inv None a -> opened (ap_log a) = ∅ -> worker_inv None (note [SSleep ns] (upd_env (idle_sleep core ns) a)).
Proof.
  intros Hi Ho. pose proof (inv_env _ _ _ Hi (sleep_ok core ns (ap_env a))) as [(P & EP & HP & Hg) Hord Hf Hlf Hw Hc Hr Hsl].
  unfold note, upd_env. split; cbn [ap_w ap_env ap_log] in *; rewrite ?opened_snoc, ?requests_snoc, ?Z.add_0_r; try done.
  - exists P. split_and!; [done.. |]. intros fd p Hfd Hl Hb. destruct (Hg fd p Hfd Hl Hb). rewrite ?opened_snoc. split; [| done].
    by apply (answered_other (fd + 1)); [| lia |].
  - intros fd Hfd. apply (in_order_event (fd + 1)); [done | lia | by apply Hord].
  - by apply slept_idle_snoc.
Qed.

Lemma ib_tick_work ib now : (ib_tick ib now 1).1 = 0.
Proof. done. Qed.

Lemma worker_turn_spec v a : worker_inv None a -> wp (worker_turn v a) (fun '(_, a') => worker_inv None a').
Proof.
  intros Hi. unfold worker_turn. unfold upd_env at 1 2 3 4 5. cbn [ap_w ap_env ap_log].
  pose proof (inv_env _ _ _ Hi (drive_ok (worker_id (ap_w a)) (ap_env a))) as Hi1.
  destruct (sys_epoll_wait _ _ _) as [[n evs] s] eqn:Ew. apply wait_ok in Ew as (Hs & Hn & Hnd & Hin). pose proof (inv_env _ _ _ Hi1 Hs) as Hi2.
  destruct (Z.ltb_spec n 0) as [Hneg | Hpos]; [by apply wp_ret |]. rewrite (Hn Hpos). rewrite Nat2Z.id, firstn_all.
  apply wp_bind. eapply wp_mono; [apply on_events_spec; [exact Hi2 | done |] |].
  { intros fd Hfd%Hin. apply (wi_watched _ _ Hi2) in Hfd. set_solver. }
  intros a3 Hi3. apply wp_bind. eapply wp_mono; [apply retry_pending_spec; [exact Hi3 | done | done] |]. intros [work a4] Hi4.
  set (wk := (_ || _ || _)%bool). destruct (match queue_pkts _ _ with Some _ => _ | None => _ end) as [wk' v'] eqn:Eq.
  assert (wk = true -> wk' = true) as Hwk by (intros E; rewrite E in Eq; destruct (queue_pkts _ _) as [[rx tx] |]; by injection Eq as <- _).
  pose proof (clock_ok (ap_env a4)) as Hc. destruct (monotonic_clock (ap_env a4)) as [now s5]. cbn [snd] in Hc.
  pose proof (inv_env _ _ _ Hi4 Hc) as Hi5. destruct (ib_tick (lv_ib v') now (Z.b2z wk')) as [ns ib] eqn:Ei.
  apply wp_ret. destruct (z2b ns) eqn:Ens; [| done].
  apply (inv_sleep _ ns (mkServer (ap_w a4) s5 (ap_log a4))); [done |]. cbn [ap_log].
  destruct wk' eqn:Ek; [pose proof (ib_tick_work (lv_ib v') now) as E0; cbn in Ei; by injection Ei as <- _ |].
  assert (wk = false) as Ewk by (destruct wk; [by specialize (Hwk eq_refl) | done]). unfold wk in Ewk.
  apply orb_false_iff in Ewk as [[_ Ec%Z.ltb_ge]%orb_false_iff _]. rewrite (wi_conns _ _ Hi4) in Ec.
  apply leibniz_equiv, size_empty_iff. lia.
Qed.

Lemma worker_turns_spec n v a : worker_inv None a -> wp (worker_turns n v a) (fun '(_, a') => worker_inv None a').
Proof.
  revert v a. induction n as [| n IH]; intros v a Hi; [by apply wp_ret |]. cbn [worker_turns]. apply wp_bind.
  eapply wp_mono; [by apply worker_turn_spec |]. intros [v' a'] Hi'. by apply IH.
Qed.
End WorkerProofs.

(** A worker as [main] leaves it, with its listener watched. *)
Record worker_ready {S : Type} `{SocketsOk S} (a : server S) : Prop := {
  wr_pending : resp_pending (ap_w a) = Some (replicate (Z.to_nat MAX_TRACKED_FDS) 0);
  wr_conns : conn_count (ap_w a) = 0;
  wr_reqs : req_count (ap_w a) = 0 /\ byte_count (ap_w a) = 0;
  wr_log : ap_log a = [];
  wr_listener : listener_fd (ap_w a) ∈ fds (ap_env a);
  wr_watched : watched (ap_env a) ⊆ {[listener_fd (ap_w a)]}
}.

Section Server.
Context {S : Type} `{SocketsOk S}.

Lemma worker_ready_inv (a : server S) : worker_ready a -> worker_inv (fds (ap_env a)) (listener_fd (ap_w a)) None a.
Proof.
  intros [Hp Hc [Hr1 Hr2] Hl Hls Hw]. pose proof http_resp_len_bound. split; rewrite ?Hl; cbn [opened foldl].
  - exists (replicate (Z.to_nat MAX_TRACKED_FDS) 0). split_and!; [done | by rewrite length_replicate, Z2Nat.id |].
    intros fd p Hfd Hlk _. apply lookup_replicate in Hlk as [-> _]. rewrite ?Hl. split; [| lia]. split; [lia |]. by rewrite rest_0.
  - intros fd _ pre Hpre. apply prefix_nil_inv in Hpre as ->. done.
  - split; set_solver.
  - done.
  - set_solver.
  - by rewrite Hc.
  - by rewrite Hr1, Hr2.
  - intros pre ns Hpre. apply prefix_nil_inv in Hpre. by destruct pre.
Qed.

(** C21: The web server answers every request in full and in order.  For every behaviour of
    the socket layer that its contract allows (sockets that take any part of what they are
    given or nothing, that fail, that bring requests in any order), any number of iterations
    of the worker end without an access outside its tables.  On every tracked connection the
    bytes sent together with those recorded as pending are then one whole response per
    request read, and at every earlier moment, also when a connection was closed, the bytes
    sent were a prefix of those responses: none is lost, repeated or overtaken.  The counters
    are those of the run, and the core slept only when it had no connection. *)
Theorem http_streams n v (a : server S) :
  worker_ready a ->
  wp (worker_turns n v a) (fun '(_, a') =>
    (forall fd, 0 <= fd < MAX_TRACKED_FDS -> exists p, get_pending fd a' = Ret p /\ answered fd p (ap_log a') /\ in_order fd (ap_log a'))
    /\ conn_count (ap_w a') = Z.of_nat (size (opened (ap_log a')))
    /\ req_count (ap_w a') = u64 (requests (ap_log a')) /\ byte_count (ap_w a') = u64 (requests (ap_log a') * http_resp_len)
    /\ slept_idle (ap_log a')).
Proof.
  intros Hr%worker_ready_inv. eapply wp_mono; [by eapply worker_turns_spec |]. intros [v' a'] Hi. split_and!; [| apply Hi..].
  intros fd Hfd. destruct (wi_array _ _ _ _ Hi) as (P & EP & HP & Hg). destruct (lookup_in_range P fd) as [p Hp]; [lia |]. exists p.
  unfold get_pending. rewrite EP. split_and!; [by apply aget_ret; [lia |] | by apply (Hg fd p); [lia | |].. | by apply (wi_order _ _ _ _ Hi)].
Qed.
End Server.

(** ** A socket layer

    Descriptor 3 is the listener.  A socket takes the bytes there is room for; the room
    comes back when epoll is asked. *)
Record ex_net := mkNet {
  net_fds : gset Z;
  net_watched : gset Z;
  net_queue : list Z;
  net_input : list (Z * list Z);
  net_room : Z
}.

#[global] Instance ex_sockets : Sockets ex_net := {
  sys_send fd b s :=
    let n := Z.min (Z.of_nat (length b)) (net_room s) in
    if (0 <? n) then (n, 0, mkNet (net_fds s) (net_watched s) (net_queue s) (net_input s) (net_room s - n)) else (-1, EAGAIN, s);
  sys_recv fd cap s :=
    match net_input s with
    | (f, b) :: i => if (f =? fd) && (Z.of_nat (length b) <=? cap) then
                       (Z.of_nat (length b), 0, b, mkNet (net_fds s) (net_watched s) (net_queue s) i (net_room s)) else (-1, EAGAIN, [], s)
    | [] => (-1, EAGAIN, [], s)
    end;
  sys_accept4 l s :=
    match net_queue s with
    | c :: q => if bool_decide (c ∉ net_fds s) && (0 <=? c) && (Z.of_nat (length (c :: q)) <=? BACKLOG) then
                  (c, mkNet ({[c]} ∪ net_fds s) (net_watched s) q (net_input s) (net_room s)) else (-1, s)
    | [] => (-1, s)
    end;
  socket_options fd s := s;
  sys_epoll_add ep fd evs s := (0, mkNet (net_fds s) ({[fd]} ∪ net_watched s) (net_queue s) (net_input s) (net_room s));
  sys_epoll_del ep fd s := mkNet (net_fds s) (net_watched s ∖ {[fd]}) (net_queue s) (net_input s) (net_room s);
  sys_epoll_wait ep m s :=
    let fd := match net_queue s, net_input s with _ :: _, _ => 3 | [], (f, _) :: _ => f | [], [] => 3 end in
    let evs := if bool_decide (fd ∈ net_watched s) then [(fd, EPOLLIN)] else [] in
    (Z.of_nat (length evs), evs, mkNet (net_fds s) (net_watched s) (net_queue s) (net_input s) 100);
  sys_close fd s := mkNet (net_fds s ∖ {[fd]}) (net_watched s ∖ {[fd]}) (net_queue s) (net_input s) (net_room s);
  drive_stack core s := s;
  has_pcb s := false;
  queue_pkts core s := None;
  monotonic_clock s := (0, s);
  idle_sleep core ns s := s
}.

(** Descriptors are not negative. *)
Definition pos_only (X : gset Z) : gset Z := filter (fun x => 0 <= x) X.

#[global] Instance ex_sockets_ok : SocketsOk ex_net.
Proof.
  refine {| fds s := pos_only (net_fds s); watched s := net_watched s;
            backlog s := Nat.min (length (net_queue s)) (Z.to_nat BACKLOG) |}; unfold same_sets, pos_only.
  - set_solver.
  - intros s. lia.
  - intros fd b s n err s'. cbn. destruct (Z.ltb_spec 0 (Z.min (Z.of_nat (length b)) (net_room s))); intros [= <- <- <-]; cbn; (split; [done | lia]).
  - intros fd cap s r err b s'. cbn. destruct (net_input s) as [| [f b'] i]; [by intros [= <- <- <- <-] |].
    destruct (_ && _) eqn:E; intros [= <- <- <- <-]; [| done]. apply andb_true_iff in E as [_ E%Z.leb_le]. done.
  - intros l s fd s'. cbn -[Nat.min]. destruct (net_queue s) as [| c q] eqn:Eq; [by intros [= <- <-] |].
    destruct (_ && _) eqn:E; intros [= <- <-]; [| done]. apply andb_true_iff in E as [[E1%bool_decide_eq_true E2%Z.leb_le]%andb_true_iff E3%Z.leb_le].
    cbn -[Nat.min]. split; [done |]. rewrite (proj2 (Z.ltb_ge _ _)) by done. rewrite ?Eq. cbn [length] in *. split_and!; [set_solver | set_solver | lia].
  - done.
  - by intros ep fd evs s rc s' [= <- <-].
  - done.
  - intros fd s. cbn. split; [set_solver | done].
  - intros ep m s n evs s'. cbn. set (fd := match net_queue s with [] => _ | _ => _ end).
    case_bool_decide; intros [= <- <- <-]; cbn; split_and!; try done; [by apply NoDup_singleton | set_solver | by apply NoDup_nil | set_solver].
  - done.
  - done.
  - done.
Defined.

(** A client that asks for a page. *)
Definition ex_worker : worker_ctx := mkWorker 0 4 3 0 (Some (replicate (Z.to_nat MAX_TRACKED_FDS) 0)) 0 0.
Definition ex_server (request : list Z) : server ex_net := mkServer ex_worker (mkNet {[3]} {[3]} [5] [(5, request)] 0) [].
Definition ex_vars : loop_vars := mkLoop (ib_init 0) 0 0.

Lemma ex_server_ready b : worker_ready (ex_server b).
Proof. by split. Qed.

Lemma http_streams_witness :
  wp (worker_turns 3 ex_vars (ex_server (bytes_of "GET / HTTP/1.1"))) (fun '(_, a') =>
    (forall fd, 0 <= fd < MAX_TRACKED_FDS -> exists p, get_pending fd a' = Ret p /\ answered fd p (ap_log a') /\ in_order fd (ap_log a'))
    /\ conn_count (ap_w a') = Z.of_nat (size (opened (ap_log a')))
    /\ req_count (ap_w a') = u64 (requests (ap_log a')) /\ byte_count (ap_w a') = u64 (requests (ap_log a') * http_resp_len)
    /\ slept_idle (ap_log a')).
Proof. apply http_streams. apply ex_server_ready. Defined.

(** The response goes out in two parts, in two iterations. *)
Example ex_server_answers :
  wp (worker_turns 3 ex_vars (ex_server (bytes_of "GET / HTTP/1.1"))) (fun '(_, a') =>
    length (ap_log a') = 4%nat /\ conn 5 (ap_log a') = (1%nat, http_response)).
Proof. vm_compute. done. Qed.

(** A client that asks for the connection to be closed gets the part of the response that its
    socket takes at once. *)
Example ex_server_cuts :
  wp (worker_turns 2 ex_vars (ex_server (bytes_of "Connection: close"))) (fun '(_, a') =>
    last (ap_log a') = Some (SClose 5) /\ conn 5 (removelast (ap_log a')) = (1%nat, take 100 http_response) /\ 100 < http_resp_len).
Proof. vm_compute. done. Qed.

(** ** The log ring

    The console output that is served at /__log: a ring of [2 ^ k] bytes
    (CONFIG_APPHTTPREPLYMC_NETLOG_SIZE) and the number of bytes written so far. *)
Module Netlog.
Section Netlog.
Context (k : Z).

Definition MC_NETLOG_SIZE : Z := 2 ^ k.

Record netlog := mkNetlog { mc_netlog_buf : list Z; mc_netlog_w : Z }.

Fixpoint netlog_copy (b : list Z) (s : netlog) : res netlog :=
  match b with
  | [] => mret s
  | x :: b =>
      l ← aset (Some (mc_netlog_buf s)) (Z.land (mc_netlog_w s) (MC_NETLOG_SIZE - 1)) x;
      netlog_copy b (mkNetlog (default [] l) (u64 (mc_netlog_w s + 1)))
  end.
Definition mc_netlog_out (b : list Z) (s : netlog) : res (Z * netlog) :=
  s ← netlog_copy b s; mret (Z.of_nat (length b), s).

(** [n] bytes from position [i] on. *)
Fixpoint netlog_read (s : netlog) (n : nat) (i : Z) : res (list Z) :=
  match n with
  | O => mret []
  | S n => x ← aget (Some (mc_netlog_buf s)) (Z.land i (MC_NETLOG_SIZE - 1)); l ← netlog_read s n (i + 1); mret (x :: l)
  end.
Definition mc_netlog_snapshot (cap : Z) (s : netlog) : res (list Z) :=
  let w := mc_netlog_w s in
  let have := if w <? MC_NETLOG_SIZE then w else MC_NETLOG_SIZE in
  let n := if have <? cap then have else cap in
  netlog_read s (Z.to_nat n) (u64 (w - n)).

(** The lines of the log one after the other. *)
Fixpoint netlog_lines (ls : list (list Z)) (s : netlog) : res netlog :=
  match ls with
  | [] => mret s
  | b :: ls => '(_, s) ← mc_netlog_out b s; netlog_lines ls s
  end.

Hypothesis Hk : 0 <= k < 64.

(** The ring holds the last bytes of what was written. *)
Definition holds (h : list Z) (s : netlog) : Prop :=
  mc_netlog_w s = Z.of_nat (length h) /\ Z.of_nat (length (mc_netlog_buf s)) = MC_NETLOG_SIZE
  /\ forall j, 0 <= j < Z.of_nat (length h) -> Z.of_nat (length h) <= j + MC_NETLOG_SIZE ->
       mc_netlog_buf s !! Z.to_nat (j mod MC_NETLOG_SIZE) = h !! Z.to_nat j.

Lemma netlog_size : 0 < MC_NETLOG_SIZE.
Proof. unfold MC_NETLOG_SIZE. apply Z.pow_pos_nonneg; lia. Qed.

Lemma netlog_index i : Z.land i (MC_NETLOG_SIZE - 1) = i mod MC_NETLOG_SIZE.
Proof. apply land_pred_pow2. lia. Qed.

(** Two positions less than the size apart have different places. *)
Lemma netlog_places i j : 0 <= j < i -> i < j + MC_NETLOG_SIZE -> j mod MC_NETLOG_SIZE <> i mod MC_NETLOG_SIZE.
Proof.
  intros Hij Hlt E. pose proof netlog_size as Hs. assert ((i - j) mod MC_NETLOG_SIZE = 0) as E0 by (rewrite Zminus_mod, E, Z.sub_diag; apply Z.mod_0_l; lia).
  rewrite Z.mod_small in E0 by lia. lia.
Qed.

Lemma netlog_copy_spec b h s :
  holds h s -> Z.of_nat (length (h ++ b)) < 2 ^ 64 -> wp (netlog_copy b s) (fun s' => holds (h ++ b) s').
Proof.
  revert h s. induction b as [| x b IH]; intros h s Hh Hl; cbn [netlog_copy]; [apply wp_ret; by rewrite app_nil_r |].
  destruct Hh as (Hw & Hb & Hj). pose proof netlog_size as Hs. rewrite netlog_index. rewrite length_app in Hl. cbn [length] in Hl.
  pose proof (Z.mod_pos_bound (mc_netlog_w s) MC_NETLOG_SIZE Hs). apply wp_bind, wp_aset; [lia |]. cbn [from_option id].
  replace (h ++ x :: b) with ((h ++ [x]) ++ b) by (by rewrite <- (assoc_L (++))). apply IH; [| rewrite !length_app; cbn; lia].
  split_and!; cbn [mc_netlog_buf mc_netlog_w]; [rewrite u64_id, length_app by lia; cbn; lia | by rewrite length_insert |].
  rewrite length_app. cbn [length]. intros j Hj0 Hj1. rewrite zlookup_insert by (apply Z.mod_pos_bound || lia; lia).
  case_decide as E.
  - assert (j = mc_netlog_w s) as ->.
    { destruct (Z.eq_dec j (mc_netlog_w s)); [done |]. exfalso. apply (netlog_places (mc_netlog_w s) j); [lia | lia | done]. }
    rewrite Hw, Nat2Z.id, lookup_app_r, Nat.sub_diag by lia. done.
  - destruct (Z.eq_dec j (mc_netlog_w s)) as [-> | Hne]; [done |]. rewrite lookup_app_l by lia. apply Hj; lia.
Qed.

Lemma netlog_lines_spec ls h s :
  holds h s -> Z.of_nat (length (h ++ concat ls)) < 2 ^ 64 -> wp (netlog_lines ls s) (fun s' => holds (h ++ concat ls) s').
Proof.
  revert h s. induction ls as [| b ls IH]; intros h s Hh Hl; cbn [netlog_lines concat] in *; [apply wp_ret; by rewrite app_nil_r |].
  rewrite (assoc_L (++)) in *. apply wp_bind. unfold mc_netlog_out. apply wp_bind.
  eapply wp_mono; [apply (netlog_copy_spec b h); [done | rewrite length_app in Hl; lia] |]. intros s1 Hh1. by apply wp_ret, IH.
Qed.

Lemma netlog_read_spec h s n i :
  holds h s -> 0 <= i -> i + Z.of_nat n = Z.of_nat (length h) -> Z.of_nat n <= MC_NETLOG_SIZE ->
  netlog_read s n i = Ret (drop (Z.to_nat i) h).
Proof.
  intros (Hw & Hb & Hj). pose proof netlog_size as Hs. revert i. induction n as [| n IH]; intros i Hi Hn Hm; cbn [netlog_read].
  { rewrite drop_ge by lia. done. }
  rewrite netlog_index. destruct (lookup_lt_is_Some_2 h (Z.to_nat i)) as [x Hx]; [lia |].
  rewrite (aget_ret _ _ x) by (first [apply Z.mod_pos_bound; lia | rewrite Hj; [done | lia | lia]]).
  cbn [mbind res_bind]. rewrite IH by lia. cbn [mbind res_bind]. rewrite (drop_S h x (Z.to_nat i)) by done.
  replace (Z.to_nat (i + 1)) with (S (Z.to_nat i)) by lia. done.
Qed.

(** C39: The log ring shows the end of the log.  Whatever was printed, in lines of any length
    and through any number of wraps of the ring, a snapshot is the last bytes of all output,
    in order: as many as the caller, the ring and the output have. *)
Theorem netlog_snapshot_correct ls cap buf :
  let log := concat ls in
  Z.of_nat (length buf) = MC_NETLOG_SIZE -> Z.of_nat (length log) < 2 ^ 64 -> 0 <= cap ->
  wp (s ← netlog_lines ls (mkNetlog buf 0); mc_netlog_snapshot cap s)
    (fun out => out `suffix_of` log /\ Z.of_nat (length out) = Z.min cap (Z.min MC_NETLOG_SIZE (Z.of_nat (length log)))).
Proof.
  intros log Hb Hl Hc. pose proof netlog_size. apply wp_bind. eapply wp_mono; [apply (netlog_lines_spec ls []); [| done] |].
  { split_and!; [done | done |]. cbn. lia. }
  cbn [app]. fold log. intros s Hh. pose proof Hh as (Hw & _). unfold mc_netlog_snapshot. rewrite Hw.
  set (n := if _ <? cap then _ else cap). assert (n = Z.min cap (Z.min MC_NETLOG_SIZE (Z.of_nat (length log)))) as En.
  { unfold n. destruct (Z.ltb_spec (Z.of_nat (length log)) MC_NETLOG_SIZE); case_match; lia. }
  rewrite u64_id by lia. rewrite (netlog_read_spec log) by (done || lia). split; [apply suffix_drop |]. rewrite length_drop. lia.
Qed.
End Netlog.

(** A ring of four bytes that wraps. *)
Lemma netlog_snapshot_witness :
  wp (s ← netlog_lines 2 [[1; 2; 3]; [4; 5]; [6]] (mkNetlog [0; 0; 0; 0] 0); mc_netlog_snapshot 2 3 s)
    (fun out => out `suffix_of` [1; 2; 3; 4; 5; 6] /\ Z.of_nat (length out) = 3).
Proof. apply (netlog_snapshot_correct 2 ltac:(lia) [[1; 2; 3]; [4; 5]; [6]] 3 [0; 0; 0; 0]); done. Defined.
End Netlog.
